(** * HdyLeaflet: a shallow embedding of src/src/hdy-leaflet.c

    The adaptive leaflet container: the fold decision taken at size
    allocation, the mode transition (fold/unfold), the child transition
    (page switch) driven by a progress tracker or by a swipe, navigation
    between children, and the bookkeeping of the two child lists.

    Conventions of the embedding.
    - A [HdyLeafletChildInfo *] is an address into the store [infos]; a
      [GtkWidget *] is an address into the store [widgets]; NULL is [None].
      The lists [children] and [children_reversed] hold addresses, as the
      GLists of the source hold pointers.
    - gint and guint values are integers of [Z]; C leaves signed overflow
      undefined, and the model describes the executions in which sizes stay
      in range, while products taken in an unsigned type wrap as written
      out where they occur.  A gdouble is held as the rational of [Q] it
      denotes, and the arithmetic the leaflet does on doubles rounds each
      operation to binary64 as the machine does ([gdouble_round]).  The
      progress tracker and [hdy_lerp], which are modelled from the
      specification, compute in exact rationals.
    - A function that dereferences a pointer the source does not test
      returns [None] where the pointer is NULL.
    - A record that [hdy_leaflet_remove] has freed keeps its address in the
      store and holds from then on what the allocator leaves there, which
      the operation that frees it takes as an argument; no address is handed
      out twice.
    - Rendering (cairo surfaces, the shadow helper), property notifications
      and the queueing of redraws are outside the model. *)

From Stdlib Require Import ZArith QArith Qabs Qround Qpower Bool List Lia Lqa String.
From stdpp Require Import gmap list.
Import ListNotations.

Local Open Scope Z_scope.

(** ** Enumerations of GTK and of the leaflet *)

Inductive GtkOrientation := GTK_ORIENTATION_HORIZONTAL | GTK_ORIENTATION_VERTICAL.
Inductive GtkTextDirection := GTK_TEXT_DIR_NONE | GTK_TEXT_DIR_LTR | GTK_TEXT_DIR_RTL.
Inductive GtkPanDirection :=
  GTK_PAN_DIRECTION_LEFT | GTK_PAN_DIRECTION_RIGHT | GTK_PAN_DIRECTION_UP | GTK_PAN_DIRECTION_DOWN.
Inductive GtkProgressState :=
  GTK_PROGRESS_STATE_BEFORE | GTK_PROGRESS_STATE_DURING | GTK_PROGRESS_STATE_AFTER.
Inductive HdyLeafletTransitionType :=
  | HDY_LEAFLET_TRANSITION_TYPE_NONE
  | HDY_LEAFLET_TRANSITION_TYPE_SLIDE
  | HDY_LEAFLET_TRANSITION_TYPE_OVER
  | HDY_LEAFLET_TRANSITION_TYPE_UNDER.
Inductive HdyNavigationDirection := HDY_NAVIGATION_DIRECTION_BACK | HDY_NAVIGATION_DIRECTION_FORWARD.

#[global] Instance GtkOrientation_eq_dec : EqDecision GtkOrientation.
Proof. solve_decision. Defined.
#[global] Instance GtkTextDirection_eq_dec : EqDecision GtkTextDirection.
Proof. solve_decision. Defined.
#[global] Instance GtkPanDirection_eq_dec : EqDecision GtkPanDirection.
Proof. solve_decision. Defined.
#[global] Instance GtkProgressState_eq_dec : EqDecision GtkProgressState.
Proof. solve_decision. Defined.
#[global] Instance HdyLeafletTransitionType_eq_dec : EqDecision HdyLeafletTransitionType.
Proof. solve_decision. Defined.

Definition HDY_FOLD_UNFOLDED := false.
Definition HDY_FOLD_FOLDED := true.

(** ** Numbers *)

(** [(gint) d]: conversion of a double to an integer truncates toward zero. *)
Definition gint_of_gdouble (d : Q) : Z := Z.quot (Qnum d) (Zpos (Qden d)).

(** glib's [ABS (a)] is [((a) < 0) ? -(a) : (a)]. *)
Definition ABS (a : Q) : Q := if Qlt_le_dec a 0 then Qopp a else a.

Definition MAX (a b : Z) : Z := if a >? b then a else b.
Definition MIN (a b : Z) : Z := if a <? b then a else b.

(** [a == b] and [a <= b] on doubles. *)
Definition gdouble_eq (a b : Q) : bool := Qeq_bool a b.
Definition gdouble_le (a b : Q) : bool := Qle_bool a b.

(** *** Arithmetic in binary64

    A finite binary64 number is [m * 2 ^ e] with [|m| < 2 ^ 53] and
    [-1074 <= e]; an operation on doubles gives the number of that form
    nearest to the exact result, the one with even [m] when two are equally
    near, and each operation is rounded on its own.  Results beyond the
    largest double are outside the model, as integer overflow is. *)

(** The integer nearest to [q], the even one at a tie; [q] is not negative. *)
Definition round_half_even (q : Q) : Z :=
  let f := Qfloor q in
  match (q - inject_Z f ?= 1 # 2)%Q with
  | Lt => f
  | Gt => f + 1
  | Eq => if Z.even f then f else f + 1
  end.

(** The binary exponent of [a > 0]: [2 ^ e <= a < 2 ^ (e + 1)], and -1022
    for the subnormal numbers below [2 ^ -1022]. *)
Definition binary64_exponent (a : Q) : Z :=
  let e := Z.log2 (Qnum a) - Z.log2 (Zpos (Qden a)) in
  Z.max (if Qle_bool (2 ^ e) a then e else e - 1) (-1022).

Definition gdouble_round (q : Q) : Q :=
  if Qeq_bool q 0 then 0%Q else
  let ulp := (2 ^ (binary64_exponent (Qabs q) - 52))%Q in
  let r := Qred (inject_Z (round_half_even (Qabs q / ulp)) * ulp) in
  if Qle_bool 0 q then r else Qopp r.

(** [a + b], [a - b], [a * b] and [a / b] on doubles; a quotient by 0,
    which is an infinity or no number at all in C, is 0 here. *)
Definition gdouble_add (a b : Q) : Q := gdouble_round (a + b).
Definition gdouble_sub (a b : Q) : Q := gdouble_round (a - b).
Definition gdouble_mul (a b : Q) : Q := gdouble_round (a * b).
Definition gdouble_div (a b : Q) : Q := gdouble_round (a / b).

(** Modelled from the spec: [hdy_lerp] of hdy-animation.c, which is not among
    the sources.  The spec speaks of an "animated interpolation"; the callers
    pass the end value first and the start value second, so the interpolation
    runs from [b] at rate 0 to [a] at rate 1. *)
Definition hdy_lerp (a b t : Q) : Q := (a + (b - a) * (1 - t))%Q.

(** ** Geometry *)

Record GtkAllocation := mkAlloc { a_x : Z; a_y : Z; a_width : Z; a_height : Z }.
Record GtkRequisition := mkReq { r_width : Z; r_height : Z }.

Definition alloc0 : GtkAllocation := mkAlloc 0 0 0 0.
Definition req0 : GtkRequisition := mkReq 0 0.

Definition set_a_x (v : Z) (a : GtkAllocation) := mkAlloc v (a_y a) (a_width a) (a_height a).
Definition set_a_y (v : Z) (a : GtkAllocation) := mkAlloc (a_x a) v (a_width a) (a_height a).
Definition set_a_width (v : Z) (a : GtkAllocation) := mkAlloc (a_x a) (a_y a) v (a_height a).
Definition set_a_height (v : Z) (a : GtkAllocation) := mkAlloc (a_x a) (a_y a) (a_width a) v.

(** A GdkWindow, as far as the leaflet moves and resizes it. *)
Record GdkWindow := mkWindow { gw_geom : GtkAllocation; gw_shown : bool }.

(** ** The progress tracker

    Modelled from the spec: the "time-based progress tracker" of
    gtkprogresstrackerprivate.h, which is not among the sources.  It counts
    iterations of [tr_duration] microseconds from the frame times it is fed,
    and is in state AFTER when it is not running or has gone past its
    iterations. *)

Record GtkProgressTracker := mkTracker {
  is_running : bool;
  last_frame_time : Z;
  tr_duration : Z;
  iteration : Q;
  iteration_count : Q
}.

Definition tracker0 : GtkProgressTracker := mkTracker false 0 0 0 0.

Definition gtk_progress_tracker_start (duration delay : Z) (count : Q) : GtkProgressTracker :=
  mkTracker true 0 duration (Qopp (inject_Z delay / inject_Z (MAX duration 1)))%Q count.

Definition gtk_progress_tracker_finish (t : GtkProgressTracker) : GtkProgressTracker :=
  mkTracker false (last_frame_time t) (tr_duration t) (iteration t) (iteration_count t).

Definition gtk_progress_tracker_advance_frame (t : GtkProgressTracker) (frame_time : Z)
  : GtkProgressTracker :=
  if negb (is_running t) then t
  else if last_frame_time t =? 0 then
    mkTracker true frame_time (tr_duration t) (iteration t) (iteration_count t)
  else if frame_time <? last_frame_time t then t
  else
    let delta := (inject_Z (frame_time - last_frame_time t) / inject_Z (MAX (tr_duration t) 1))%Q in
    mkTracker true frame_time (tr_duration t) (iteration t + delta)%Q (iteration_count t).

Definition gtk_progress_tracker_get_state (t : GtkProgressTracker) : GtkProgressState :=
  if negb (is_running t) || negb (Qle_bool (iteration t) (iteration_count t))
  then GTK_PROGRESS_STATE_AFTER
  else if Qlt_le_dec (iteration t) 0 then GTK_PROGRESS_STATE_BEFORE
  else GTK_PROGRESS_STATE_DURING.

Definition gtk_progress_tracker_get_iteration (t : GtkProgressTracker) : Q :=
  if is_running t then
    (if Qlt_le_dec (iteration_count t) (iteration t) then iteration_count t
     else if Qlt_le_dec (iteration t) 0 then 0
     else iteration t)%Q
  else 1%Q.

Definition gtk_progress_tracker_get_iteration_cycle (t : GtkProgressTracker) : Z :=
  let i := gtk_progress_tracker_get_iteration t in
  if Qeq_bool i 0 then 0 else Qceiling i - 1.

Definition gtk_progress_tracker_get_progress (t : GtkProgressTracker) (reversed : bool) : Q :=
  let p := (gtk_progress_tracker_get_iteration t
            - inject_Z (gtk_progress_tracker_get_iteration_cycle t))%Q in
  if reversed then (1 - p)%Q else p.

Definition gtk_progress_tracker_get_ease_out_cubic (t : GtkProgressTracker) (reversed : bool) : Q :=
  let p := (gtk_progress_tracker_get_progress t reversed - 1)%Q in
  (p * p * p + 1)%Q.

(** ** Widgets and child records

    What GTK holds for a child widget and the leaflet reads or writes:
    its visibility flags, whether it has a parent, the sizes it reports to
    [gtk_widget_get_preferred_size], its expand flags and the allocation it
    last received. *)

Abbreviation info_ptr := nat (only parsing).
Abbreviation widget_ptr := nat (only parsing).

Record GtkWidget := mkWidget {
  w_visible : bool;
  w_child_visible : bool;
  w_has_parent : bool;
  w_min : GtkRequisition;
  w_nat : GtkRequisition;
  w_hexpand : bool;
  w_vexpand : bool;
  w_allocation : GtkAllocation
}.

Definition set_w_visible (v : bool) (s : GtkWidget) : GtkWidget :=
  mkWidget v (w_child_visible s) (w_has_parent s) (w_min s) (w_nat s) (w_hexpand s) (w_vexpand
    s) (w_allocation s).
Definition set_w_child_visible (v : bool) (s : GtkWidget) : GtkWidget :=
  mkWidget (w_visible s) v (w_has_parent s) (w_min s) (w_nat s) (w_hexpand s) (w_vexpand s)
    (w_allocation s).
Definition set_w_has_parent (v : bool) (s : GtkWidget) : GtkWidget :=
  mkWidget (w_visible s) (w_child_visible s) v (w_min s) (w_nat s) (w_hexpand s) (w_vexpand s)
    (w_allocation s).
Definition set_w_allocation (v : GtkAllocation) (s : GtkWidget) : GtkWidget :=
  mkWidget (w_visible s) (w_child_visible s) (w_has_parent s) (w_min s) (w_nat s) (w_hexpand s)
    (w_vexpand s) v.

Record HdyLeafletChildInfo := mkInfo {
  ci_widget : option widget_ptr;
  ci_name : option string;
  ci_allow_visible : bool;
  ci_alloc : GtkAllocation;
  ci_min : GtkRequisition;
  ci_nat : GtkRequisition;
  ci_visible : bool
}.

Definition set_ci_name (v : option string) (s : HdyLeafletChildInfo) : HdyLeafletChildInfo :=
  mkInfo (ci_widget s) v (ci_allow_visible s) (ci_alloc s) (ci_min s) (ci_nat s) (ci_visible s).
Definition set_ci_allow_visible (v : bool) (s : HdyLeafletChildInfo) : HdyLeafletChildInfo :=
  mkInfo (ci_widget s) (ci_name s) v (ci_alloc s) (ci_min s) (ci_nat s) (ci_visible s).
Definition set_ci_alloc (v : GtkAllocation) (s : HdyLeafletChildInfo) : HdyLeafletChildInfo :=
  mkInfo (ci_widget s) (ci_name s) (ci_allow_visible s) v (ci_min s) (ci_nat s) (ci_visible s).
Definition set_ci_min (v : GtkRequisition) (s : HdyLeafletChildInfo) : HdyLeafletChildInfo :=
  mkInfo (ci_widget s) (ci_name s) (ci_allow_visible s) (ci_alloc s) v (ci_nat s) (ci_visible
    s).
Definition set_ci_nat (v : GtkRequisition) (s : HdyLeafletChildInfo) : HdyLeafletChildInfo :=
  mkInfo (ci_widget s) (ci_name s) (ci_allow_visible s) (ci_alloc s) (ci_min s) v (ci_visible
    s).
Definition set_ci_visible (v : bool) (s : HdyLeafletChildInfo) : HdyLeafletChildInfo :=
  mkInfo (ci_widget s) (ci_name s) (ci_allow_visible s) (ci_alloc s) (ci_min s) (ci_nat s) v.

Definition widget0 : GtkWidget := mkWidget false false false req0 req0 false false alloc0.
Definition info0 : HdyLeafletChildInfo := mkInfo None None false alloc0 req0 req0 false.

#[global] Instance GtkWidget_inhabited : Inhabited GtkWidget := populate widget0.
#[global] Instance HdyLeafletChildInfo_inhabited : Inhabited HdyLeafletChildInfo := populate info0.

(** ** The private structure

    [mode_transition] and [child_transition] are the two anonymous structs of
    HdyLeafletPrivate; their fields carry the prefixes [mt_] and [ct_]. *)

Record ModeTransition := mkMode {
  mt_duration : Z;
  mt_current_pos : Q;
  mt_source_pos : Q;
  mt_target_pos : Q;
  mt_start_surface_allocation : GtkAllocation;
  mt_start_distance : Q;
  mt_start_progress : Q;
  mt_end_surface_allocation : GtkAllocation;
  mt_end_surface_clip : GtkAllocation;
  mt_end_distance : Q;
  mt_end_progress : Q;
  mt_tick_id : Z;
  mt_tracker : GtkProgressTracker
}.

Definition set_mt_duration (v : Z) (s : ModeTransition) : ModeTransition :=
  mkMode v (mt_current_pos s) (mt_source_pos s) (mt_target_pos s) (mt_start_surface_allocation
    s) (mt_start_distance s) (mt_start_progress s) (mt_end_surface_allocation s)
    (mt_end_surface_clip s) (mt_end_distance s) (mt_end_progress s) (mt_tick_id s) (mt_tracker
    s).
Definition set_mt_current_pos (v : Q) (s : ModeTransition) : ModeTransition :=
  mkMode (mt_duration s) v (mt_source_pos s) (mt_target_pos s) (mt_start_surface_allocation s)
    (mt_start_distance s) (mt_start_progress s) (mt_end_surface_allocation s)
    (mt_end_surface_clip s) (mt_end_distance s) (mt_end_progress s) (mt_tick_id s) (mt_tracker
    s).
Definition set_mt_source_pos (v : Q) (s : ModeTransition) : ModeTransition :=
  mkMode (mt_duration s) (mt_current_pos s) v (mt_target_pos s) (mt_start_surface_allocation s)
    (mt_start_distance s) (mt_start_progress s) (mt_end_surface_allocation s)
    (mt_end_surface_clip s) (mt_end_distance s) (mt_end_progress s) (mt_tick_id s) (mt_tracker
    s).
Definition set_mt_target_pos (v : Q) (s : ModeTransition) : ModeTransition :=
  mkMode (mt_duration s) (mt_current_pos s) (mt_source_pos s) v (mt_start_surface_allocation s)
    (mt_start_distance s) (mt_start_progress s) (mt_end_surface_allocation s)
    (mt_end_surface_clip s) (mt_end_distance s) (mt_end_progress s) (mt_tick_id s) (mt_tracker
    s).
Definition set_mt_start_surface_allocation (v : GtkAllocation) (s : ModeTransition) : ModeTransition :=
  mkMode (mt_duration s) (mt_current_pos s) (mt_source_pos s) (mt_target_pos s) v
    (mt_start_distance s) (mt_start_progress s) (mt_end_surface_allocation s)
    (mt_end_surface_clip s) (mt_end_distance s) (mt_end_progress s) (mt_tick_id s) (mt_tracker
    s).
Definition set_mt_start_distance (v : Q) (s : ModeTransition) : ModeTransition :=
  mkMode (mt_duration s) (mt_current_pos s) (mt_source_pos s) (mt_target_pos s)
    (mt_start_surface_allocation s) v (mt_start_progress s) (mt_end_surface_allocation s)
    (mt_end_surface_clip s) (mt_end_distance s) (mt_end_progress s) (mt_tick_id s) (mt_tracker
    s).
Definition set_mt_start_progress (v : Q) (s : ModeTransition) : ModeTransition :=
  mkMode (mt_duration s) (mt_current_pos s) (mt_source_pos s) (mt_target_pos s)
    (mt_start_surface_allocation s) (mt_start_distance s) v (mt_end_surface_allocation s)
    (mt_end_surface_clip s) (mt_end_distance s) (mt_end_progress s) (mt_tick_id s) (mt_tracker
    s).
Definition set_mt_end_surface_allocation (v : GtkAllocation) (s : ModeTransition) : ModeTransition :=
  mkMode (mt_duration s) (mt_current_pos s) (mt_source_pos s) (mt_target_pos s)
    (mt_start_surface_allocation s) (mt_start_distance s) (mt_start_progress s) v
    (mt_end_surface_clip s) (mt_end_distance s) (mt_end_progress s) (mt_tick_id s) (mt_tracker
    s).
Definition set_mt_end_surface_clip (v : GtkAllocation) (s : ModeTransition) : ModeTransition :=
  mkMode (mt_duration s) (mt_current_pos s) (mt_source_pos s) (mt_target_pos s)
    (mt_start_surface_allocation s) (mt_start_distance s) (mt_start_progress s)
    (mt_end_surface_allocation s) v (mt_end_distance s) (mt_end_progress s) (mt_tick_id s)
    (mt_tracker s).
Definition set_mt_end_distance (v : Q) (s : ModeTransition) : ModeTransition :=
  mkMode (mt_duration s) (mt_current_pos s) (mt_source_pos s) (mt_target_pos s)
    (mt_start_surface_allocation s) (mt_start_distance s) (mt_start_progress s)
    (mt_end_surface_allocation s) (mt_end_surface_clip s) v (mt_end_progress s) (mt_tick_id s)
    (mt_tracker s).
Definition set_mt_end_progress (v : Q) (s : ModeTransition) : ModeTransition :=
  mkMode (mt_duration s) (mt_current_pos s) (mt_source_pos s) (mt_target_pos s)
    (mt_start_surface_allocation s) (mt_start_distance s) (mt_start_progress s)
    (mt_end_surface_allocation s) (mt_end_surface_clip s) (mt_end_distance s) v (mt_tick_id s)
    (mt_tracker s).
Definition set_mt_tick_id (v : Z) (s : ModeTransition) : ModeTransition :=
  mkMode (mt_duration s) (mt_current_pos s) (mt_source_pos s) (mt_target_pos s)
    (mt_start_surface_allocation s) (mt_start_distance s) (mt_start_progress s)
    (mt_end_surface_allocation s) (mt_end_surface_clip s) (mt_end_distance s) (mt_end_progress
    s) v (mt_tracker s).
Definition set_mt_tracker (v : GtkProgressTracker) (s : ModeTransition) : ModeTransition :=
  mkMode (mt_duration s) (mt_current_pos s) (mt_source_pos s) (mt_target_pos s)
    (mt_start_surface_allocation s) (mt_start_distance s) (mt_start_progress s)
    (mt_end_surface_allocation s) (mt_end_surface_clip s) (mt_end_distance s) (mt_end_progress
    s) (mt_tick_id s) v.

Record ChildTransition := mkChild {
  ct_duration : Z;
  ct_progress : Q;
  ct_start_progress : Q;
  ct_end_progress : Q;
  ct_is_gesture_active : bool;
  ct_is_cancelled : bool;
  ct_tick_id : Z;
  ct_tracker : GtkProgressTracker;
  ct_first_frame_skipped : bool;
  ct_last_visible_widget_width : Z;
  ct_last_visible_widget_height : Z;
  ct_interpolate_size : bool;
  ct_can_swipe_back : bool;
  ct_can_swipe_forward : bool;
  ct_active_type : HdyLeafletTransitionType;
  ct_active_direction : GtkPanDirection
}.

Definition set_ct_duration (v : Z) (s : ChildTransition) : ChildTransition :=
  mkChild v (ct_progress s) (ct_start_progress s) (ct_end_progress s) (ct_is_gesture_active s)
    (ct_is_cancelled s) (ct_tick_id s) (ct_tracker s) (ct_first_frame_skipped s)
    (ct_last_visible_widget_width s) (ct_last_visible_widget_height s) (ct_interpolate_size s)
    (ct_can_swipe_back s) (ct_can_swipe_forward s) (ct_active_type s) (ct_active_direction s).
Definition set_ct_progress (v : Q) (s : ChildTransition) : ChildTransition :=
  mkChild (ct_duration s) v (ct_start_progress s) (ct_end_progress s) (ct_is_gesture_active s)
    (ct_is_cancelled s) (ct_tick_id s) (ct_tracker s) (ct_first_frame_skipped s)
    (ct_last_visible_widget_width s) (ct_last_visible_widget_height s) (ct_interpolate_size s)
    (ct_can_swipe_back s) (ct_can_swipe_forward s) (ct_active_type s) (ct_active_direction s).
Definition set_ct_start_progress (v : Q) (s : ChildTransition) : ChildTransition :=
  mkChild (ct_duration s) (ct_progress s) v (ct_end_progress s) (ct_is_gesture_active s)
    (ct_is_cancelled s) (ct_tick_id s) (ct_tracker s) (ct_first_frame_skipped s)
    (ct_last_visible_widget_width s) (ct_last_visible_widget_height s) (ct_interpolate_size s)
    (ct_can_swipe_back s) (ct_can_swipe_forward s) (ct_active_type s) (ct_active_direction s).
Definition set_ct_end_progress (v : Q) (s : ChildTransition) : ChildTransition :=
  mkChild (ct_duration s) (ct_progress s) (ct_start_progress s) v (ct_is_gesture_active s)
    (ct_is_cancelled s) (ct_tick_id s) (ct_tracker s) (ct_first_frame_skipped s)
    (ct_last_visible_widget_width s) (ct_last_visible_widget_height s) (ct_interpolate_size s)
    (ct_can_swipe_back s) (ct_can_swipe_forward s) (ct_active_type s) (ct_active_direction s).
Definition set_ct_is_gesture_active (v : bool) (s : ChildTransition) : ChildTransition :=
  mkChild (ct_duration s) (ct_progress s) (ct_start_progress s) (ct_end_progress s) v
    (ct_is_cancelled s) (ct_tick_id s) (ct_tracker s) (ct_first_frame_skipped s)
    (ct_last_visible_widget_width s) (ct_last_visible_widget_height s) (ct_interpolate_size s)
    (ct_can_swipe_back s) (ct_can_swipe_forward s) (ct_active_type s) (ct_active_direction s).
Definition set_ct_is_cancelled (v : bool) (s : ChildTransition) : ChildTransition :=
  mkChild (ct_duration s) (ct_progress s) (ct_start_progress s) (ct_end_progress s)
    (ct_is_gesture_active s) v (ct_tick_id s) (ct_tracker s) (ct_first_frame_skipped s)
    (ct_last_visible_widget_width s) (ct_last_visible_widget_height s) (ct_interpolate_size s)
    (ct_can_swipe_back s) (ct_can_swipe_forward s) (ct_active_type s) (ct_active_direction s).
Definition set_ct_tick_id (v : Z) (s : ChildTransition) : ChildTransition :=
  mkChild (ct_duration s) (ct_progress s) (ct_start_progress s) (ct_end_progress s)
    (ct_is_gesture_active s) (ct_is_cancelled s) v (ct_tracker s) (ct_first_frame_skipped s)
    (ct_last_visible_widget_width s) (ct_last_visible_widget_height s) (ct_interpolate_size s)
    (ct_can_swipe_back s) (ct_can_swipe_forward s) (ct_active_type s) (ct_active_direction s).
Definition set_ct_tracker (v : GtkProgressTracker) (s : ChildTransition) : ChildTransition :=
  mkChild (ct_duration s) (ct_progress s) (ct_start_progress s) (ct_end_progress s)
    (ct_is_gesture_active s) (ct_is_cancelled s) (ct_tick_id s) v (ct_first_frame_skipped s)
    (ct_last_visible_widget_width s) (ct_last_visible_widget_height s) (ct_interpolate_size s)
    (ct_can_swipe_back s) (ct_can_swipe_forward s) (ct_active_type s) (ct_active_direction s).
Definition set_ct_first_frame_skipped (v : bool) (s : ChildTransition) : ChildTransition :=
  mkChild (ct_duration s) (ct_progress s) (ct_start_progress s) (ct_end_progress s)
    (ct_is_gesture_active s) (ct_is_cancelled s) (ct_tick_id s) (ct_tracker s) v
    (ct_last_visible_widget_width s) (ct_last_visible_widget_height s) (ct_interpolate_size s)
    (ct_can_swipe_back s) (ct_can_swipe_forward s) (ct_active_type s) (ct_active_direction s).
Definition set_ct_last_visible_widget_width (v : Z) (s : ChildTransition) : ChildTransition :=
  mkChild (ct_duration s) (ct_progress s) (ct_start_progress s) (ct_end_progress s)
    (ct_is_gesture_active s) (ct_is_cancelled s) (ct_tick_id s) (ct_tracker s)
    (ct_first_frame_skipped s) v (ct_last_visible_widget_height s) (ct_interpolate_size s)
    (ct_can_swipe_back s) (ct_can_swipe_forward s) (ct_active_type s) (ct_active_direction s).
Definition set_ct_last_visible_widget_height (v : Z) (s : ChildTransition) : ChildTransition :=
  mkChild (ct_duration s) (ct_progress s) (ct_start_progress s) (ct_end_progress s)
    (ct_is_gesture_active s) (ct_is_cancelled s) (ct_tick_id s) (ct_tracker s)
    (ct_first_frame_skipped s) (ct_last_visible_widget_width s) v (ct_interpolate_size s)
    (ct_can_swipe_back s) (ct_can_swipe_forward s) (ct_active_type s) (ct_active_direction s).
Definition set_ct_interpolate_size (v : bool) (s : ChildTransition) : ChildTransition :=
  mkChild (ct_duration s) (ct_progress s) (ct_start_progress s) (ct_end_progress s)
    (ct_is_gesture_active s) (ct_is_cancelled s) (ct_tick_id s) (ct_tracker s)
    (ct_first_frame_skipped s) (ct_last_visible_widget_width s) (ct_last_visible_widget_height
    s) v (ct_can_swipe_back s) (ct_can_swipe_forward s) (ct_active_type s) (ct_active_direction
    s).
Definition set_ct_can_swipe_back (v : bool) (s : ChildTransition) : ChildTransition :=
  mkChild (ct_duration s) (ct_progress s) (ct_start_progress s) (ct_end_progress s)
    (ct_is_gesture_active s) (ct_is_cancelled s) (ct_tick_id s) (ct_tracker s)
    (ct_first_frame_skipped s) (ct_last_visible_widget_width s) (ct_last_visible_widget_height
    s) (ct_interpolate_size s) v (ct_can_swipe_forward s) (ct_active_type s)
    (ct_active_direction s).
Definition set_ct_can_swipe_forward (v : bool) (s : ChildTransition) : ChildTransition :=
  mkChild (ct_duration s) (ct_progress s) (ct_start_progress s) (ct_end_progress s)
    (ct_is_gesture_active s) (ct_is_cancelled s) (ct_tick_id s) (ct_tracker s)
    (ct_first_frame_skipped s) (ct_last_visible_widget_width s) (ct_last_visible_widget_height
    s) (ct_interpolate_size s) (ct_can_swipe_back s) v (ct_active_type s) (ct_active_direction
    s).
Definition set_ct_active_type (v : HdyLeafletTransitionType) (s : ChildTransition) : ChildTransition :=
  mkChild (ct_duration s) (ct_progress s) (ct_start_progress s) (ct_end_progress s)
    (ct_is_gesture_active s) (ct_is_cancelled s) (ct_tick_id s) (ct_tracker s)
    (ct_first_frame_skipped s) (ct_last_visible_widget_width s) (ct_last_visible_widget_height
    s) (ct_interpolate_size s) (ct_can_swipe_back s) (ct_can_swipe_forward s) v
    (ct_active_direction s).
Definition set_ct_active_direction (v : GtkPanDirection) (s : ChildTransition) : ChildTransition :=
  mkChild (ct_duration s) (ct_progress s) (ct_start_progress s) (ct_end_progress s)
    (ct_is_gesture_active s) (ct_is_cancelled s) (ct_tick_id s) (ct_tracker s)
    (ct_first_frame_skipped s) (ct_last_visible_widget_width s) (ct_last_visible_widget_height
    s) (ct_interpolate_size s) (ct_can_swipe_back s) (ct_can_swipe_forward s) (ct_active_type s)
    v.

(** The two tick callbacks the leaflet registers with GTK. *)
Inductive TickCallback := CHILD_TRANSITION_CB | MODE_TRANSITION_CB.

#[global] Instance TickCallback_eq_dec : EqDecision TickCallback.
Proof. solve_decision. Defined.

(** The leaflet: the fields of HdyLeafletPrivate, the store of child records
    with its allocator, and the state GTK keeps for the leaflet widget itself
    (the registered tick callbacks, the mapped, visible and realized flags,
    the text direction, the animation setting, the allocation). *)

Record Leaflet := mkLeaflet {
  children : list info_ptr;
  children_reversed : list info_ptr;
  visible_child : option info_ptr;
  last_visible_child : option info_ptr;
  bin_window : option GdkWindow;
  view_window : option GdkWindow;
  folded : bool;
  homogeneous : bool -> GtkOrientation -> bool;
  orientation : GtkOrientation;
  move_bin_window_request : bool;
  transition_type : HdyLeafletTransitionType;
  tracker_enabled : bool;
  mode_transition : ModeTransition;
  child_transition : ChildTransition;
  infos : gmap info_ptr HdyLeafletChildInfo;
  next_info : info_ptr;
  widgets : gmap widget_ptr GtkWidget;
  ticks : list (Z * TickCallback);
  next_tick : Z;
  self_mapped : bool;
  self_visible : bool;
  self_realized : bool;
  self_direction : GtkTextDirection;
  enable_animations : bool;
  in_destruction : bool;
  self_allocation : GtkAllocation
}.

Definition with_children (v : list info_ptr) (s : Leaflet) : Leaflet :=
  mkLeaflet v (children_reversed s) (visible_child s) (last_visible_child s) (bin_window s)
    (view_window s) (folded s) (homogeneous s) (orientation s) (move_bin_window_request s)
    (transition_type s) (tracker_enabled s) (mode_transition s) (child_transition s) (infos s)
    (next_info s) (widgets s) (ticks s) (next_tick s) (self_mapped s) (self_visible s)
    (self_realized s) (self_direction s) (enable_animations s) (in_destruction s)
    (self_allocation s).
Definition with_children_reversed (v : list info_ptr) (s : Leaflet) : Leaflet :=
  mkLeaflet (children s) v (visible_child s) (last_visible_child s) (bin_window s) (view_window
    s) (folded s) (homogeneous s) (orientation s) (move_bin_window_request s) (transition_type
    s) (tracker_enabled s) (mode_transition s) (child_transition s) (infos s) (next_info s)
    (widgets s) (ticks s) (next_tick s) (self_mapped s) (self_visible s) (self_realized s)
    (self_direction s) (enable_animations s) (in_destruction s) (self_allocation s).
Definition with_visible_child (v : option info_ptr) (s : Leaflet) : Leaflet :=
  mkLeaflet (children s) (children_reversed s) v (last_visible_child s) (bin_window s)
    (view_window s) (folded s) (homogeneous s) (orientation s) (move_bin_window_request s)
    (transition_type s) (tracker_enabled s) (mode_transition s) (child_transition s) (infos s)
    (next_info s) (widgets s) (ticks s) (next_tick s) (self_mapped s) (self_visible s)
    (self_realized s) (self_direction s) (enable_animations s) (in_destruction s)
    (self_allocation s).
Definition with_last_visible_child (v : option info_ptr) (s : Leaflet) : Leaflet :=
  mkLeaflet (children s) (children_reversed s) (visible_child s) v (bin_window s) (view_window
    s) (folded s) (homogeneous s) (orientation s) (move_bin_window_request s) (transition_type
    s) (tracker_enabled s) (mode_transition s) (child_transition s) (infos s) (next_info s)
    (widgets s) (ticks s) (next_tick s) (self_mapped s) (self_visible s) (self_realized s)
    (self_direction s) (enable_animations s) (in_destruction s) (self_allocation s).
Definition with_bin_window (v : option GdkWindow) (s : Leaflet) : Leaflet :=
  mkLeaflet (children s) (children_reversed s) (visible_child s) (last_visible_child s) v
    (view_window s) (folded s) (homogeneous s) (orientation s) (move_bin_window_request s)
    (transition_type s) (tracker_enabled s) (mode_transition s) (child_transition s) (infos s)
    (next_info s) (widgets s) (ticks s) (next_tick s) (self_mapped s) (self_visible s)
    (self_realized s) (self_direction s) (enable_animations s) (in_destruction s)
    (self_allocation s).
Definition with_view_window (v : option GdkWindow) (s : Leaflet) : Leaflet :=
  mkLeaflet (children s) (children_reversed s) (visible_child s) (last_visible_child s)
    (bin_window s) v (folded s) (homogeneous s) (orientation s) (move_bin_window_request s)
    (transition_type s) (tracker_enabled s) (mode_transition s) (child_transition s) (infos s)
    (next_info s) (widgets s) (ticks s) (next_tick s) (self_mapped s) (self_visible s)
    (self_realized s) (self_direction s) (enable_animations s) (in_destruction s)
    (self_allocation s).
Definition with_folded (v : bool) (s : Leaflet) : Leaflet :=
  mkLeaflet (children s) (children_reversed s) (visible_child s) (last_visible_child s)
    (bin_window s) (view_window s) v (homogeneous s) (orientation s) (move_bin_window_request s)
    (transition_type s) (tracker_enabled s) (mode_transition s) (child_transition s) (infos s)
    (next_info s) (widgets s) (ticks s) (next_tick s) (self_mapped s) (self_visible s)
    (self_realized s) (self_direction s) (enable_animations s) (in_destruction s)
    (self_allocation s).
Definition with_homogeneous (v : bool -> GtkOrientation -> bool) (s : Leaflet) : Leaflet :=
  mkLeaflet (children s) (children_reversed s) (visible_child s) (last_visible_child s)
    (bin_window s) (view_window s) (folded s) v (orientation s) (move_bin_window_request s)
    (transition_type s) (tracker_enabled s) (mode_transition s) (child_transition s) (infos s)
    (next_info s) (widgets s) (ticks s) (next_tick s) (self_mapped s) (self_visible s)
    (self_realized s) (self_direction s) (enable_animations s) (in_destruction s)
    (self_allocation s).
Definition with_orientation (v : GtkOrientation) (s : Leaflet) : Leaflet :=
  mkLeaflet (children s) (children_reversed s) (visible_child s) (last_visible_child s)
    (bin_window s) (view_window s) (folded s) (homogeneous s) v (move_bin_window_request s)
    (transition_type s) (tracker_enabled s) (mode_transition s) (child_transition s) (infos s)
    (next_info s) (widgets s) (ticks s) (next_tick s) (self_mapped s) (self_visible s)
    (self_realized s) (self_direction s) (enable_animations s) (in_destruction s)
    (self_allocation s).
Definition with_move_bin_window_request (v : bool) (s : Leaflet) : Leaflet :=
  mkLeaflet (children s) (children_reversed s) (visible_child s) (last_visible_child s)
    (bin_window s) (view_window s) (folded s) (homogeneous s) (orientation s) v (transition_type
    s) (tracker_enabled s) (mode_transition s) (child_transition s) (infos s) (next_info s)
    (widgets s) (ticks s) (next_tick s) (self_mapped s) (self_visible s) (self_realized s)
    (self_direction s) (enable_animations s) (in_destruction s) (self_allocation s).
Definition with_transition_type (v : HdyLeafletTransitionType) (s : Leaflet) : Leaflet :=
  mkLeaflet (children s) (children_reversed s) (visible_child s) (last_visible_child s)
    (bin_window s) (view_window s) (folded s) (homogeneous s) (orientation s)
    (move_bin_window_request s) v (tracker_enabled s) (mode_transition s) (child_transition s)
    (infos s) (next_info s) (widgets s) (ticks s) (next_tick s) (self_mapped s) (self_visible s)
    (self_realized s) (self_direction s) (enable_animations s) (in_destruction s)
    (self_allocation s).
Definition with_tracker_enabled (v : bool) (s : Leaflet) : Leaflet :=
  mkLeaflet (children s) (children_reversed s) (visible_child s) (last_visible_child s)
    (bin_window s) (view_window s) (folded s) (homogeneous s) (orientation s)
    (move_bin_window_request s) (transition_type s) v (mode_transition s) (child_transition s)
    (infos s) (next_info s) (widgets s) (ticks s) (next_tick s) (self_mapped s) (self_visible s)
    (self_realized s) (self_direction s) (enable_animations s) (in_destruction s)
    (self_allocation s).
Definition with_mode_transition (v : ModeTransition) (s : Leaflet) : Leaflet :=
  mkLeaflet (children s) (children_reversed s) (visible_child s) (last_visible_child s)
    (bin_window s) (view_window s) (folded s) (homogeneous s) (orientation s)
    (move_bin_window_request s) (transition_type s) (tracker_enabled s) v (child_transition s)
    (infos s) (next_info s) (widgets s) (ticks s) (next_tick s) (self_mapped s) (self_visible s)
    (self_realized s) (self_direction s) (enable_animations s) (in_destruction s)
    (self_allocation s).
Definition with_child_transition (v : ChildTransition) (s : Leaflet) : Leaflet :=
  mkLeaflet (children s) (children_reversed s) (visible_child s) (last_visible_child s)
    (bin_window s) (view_window s) (folded s) (homogeneous s) (orientation s)
    (move_bin_window_request s) (transition_type s) (tracker_enabled s) (mode_transition s) v
    (infos s) (next_info s) (widgets s) (ticks s) (next_tick s) (self_mapped s) (self_visible s)
    (self_realized s) (self_direction s) (enable_animations s) (in_destruction s)
    (self_allocation s).
Definition with_infos (v : gmap info_ptr HdyLeafletChildInfo) (s : Leaflet) : Leaflet :=
  mkLeaflet (children s) (children_reversed s) (visible_child s) (last_visible_child s)
    (bin_window s) (view_window s) (folded s) (homogeneous s) (orientation s)
    (move_bin_window_request s) (transition_type s) (tracker_enabled s) (mode_transition s)
    (child_transition s) v (next_info s) (widgets s) (ticks s) (next_tick s) (self_mapped s)
    (self_visible s) (self_realized s) (self_direction s) (enable_animations s) (in_destruction
    s) (self_allocation s).
Definition with_next_info (v : info_ptr) (s : Leaflet) : Leaflet :=
  mkLeaflet (children s) (children_reversed s) (visible_child s) (last_visible_child s)
    (bin_window s) (view_window s) (folded s) (homogeneous s) (orientation s)
    (move_bin_window_request s) (transition_type s) (tracker_enabled s) (mode_transition s)
    (child_transition s) (infos s) v (widgets s) (ticks s) (next_tick s) (self_mapped s)
    (self_visible s) (self_realized s) (self_direction s) (enable_animations s) (in_destruction
    s) (self_allocation s).
Definition with_widgets (v : gmap widget_ptr GtkWidget) (s : Leaflet) : Leaflet :=
  mkLeaflet (children s) (children_reversed s) (visible_child s) (last_visible_child s)
    (bin_window s) (view_window s) (folded s) (homogeneous s) (orientation s)
    (move_bin_window_request s) (transition_type s) (tracker_enabled s) (mode_transition s)
    (child_transition s) (infos s) (next_info s) v (ticks s) (next_tick s) (self_mapped s)
    (self_visible s) (self_realized s) (self_direction s) (enable_animations s) (in_destruction
    s) (self_allocation s).
Definition with_ticks (v : list (Z * TickCallback)) (s : Leaflet) : Leaflet :=
  mkLeaflet (children s) (children_reversed s) (visible_child s) (last_visible_child s)
    (bin_window s) (view_window s) (folded s) (homogeneous s) (orientation s)
    (move_bin_window_request s) (transition_type s) (tracker_enabled s) (mode_transition s)
    (child_transition s) (infos s) (next_info s) (widgets s) v (next_tick s) (self_mapped s)
    (self_visible s) (self_realized s) (self_direction s) (enable_animations s) (in_destruction
    s) (self_allocation s).
Definition with_next_tick (v : Z) (s : Leaflet) : Leaflet :=
  mkLeaflet (children s) (children_reversed s) (visible_child s) (last_visible_child s)
    (bin_window s) (view_window s) (folded s) (homogeneous s) (orientation s)
    (move_bin_window_request s) (transition_type s) (tracker_enabled s) (mode_transition s)
    (child_transition s) (infos s) (next_info s) (widgets s) (ticks s) v (self_mapped s)
    (self_visible s) (self_realized s) (self_direction s) (enable_animations s) (in_destruction
    s) (self_allocation s).
Definition with_self_mapped (v : bool) (s : Leaflet) : Leaflet :=
  mkLeaflet (children s) (children_reversed s) (visible_child s) (last_visible_child s)
    (bin_window s) (view_window s) (folded s) (homogeneous s) (orientation s)
    (move_bin_window_request s) (transition_type s) (tracker_enabled s) (mode_transition s)
    (child_transition s) (infos s) (next_info s) (widgets s) (ticks s) (next_tick s) v
    (self_visible s) (self_realized s) (self_direction s) (enable_animations s) (in_destruction
    s) (self_allocation s).
Definition with_self_visible (v : bool) (s : Leaflet) : Leaflet :=
  mkLeaflet (children s) (children_reversed s) (visible_child s) (last_visible_child s)
    (bin_window s) (view_window s) (folded s) (homogeneous s) (orientation s)
    (move_bin_window_request s) (transition_type s) (tracker_enabled s) (mode_transition s)
    (child_transition s) (infos s) (next_info s) (widgets s) (ticks s) (next_tick s)
    (self_mapped s) v (self_realized s) (self_direction s) (enable_animations s) (in_destruction
    s) (self_allocation s).
Definition with_self_realized (v : bool) (s : Leaflet) : Leaflet :=
  mkLeaflet (children s) (children_reversed s) (visible_child s) (last_visible_child s)
    (bin_window s) (view_window s) (folded s) (homogeneous s) (orientation s)
    (move_bin_window_request s) (transition_type s) (tracker_enabled s) (mode_transition s)
    (child_transition s) (infos s) (next_info s) (widgets s) (ticks s) (next_tick s)
    (self_mapped s) (self_visible s) v (self_direction s) (enable_animations s) (in_destruction
    s) (self_allocation s).
Definition with_self_direction (v : GtkTextDirection) (s : Leaflet) : Leaflet :=
  mkLeaflet (children s) (children_reversed s) (visible_child s) (last_visible_child s)
    (bin_window s) (view_window s) (folded s) (homogeneous s) (orientation s)
    (move_bin_window_request s) (transition_type s) (tracker_enabled s) (mode_transition s)
    (child_transition s) (infos s) (next_info s) (widgets s) (ticks s) (next_tick s)
    (self_mapped s) (self_visible s) (self_realized s) v (enable_animations s) (in_destruction
    s) (self_allocation s).
Definition with_enable_animations (v : bool) (s : Leaflet) : Leaflet :=
  mkLeaflet (children s) (children_reversed s) (visible_child s) (last_visible_child s)
    (bin_window s) (view_window s) (folded s) (homogeneous s) (orientation s)
    (move_bin_window_request s) (transition_type s) (tracker_enabled s) (mode_transition s)
    (child_transition s) (infos s) (next_info s) (widgets s) (ticks s) (next_tick s)
    (self_mapped s) (self_visible s) (self_realized s) (self_direction s) v (in_destruction s)
    (self_allocation s).
Definition with_in_destruction (v : bool) (s : Leaflet) : Leaflet :=
  mkLeaflet (children s) (children_reversed s) (visible_child s) (last_visible_child s)
    (bin_window s) (view_window s) (folded s) (homogeneous s) (orientation s)
    (move_bin_window_request s) (transition_type s) (tracker_enabled s) (mode_transition s)
    (child_transition s) (infos s) (next_info s) (widgets s) (ticks s) (next_tick s)
    (self_mapped s) (self_visible s) (self_realized s) (self_direction s) (enable_animations s)
    v (self_allocation s).
Definition with_self_allocation (v : GtkAllocation) (s : Leaflet) : Leaflet :=
  mkLeaflet (children s) (children_reversed s) (visible_child s) (last_visible_child s)
    (bin_window s) (view_window s) (folded s) (homogeneous s) (orientation s)
    (move_bin_window_request s) (transition_type s) (tracker_enabled s) (mode_transition s)
    (child_transition s) (infos s) (next_info s) (widgets s) (ticks s) (next_tick s)
    (self_mapped s) (self_visible s) (self_realized s) (self_direction s) (enable_animations s)
    (in_destruction s) v.


(** ** GTK and GLib primitives *)

Definition deref (s : Leaflet) (p : info_ptr) : HdyLeafletChildInfo := infos s !!! p.

Definition update_info (p : info_ptr) (f : HdyLeafletChildInfo -> HdyLeafletChildInfo)
    (s : Leaflet) : Leaflet :=
  with_infos (<[p := f (infos s !!! p)]> (infos s)) s.

Definition update_widget (w : option widget_ptr) (f : GtkWidget -> GtkWidget)
    (s : Leaflet) : Leaflet :=
  match w with
  | Some a => with_widgets (<[a := f (widgets s !!! a)]> (widgets s)) s
  | None => s
  end.

Definition gtk_widget_get_visible (s : Leaflet) (w : option widget_ptr) : bool :=
  match w with Some a => w_visible (widgets s !!! a) | None => false end.

Definition gtk_widget_get_child_visible (s : Leaflet) (w : option widget_ptr) : bool :=
  match w with Some a => w_child_visible (widgets s !!! a) | None => false end.

Definition gtk_widget_set_child_visible (w : option widget_ptr) (b : bool) (s : Leaflet) : Leaflet :=
  update_widget w (set_w_child_visible b) s.

Definition gtk_widget_compute_expand (s : Leaflet) (w : option widget_ptr) (o : GtkOrientation) : bool :=
  match w with
  | Some a =>
      match o with
      | GTK_ORIENTATION_HORIZONTAL => w_hexpand (widgets s !!! a)
      | GTK_ORIENTATION_VERTICAL => w_vexpand (widgets s !!! a)
      end
  | None => false
  end.

Definition gtk_widget_size_allocate (w : option widget_ptr) (a : GtkAllocation) (s : Leaflet) : Leaflet :=
  update_widget w (set_w_allocation a) s.

Definition gtk_widget_show (w : option widget_ptr) (s : Leaflet) : Leaflet :=
  update_widget w (set_w_visible true) s.

(** [gtk_widget_add_tick_callback] hands out the next identifier, which is
    never 0, and registers the callback under it. *)
Definition gtk_widget_add_tick_callback (cb : TickCallback) (s : Leaflet) : Z * Leaflet :=
  let id := next_tick s + 1 in
  (id, with_next_tick id (with_ticks (ticks s ++ [(id, cb)]) s)).

Definition gtk_widget_remove_tick_callback (id : Z) (s : Leaflet) : Leaflet :=
  with_ticks (List.filter (fun e => negb (fst e =? id)) (ticks s)) s.

Definition is_nonnull {A} (p : option A) : bool := match p with Some _ => true | None => false end.

Definition ptr_eqb (p q : option nat) : bool := bool_decide (p = q).

(** [g_list_find]: the list cut at the first cell holding [p], as the cells
    before it and the cells after it; [None] when no cell holds [p]. *)
Fixpoint g_list_find (l : list info_ptr) (p : info_ptr) : option (list info_ptr * list info_ptr) :=
  match l with
  | [] => None
  | x :: rest =>
      if Nat.eqb x p then Some ([], rest)
      else match g_list_find rest p with
           | Some (before, after) => Some (x :: before, after)
           | None => None
           end
  end.

(** [g_list_remove]: drops the first cell holding [p]. *)
Fixpoint g_list_remove (l : list info_ptr) (p : info_ptr) : list info_ptr :=
  match l with
  | [] => []
  | x :: rest => if Nat.eqb x p then rest else x :: g_list_remove rest p
  end.

Definition g_list_append (l : list info_ptr) (p : info_ptr) : list info_ptr := l ++ [p].
Definition g_list_prepend (l : list info_ptr) (p : info_ptr) : list info_ptr := p :: l.
Definition g_list_copy (l : list info_ptr) : list info_ptr := l.
Definition g_list_reverse (l : list info_ptr) : list info_ptr := rev l.

(** [g_list_nth_data] with a guint index: NULL past the end. *)
Definition g_list_nth_data (l : list info_ptr) (n : Z) : option info_ptr :=
  if n <? 0 then None else nth_error l (Z.to_nat n).

(** [g_list_index] on a list of widget pointers: -1 when absent. *)
Fixpoint g_list_index (l : list (option widget_ptr)) (w : option widget_ptr) : Z :=
  match l with
  | [] => -1
  | x :: rest =>
      if ptr_eqb x w then 0
      else let i := g_list_index rest w in if i <? 0 then -1 else i + 1
  end.

(** ** Lookups *)

Definition find_child_info_for_widget (s : Leaflet) (w : option widget_ptr) : option info_ptr :=
  List.find (fun p => ptr_eqb (ci_widget (deref s p)) w) (children s).

Definition find_child_info_for_name (s : Leaflet) (n : option string) : option info_ptr :=
  List.find (fun p => bool_decide (ci_name (deref s p) = n)) (children s).

Definition get_directed_children (s : Leaflet) : list info_ptr :=
  if bool_decide (orientation s = GTK_ORIENTATION_HORIZONTAL)
     && bool_decide (self_direction s = GTK_TEXT_DIR_RTL)
  then children_reversed s else children s.

Definition hdy_leaflet_get_visible_child (s : Leaflet) : option widget_ptr :=
  match visible_child s with
  | None => None
  | Some p => ci_widget (deref s p)
  end.

(** ** The bin window *)

Definition upd_ct (f : ChildTransition -> ChildTransition) (s : Leaflet) : Leaflet :=
  with_child_transition (f (child_transition s)) s.
Definition upd_mt (f : ModeTransition -> ModeTransition) (s : Leaflet) : Leaflet :=
  with_mode_transition (f (mode_transition s)) s.

Definition child_tracker_state (s : Leaflet) : GtkProgressState :=
  gtk_progress_tracker_get_state (ct_tracker (child_transition s)).
Definition mode_tracker_state (s : Leaflet) : GtkProgressState :=
  gtk_progress_tracker_get_state (mt_tracker (mode_transition s)).

Definition is_window_moving_child_transition (s : Leaflet) : bool :=
  let direction := ct_active_direction (child_transition s) in
  let is_rtl := bool_decide (self_direction s = GTK_TEXT_DIR_RTL) in
  let left_or_right := if is_rtl then GTK_PAN_DIRECTION_RIGHT else GTK_PAN_DIRECTION_LEFT in
  let right_or_left := if is_rtl then GTK_PAN_DIRECTION_LEFT else GTK_PAN_DIRECTION_RIGHT in
  match ct_active_type (child_transition s) with
  | HDY_LEAFLET_TRANSITION_TYPE_NONE => false
  | HDY_LEAFLET_TRANSITION_TYPE_SLIDE => true
  | HDY_LEAFLET_TRANSITION_TYPE_OVER =>
      bool_decide (direction = GTK_PAN_DIRECTION_UP) || bool_decide (direction = left_or_right)
  | HDY_LEAFLET_TRANSITION_TYPE_UNDER =>
      bool_decide (direction = GTK_PAN_DIRECTION_DOWN) || bool_decide (direction = right_or_left)
  end.

Definition is_direction_dependent_child_transition (t : HdyLeafletTransitionType) : bool :=
  bool_decide (t = HDY_LEAFLET_TRANSITION_TYPE_SLIDE)
  || bool_decide (t = HDY_LEAFLET_TRANSITION_TYPE_OVER)
  || bool_decide (t = HDY_LEAFLET_TRANSITION_TYPE_UNDER).

Definition get_pan_direction (s : Leaflet) (new_child_first : bool) : GtkPanDirection :=
  match orientation s with
  | GTK_ORIENTATION_HORIZONTAL =>
      if bool_decide (self_direction s = GTK_TEXT_DIR_RTL)
      then (if new_child_first then GTK_PAN_DIRECTION_LEFT else GTK_PAN_DIRECTION_RIGHT)
      else (if new_child_first then GTK_PAN_DIRECTION_RIGHT else GTK_PAN_DIRECTION_LEFT)
  | GTK_ORIENTATION_VERTICAL =>
      if new_child_first then GTK_PAN_DIRECTION_DOWN else GTK_PAN_DIRECTION_UP
  end.

Definition child_transition_live (s : Leaflet) : bool :=
  ct_is_gesture_active (child_transition s)
  || negb (bool_decide (child_tracker_state s = GTK_PROGRESS_STATE_AFTER)).

(** [get_bin_window_x]: [allocation->width * (1 - progress)] converts the
    width to a double, subtracts and multiplies in double, and the assignment
    to the [int] truncates. *)
Definition get_bin_window_x (s : Leaflet) (allocation : GtkAllocation) : Z :=
  let rest := gdouble_sub 1 (ct_progress (child_transition s)) in
  if child_transition_live s then
    match ct_active_direction (child_transition s) with
    | GTK_PAN_DIRECTION_LEFT =>
        gint_of_gdouble (gdouble_mul (inject_Z (a_width allocation)) rest)
    | GTK_PAN_DIRECTION_RIGHT =>
        gint_of_gdouble (gdouble_mul (inject_Z (- a_width allocation)) rest)
    | _ => 0
    end
  else 0.

Definition get_bin_window_y (s : Leaflet) (allocation : GtkAllocation) : Z :=
  let rest := gdouble_sub 1 (ct_progress (child_transition s)) in
  if child_transition_live s then
    match ct_active_direction (child_transition s) with
    | GTK_PAN_DIRECTION_UP =>
        gint_of_gdouble (gdouble_mul (inject_Z (a_height allocation)) rest)
    | GTK_PAN_DIRECTION_DOWN =>
        gint_of_gdouble (gdouble_mul (inject_Z (- a_height allocation)) rest)
    | _ => 0
    end
  else 0.

Definition move_resize_bin_window (allocation : option GtkAllocation) (resize : bool)
    (s : Leaflet) : Leaflet :=
  match bin_window s with
  | None => s
  | Some win =>
      let allocation := match allocation with Some a => a | None => self_allocation s end in
      let move := move_bin_window_request s || is_window_moving_child_transition s in
      let g := gw_geom win in
      let g' :=
        if move && resize then
          mkAlloc (get_bin_window_x s allocation) (get_bin_window_y s allocation)
                  (a_width allocation) (a_height allocation)
        else if move then
          mkAlloc (get_bin_window_x s allocation) (get_bin_window_y s allocation)
                  (a_width g) (a_height g)
        else if resize then
          mkAlloc (a_x g) (a_y g) (a_width allocation) (a_height allocation)
        else g in
      with_move_bin_window_request false
        (with_bin_window (Some (mkWindow g' (gw_shown win))) s)
  end.

(** ** The child transition *)

(** [hdy_leaflet_child_progress_updated]: moves the bin window to where the
    progress puts it and, once no gesture is active and the tracker is in
    state AFTER, closes the transition.  A cancelled transition gives the
    visible child back to [last_visible_child]. *)
Definition hdy_leaflet_child_progress_updated (s : Leaflet) : option Leaflet :=
  let s := move_resize_bin_window None false s in
  if negb (ct_is_gesture_active (child_transition s))
     && bool_decide (child_tracker_state s = GTK_PROGRESS_STATE_AFTER)
  then
    if ct_is_cancelled (child_transition s) then
      match last_visible_child s with
      | Some last =>
          s ← (if folded s then
                 let s := gtk_widget_set_child_visible (ci_widget (deref s last)) true s in
                 visible ← visible_child s;
                 Some (gtk_widget_set_child_visible (ci_widget (deref s visible)) false s)
               else Some s);
          Some (with_last_visible_child None (with_visible_child (Some last) s))
      | None => Some s
      end
    else
      match last_visible_child s with
      | Some last =>
          let s := if folded s
                   then gtk_widget_set_child_visible (ci_widget (deref s last)) false s
                   else s in
          Some (with_last_visible_child None s)
      | None => Some s
      end
  else Some s.

(** The tick callback of the child transition; the boolean is its return
    value, [false] for G_SOURCE_REMOVE. *)
Definition hdy_leaflet_child_transition_cb (frame_time : Z) (s : Leaflet)
  : option (Leaflet * bool) :=
  let s :=
    if ct_first_frame_skipped (child_transition s) then
      let s := upd_ct (fun c =>
                 set_ct_tracker (gtk_progress_tracker_advance_frame (ct_tracker c) frame_time) c) s in
      let progress :=
        gtk_progress_tracker_get_ease_out_cubic (ct_tracker (child_transition s)) false in
      upd_ct (fun c =>
        set_ct_progress (hdy_lerp (ct_end_progress c) (ct_start_progress c) progress) c) s
    else upd_ct (set_ct_first_frame_skipped true) s in
  let s := if negb (self_mapped s)
           then upd_ct (fun c => set_ct_tracker (gtk_progress_tracker_finish (ct_tracker c)) c) s
           else s in
  s ← hdy_leaflet_child_progress_updated s;
  if bool_decide (child_tracker_state s = GTK_PROGRESS_STATE_AFTER)
  then Some (upd_ct (set_ct_tick_id 0) s, false)
  else Some (s, true).

Definition hdy_leaflet_schedule_child_ticks (s : Leaflet) : Leaflet :=
  if ct_tick_id (child_transition s) =? 0 then
    let '(id, s) := gtk_widget_add_tick_callback CHILD_TRANSITION_CB s in
    upd_ct (set_ct_tick_id id) s
  else s.

Definition hdy_leaflet_unschedule_child_ticks (s : Leaflet) : Leaflet :=
  if negb (ct_tick_id (child_transition s) =? 0) then
    let s := gtk_widget_remove_tick_callback (ct_tick_id (child_transition s)) s in
    upd_ct (set_ct_tick_id 0) s
  else s.

Definition hdy_leaflet_stop_child_transition (s : Leaflet) : Leaflet :=
  let s := hdy_leaflet_unschedule_child_ticks s in
  let s := upd_ct (set_ct_active_type HDY_LEAFLET_TRANSITION_TYPE_NONE) s in
  let s := upd_ct (fun c => set_ct_tracker (gtk_progress_tracker_finish (ct_tracker c)) c) s in
  let s := match last_visible_child s with
           | Some last =>
               with_last_visible_child None
                 (gtk_widget_set_child_visible (ci_widget (deref s last)) false s)
           | None => s
           end in
  with_move_bin_window_request true s.

(** [hdy_leaflet_start_child_transition].  The duration is a guint of
    milliseconds and the tracker counts microseconds: the product
    [transition_duration * 1000] is taken in guint and wraps modulo 2^32. *)
Definition hdy_leaflet_start_child_transition (transition_type : HdyLeafletTransitionType)
    (transition_duration : Z) (transition_direction : GtkPanDirection) (s : Leaflet)
  : option Leaflet :=
  let s :=
    if self_mapped s
       && (enable_animations s || ct_is_gesture_active (child_transition s))
       && negb (bool_decide (transition_type = HDY_LEAFLET_TRANSITION_TYPE_NONE))
       && negb (transition_duration =? 0)
       && is_nonnull (last_visible_child s)
       && (mt_tick_id (mode_transition s) =? 0)
    then
      let s := upd_ct (fun c =>
                 set_ct_is_cancelled false
                   (set_ct_progress 0%Q
                      (set_ct_end_progress 1%Q
                         (set_ct_start_progress 0%Q
                            (set_ct_first_frame_skipped false
                               (set_ct_active_direction transition_direction
                                  (set_ct_active_type transition_type c))))))) s in
      if negb (ct_is_gesture_active (child_transition s)) then
        let s := hdy_leaflet_schedule_child_ticks s in
        upd_ct (set_ct_tracker
                  (gtk_progress_tracker_start ((transition_duration * 1000) mod 2 ^ 32) 0 1%Q)) s
      else s
    else
      let s := hdy_leaflet_unschedule_child_ticks s in
      let s := upd_ct (set_ct_active_type HDY_LEAFLET_TRANSITION_TYPE_NONE) s in
      upd_ct (fun c => set_ct_tracker (gtk_progress_tracker_finish (ct_tracker c)) c) s in
  hdy_leaflet_child_progress_updated s.

(** [hdy_leaflet_forall]: runs the callback on the widget of every child of a
    copy of [children], then rebuilds [children_reversed] from [children]. *)
Definition hdy_leaflet_forall (callback : option widget_ptr -> Leaflet -> option Leaflet)
    (s : Leaflet) : option Leaflet :=
  let children_copy := g_list_copy (children s) in
  s ← foldl (fun acc p => s ← acc; callback (ci_widget (deref s p)) s) (Some s) children_copy;
  Some (with_children_reversed (g_list_reverse (g_list_copy (children s))) s).

(** [gtk_container_get_children]: the widgets collected by a traversal with
    [hdy_leaflet_forall]. *)
Definition gtk_container_get_children (s : Leaflet) : list (option widget_ptr) * Leaflet :=
  (List.map (fun p => ci_widget (deref s p)) (children s),
   with_children_reversed (g_list_reverse (g_list_copy (children s))) s).

(** The first child of [children] whose widget is visible. *)
Definition first_visible_child (s : Leaflet) : option info_ptr :=
  List.find (fun p => gtk_widget_get_visible s (ci_widget (deref s p))) (children s).

(** Whether [new] comes before [last] in [l]: the loop that sets [new_first]. *)
Fixpoint comes_first (l : list info_ptr) (new last : option info_ptr) : bool :=
  match l with
  | [] => false
  | x :: rest =>
      if ptr_eqb new (Some x) then true
      else if ptr_eqb last (Some x) then false
      else comes_first rest new last
  end.

(** [set_visible_child_info], with the class handler of the switch-child
    signal as a parameter: [hdy_swipeable_emit_switch_child] runs it with the
    index of the new child among the container's children. *)
Definition set_visible_child_info_with
    (switch_child : Z -> Z -> Leaflet -> option Leaflet)
    (new_visible_child : option info_ptr) (transition_type : HdyLeafletTransitionType)
    (transition_duration : Z) (emit_switch_child : bool) (s : Leaflet) : option Leaflet :=
  if in_destruction s then Some s else
  let new_visible_child :=
    match new_visible_child with
    | None => first_visible_child s
    | Some p => Some p
    end in
  if ptr_eqb new_visible_child (visible_child s) then Some s else
  let s := match last_visible_child s with
           | Some last => gtk_widget_set_child_visible (ci_widget (deref s last)) false s
           | None => s
           end in
  let s := with_last_visible_child None s in
  let s :=
    match visible_child s with
    | Some old =>
        if is_nonnull (ci_widget (deref s old)) then
          if self_visible s then
            let s := with_last_visible_child (Some old) s in
            let allocation :=
              match ci_widget (deref s old) with
              | Some w => w_allocation (widgets s !!! w)
              | None => alloc0
              end in
            upd_ct (fun c =>
              set_ct_last_visible_widget_height (a_height allocation)
                (set_ct_last_visible_widget_width (a_width allocation) c)) s
          else gtk_widget_set_child_visible (ci_widget (deref s old)) false s
        else s
    | None => s
    end in
  let s := with_visible_child new_visible_child s in
  let s := match new_visible_child with
           | Some p => gtk_widget_set_child_visible (ci_widget (deref s p)) true s
           | None => s
           end in
  let '(transition_type, transition_direction) :=
    if (negb (is_nonnull new_visible_child) || negb (is_nonnull (last_visible_child s)))
       && is_direction_dependent_child_transition transition_type
    then (HDY_LEAFLET_TRANSITION_TYPE_NONE, GTK_PAN_DIRECTION_LEFT)
    else if is_direction_dependent_child_transition transition_type
    then (transition_type,
          get_pan_direction s (comes_first (children s) new_visible_child (last_visible_child s)))
    else (transition_type, GTK_PAN_DIRECTION_LEFT) in
  s ← (if folded s
       then hdy_leaflet_start_child_transition transition_type transition_duration
              transition_direction s
       else Some s);
  if emit_switch_child then
    let '(container_children, s) := gtk_container_get_children s in
    new ← new_visible_child;
    let n := g_list_index container_children (ci_widget (deref s new)) in
    switch_child (n mod 2 ^ 32) transition_duration s
  else Some s.

(** [hdy_leaflet_switch_child], the class handler of the signal: it never
    emits the signal itself. *)
Definition hdy_leaflet_switch_child (index duration : Z) (s : Leaflet) : option Leaflet :=
  set_visible_child_info_with (fun _ _ s => Some s)
    (g_list_nth_data (children s) index) (transition_type s) (duration mod 2 ^ 32) false s.

Definition set_visible_child_info := set_visible_child_info_with hdy_leaflet_switch_child.

(** ** The mode transition *)

Definition hdy_leaflet_set_position (pos : Q) (s : Leaflet) : Leaflet :=
  let s := upd_mt (set_mt_current_pos pos) s in
  let new_visible :=
    negb (gdouble_eq (mt_current_pos (mode_transition s)) 0)
    || negb (gdouble_eq (mt_target_pos (mode_transition s)) 0) in
  let child := hdy_leaflet_get_visible_child s in
  if is_nonnull child && negb (eqb new_visible (gtk_widget_get_child_visible s child))
  then gtk_widget_set_child_visible child new_visible s
  else s.

(** The tick callback of the mode transition.  [hdy_leaflet_mode_progress_updated]
    only releases surfaces and leaves the modelled state as it is. *)
Definition hdy_leaflet_mode_transition_cb (frame_time : Z) (s : Leaflet) : Leaflet * bool :=
  let s := upd_mt (fun m =>
             set_mt_tracker (gtk_progress_tracker_advance_frame (mt_tracker m) frame_time) m) s in
  let ease := gtk_progress_tracker_get_ease_out_cubic (mt_tracker (mode_transition s)) false in
  let m := mode_transition s in
  let s := hdy_leaflet_set_position
             (gdouble_add (mt_source_pos m)
                (gdouble_mul ease (gdouble_sub (mt_target_pos m) (mt_source_pos m)))) s in
  if bool_decide (mode_tracker_state s = GTK_PROGRESS_STATE_AFTER)
  then (upd_mt (set_mt_tick_id 0) s, false)
  else (s, true).

(** [hdy_leaflet_start_mode_transition].  [priv->mode_transition.duration]
    is a guint, so [duration * 1000] wraps modulo 2^32 before the tracker
    receives it. *)
Definition hdy_leaflet_start_mode_transition (target : Q) (s : Leaflet) : Leaflet :=
  if gdouble_eq (mt_target_pos (mode_transition s)) target then s else
  let s := upd_mt (set_mt_target_pos target) s in
  let s := hdy_leaflet_stop_child_transition s in
  if self_mapped s
     && negb (mt_duration (mode_transition s) =? 0)
     && negb (bool_decide (transition_type s = HDY_LEAFLET_TRANSITION_TYPE_NONE))
     && enable_animations s
  then
    let s := upd_mt (fun m => set_mt_source_pos (mt_current_pos m) m) s in
    let s := if mt_tick_id (mode_transition s) =? 0 then
               let '(id, s) := gtk_widget_add_tick_callback MODE_TRANSITION_CB s in
               upd_mt (set_mt_tick_id id) s
             else s in
    upd_mt (fun m =>
      set_mt_tracker
        (gtk_progress_tracker_start ((mt_duration m * 1000) mod 2 ^ 32) 0 1%Q) m) s
  else hdy_leaflet_set_position target s.

Definition hdy_leaflet_get_folded (s : Leaflet) : bool := folded s.

Definition hdy_leaflet_set_folded (f : bool) (s : Leaflet) : Leaflet :=
  if eqb (folded s) f then s else
  let s := with_folded f s in
  if f then hdy_leaflet_start_mode_transition 0%Q s
  else hdy_leaflet_start_mode_transition 1%Q s.

(** ** Properties *)

Definition hdy_leaflet_set_homogeneous (fold : bool) (o : GtkOrientation) (h : bool)
    (s : Leaflet) : Leaflet :=
  if eqb (homogeneous s fold o) h then s else
  with_homogeneous
    (fun f' o' => if eqb f' fold && bool_decide (o' = o) then h else homogeneous s f' o') s.

Definition hdy_leaflet_get_homogeneous (s : Leaflet) (fold : bool) (o : GtkOrientation) : bool :=
  homogeneous s fold o.

Definition hdy_leaflet_set_transition_type (t : HdyLeafletTransitionType) (s : Leaflet) : Leaflet :=
  if bool_decide (transition_type s = t) then s else with_transition_type t s.

Definition hdy_leaflet_set_mode_transition_duration (d : Z) (s : Leaflet) : Leaflet :=
  if mt_duration (mode_transition s) =? d then s else upd_mt (set_mt_duration d) s.

Definition hdy_leaflet_set_child_transition_duration (d : Z) (s : Leaflet) : Leaflet :=
  if ct_duration (child_transition s) =? d then s else upd_ct (set_ct_duration d) s.

Definition hdy_leaflet_set_visible_child (w : widget_ptr) (s : Leaflet) : option Leaflet :=
  match find_child_info_for_widget s (Some w) with
  | None => Some s
  | Some child_info =>
      set_visible_child_info (Some child_info) (transition_type s)
        (ct_duration (child_transition s)) true s
  end.

Definition hdy_leaflet_get_visible_child_name (s : Leaflet) : option string :=
  match visible_child s with
  | None => None
  | Some p => ci_name (deref s p)
  end.

Definition hdy_leaflet_set_visible_child_name (n : string) (s : Leaflet) : option Leaflet :=
  match find_child_info_for_name s (Some n) with
  | None => Some s
  | Some child_info =>
      set_visible_child_info (Some child_info) (transition_type s)
        (ct_duration (child_transition s)) true s
  end.

Definition hdy_leaflet_get_child_transition_running (s : Leaflet) : bool :=
  negb (ct_tick_id (child_transition s) =? 0) || ct_is_gesture_active (child_transition s).

Definition hdy_leaflet_set_interpolate_size (b : bool) (s : Leaflet) : Leaflet :=
  if eqb (ct_interpolate_size (child_transition s)) b then s
  else upd_ct (set_ct_interpolate_size b) s.

Definition hdy_leaflet_set_can_swipe_back (b : bool) (s : Leaflet) : Leaflet :=
  if eqb (ct_can_swipe_back (child_transition s)) b then s else
  let s := upd_ct (set_ct_can_swipe_back b) s in
  with_tracker_enabled (b || ct_can_swipe_forward (child_transition s)) s.

Definition hdy_leaflet_set_can_swipe_forward (b : bool) (s : Leaflet) : Leaflet :=
  if eqb (ct_can_swipe_forward (child_transition s)) b then s else
  let s := upd_ct (set_ct_can_swipe_forward b) s in
  with_tracker_enabled (ct_can_swipe_back (child_transition s) || b) s.

(** ** Navigation *)

(** The do-while loop of [find_swipeable_child] over the cells that follow
    the visible child in the chosen direction: [child] keeps the data of the
    last cell visited. *)
Fixpoint swipeable_scan (s : Leaflet) (cells : list info_ptr) (child : option info_ptr)
  : option info_ptr :=
  match cells with
  | [] => child
  | p :: rest =>
      if negb (ci_allow_visible (deref s p)) then swipeable_scan s rest (Some p)
      else Some p
  end.

Definition find_swipeable_child (s : Leaflet) (direction : HdyNavigationDirection)
  : option (option info_ptr) :=
  visible ← visible_child s;
  '(before, after) ← g_list_find (children s) visible;
  Some (swipeable_scan s
          (match direction with
           | HDY_NAVIGATION_DIRECTION_BACK => rev before
           | HDY_NAVIGATION_DIRECTION_FORWARD => after
           end) None).

Definition can_swipe_in_direction (s : Leaflet) (direction : HdyNavigationDirection) : bool :=
  match direction with
  | HDY_NAVIGATION_DIRECTION_BACK => ct_can_swipe_back (child_transition s)
  | HDY_NAVIGATION_DIRECTION_FORWARD => ct_can_swipe_forward (child_transition s)
  end.

Definition hdy_leaflet_navigate (direction : HdyNavigationDirection) (s : Leaflet)
  : option (Leaflet * bool) :=
  if negb (can_swipe_in_direction s direction) then Some (s, false) else
  child ← find_swipeable_child s direction;
  match child with
  | None => Some (s, false)
  | Some c =>
      s ← set_visible_child_info (Some c) (transition_type s)
            (ct_duration (child_transition s)) true s;
      Some (s, true)
  end.

(** ** Size allocation *)

(** A [for] loop over the cells of a GList. *)
Definition for_each (l : list info_ptr) (body : info_ptr -> Leaflet -> Leaflet)
    (s : Leaflet) : Leaflet :=
  foldl (fun s p => body p s) s l.

(** The cells a loop visits before it breaks at the cell holding [p]. *)
Fixpoint cells_until (l : list info_ptr) (p : info_ptr) : list info_ptr :=
  match l with
  | [] => []
  | x :: rest => if Nat.eqb x p then [] else x :: cells_until rest p
  end.

Definition req_size (o : GtkOrientation) (r : GtkRequisition) : Z :=
  match o with
  | GTK_ORIENTATION_HORIZONTAL => r_width r
  | GTK_ORIENTATION_VERTICAL => r_height r
  end.

Definition alloc_size (o : GtkOrientation) (a : GtkAllocation) : Z :=
  match o with
  | GTK_ORIENTATION_HORIZONTAL => a_width a
  | GTK_ORIENTATION_VERTICAL => a_height a
  end.

Definition alloc_pos (o : GtkOrientation) (a : GtkAllocation) : Z :=
  match o with
  | GTK_ORIENTATION_HORIZONTAL => a_x a
  | GTK_ORIENTATION_VERTICAL => a_y a
  end.

Definition set_alloc_pos (o : GtkOrientation) (v : Z) (a : GtkAllocation) : GtkAllocation :=
  match o with
  | GTK_ORIENTATION_HORIZONTAL => set_a_x v a
  | GTK_ORIENTATION_VERTICAL => set_a_y v a
  end.

Definition set_alloc_size (o : GtkOrientation) (v : Z) (a : GtkAllocation) : GtkAllocation :=
  match o with
  | GTK_ORIENTATION_HORIZONTAL => set_a_width v a
  | GTK_ORIENTATION_VERTICAL => set_a_height v a
  end.

(** The rectangle of a child placed along the orientation at [pos] with
    extent [size], spanning the whole allocation across. *)
Definition along (o : GtkOrientation) (pos size : Z) (allocation : GtkAllocation) : GtkAllocation :=
  match o with
  | GTK_ORIENTATION_HORIZONTAL => mkAlloc pos 0 size (a_height allocation)
  | GTK_ORIENTATION_VERTICAL => mkAlloc 0 pos (a_width allocation) size
  end.

(** The first loop of [hdy_leaflet_size_allocate]. *)
Definition prepare_child (p : info_ptr) (s : Leaflet) : Leaflet :=
  let s := match ci_widget (deref s p) with
           | Some w =>
               update_info p (fun ci =>
                 set_ci_nat (w_nat (widgets s !!! w)) (set_ci_min (w_min (widgets s !!! w)) ci)) s
           | None => s
           end in
  update_info p (fun ci => set_ci_visible false (set_ci_alloc alloc0 ci)) s.

(** The loop that accumulates [nat_box_size], [nat_max_size] and
    [visible_children] along the orientation. *)
Definition accumulate_nat (s : Leaflet) (o : GtkOrientation) (l : list info_ptr) : Z * Z * Z :=
  foldl (fun '(nat_box_size, nat_max_size, visible_children) p =>
           let ci := deref s p in
           if negb (is_nonnull (ci_widget ci)) then (nat_box_size, nat_max_size, visible_children)
           else (nat_box_size + req_size o (ci_nat ci),
                 MAX nat_max_size (req_size o (ci_nat ci)),
                 visible_children + 1))
        (0, 0, 0) l.

(** "Check whether the children should be stacked or not." *)
Definition fold_decision (s : Leaflet) (allocation : GtkAllocation) : bool :=
  let o := orientation s in
  let '(nat_box_size, nat_max_size, visible_children) :=
    accumulate_nat s o (get_directed_children s) in
  let nat_box_size :=
    if homogeneous s HDY_FOLD_UNFOLDED o then nat_max_size * visible_children
    else nat_box_size in
  alloc_size o allocation <? nat_box_size.

Definition is_under_start (s : Leaflet) (t : HdyLeafletTransitionType) : bool :=
  match orientation s with
  | GTK_ORIENTATION_HORIZONTAL =>
      (bool_decide (t = HDY_LEAFLET_TRANSITION_TYPE_OVER)
       && bool_decide (self_direction s = GTK_TEXT_DIR_LTR))
      || (bool_decide (t = HDY_LEAFLET_TRANSITION_TYPE_UNDER)
          && bool_decide (self_direction s = GTK_TEXT_DIR_RTL))
  | GTK_ORIENTATION_VERTICAL => bool_decide (t = HDY_LEAFLET_TRANSITION_TYPE_OVER)
  end.

Definition is_under_end (s : Leaflet) (t : HdyLeafletTransitionType) : bool :=
  match orientation s with
  | GTK_ORIENTATION_HORIZONTAL =>
      (bool_decide (t = HDY_LEAFLET_TRANSITION_TYPE_UNDER)
       && bool_decide (self_direction s = GTK_TEXT_DIR_LTR))
      || (bool_decide (t = HDY_LEAFLET_TRANSITION_TYPE_OVER)
          && bool_decide (self_direction s = GTK_TEXT_DIR_RTL))
  | GTK_ORIENTATION_VERTICAL => bool_decide (t = HDY_LEAFLET_TRANSITION_TYPE_UNDER)
  end.

(** The size a child takes in the box: its natural size, or the largest
    natural size when the box is homogeneous. *)
Definition box_child_size (s : Leaflet) (o : GtkOrientation) (box_homogeneous : bool)
    (max_child_size : Z) (p : info_ptr) : Z :=
  if box_homogeneous then max_child_size else req_size o (ci_nat (deref s p)).

(** The branch of [hdy_leaflet_size_allocate_folded] taken while a mode
    transition of type SLIDE, OVER or UNDER is under way.  Where C divides
    by a zero distance the quotient is 0 here. *)
Definition size_allocate_folded_animated (mode_transition_type : HdyLeafletTransitionType)
    (visible_child : info_ptr) (allocation : GtkAllocation) (s : Leaflet) : Leaflet :=
  let o := orientation s in
  let directed_children := get_directed_children s in
  let rest := gdouble_sub 1 (mt_current_pos (mode_transition s)) in
  let visible_size :=
    MIN (alloc_size o allocation)
        (MAX (req_size o (ci_nat (deref s visible_child)))
             (gint_of_gdouble (gdouble_mul (inject_Z (alloc_size o allocation)) rest))) in
  let box_homogeneous := homogeneous s HDY_FOLD_UNFOLDED o in
  let max_child_size :=
    if box_homogeneous
    then foldl (fun m p => MAX m (req_size o (ci_nat (deref s p)))) 0 directed_children
    else 0 in
  let size_of := box_child_size s o box_homogeneous max_child_size in
  let start_size :=
    foldl (fun acc p => acc + size_of p) 0 (cells_until directed_children visible_child) in
  let end_size :=
    foldl (fun acc p => acc + size_of p) 0 (cells_until (rev directed_children) visible_child) in
  let remaining_size := alloc_size o allocation - visible_size in
  let remaining_start_size :=
    gint_of_gdouble
      (gdouble_mul (inject_Z remaining_size)
         (gdouble_div (inject_Z start_size) (inject_Z (start_size + end_size)))) in
  let remaining_end_size := remaining_size - remaining_start_size in
  let under_start := is_under_start s mode_transition_type in
  let under_end := is_under_end s mode_transition_type in
  let start_surface_allocation :=
    along o (if under_start then 0 else remaining_start_size - start_size)
            (if under_start then remaining_size else start_size) allocation in
  let end_surface_allocation :=
    match o with
    | GTK_ORIENTATION_HORIZONTAL =>
        mkAlloc (if under_end then a_width allocation - end_size
                 else remaining_start_size + visible_size)
                0 end_size (a_height allocation)
    | GTK_ORIENTATION_VERTICAL =>
        mkAlloc 0 (remaining_start_size + visible_size) (a_width allocation) end_size
    end in
  let end_surface_clip := along o (remaining_start_size + visible_size) end_size allocation in
  let s := upd_mt (fun m =>
    set_mt_end_distance (inject_Z end_size)
      (set_mt_start_distance (inject_Z start_size)
        (set_mt_end_progress
           (if under_end
            then gdouble_div (inject_Z remaining_end_size) (inject_Z end_size) else 1%Q)
           (set_mt_end_surface_clip end_surface_clip
              (set_mt_end_surface_allocation end_surface_allocation
                 (set_mt_start_progress
                    (if under_start
                     then gdouble_div (inject_Z remaining_size) (inject_Z start_size)
                     else 1%Q)
                    (set_mt_start_surface_allocation start_surface_allocation m))))))) s in
  let s := update_info visible_child (fun ci =>
    set_ci_visible true (set_ci_alloc (along o remaining_start_size visible_size allocation) ci)) s in
  let '(_, s) :=
    foldl (fun '(current_pad, s) p =>
             let size := size_of p in
             let s := update_info p (fun ci =>
               set_ci_visible (- current_pad + size >? 0)
                 (set_ci_alloc (along o (- current_pad) size allocation) ci)) s in
             (current_pad - size, s))
          (- alloc_pos o start_surface_allocation, s)
          (cells_until directed_children visible_child) in
  let '(_, s) :=
    foldl (fun '(current_pad, s) p =>
             let current_pad := current_pad - alloc_size o (ci_alloc (deref s p)) in
             let s := update_info p (fun ci =>
               set_ci_visible (current_pad <? alloc_size o allocation)
                 (set_ci_alloc (along o current_pad (size_of p) allocation) ci)) s in
             (current_pad, s))
          (alloc_pos o end_surface_allocation, s)
          (cells_until (rev directed_children) visible_child) in
  s.

Definition hdy_leaflet_size_allocate_folded (allocation : GtkAllocation) (s : Leaflet)
  : option Leaflet :=
  let directed_children := get_directed_children s in
  visible_child ← visible_child s;
  let visible_widget := ci_widget (deref s visible_child) in
  let s := for_each directed_children (fun p s =>
    let w := ci_widget (deref s p) in
    if negb (is_nonnull w) then s
    else if ptr_eqb w visible_widget then s
    else match last_visible_child s with
         | Some last =>
             if ptr_eqb w (ci_widget (deref s last)) then s
             else gtk_widget_set_child_visible w false s
         | None => gtk_widget_set_child_visible w false s
         end) s in
  if negb (is_nonnull visible_widget) then Some s else
  if negb (gtk_widget_get_visible s visible_widget)
  then Some (gtk_widget_set_child_visible visible_widget false s) else
  let s := gtk_widget_set_child_visible visible_widget true s in
  let mode_transition_type :=
    if gdouble_le (mt_current_pos (mode_transition s)) 0
    then HDY_LEAFLET_TRANSITION_TYPE_NONE else transition_type s in
  match mode_transition_type with
  | HDY_LEAFLET_TRANSITION_TYPE_NONE =>
      Some (for_each directed_children (fun p s =>
        if negb (Nat.eqb p visible_child) && negb (ptr_eqb (Some p) (last_visible_child s))
        then update_info p (set_ci_visible false) s
        else update_info p (fun ci =>
               set_ci_visible true
                 (set_ci_alloc (mkAlloc 0 0 (a_width allocation) (a_height allocation)) ci)) s) s)
  | _ => Some (size_allocate_folded_animated mode_transition_type visible_child allocation s)
  end.

(** The repartition of the extra space in [hdy_leaflet_size_allocate_unfolded]:
    [homogeneous_size], [per_child_extra] and [n_extra_widgets].  [None] is
    the division by a zero count of visible children. *)
Definition extra_space (s : Leaflet) (o : GtkOrientation) (box_homogeneous : bool)
    (directed_children : list info_ptr) (n_visible_children n_expand_children : Z)
    (allocation : GtkAllocation) : option (Z * Z * Z) :=
  '(homogeneous_size, n_expand_children, min_size) ←
    (if box_homogeneous then
       if n_visible_children =? 0 then None
       else
         let n_expand_children := Z.rem (alloc_size o allocation) n_visible_children in
         Some (Z.quot (alloc_size o allocation) n_visible_children,
               n_expand_children,
               alloc_size o allocation - n_expand_children)
     else
       Some (0, n_expand_children,
             foldl (fun acc p => acc + req_size o (ci_nat (deref s p))) 0 directed_children));
  let extra_size := alloc_size o allocation - min_size in
  if n_expand_children >? 0
  then Some (homogeneous_size, Z.quot extra_size n_expand_children,
             Z.rem extra_size n_expand_children)
  else Some (homogeneous_size, 0, 0).

(** One turn of the loop "Compute children allocation"; the accumulator is
    the position reached along the orientation (remaining_alloc.x or .y) and
    [n_extra_widgets]. *)
Definition allocate_child (o : GtkOrientation) (box_homogeneous : bool)
    (homogeneous_size per_child_extra : Z) (allocation : GtkAllocation)
    (acc : Z * Z * Leaflet) (p : info_ptr) : Z * Z * Leaflet :=
  let '(pos, n_extra_widgets, s) := acc in
  let ci := deref s p in
  if negb (ci_visible ci) then acc else
  let '(size, n_extra_widgets) :=
    if box_homogeneous then
      if n_extra_widgets >? 0 then (homogeneous_size + 1, n_extra_widgets - 1)
      else (homogeneous_size, n_extra_widgets)
    else if gtk_widget_compute_expand s (ci_widget ci) o then
      if n_extra_widgets >? 0
      then (req_size o (ci_nat ci) + per_child_extra + 1, n_extra_widgets - 1)
      else (req_size o (ci_nat ci) + per_child_extra, n_extra_widgets)
    else (req_size o (ci_nat ci), n_extra_widgets) in
  (pos + size, n_extra_widgets, update_info p (set_ci_alloc (along o pos size allocation)) s).

Definition hdy_leaflet_size_allocate_unfolded (allocation : GtkAllocation) (s : Leaflet)
  : option Leaflet :=
  let o := orientation s in
  let directed_children := get_directed_children s in
  let box_homogeneous := homogeneous s HDY_FOLD_UNFOLDED o in
  let '(n_visible_children, n_expand_children, s) :=
    foldl (fun '(n_visible_children, n_expand_children, s) p =>
             let w := ci_widget (deref s p) in
             let visible := is_nonnull w && gtk_widget_get_visible s w in
             let s := update_info p (set_ci_visible visible) s in
             if visible then
               (n_visible_children + 1,
                if gtk_widget_compute_expand s w o then n_expand_children + 1
                else n_expand_children,
                s)
             else
               (n_visible_children, n_expand_children,
                update_info p (fun ci => set_ci_nat req0 (set_ci_min req0 ci)) s))
          (0, 0, s) directed_children in
  '(homogeneous_size, per_child_extra, n_extra_widgets) ←
    extra_space s o box_homogeneous directed_children n_visible_children n_expand_children
      allocation;
  let '(_, _, s) :=
    foldl (allocate_child o box_homogeneous homogeneous_size per_child_extra allocation)
          (0, n_extra_widgets, s) directed_children in
  visible_child ← visible_child s;
  let rest := gdouble_sub 1 (mt_current_pos (mode_transition s)) in
  let visible_alloc := ci_alloc (deref s visible_child) in
  let start_distance := alloc_pos o visible_alloc in
  let end_distance :=
    alloc_size o allocation - (alloc_pos o visible_alloc + alloc_size o visible_alloc) in
  let start_pad := gint_of_gdouble (gdouble_mul (inject_Z start_distance) rest) in
  let end_pad := gint_of_gdouble (gdouble_mul (inject_Z end_distance) rest) in
  let s := upd_mt (fun m =>
    set_mt_end_distance (inject_Z end_distance)
      (set_mt_start_distance (inject_Z start_distance) m)) s in
  let mode_transition_type := transition_type s in
  let under := is_under_start s mode_transition_type in
  let s := for_each (cells_until directed_children visible_child) (fun p s =>
    if negb (ci_visible (deref s p)) then s
    else if under then s
    else update_info p (fun ci =>
           set_ci_alloc (set_alloc_pos o (alloc_pos o (ci_alloc ci) - start_pad) (ci_alloc ci)) ci)
           s) s in
  let s := upd_mt (fun m =>
    set_mt_start_progress (if under then mt_current_pos m else 1%Q) m) s in
  let under := is_under_end s mode_transition_type in
  let s := for_each (cells_until (rev directed_children) visible_child) (fun p s =>
    if negb (ci_visible (deref s p)) then s
    else if under then s
    else update_info p (fun ci =>
           set_ci_alloc (set_alloc_pos o (alloc_pos o (ci_alloc ci) + end_pad) (ci_alloc ci)) ci)
           s) s in
  let s := upd_mt (fun m =>
    set_mt_end_progress (if under then mt_current_pos m else 1%Q) m) s in
  Some (update_info visible_child (fun ci =>
    let a := ci_alloc ci in
    set_ci_alloc
      (set_alloc_size o (alloc_size o a + (start_pad + end_pad))
         (set_alloc_pos o (alloc_pos o a - start_pad) a)) ci) s).

(** The last loop of [hdy_leaflet_size_allocate]: "Apply visibility and
    allocation." *)
Definition apply_child (p : info_ptr) (s : Leaflet) : Leaflet :=
  let ci := deref s p in
  let s := gtk_widget_set_child_visible (ci_widget ci) (ci_visible ci) s in
  if negb (ci_visible ci) then s else
  let s := gtk_widget_size_allocate (ci_widget ci) (ci_alloc ci) s in
  if self_realized s then gtk_widget_show (ci_widget ci) s else s.

Definition hdy_leaflet_size_allocate (allocation : GtkAllocation) (s : Leaflet)
  : option Leaflet :=
  let directed_children := get_directed_children s in
  let s := with_self_allocation allocation s in
  let s :=
    if self_realized s then
      let s := match view_window s with
               | Some win => with_view_window (Some (mkWindow allocation (gw_shown win))) s
               | None => s
               end in
      move_resize_bin_window (Some allocation) true s
    else s in
  let s := for_each directed_children prepare_child s in
  let f := fold_decision s allocation in
  let s := hdy_leaflet_set_folded f s in
  s ← (if f then hdy_leaflet_size_allocate_folded allocation s
       else hdy_leaflet_size_allocate_unfolded allocation s);
  Some (for_each directed_children apply_child s).

(** ** The container *)

(** The signal handler connected to notify::visible of every child widget. *)
Definition hdy_leaflet_child_visibility_notify_cb (w : widget_ptr) (s : Leaflet) : option Leaflet :=
  let child_info := find_child_info_for_widget s (Some w) in
  if negb (is_nonnull (visible_child s)) && gtk_widget_get_visible s (Some w) then
    set_visible_child_info child_info (transition_type s) (ct_duration (child_transition s)) true s
  else if ptr_eqb (visible_child s) child_info && negb (gtk_widget_get_visible s (Some w)) then
    set_visible_child_info None (transition_type s) (ct_duration (child_transition s)) true s
  else Some s.

(** [hdy_leaflet_add]: [g_new0] takes the record from the allocator, so the
    address of a new child is one no child has had before. *)
Definition hdy_leaflet_add (w : widget_ptr) (s : Leaflet) : option Leaflet :=
  if w_has_parent (widgets s !!! w) then Some s else
  let s := gtk_widget_set_child_visible (Some w) false s in
  let s := update_widget (Some w) (set_w_has_parent true) s in
  let child_info := next_info s in
  let s := with_next_info (S child_info) s in
  let s := with_infos (<[child_info := mkInfo (Some w) None true alloc0 req0 req0 false]> (infos s)) s in
  let s := with_children (g_list_append (children s) child_info) s in
  let s := with_children_reversed (g_list_prepend (children_reversed s) child_info) s in
  if negb (is_nonnull (hdy_leaflet_get_visible_child s)) && gtk_widget_get_visible s (Some w)
  then set_visible_child_info (Some child_info) (transition_type s)
         (ct_duration (child_transition s)) false s
  else Some s.

(** [free_child_info] gives the record back to the allocator.  The pointers
    [visible_child] and [last_visible_child] may still hold its address, and
    the source reads the record through them afterwards; C leaves such a read
    undefined.  [freed] is what the memory reads as from then on: the
    allocator's choice, which the model takes as an argument and keeps. *)
Definition free_child_info (child_info : info_ptr) (freed : HdyLeafletChildInfo) (s : Leaflet)
  : Leaflet :=
  with_infos (<[child_info := freed]> (infos s)) s.

(** [hdy_leaflet_remove]: the record is freed before
    [hdy_leaflet_get_visible_child] is compared with the widget, so the
    comparison reads the freed record where the removed child is the visible
    child. *)
Definition hdy_leaflet_remove (w : widget_ptr) (freed : HdyLeafletChildInfo) (s : Leaflet)
  : option Leaflet :=
  match find_child_info_for_widget s (Some w) with
  | None => Some s
  | Some child_info =>
      let s := with_children (g_list_remove (children s) child_info) s in
      let s := with_children_reversed (g_list_remove (children_reversed s) child_info) s in
      let s := free_child_info child_info freed s in
      s ← (if ptr_eqb (hdy_leaflet_get_visible_child s) (Some w)
           then set_visible_child_info None (transition_type s)
                  (ct_duration (child_transition s)) true s
           else Some s);
      Some (update_widget (Some w) (set_w_has_parent false) s)
  end.

Inductive ChildProperty :=
  | CHILD_PROP_NAME (name : option string)
  | CHILD_PROP_ALLOW_VISIBLE (allow : bool).

Definition hdy_leaflet_set_child_property (w : widget_ptr) (prop : ChildProperty) (s : Leaflet)
  : option Leaflet :=
  match find_child_info_for_widget s (Some w) with
  | None => Some s
  | Some child_info =>
      match prop with
      | CHILD_PROP_NAME name => Some (update_info child_info (set_ci_name name) s)
      | CHILD_PROP_ALLOW_VISIBLE allow =>
          let s := update_info child_info (set_ci_allow_visible allow) s in
          if negb (ci_allow_visible (deref s child_info))
             && ptr_eqb (hdy_leaflet_get_visible_child s) (Some w)
          then set_visible_child_info None (transition_type s)
                 (ct_duration (child_transition s)) true s
          else Some s
      end
  end.

Definition hdy_leaflet_set_orientation (o : GtkOrientation) (s : Leaflet) : Leaflet :=
  if bool_decide (orientation s = o) then s else with_orientation o s.

(** ** Realizing and mapping *)

Definition hdy_leaflet_realize (padding_left padding_top : Z) (s : Leaflet) : Leaflet :=
  let s := with_self_realized true s in
  let allocation := self_allocation s in
  let s := with_view_window (Some (mkWindow allocation false)) s in
  with_bin_window
    (Some (mkWindow (mkAlloc padding_left padding_top (a_width allocation) (a_height allocation))
                    true)) s.

Definition hdy_leaflet_unrealize (s : Leaflet) : Leaflet :=
  with_self_realized false (with_view_window None (with_bin_window None s)).

Definition gdk_window_set_shown (b : bool) (win : option GdkWindow) : option GdkWindow :=
  match win with
  | Some g => Some (mkWindow (gw_geom g) b)
  | None => None
  end.

Definition hdy_leaflet_map (s : Leaflet) : Leaflet :=
  let s := with_self_mapped true s in
  with_view_window (gdk_window_set_shown true (view_window s)) s.

Definition hdy_leaflet_unmap (s : Leaflet) : Leaflet :=
  let s := with_view_window (gdk_window_set_shown false (view_window s)) s in
  with_self_mapped false s.

(** ** The swipeable interface *)

Definition get_current_progress (s : Leaflet) : Q :=
  if negb (ct_is_gesture_active (child_transition s))
     && bool_decide (child_tracker_state s = GTK_PROGRESS_STATE_AFTER)
  then 0%Q
  else
    let new_first := comes_first (children s) (last_visible_child s) (visible_child s) in
    (ct_progress (child_transition s) * (if new_first then 1 else -1))%Q.

(** [hdy_leaflet_begin_swipe].  The snap points and the progress it hands to
    the swipe tracker do not touch the leaflet and are left out. *)
Definition hdy_leaflet_begin_swipe (direction : HdyNavigationDirection) (direct : bool)
    (s : Leaflet) : option Leaflet :=
  if ct_tick_id (child_transition s) >? 0 then
    let s := gtk_widget_remove_tick_callback (ct_tick_id (child_transition s)) s in
    Some (upd_ct (fun c =>
      set_ct_is_cancelled false (set_ct_is_gesture_active true (set_ct_tick_id 0 c))) s)
  else
    child ← (if (can_swipe_in_direction s direction || negb direct) && folded s
             then find_swipeable_child s direction
             else Some None);
    match child with
    | Some c =>
        let s := upd_ct (set_ct_is_gesture_active true) s in
        set_visible_child_info (Some c) (transition_type s)
          (ct_duration (child_transition s)) false s
    | None => Some s
    end.

Definition hdy_leaflet_update_swipe (value : Q) (s : Leaflet) : option Leaflet :=
  let s := upd_ct (set_ct_progress (ABS value)) s in
  hdy_leaflet_child_progress_updated s.

(** [hdy_leaflet_end_swipe].  The duration is a gint64 here; the tracker
    takes a guint64, and the conversion of [duration * 1000] is modulo 2^64. *)
Definition hdy_leaflet_end_swipe (duration : Z) (to : Q) (s : Leaflet) : option Leaflet :=
  if negb (ct_is_gesture_active (child_transition s)) then Some s else
  let s := upd_ct (fun c =>
    set_ct_first_frame_skipped true
      (set_ct_is_cancelled (gdouble_eq to 0)
         (set_ct_end_progress (ABS to)
            (set_ct_start_progress (ct_progress c) c)))) s in
  let s := hdy_leaflet_schedule_child_ticks s in
  let s :=
    if enable_animations s
       && negb (duration =? 0)
       && negb (bool_decide (transition_type s = HDY_LEAFLET_TRANSITION_TYPE_NONE))
    then upd_ct (set_ct_tracker
                   (gtk_progress_tracker_start ((duration * 1000) mod 2 ^ 64) 0 1%Q)) s
    else upd_ct (fun c =>
           set_ct_tracker (gtk_progress_tracker_finish (ct_tracker c))
             (set_ct_progress (ct_end_progress c) c)) s in
  let s := upd_ct (set_ct_is_gesture_active false) s in
  hdy_leaflet_child_progress_updated s.

(** ** Construction *)

Definition mode_transition0 : ModeTransition :=
  mkMode 250 1%Q 0%Q 1%Q alloc0 0%Q 0%Q alloc0 alloc0 0%Q 0%Q 0 tracker0.

Definition child_transition0 : ChildTransition :=
  mkChild 200 0%Q 0%Q 0%Q false false 0 tracker0 false 0 0 false false false
          HDY_LEAFLET_TRANSITION_TYPE_NONE GTK_PAN_DIRECTION_LEFT.

(** [hdy_leaflet_init] on a zeroed instance, in a world holding the widgets
    [world] and with the animation setting [animations]. *)
Definition hdy_leaflet_init (world : gmap widget_ptr GtkWidget) (animations : bool) : Leaflet :=
  mkLeaflet [] [] None None None None false
    (fun fold _ => fold)
    GTK_ORIENTATION_HORIZONTAL false HDY_LEAFLET_TRANSITION_TYPE_NONE false
    mode_transition0 child_transition0
    ∅ 1%nat world [] 0 false false false GTK_TEXT_DIR_LTR animations false alloc0.

(** ** The frame clock *)

(** GTK runs the callback registered under [id] with the frame time and
    drops it when it returns G_SOURCE_REMOVE. *)
Definition gtk_frame_tick (id : Z) (frame_time : Z) (s : Leaflet) : option Leaflet :=
  match List.find (fun e => fst e =? id) (ticks s) with
  | None => Some s
  | Some (_, CHILD_TRANSITION_CB) =>
      '(s, again) ← hdy_leaflet_child_transition_cb frame_time s;
      Some (if (again : bool) then s else gtk_widget_remove_tick_callback id s)
  | Some (_, MODE_TRANSITION_CB) =>
      let r := hdy_leaflet_mode_transition_cb frame_time s in
      Some (if snd r then fst r else gtk_widget_remove_tick_callback id (fst r))
  end.

(** ** Operations

    What can happen to a leaflet: the calls of its public interface, the
    virtual functions GTK runs on it, the swipeable interface the swipe
    tracker drives, the frame clock, and changes GTK or the application
    makes to the widgets around it. *)

(** The callbacks a container traversal is run with: one that only looks at
    the children, and one that removes every child it is handed, as
    destroying the leaflet does; [freed] tells what the record of the child
    holding a widget reads as once it is freed. *)
Inductive ForallCallback :=
  | CALLBACK_VISIT
  | CALLBACK_REMOVE (freed : widget_ptr -> HdyLeafletChildInfo).

Definition run_callback (cb : ForallCallback) (w : option widget_ptr) (s : Leaflet)
  : option Leaflet :=
  match cb, w with
  | CALLBACK_REMOVE freed, Some a => hdy_leaflet_remove a (freed a) s
  | _, _ => Some s
  end.

Inductive Operation :=
  | OP_ADD (w : widget_ptr)
  | OP_REMOVE (w : widget_ptr) (freed : HdyLeafletChildInfo)
  | OP_FORALL (cb : ForallCallback)
  | OP_SET_VISIBLE_CHILD (w : widget_ptr)
  | OP_SET_VISIBLE_CHILD_NAME (n : string)
  | OP_NAVIGATE (direction : HdyNavigationDirection)
  | OP_SET_HOMOGENEOUS (fold : bool) (o : GtkOrientation) (h : bool)
  | OP_SET_TRANSITION_TYPE (t : HdyLeafletTransitionType)
  | OP_SET_MODE_TRANSITION_DURATION (d : Z)
  | OP_SET_CHILD_TRANSITION_DURATION (d : Z)
  | OP_SET_INTERPOLATE_SIZE (b : bool)
  | OP_SET_CAN_SWIPE_BACK (b : bool)
  | OP_SET_CAN_SWIPE_FORWARD (b : bool)
  | OP_SET_ORIENTATION (o : GtkOrientation)
  | OP_SET_CHILD_PROPERTY (w : widget_ptr) (prop : ChildProperty)
  | OP_SIZE_ALLOCATE (allocation : GtkAllocation)
  | OP_REALIZE (padding_left padding_top : Z)
  | OP_UNREALIZE
  | OP_MAP
  | OP_UNMAP
  | OP_SWITCH_CHILD (index duration : Z)
  | OP_BEGIN_SWIPE (direction : HdyNavigationDirection) (direct : bool)
  | OP_UPDATE_SWIPE (value : Q)
  | OP_END_SWIPE (duration : Z) (to : Q)
  | OP_FRAME_TICK (id frame_time : Z)
  | ENV_WIDGET_SET_VISIBLE (w : widget_ptr) (b : bool)
  | ENV_WIDGET_SET_SIZES (w : widget_ptr) (min nat : GtkRequisition)
  | ENV_WIDGET_SET_EXPAND (w : widget_ptr) (h v : bool)
  | ENV_SET_VISIBLE (b : bool)
  | ENV_SET_DIRECTION (d : GtkTextDirection)
  | ENV_SET_ENABLE_ANIMATIONS (b : bool).

Definition run (op : Operation) (s : Leaflet) : option Leaflet :=
  match op with
  | OP_ADD w => hdy_leaflet_add w s
  | OP_REMOVE w freed => hdy_leaflet_remove w freed s
  | OP_FORALL cb => hdy_leaflet_forall (run_callback cb) s
  | OP_SET_VISIBLE_CHILD w => hdy_leaflet_set_visible_child w s
  | OP_SET_VISIBLE_CHILD_NAME n => hdy_leaflet_set_visible_child_name n s
  | OP_NAVIGATE direction => fst <$> hdy_leaflet_navigate direction s
  | OP_SET_HOMOGENEOUS fold o h => Some (hdy_leaflet_set_homogeneous fold o h s)
  | OP_SET_TRANSITION_TYPE t => Some (hdy_leaflet_set_transition_type t s)
  | OP_SET_MODE_TRANSITION_DURATION d => Some (hdy_leaflet_set_mode_transition_duration d s)
  | OP_SET_CHILD_TRANSITION_DURATION d => Some (hdy_leaflet_set_child_transition_duration d s)
  | OP_SET_INTERPOLATE_SIZE b => Some (hdy_leaflet_set_interpolate_size b s)
  | OP_SET_CAN_SWIPE_BACK b => Some (hdy_leaflet_set_can_swipe_back b s)
  | OP_SET_CAN_SWIPE_FORWARD b => Some (hdy_leaflet_set_can_swipe_forward b s)
  | OP_SET_ORIENTATION o => Some (hdy_leaflet_set_orientation o s)
  | OP_SET_CHILD_PROPERTY w prop => hdy_leaflet_set_child_property w prop s
  | OP_SIZE_ALLOCATE allocation => hdy_leaflet_size_allocate allocation s
  | OP_REALIZE padding_left padding_top => Some (hdy_leaflet_realize padding_left padding_top s)
  | OP_UNREALIZE => Some (hdy_leaflet_unrealize s)
  | OP_MAP => Some (hdy_leaflet_map s)
  | OP_UNMAP => Some (hdy_leaflet_unmap s)
  | OP_SWITCH_CHILD index duration => hdy_leaflet_switch_child index duration s
  | OP_BEGIN_SWIPE direction direct => hdy_leaflet_begin_swipe direction direct s
  | OP_UPDATE_SWIPE value => hdy_leaflet_update_swipe value s
  | OP_END_SWIPE duration to => hdy_leaflet_end_swipe duration to s
  | OP_FRAME_TICK id frame_time => gtk_frame_tick id frame_time s
  | ENV_WIDGET_SET_VISIBLE w b =>
      hdy_leaflet_child_visibility_notify_cb w (update_widget (Some w) (set_w_visible b) s)
  | ENV_WIDGET_SET_SIZES w min nat =>
      Some (update_widget (Some w) (fun g =>
        mkWidget (w_visible g) (w_child_visible g) (w_has_parent g) min nat
                 (w_hexpand g) (w_vexpand g) (w_allocation g)) s)
  | ENV_WIDGET_SET_EXPAND w h v =>
      Some (update_widget (Some w) (fun g =>
        mkWidget (w_visible g) (w_child_visible g) (w_has_parent g) (w_min g) (w_nat g)
                 h v (w_allocation g)) s)
  | ENV_SET_VISIBLE b => Some (with_self_visible b s)
  | ENV_SET_DIRECTION d => Some (with_self_direction d s)
  | ENV_SET_ENABLE_ANIMATIONS b => Some (with_enable_animations b s)
  end.

Definition run_all (ops : list Operation) (s : Leaflet) : option Leaflet :=
  foldl (fun acc op => s ← acc; run op s) (Some s) ops.

(** The states a leaflet can be in: those some sequence of operations leads
    to from a fresh leaflet. *)
Inductive reachable : Leaflet -> Prop :=
  | reachable_init world animations : reachable (hdy_leaflet_init world animations)
  | reachable_step op s s' : reachable s -> run op s = Some s' -> reachable s'.

(** * Properties *)

(** ** Invariants of the reachable states *)

(** The part of the state the invariants speak of. *)
Definition skeleton (s : Leaflet) :=
  (children s, children_reversed s, next_info s,
   (ticks s, next_tick s, ct_tick_id (child_transition s), mt_tick_id (mode_transition s)),
   (folded s, mt_target_pos (mode_transition s))).

(** The three invariants: the reversed list mirrors the list of children,
    whose addresses are distinct and come from the allocator; the target of
    the mode transition agrees with the folded flag; the callbacks
    registered with GTK are those the two tick identifiers name. *)
Definition lists_ok (s : Leaflet) : Prop :=
  children_reversed s = rev (children s)
  /\ List.NoDup (children s)
  /\ Forall (fun p => (p < next_info s)%nat) (children s).

Definition target_ok (s : Leaflet) : Prop :=
  mt_target_pos (mode_transition s) = if folded s then 0%Q else 1%Q.

Definition ticks_ok (s : Leaflet) : Prop :=
  let c := ct_tick_id (child_transition s) in
  let m := mt_tick_id (mode_transition s) in
  0 <= c <= next_tick s /\ 0 <= m <= next_tick s /\ (c <> 0 -> c <> m)
  /\ forall id cb, In (id, cb) (ticks s) <->
       id <> 0 /\ ((cb = CHILD_TRANSITION_CB /\ id = c) \/ (cb = MODE_TRANSITION_CB /\ id = m)).

Definition Inv (s : Leaflet) : Prop := lists_ok s /\ ticks_ok s /\ target_ok s.

Definition target_of (s : Leaflet) := (folded s, mt_target_pos (mode_transition s)).

(** [keeps s s']: the step from [s] to [s'] preserves the invariants of the
    lists and of the tick callbacks, and leaves the folded flag and the
    target position alone. *)
Definition keeps (s s' : Leaflet) : Prop :=
  (lists_ok s -> lists_ok s') /\ (ticks_ok s -> ticks_ok s') /\ target_of s' = target_of s.

(** ** Example states *)

Definition example_widget (natural_width : Z) : GtkWidget :=
  mkWidget true false false (mkReq 10 10) (mkReq natural_width 50) false false alloc0.

(** A world with two visible widgets of natural width 100. *)
Definition example_world : gmap widget_ptr GtkWidget :=
  <[2%nat := example_widget 100]> (<[1%nat := example_widget 100]> ∅).

(** A mapped leaflet set up for sliding and swiping, holding both widgets. *)
Definition example_setup : list Operation :=
  [ OP_SET_TRANSITION_TYPE HDY_LEAFLET_TRANSITION_TYPE_SLIDE;
    OP_SET_CAN_SWIPE_BACK true; OP_SET_CAN_SWIPE_FORWARD true;
    OP_ADD 1%nat; OP_ADD 2%nat; ENV_SET_VISIBLE true; OP_MAP ].

(** The state a trace leads to from a fresh leaflet; the fresh leaflet itself
    where the trace fails. *)
Definition state_after (world : gmap widget_ptr GtkWidget) (ops : list Operation) : Leaflet :=
  default (hdy_leaflet_init world true) (run_all ops (hdy_leaflet_init world true)).

(** Whether the mode transition can be animated: the condition of
    [hdy_leaflet_start_mode_transition]. *)
Definition can_animate_mode (s : Leaflet) : bool :=
  self_mapped s
  && negb (mt_duration (mode_transition s) =? 0)
  && negb (bool_decide (transition_type s = HDY_LEAFLET_TRANSITION_TYPE_NONE))
  && enable_animations s.

(** The example leaflet allocated 150x50, too narrow for its two children,
    once the mode transition that folds it has run to its end. *)
Definition example_folded : Leaflet :=
  state_after example_world
    (example_setup
     ++ [OP_SIZE_ALLOCATE (mkAlloc 0 0 150 50); OP_FRAME_TICK 1 1000; OP_FRAME_TICK 1 1000000]).

(** The example leaflet folded by a narrow allocation with its mode
    transition still running, then swiped forward and released. *)
Definition example_swipe_while_folding : list Operation :=
  example_setup
  ++ [ OP_SIZE_ALLOCATE (mkAlloc 0 0 150 50);
       OP_BEGIN_SWIPE HDY_NAVIGATION_DIRECTION_FORWARD true;
       OP_END_SWIPE 200 1%Q ].

(** Two children of which the second must not become visible. *)
Definition example_disallowed_last : list Operation :=
  [ OP_ADD 1%nat; OP_ADD 2%nat;
    OP_SET_CHILD_PROPERTY 2%nat (CHILD_PROP_ALLOW_VISIBLE false);
    OP_SET_CAN_SWIPE_FORWARD true ].

(** A world with two visible widgets of natural width 1, and a horizontally
    homogeneous leaflet holding them. *)
Definition example_small_world : gmap widget_ptr GtkWidget :=
  <[2%nat := example_widget 1]> (<[1%nat := example_widget 1]> ∅).

Definition example_homogeneous : list Operation :=
  [ OP_SET_HOMOGENEOUS HDY_FOLD_UNFOLDED GTK_ORIENTATION_HORIZONTAL true;
    OP_ADD 1%nat; OP_ADD 2%nat ].

(** ** The fold decision, in the words of the specification *)

Definition sum_list (l : list Z) : Z := foldr Z.add 0 l.
Definition max_list (l : list Z) : Z := foldr Z.max 0 l.

(** The natural size GTK reports for the widget of child [p] along [o];
    [None] for a child without a widget. *)
Definition natural_size (s : Leaflet) (o : GtkOrientation) (p : info_ptr) : option Z :=
  w ← ci_widget (deref s p); Some (req_size o (w_nat (widgets s !!! w))).

Definition natural_sizes (s : Leaflet) (o : GtkOrientation) : list Z :=
  omap (natural_size s o) (children s).

(** "The accumulated natural sizes of its children": the sum of the natural
    sizes, replaced by the largest natural size times the number of children
    when the unfolded leaflet is homogeneous along its orientation. *)
Definition accumulated_natural_size (homogeneous_unfolded : bool) (sizes : list Z) : Z :=
  if homogeneous_unfolded then max_list sizes * Z.of_nat (length sizes)
  else sum_list sizes.

(** Folded exactly when the allocated size is strictly less than the
    accumulated natural size. *)
Definition should_fold (s : Leaflet) (allocation : GtkAllocation) : bool :=
  alloc_size (orientation s) allocation
  <? accumulated_natural_size (homogeneous s HDY_FOLD_UNFOLDED (orientation s))
       (natural_sizes s (orientation s)).

(** What the loops over the children read besides the two stores. *)
Definition layout_config (s : Leaflet) :=
  (children s, children_reversed s, orientation s, self_direction s, homogeneous s,
   (visible_child s, last_visible_child s, folded s, transition_type s, self_realized s),
   mode_transition s).

(** ** Views of the state *)

(** What the mode transition reads and writes besides its target. *)
Definition mode_view (s : Leaflet) :=
  (self_mapped s, transition_type s, enable_animations s, folded s,
   (mt_duration (mode_transition s), mt_current_pos (mode_transition s),
    mt_source_pos (mode_transition s), mt_tick_id (mode_transition s),
    mt_tracker (mode_transition s)),
   next_tick s).

(** The example leaflet realized, folded by an allocation of 150x50 and left
    to settle, with a forward swipe begun on it. *)
Definition example_swipe_begun : list Operation :=
  example_setup
  ++ [ OP_REALIZE 0 0; OP_SIZE_ALLOCATE (mkAlloc 0 0 150 50);
       OP_FRAME_TICK 1 1000; OP_FRAME_TICK 1 1000000;
       OP_BEGIN_SWIPE HDY_NAVIGATION_DIRECTION_FORWARD true ].

(** The double nearest to 0.1, which is what the C literal [0.1] denotes. *)
Definition example_tenth : Q := 3602879701896397 # 36028797018963968.

(** The state on which the loops of [hdy_leaflet_size_allocate] start: the
    allocation is recorded and the windows are moved. *)
Definition size_allocate_entry (allocation : GtkAllocation) (s : Leaflet) : Leaflet :=
  let s := with_self_allocation allocation s in
  if self_realized s then
    let s := match view_window s with
             | Some win => with_view_window (Some (mkWindow allocation (gw_shown win))) s
             | None => s
             end in
    move_resize_bin_window (Some allocation) true s
  else s.

(** The state without one of its stores: what a loop that only writes to the
    child records, or only to the widgets, leaves as it is. *)
Definition but_infos (s : Leaflet) : Leaflet := with_infos ∅ s.
Definition but_widgets (s : Leaflet) : Leaflet := with_widgets ∅ s.

(** No two children share a widget. *)
Definition widgets_distinct (s : Leaflet) : Prop :=
  forall p q, In p (children s) -> In q (children s) ->
    ci_widget (deref s p) = ci_widget (deref s q) -> p = q.

(** ** Phases of a swipe *)

(** What a child transition chooses between: the visible child and the child
    it replaces. *)
Definition selection (s : Leaflet) : option info_ptr * option info_ptr :=
  (visible_child s, last_visible_child s).

(** The part of the state the child transition reads and that
    [hdy_leaflet_child_progress_updated] leaves alone. *)
Definition transition_frame (s : Leaflet) :=
  (child_transition s, mode_transition s, ticks s, next_tick s,
   (folded s, self_mapped s, self_visible s, enable_animations s, transition_type s),
   (children s, infos s, in_destruction s)).

(** [settled v]: [v] is the visible child and no child is being replaced. *)
Definition settled (v : info_ptr) (s : Leaflet) : Prop :=
  visible_child s = Some v /\ last_visible_child s = None.

(** [swiping v]: a gesture drives a transition away from [v]. *)
Definition swiping (v : info_ptr) (s : Leaflet) : Prop :=
  ct_is_gesture_active (child_transition s) = true
  /\ last_visible_child s = Some v /\ visible_child s <> None.

(** [reverting v]: a cancelled transition is animating back to [v]. *)
Definition reverting (v : info_ptr) (s : Leaflet) : Prop :=
  ct_is_gesture_active (child_transition s) = false
  /\ ct_is_cancelled (child_transition s) = true
  /\ child_tracker_state s <> GTK_PROGRESS_STATE_AFTER
  /\ last_visible_child s = Some v /\ visible_child s <> None.

(** The frames GTK delivers, each to the callback registered under an
    identifier. *)
Definition frame_ticks (frames : list (Z * Z)) : list Operation :=
  map (fun f => OP_FRAME_TICK (fst f) (snd f)) frames.

(** A swipe in the direction [dir], dragged through [values] and released
    with the target [to], followed by the frames [frames]. *)
Definition swipe (dir : HdyNavigationDirection) (direct : bool) (values : list Q)
    (duration : Z) (to : Q) (frames : list (Z * Z)) : list Operation :=
  OP_BEGIN_SWIPE dir direct :: map OP_UPDATE_SWIPE values
  ++ OP_END_SWIPE duration to :: frame_ticks frames.

(** The phases of a swipe away from [v]: until it is released, and from then
    on. *)
Definition in_swipe (v : info_ptr) (s : Leaflet) : Prop :=
  settled v s \/ swiping v s.

Definition after_swipe (v : info_ptr) (s : Leaflet) : Prop :=
  ct_is_gesture_active (child_transition s) = false
  /\ (settled v s \/ reverting v s).

(** The folded example leaflet while a transition from its first child to
    its second one is being animated. *)
Definition example_switching : Leaflet :=
  state_after example_world
    (example_setup
     ++ [OP_SIZE_ALLOCATE (mkAlloc 0 0 150 50); OP_FRAME_TICK 1 1000; OP_FRAME_TICK 1 1000000;
         OP_SET_VISIBLE_CHILD 2%nat]).

(** A swipe back that is dragged half way, released with the target 0 and
    left 200 ms to settle, with the two frames that end its animation; and
    the same forward. *)
Definition example_swipe_back : list Operation :=
  swipe HDY_NAVIGATION_DIRECTION_BACK true [(-1 # 2)%Q] 200 0%Q [(3, 1000); (3, 1000000)].

Definition example_swipe_forward : list Operation :=
  swipe HDY_NAVIGATION_DIRECTION_FORWARD true [(1 # 2)%Q] 200 0%Q [(2, 1000); (2, 1000000)].

(** ** What size allocation needs to return *)

(** What the loops of the allocation read of the state besides the
    allocations they compute. *)
Definition allocation_frame (s : Leaflet) :=
  (children s, children_reversed s, orientation s, self_direction s, homogeneous s,
   visible_child s, infos s).

(** [same_layout s s']: the step from [s] to [s'] changes neither that frame
    nor which widgets are visible. *)
Definition same_layout (s s' : Leaflet) : Prop :=
  allocation_frame s' = allocation_frame s
  /\ forall a, gtk_widget_get_visible s' a = gtk_widget_get_visible s a.

(** ** The invariants hold in every reachable state *)

Create Rewrite HintDb skel.


(** * Further properties of the leaflet *)

(** ** Navigation, in terms of the list of children *)

(** The cells [find_swipeable_child] walks over from the visible child, which
    splits [children] into the cells before it and the cells after it. *)
Definition cells_towards (direction : HdyNavigationDirection)
    (before after : list info_ptr) : list info_ptr :=
  match direction with
  | HDY_NAVIGATION_DIRECTION_BACK => rev before
  | HDY_NAVIGATION_DIRECTION_FORWARD => after
  end.

(** The nearest of the cells whose allow-visible child property is TRUE. *)
Definition nearest_allowed (s : Leaflet) (cells : list info_ptr) : option info_ptr :=
  List.find (fun p => ci_allow_visible (deref s p)) cells.

(** ** Switching the visible child *)

(** The state [set_visible_child_info] has built when it reaches the child
    transition: the last visible child is hidden and forgotten, the visible
    child is recorded as the last one where the leaflet is visible and hidden
    otherwise, and the new child is made the visible one. *)
Definition switch_setup (new_visible_child : option info_ptr) (s : Leaflet) : Leaflet :=
  let s := match last_visible_child s with
           | Some last => gtk_widget_set_child_visible (ci_widget (deref s last)) false s
           | None => s
           end in
  let s := with_last_visible_child None s in
  let s :=
    match visible_child s with
    | Some old =>
        if is_nonnull (ci_widget (deref s old)) then
          if self_visible s then
            let s := with_last_visible_child (Some old) s in
            let allocation :=
              match ci_widget (deref s old) with
              | Some w => w_allocation (widgets s !!! w)
              | None => alloc0
              end in
            upd_ct (fun c =>
              set_ct_last_visible_widget_height (a_height allocation)
                (set_ct_last_visible_widget_width (a_width allocation) c)) s
          else gtk_widget_set_child_visible (ci_widget (deref s old)) false s
        else s
    | None => s
    end in
  let s := with_visible_child new_visible_child s in
  match new_visible_child with
  | Some p => gtk_widget_set_child_visible (ci_widget (deref s p)) true s
  | None => s
  end.

(** The transition [set_visible_child_info] asks for, once the direction is
    known. *)
Definition switch_transition (new_visible_child : option info_ptr)
    (transition_type : HdyLeafletTransitionType) (s : Leaflet)
  : HdyLeafletTransitionType * GtkPanDirection :=
  if (negb (is_nonnull new_visible_child) || negb (is_nonnull (last_visible_child s)))
     && is_direction_dependent_child_transition transition_type
  then (HDY_LEAFLET_TRANSITION_TYPE_NONE, GTK_PAN_DIRECTION_LEFT)
  else if is_direction_dependent_child_transition transition_type
  then (transition_type,
        get_pan_direction s (comes_first (children s) new_visible_child (last_visible_child s)))
  else (transition_type, GTK_PAN_DIRECTION_LEFT).

(** Whether [hdy_leaflet_start_child_transition] animates. *)
Definition can_animate_child (transition_type : HdyLeafletTransitionType)
    (transition_duration : Z) (s : Leaflet) : bool :=
  self_mapped s
  && (enable_animations s || ct_is_gesture_active (child_transition s))
  && negb (bool_decide (transition_type = HDY_LEAFLET_TRANSITION_TYPE_NONE))
  && negb (transition_duration =? 0)
  && is_nonnull (last_visible_child s)
  && (mt_tick_id (mode_transition s) =? 0).

(** What a switch of the visible child leaves alone. *)
Definition switch_frame (s : Leaflet) :=
  (children s, infos s, in_destruction s, folded s,
   (self_visible s, self_mapped s, enable_animations s, mt_tick_id (mode_transition s)),
   ct_is_gesture_active (child_transition s)).

(** The state on which [hdy_leaflet_start_child_transition] applies the
    progress: the transition is set up and its tracker started, or it is
    refused and its tracker finished. *)
Definition child_transition_prepared (transition_type : HdyLeafletTransitionType)
    (transition_duration : Z) (transition_direction : GtkPanDirection) (s : Leaflet)
  : Leaflet :=
  if can_animate_child transition_type transition_duration s then
    let s := upd_ct (fun c =>
               set_ct_is_cancelled false
                 (set_ct_progress 0%Q
                    (set_ct_end_progress 1%Q
                       (set_ct_start_progress 0%Q
                          (set_ct_first_frame_skipped false
                             (set_ct_active_direction transition_direction
                                (set_ct_active_type transition_type c))))))) s in
    if negb (ct_is_gesture_active (child_transition s)) then
      let s := hdy_leaflet_schedule_child_ticks s in
      upd_ct (set_ct_tracker
                (gtk_progress_tracker_start ((transition_duration * 1000) mod 2 ^ 32) 0 1%Q)) s
    else s
  else
    let s := hdy_leaflet_unschedule_child_ticks s in
    let s := upd_ct (set_ct_active_type HDY_LEAFLET_TRANSITION_TYPE_NONE) s in
    upd_ct (fun c => set_ct_tracker (gtk_progress_tracker_finish (ct_tracker c)) c) s.

(** Whether the state rules out an animated child transition whatever the
    transition asked for, when no gesture is active. *)
Definition child_animations_off (s : Leaflet) : bool :=
  negb (self_mapped s && enable_animations s && (mt_tick_id (mode_transition s) =? 0)).

(** The folded example leaflet with its second child named, and after a
    swipe forward that was cancelled. *)
Definition example_named : Leaflet :=
  state_after example_world
    (example_setup
     ++ [OP_SIZE_ALLOCATE (mkAlloc 0 0 150 50); OP_FRAME_TICK 1 1000; OP_FRAME_TICK 1 1000000;
         OP_SET_CHILD_PROPERTY 2%nat (CHILD_PROP_NAME (Some "second"%string))]).

Definition example_cancelled : Leaflet :=
  state_after example_world
    (example_setup
     ++ [OP_SIZE_ALLOCATE (mkAlloc 0 0 150 50); OP_FRAME_TICK 1 1000; OP_FRAME_TICK 1 1000000]
     ++ example_swipe_forward
     ++ [ENV_SET_ENABLE_ANIMATIONS false]).

(** ** The container *)

(** The record [hdy_leaflet_add] makes for a widget. *)
Definition new_child_info (w : widget_ptr) : HdyLeafletChildInfo :=
  mkInfo (Some w) None true alloc0 req0 req0 false.

(** A leaflet holding one visible widget, and one holding two of which the
    second is hidden. *)
Definition example_single : Leaflet :=
  state_after example_world [OP_ADD 1%nat].

Definition example_second_hidden : Leaflet :=
  state_after example_world [OP_ADD 1%nat; OP_ADD 2%nat; ENV_WIDGET_SET_VISIBLE 2%nat false].

(** The state [hdy_leaflet_add] has built when it looks at the visible
    child: the widget is parented and the new record is in both lists. *)
Definition added (w : widget_ptr) (s : Leaflet) : Leaflet :=
  let s := gtk_widget_set_child_visible (Some w) false s in
  let s := update_widget (Some w) (set_w_has_parent true) s in
  let child_info := next_info s in
  let s := with_next_info (S child_info) s in
  let s := with_infos (<[child_info := mkInfo (Some w) None true alloc0 req0 req0 false]>
                         (infos s)) s in
  let s := with_children (g_list_append (children s) child_info) s in
  with_children_reversed (g_list_prepend (children_reversed s) child_info) s.

(** The state [hdy_leaflet_remove] has built when it looks at the visible
    child: the record is out of both lists and freed. *)
Definition removed (child_info : info_ptr) (freed : HdyLeafletChildInfo) (s : Leaflet)
  : Leaflet :=
  let s := with_children (g_list_remove (children s) child_info) s in
  let s := with_children_reversed (g_list_remove (children_reversed s) child_info) s in
  free_child_info child_info freed s.

(** ** A swipe that completes *)

(** [heading_to c]: [c] is the visible child, and nothing will take that
    back: a gesture drives the transition or its cancelled flag is clear. *)
Definition heading_to (c : info_ptr) (s : Leaflet) : Prop :=
  visible_child s = Some c
  /\ (ct_is_gesture_active (child_transition s) = true
      \/ ct_is_cancelled (child_transition s) = false).

(** [landing_on c]: the swipe is released and not cancelled, [c] is the
    visible child, and the last visible child is forgotten as soon as the
    tracker is in its final state. *)
Definition landing_on (c : info_ptr) (s : Leaflet) : Prop :=
  visible_child s = Some c
  /\ ct_is_gesture_active (child_transition s) = false
  /\ ct_is_cancelled (child_transition s) = false
  /\ (child_tracker_state s = GTK_PROGRESS_STATE_AFTER -> last_visible_child s = None).

(** ** Measuring

    [hdy_leaflet_measure] asks GTK for the size of a child widget along one
    orientation.  What GTK answers belongs to the widget, not to the
    leaflet: [preferred_static o w] stands for what
    gtk_widget_get_preferred_width (horizontal) and
    gtk_widget_get_preferred_height (vertical) write for the widget [w],
    [preferred_for_size o w for_size] for
    gtk_widget_get_preferred_width_for_height and
    gtk_widget_get_preferred_height_for_width; a pair is the minimum and the
    natural size. *)

Definition get_preferred_size (same_orientation homogeneous_folded homogeneous_unfolded : bool)
    (visible_children : Z) (visible_child_progress : Q)
    (sum_nat max_min max_nat visible_min last_visible_min : Z) : Z * Z :=
  if same_orientation then
    (if homogeneous_folded then max_min
     else gint_of_gdouble
            (hdy_lerp (inject_Z visible_min) (inject_Z last_visible_min)
               visible_child_progress),
     if homogeneous_unfolded then max_nat * visible_children else sum_nat)
  else
    (if homogeneous_folded then max_min
     else gint_of_gdouble
            (hdy_lerp (inject_Z visible_min) (inject_Z last_visible_min)
               visible_child_progress),
     max_nat).

Section Measure.

Variable preferred_static : GtkOrientation -> GtkWidget -> Z * Z.
Variable preferred_for_size : GtkOrientation -> GtkWidget -> Z -> Z * Z.

(** The call [hdy_leaflet_measure] makes on a widget: the static one for a
    negative [for_size]. *)
Definition child_preferred (s : Leaflet) (o : GtkOrientation) (for_size : Z)
    (w : widget_ptr) : Z * Z :=
  if for_size <? 0 then preferred_static o (widgets s !!! w)
  else preferred_for_size o (widgets s !!! w) for_size.

(** The loop over the children: [visible_children], [max_min], [max_nat]
    and [sum_nat]. *)
Definition measure_children (s : Leaflet) (o : GtkOrientation) (for_size : Z)
    (l : list info_ptr) : Z * Z * Z * Z :=
  foldl (fun '(visible_children, max_min, max_nat, sum_nat) p =>
           match ci_widget (deref s p) with
           | None => (visible_children, max_min, max_nat, sum_nat)
           | Some w =>
               if negb (gtk_widget_get_visible s (Some w))
               then (visible_children, max_min, max_nat, sum_nat)
               else
                 let '(child_min, child_nat) := child_preferred s o for_size w in
                 (visible_children + 1, MAX max_min child_min, MAX max_nat child_nat,
                  sum_nat + child_nat)
           end)
        (0, 0, 0, 0) l.

(** The minimum GTK writes for the widget of [child]; the variable keeps its
    0 when there is no child, and when GTK refuses its NULL widget. *)
Definition child_minimum (s : Leaflet) (o : GtkOrientation) (for_size : Z)
    (child : option info_ptr) : Z :=
  match child with
  | Some p =>
      match ci_widget (deref s p) with
      | Some w => fst (child_preferred s o for_size w)
      | None => 0
      end
  | None => 0
  end.

(** [hdy_leaflet_measure]: the minimum and the natural size. *)
Definition hdy_leaflet_measure (s : Leaflet) (o : GtkOrientation) (for_size : Z) : Z * Z :=
  let '(visible_children, max_min, max_nat, sum_nat) :=
    measure_children s o for_size (children s) in
  let visible_min := child_minimum s o for_size (visible_child s) in
  let last_visible_min := child_minimum s o for_size (last_visible_child s) in
  let visible_child_progress :=
    if ct_interpolate_size (child_transition s) then ct_progress (child_transition s)
    else 1%Q in
  get_preferred_size (bool_decide (orientation s = o))
    (homogeneous s HDY_FOLD_FOLDED o) (homogeneous s HDY_FOLD_UNFOLDED o)
    visible_children visible_child_progress
    sum_nat max_min max_nat visible_min last_visible_min.

Definition hdy_leaflet_get_preferred_width (s : Leaflet) : Z * Z :=
  hdy_leaflet_measure s GTK_ORIENTATION_HORIZONTAL (-1).

Definition hdy_leaflet_get_preferred_height (s : Leaflet) : Z * Z :=
  hdy_leaflet_measure s GTK_ORIENTATION_VERTICAL (-1).

Definition hdy_leaflet_get_preferred_width_for_height (s : Leaflet) (height : Z) : Z * Z :=
  hdy_leaflet_measure s GTK_ORIENTATION_HORIZONTAL height.

Definition hdy_leaflet_get_preferred_height_for_width (s : Leaflet) (width : Z) : Z * Z :=
  hdy_leaflet_measure s GTK_ORIENTATION_VERTICAL width.

End Measure.

(** Widgets whose request does not depend on the size across: GTK answers
    with the sizes it gives to gtk_widget_get_preferred_size. *)
Definition constant_size (o : GtkOrientation) (w : GtkWidget) : Z * Z :=
  (req_size o (w_min w), req_size o (w_nat w)).

(** The natural sizes of the children whose widget is visible. *)
Definition visible_natural_size (s : Leaflet) (o : GtkOrientation) (p : info_ptr) : option Z :=
  w ← ci_widget (deref s p);
  if gtk_widget_get_visible s (Some w) then Some (req_size o (w_nat (widgets s !!! w)))
  else None.

Definition visible_natural_sizes (s : Leaflet) (o : GtkOrientation) : list Z :=
  omap (visible_natural_size s o) (children s).

(** A leaflet that is homogeneous along the horizontal orientation when
    unfolded, holding two widgets of which the second is hidden. *)
Definition example_hidden_homogeneous : Leaflet :=
  state_after example_world
    [ OP_SET_HOMOGENEOUS HDY_FOLD_UNFOLDED GTK_ORIENTATION_HORIZONTAL true;
      OP_ADD 1%nat; OP_ADD 2%nat; ENV_WIDGET_SET_VISIBLE 2%nat false ].

(** ** The unfolded layout *)

(** The children the unfolded allocation lays out: those with a widget that
    is visible. *)
Definition child_shown (s : Leaflet) (p : info_ptr) : bool :=
  is_nonnull (ci_widget (deref s p)) && gtk_widget_get_visible s (ci_widget (deref s p)).

(** The first loop of [hdy_leaflet_size_allocate_unfolded]: it sets the
    visible flags and counts the visible and the expanding children. *)
Definition count_visible_children (o : GtkOrientation) (directed_children : list info_ptr)
    (s : Leaflet) : Z * Z * Leaflet :=
  foldl (fun '(n_visible_children, n_expand_children, s) p =>
           let w := ci_widget (deref s p) in
           let visible := is_nonnull w && gtk_widget_get_visible s w in
           let s := update_info p (set_ci_visible visible) s in
           if visible then
             (n_visible_children + 1,
              if gtk_widget_compute_expand s w o then n_expand_children + 1
              else n_expand_children,
              s)
           else
             (n_visible_children, n_expand_children,
              update_info p (fun ci => set_ci_nat req0 (set_ci_min req0 ci)) s))
        (0, 0, s) directed_children.

(** Its last part, "Apply animations": the children before and after the
    visible child move by the pads, and the visible child grows by them. *)
Definition apply_animations (allocation : GtkAllocation) (o : GtkOrientation)
    (directed_children : list info_ptr) (visible_child : info_ptr) (s : Leaflet) : Leaflet :=
  let rest := gdouble_sub 1 (mt_current_pos (mode_transition s)) in
  let visible_alloc := ci_alloc (deref s visible_child) in
  let start_distance := alloc_pos o visible_alloc in
  let end_distance :=
    alloc_size o allocation - (alloc_pos o visible_alloc + alloc_size o visible_alloc) in
  let start_pad := gint_of_gdouble (gdouble_mul (inject_Z start_distance) rest) in
  let end_pad := gint_of_gdouble (gdouble_mul (inject_Z end_distance) rest) in
  let s := upd_mt (fun m =>
    set_mt_end_distance (inject_Z end_distance)
      (set_mt_start_distance (inject_Z start_distance) m)) s in
  let mode_transition_type := transition_type s in
  let under := is_under_start s mode_transition_type in
  let s := for_each (cells_until directed_children visible_child) (fun p s =>
    if negb (ci_visible (deref s p)) then s
    else if under then s
    else update_info p (fun ci =>
           set_ci_alloc (set_alloc_pos o (alloc_pos o (ci_alloc ci) - start_pad) (ci_alloc ci)) ci)
           s) s in
  let s := upd_mt (fun m =>
    set_mt_start_progress (if under then mt_current_pos m else 1%Q) m) s in
  let under := is_under_end s mode_transition_type in
  let s := for_each (cells_until (rev directed_children) visible_child) (fun p s =>
    if negb (ci_visible (deref s p)) then s
    else if under then s
    else update_info p (fun ci =>
           set_ci_alloc (set_alloc_pos o (alloc_pos o (ci_alloc ci) + end_pad) (ci_alloc ci)) ci)
           s) s in
  let s := upd_mt (fun m =>
    set_mt_end_progress (if under then mt_current_pos m else 1%Q) m) s in
  update_info visible_child (fun ci =>
    let a := ci_alloc ci in
    set_ci_alloc
      (set_alloc_size o (alloc_size o a + (start_pad + end_pad))
         (set_alloc_pos o (alloc_pos o a - start_pad) a)) ci) s.

(** The extent along [o] the child records of [l] flagged visible hold. *)
Definition records_extent (s : Leaflet) (o : GtkOrientation) (l : list info_ptr) : Z :=
  sum_list (omap (fun q => if ci_visible (deref s q)
                           then Some (alloc_size o (ci_alloc (deref s q))) else None) l).

(** The extent along [o] of the allocations that the widgets of the
    children of [l] shown in [s] have received in [s']. *)
Definition widgets_extent (s s' : Leaflet) (o : GtkOrientation) (l : list info_ptr) : Z :=
  sum_list (omap (fun q =>
                    c ← ci_widget (deref s q);
                    if gtk_widget_get_visible s (Some c)
                    then Some (alloc_size o (w_allocation (widgets s' !!! c)))
                    else None) l).

(** ** Destruction *)

(** The example leaflet once GTK has marked it as being destroyed. *)
Definition example_in_destruction : Leaflet :=
  with_in_destruction true (state_after example_world example_setup).

(** The example leaflet after its first widget has been hidden, before GTK
    notifies the leaflet. *)
Definition example_first_hidden : Leaflet :=
  update_widget (Some 1%nat) (set_w_visible false) (state_after example_world example_setup).

(** ** The children and their widgets *)

(** What the container owes its children: the list, the widget each record
    holds, and the widgets that have a parent.  A record without a widget
    and a widget without a parent count as absent. *)
Definition parented (g : GtkWidget) : option unit :=
  if w_has_parent g then Some tt else None.

Definition family (s : Leaflet) :=
  (children s, omap ci_widget (infos s), omap parented (widgets s)).

(** Every child holds a widget, the widget has a parent, and no two
    children share a widget. *)
Definition family_ok (s : Leaflet) : Prop :=
  (forall p, In p (children s) ->
     exists w, ci_widget (deref s p) = Some w /\ w_has_parent (widgets s !!! w) = true)
  /\ widgets_distinct s.

(** ** The folded layout during a child transition *)

(** The folded example leaflet during the swipe from its first child to its
    second one. *)
Definition example_swiped : Leaflet :=
  state_after example_world
    (example_setup
     ++ [ OP_SIZE_ALLOCATE (mkAlloc 0 0 150 50); OP_FRAME_TICK 1 1000; OP_FRAME_TICK 1 1000000;
          OP_BEGIN_SWIPE HDY_NAVIGATION_DIRECTION_FORWARD true; OP_UPDATE_SWIPE (1 # 2) ]).

(** ** Gestures and the frame clock *)

(** What tells whether a gesture or the frame clock drives the child
    transition. *)
Definition gesture_view (s : Leaflet) :=
  (ct_is_gesture_active (child_transition s), ct_tick_id (child_transition s)).

(** While a gesture drives the child transition, no tick callback is
    registered for it. *)
Definition gesture_ok (s : Leaflet) : Prop :=
  ct_is_gesture_active (child_transition s) = true -> ct_tick_id (child_transition s) = 0.

(** [settles s s']: the step keeps the gesture flag and that property. *)
Definition settles (s s' : Leaflet) : Prop :=
  ct_is_gesture_active (child_transition s') = ct_is_gesture_active (child_transition s)
  /\ (gesture_ok s -> gesture_ok s').
Lemma skeleton_with_infos v s : skeleton (with_infos v s) = skeleton s.
Proof. reflexivity. Qed.
Lemma skeleton_with_widgets v s : skeleton (with_widgets v s) = skeleton s.
Proof. reflexivity. Qed.
Lemma skeleton_with_visible_child v s : skeleton (with_visible_child v s) = skeleton s.
Proof. reflexivity. Qed.
Lemma skeleton_with_last_visible_child v s : skeleton (with_last_visible_child v s) = skeleton s.
Proof. reflexivity. Qed.
Lemma skeleton_with_bin_window v s : skeleton (with_bin_window v s) = skeleton s.
Proof. reflexivity. Qed.
Lemma skeleton_with_view_window v s : skeleton (with_view_window v s) = skeleton s.
Proof. reflexivity. Qed.
Lemma skeleton_with_move_bin_window_request v s :
  skeleton (with_move_bin_window_request v s) = skeleton s.
Proof. reflexivity. Qed.
Lemma skeleton_with_self_allocation v s : skeleton (with_self_allocation v s) = skeleton s.
Proof. reflexivity. Qed.
Lemma skeleton_update_info p f s : skeleton (update_info p f s) = skeleton s.
Proof. reflexivity. Qed.
Lemma skeleton_update_widget w f s : skeleton (update_widget w f s) = skeleton s.
Proof. destruct w; reflexivity. Qed.
Lemma skeleton_gtk_widget_set_child_visible w b s :
  skeleton (gtk_widget_set_child_visible w b s) = skeleton s.
Proof. apply skeleton_update_widget. Qed.
Lemma skeleton_gtk_widget_size_allocate w a s :
  skeleton (gtk_widget_size_allocate w a s) = skeleton s.
Proof. apply skeleton_update_widget. Qed.
Lemma skeleton_gtk_widget_show w s : skeleton (gtk_widget_show w s) = skeleton s.
Proof. apply skeleton_update_widget. Qed.

Lemma skeleton_upd_ct f s :
  (forall c, ct_tick_id (f c) = ct_tick_id c) -> skeleton (upd_ct f s) = skeleton s.
Proof. intros H. unfold skeleton, upd_ct. simpl. by rewrite H. Qed.

Lemma skeleton_upd_mt f s :
  (forall m, mt_tick_id (f m) = mt_tick_id m /\ mt_target_pos (f m) = mt_target_pos m) ->
  skeleton (upd_mt f s) = skeleton s.
Proof. intros H. unfold skeleton, upd_mt. simpl. by destruct (H (mode_transition s)) as [-> ->]. Qed.

#[global] Hint Rewrite skeleton_with_infos skeleton_with_widgets skeleton_with_visible_child
  skeleton_with_last_visible_child skeleton_with_bin_window skeleton_with_view_window
  skeleton_with_move_bin_window_request skeleton_with_self_allocation skeleton_update_info
  skeleton_update_widget skeleton_gtk_widget_set_child_visible skeleton_gtk_widget_size_allocate
  skeleton_gtk_widget_show : skel.

(** One layer: [skeleton (F x) = skeleton x] for a setter or primitive [F]. *)
Ltac skel_layer :=
  first
    [ apply skeleton_upd_ct; intros; reflexivity
    | apply skeleton_upd_mt; intros; split; reflexivity
    | apply skeleton_update_widget
    | reflexivity
    | solve [autorewrite with skel; reflexivity] ].

Lemma skeleton_for_each l body s :
  (forall p s, skeleton (body p s) = skeleton s) ->
  skeleton (for_each l body s) = skeleton s.
Proof.
  intros Hbody. unfold for_each. revert s.
  induction l as [|p l IH]; intros s; simpl; [reflexivity|].
  rewrite IH. apply Hbody.
Qed.

(** A loop that threads an accumulator besides the leaflet. *)
Lemma skeleton_foldl_snd {A} (f : A * Leaflet -> info_ptr -> A * Leaflet) l a s :
  (forall a s p, skeleton (snd (f (a, s) p)) = skeleton s) ->
  skeleton (snd (foldl f (a, s) l)) = skeleton s.
Proof.
  intros Hf. revert a s. induction l as [|p l IH]; intros a s; simpl; [reflexivity|].
  destruct (f (a, s) p) as [a' s1] eqn:E. rewrite IH.
  specialize (Hf a s p). by rewrite E in Hf.
Qed.

(** A composition of layers, bindings, conditionals and loops, peeled from
    the outside. *)
Ltac skel :=
  repeat first
    [ match goal with |- ?a = ?a => reflexivity end
    | match goal with
      | |- skeleton (let x := ?v in @?b x) = ?r =>
          change (let x := v in skeleton (b x) = r); intros ?
      | x := _ |- skeleton ?x = _ => subst x
      | E : foldl ?f (?a0, ?s0) ?l = (_, ?x) |- skeleton ?x = _ =>
          transitivity (skeleton s0);
          [ let H := fresh in
            pose proof (skeleton_foldl_snd f l a0 s0) as H; rewrite E in H; apply H;
            intros ? ? ?; cbn [snd]
          | clear E ]
      | |- skeleton (snd (_, _)) = _ => cbn [snd]
      | |- skeleton (snd (match ?c with _ => _ end)) = _ => destruct c eqn:?
      | |- skeleton (snd (let x := ?v in @?b x)) = ?r =>
          change (let x := v in skeleton (snd (b x)) = r); intros ?
      | |- skeleton (snd ?x) = _ => destruct x eqn:?; cbn [snd]
      | |- skeleton (for_each ?l ?body ?x) = _ =>
          transitivity (skeleton x); [apply skeleton_for_each; intros ? ? |]
      | |- skeleton (match ?c with _ => _ end) = _ => destruct c eqn:?
      | |- skeleton (?F ?x) = skeleton ?y =>
          transitivity (skeleton x); [skel_layer |]
      end ].

Lemma skeleton_move_resize_bin_window a r s :
  skeleton (move_resize_bin_window a r s) = skeleton s.
Proof. unfold move_resize_bin_window. skel. Qed.
#[global] Hint Rewrite skeleton_move_resize_bin_window : skel.

Lemma skeleton_child_progress_updated s s' :
  hdy_leaflet_child_progress_updated s = Some s' -> skeleton s' = skeleton s.
Proof.
  unfold hdy_leaflet_child_progress_updated. intros H.
  repeat case_match; simplify_option_eq; skel.
Qed.

Lemma keeps_refl s : keeps s s.
Proof. unfold keeps. by split_and!. Qed.

Lemma keeps_trans s1 s2 s3 : keeps s1 s2 -> keeps s2 s3 -> keeps s1 s3.
Proof.
  intros (Hl1 & Ht1 & He1) (Hl2 & Ht2 & He2).
  unfold keeps. split_and!; [auto | auto | congruence].
Qed.

Lemma keeps_skeleton s s' : skeleton s' = skeleton s -> keeps s s'.
Proof.
  unfold skeleton, keeps, lists_ok, ticks_ok, target_of. intros H.
  injection H as -> -> -> -> -> -> -> -> ->. by split_and!.
Qed.

Lemma filter_tick_In id (l : list (Z * TickCallback)) x cb :
  In (x, cb) (List.filter (fun e => negb (fst e =? id)) l) <-> In (x, cb) l /\ x <> id.
Proof.
  rewrite filter_In. simpl. rewrite negb_true_iff, Z.eqb_neq. tauto.
Qed.

Lemma keeps_schedule_child_ticks s : keeps s (hdy_leaflet_schedule_child_ticks s).
Proof.
  unfold hdy_leaflet_schedule_child_ticks.
  destruct (ct_tick_id (child_transition s) =? 0) eqn:Hc; [|apply keeps_refl].
  apply Z.eqb_eq in Hc. unfold keeps. split_and!; [done | | done].
  intros (Hc1 & Hm1 & Hne & Hin). unfold ticks_ok. simpl in *.
  split_and!; try lia.
  intros id cb. rewrite in_app_iff, Hin, Hc. simpl. split.
  - intros [(Hid & [[_ ?]|[-> ->]]) | [[= <- <-] | []]]; [lia | split; [done|by right] |].
    split; [lia | by left].
  - intros (Hid & [[-> ->] | [-> ->]]); [right; by left | left; split; [done | by right]].
Qed.


Lemma keeps_unschedule_child_ticks s : keeps s (hdy_leaflet_unschedule_child_ticks s).
Proof.
  unfold hdy_leaflet_unschedule_child_ticks.
  destruct (ct_tick_id (child_transition s) =? 0) eqn:Hc; [apply keeps_refl|].
  apply Z.eqb_neq in Hc. unfold keeps. split_and!; [done | | done].
  intros (Hc1 & Hm1 & Hne & Hin). unfold ticks_ok. simpl in *.
  split_and!; try lia.
  intros id cb. rewrite filter_tick_In, Hin. specialize (Hne Hc). split.
  - intros [(Hid & [[-> ->] | [-> ->]]) Hx]; [done | split; [done | by right]].
  - intros (Hid & [[-> ->] | [-> ->]]); [done |].
    split; [split; [done | by right] | congruence].
Qed.

(** [keeps s (F (G (... s)))], peeled from the outside: the layers that touch
    the tick callbacks by their lemmas, the others by [skeleton]. *)
Ltac keeps_layers :=
  cbv zeta;
  repeat first
    [ match goal with |- keeps ?s ?s => apply keeps_refl end
    | match goal with
      | |- keeps _ (match ?c with _ => _ end) => destruct c eqn:?
      | |- keeps ?s (hdy_leaflet_schedule_child_ticks ?x) =>
          apply (keeps_trans s x); [| apply keeps_schedule_child_ticks]
      | |- keeps ?s (hdy_leaflet_unschedule_child_ticks ?x) =>
          apply (keeps_trans s x); [| apply keeps_unschedule_child_ticks]
      | |- keeps ?s (?F ?x) =>
          apply (keeps_trans s x); [| apply keeps_skeleton; skel_layer]
      end ].

Lemma keeps_stop_child_transition s : keeps s (hdy_leaflet_stop_child_transition s).
Proof. unfold hdy_leaflet_stop_child_transition. keeps_layers. Qed.

Lemma keeps_child_progress_updated s s' :
  hdy_leaflet_child_progress_updated s = Some s' -> keeps s s'.
Proof. intros H. apply keeps_skeleton. by apply skeleton_child_progress_updated. Qed.

Lemma keeps_start_child_transition t d dir s s' :
  hdy_leaflet_start_child_transition t d dir s = Some s' -> keeps s s'.
Proof.
  unfold hdy_leaflet_start_child_transition. intros H.
  eapply keeps_trans; [| eapply keeps_child_progress_updated, H].
  keeps_layers.
Qed.

Lemma keeps_rebuild_reversed s :
  keeps s (with_children_reversed (g_list_reverse (g_list_copy (children s))) s).
Proof.
  unfold keeps. split_and!; [| done | done].
  intros (_ & Hnd & Hlt). by split_and!.
Qed.

Lemma keeps_set_visible_child_info_with sc new t d emit s s' :
  (forall i d s s', sc i d s = Some s' -> keeps s s') ->
  set_visible_child_info_with sc new t d emit s = Some s' -> keeps s s'.
Proof.
  intros Hsc. unfold set_visible_child_info_with.
  destruct (in_destruction s); [intros [= <-]; apply keeps_refl|].
  case_match; [intros [= <-]; apply keeps_refl|].
  cbv zeta.
  match goal with
  | |- context [ with_visible_child ?n ?x ] => set (s1 := with_visible_child n x)
  end.
  assert (keeps s s1) as H1 by (subst s1; keeps_layers).
  clearbody s1.
  match goal with
  | |- context [ match ?n with Some p => @?f p | None => s1 end ] =>
      set (s2 := match n with Some p => f p | None => s1 end)
  end.
  assert (keeps s s2) as H2.
  { apply (keeps_trans s s1); [done|]. subst s2. keeps_layers. }
  clearbody s2. clear H1.
  match goal with
  | |- context [ let '(_, _) := ?X in _ ] => destruct X as [t' dir']
  end.
  intros Hrun.
  apply bind_Some in Hrun as (s3 & Hs3 & Hrun).
  assert (keeps s s3) as H3.
  { destruct (folded s2); [| by simplify_eq].
    eapply keeps_trans; [apply H2 | eapply keeps_start_child_transition, Hs3]. }
  destruct emit; [| by simplify_eq].
  unfold gtk_container_get_children in Hrun.
  apply bind_Some in Hrun as (n & Hn & Hrun).
  eapply keeps_trans; [apply H3|].
  eapply keeps_trans; [apply keeps_rebuild_reversed | eapply Hsc, Hrun].
Qed.

Lemma keeps_switch_child i d s s' : hdy_leaflet_switch_child i d s = Some s' -> keeps s s'.
Proof.
  apply keeps_set_visible_child_info_with. intros ? ? ? ? [= <-]. apply keeps_refl.
Qed.

Lemma keeps_set_visible_child_info new t d emit s s' :
  set_visible_child_info new t d emit s = Some s' -> keeps s s'.
Proof. apply keeps_set_visible_child_info_with. apply keeps_switch_child. Qed.


Lemma skeleton_set_position pos s : skeleton (hdy_leaflet_set_position pos s) = skeleton s.
Proof. unfold hdy_leaflet_set_position. skel. Qed.

Lemma skeleton_prepare_child p s : skeleton (prepare_child p s) = skeleton s.
Proof. unfold prepare_child. skel. Qed.

Lemma skeleton_apply_child p s : skeleton (apply_child p s) = skeleton s.
Proof. unfold apply_child. skel. Qed.

Lemma skeleton_size_allocate_folded_animated t v a s :
  skeleton (size_allocate_folded_animated t v a s) = skeleton s.
Proof. unfold size_allocate_folded_animated. skel. Qed.

Lemma skeleton_size_allocate_folded a s s' :
  hdy_leaflet_size_allocate_folded a s = Some s' -> skeleton s' = skeleton s.
Proof.
  unfold hdy_leaflet_size_allocate_folded. intros H.
  apply bind_Some in H as (v & Hv & H).
  repeat case_match; simplify_eq; skel.
  all: try (rewrite skeleton_size_allocate_folded_animated; skel).
Qed.


Lemma skeleton_allocate_child o bh hs pce a acc p :
  skeleton (snd (allocate_child o bh hs pce a acc p)) = skeleton (snd acc).
Proof.
  unfold allocate_child. destruct acc as [[pos n] s]. cbn [snd].
  repeat case_match; simplify_eq; cbn [snd]; skel.
Qed.

Lemma skeleton_size_allocate_unfolded a s s' :
  hdy_leaflet_size_allocate_unfolded a s = Some s' -> skeleton s' = skeleton s.
Proof.
  unfold hdy_leaflet_size_allocate_unfolded. cbv zeta.
  match goal with
  | |- context [ foldl ?f (?a0, s) ?l ] =>
      pose proof (skeleton_foldl_snd f l a0 s) as H1;
      destruct (foldl f (a0, s) l) as [[nv ne] s1]
  end.
  cbn [snd] in H1. rewrite <- H1 by (intros [? ?] ? ?; skel). clear H1.
  intros H. apply bind_Some in H as ([[hs pce] nx] & _ & H).
  match type of H with
  | context [ foldl ?f (?a0, s1) ?l ] =>
      pose proof (skeleton_foldl_snd f l a0 s1) as H2;
      destruct (foldl f (a0, s1) l) as [[pos nx'] s2]
  end.
  cbn [snd] in H2. rewrite <- H2 by (intros [? ?] ? ?; apply skeleton_allocate_child).
  clear H2.
  apply bind_Some in H as (v & _ & H). simplify_eq. skel.
Qed.

Lemma keeps_add_mode_tick s :
  mt_tick_id (mode_transition s) = 0 ->
  keeps s (upd_mt (set_mt_tick_id (next_tick s + 1))
             (with_next_tick (next_tick s + 1)
                (with_ticks (ticks s ++ [(next_tick s + 1, MODE_TRANSITION_CB)]) s))).
Proof.
  intros Hm. unfold keeps. split_and!; [done | | done].
  intros (Hc1 & Hm1 & Hne & Hin). unfold ticks_ok. simpl in *.
  split_and!; try lia.
  intros id cb. rewrite in_app_iff, Hin, Hm. simpl. split.
  - intros [(Hid & [[-> ->]|[_ ?]]) | [[= <- <-] | []]];
      [split; [done | by left] | lia | split; [lia | by right]].
  - intros (Hid & [[-> ->] | [-> ->]]);
      [left; split; [done | by left] | right; by left].
Qed.

(** [hdy_leaflet_start_mode_transition] keeps the lists and the registered
    callbacks in order and the folded flag as it is; unless the target is
    the current one, it becomes the target. *)
Lemma start_mode_transition_inv target s :
  let s' := hdy_leaflet_start_mode_transition target s in
  (lists_ok s -> lists_ok s') /\ (ticks_ok s -> ticks_ok s') /\ folded s' = folded s
  /\ (gdouble_eq (mt_target_pos (mode_transition s)) target = false ->
      mt_target_pos (mode_transition s') = target).
Proof.
  intros s'.
  destruct (gdouble_eq (mt_target_pos (mode_transition s)) target) eqn:Heq.
  { subst s'. unfold hdy_leaflet_start_mode_transition. rewrite Heq. by split_and!. }
  assert (keeps (upd_mt (set_mt_target_pos target) s) s') as (Hl & Ht & He).
  { subst s'. unfold hdy_leaflet_start_mode_transition. rewrite Heq. cbv zeta.
    set (s1 := hdy_leaflet_stop_child_transition (upd_mt (set_mt_target_pos target) s)).
    apply (keeps_trans _ s1); [apply keeps_stop_child_transition|].
    clearbody s1.
    destruct (_ && _); [| apply keeps_skeleton, skeleton_set_position].
    match goal with
    | |- keeps _ (upd_mt _ ?x) => apply (keeps_trans _ x); [| apply keeps_skeleton; skel_layer]
    end.
    destruct (mt_tick_id _ =? 0) eqn:Hm; [| apply keeps_skeleton; skel_layer].
    apply Z.eqb_eq in Hm.
    apply (keeps_trans _ (upd_mt (fun m => set_mt_source_pos (mt_current_pos m) m) s1));
      [apply keeps_skeleton; skel_layer|].
    apply (keeps_add_mode_tick _ Hm). }
  injection He as Hf Hp.
  split_and!; [exact Hl | exact Ht | exact Hf | intros _; exact Hp].
Qed.

Lemma Inv_keeps s s' : keeps s s' -> Inv s -> Inv s'.
Proof.
  intros (Hl & Ht & He) (H1 & H2 & H3). unfold Inv, target_ok in *.
  injection He as -> ->. auto.
Qed.

Lemma Inv_set_folded f s : Inv s -> Inv (hdy_leaflet_set_folded f s).
Proof.
  intros (Hl & Ht & Hp). unfold hdy_leaflet_set_folded.
  destruct (eqb (folded s) f) eqn:Hf; [done|]. apply eqb_false_iff in Hf.
  cbv zeta. unfold target_ok in Hp.
  destruct f.
  - destruct (start_mode_transition_inv 0%Q (with_folded true s)) as (Hl' & Ht' & Hf' & Hp').
    unfold Inv, target_ok. rewrite Hf'. split_and!; [by apply Hl' | by apply Ht' |].
    apply Hp'. cbn. rewrite Hp. by destruct (folded s).
  - destruct (start_mode_transition_inv 1%Q (with_folded false s)) as (Hl' & Ht' & Hf' & Hp').
    unfold Inv, target_ok. rewrite Hf'. split_and!; [by apply Hl' | by apply Ht' |].
    apply Hp'. cbn. rewrite Hp. by destruct (folded s).
Qed.

Lemma Inv_skeleton s s' : skeleton s' = skeleton s -> Inv s -> Inv s'.
Proof. intros H. apply Inv_keeps, keeps_skeleton, H. Qed.

Lemma Inv_size_allocate a s s' :
  hdy_leaflet_size_allocate a s = Some s' -> Inv s -> Inv s'.
Proof.
  unfold hdy_leaflet_size_allocate. cbv zeta. intros H HI.
  apply bind_Some in H as (s3 & H3 & H). injection H as <-.
  eapply Inv_skeleton; [apply skeleton_for_each; intros; apply skeleton_apply_child|].
  match type of H3 with
  | context [ hdy_leaflet_set_folded ?f ?x ] =>
      assert (Inv (hdy_leaflet_set_folded f x)) as H2
        by (apply Inv_set_folded; eapply Inv_skeleton; [| exact HI]; skel;
            apply skeleton_prepare_child);
      set (s2 := hdy_leaflet_set_folded f x) in *; clearbody s2
  end.
  destruct (fold_decision _ _).
  - eapply Inv_skeleton; [eapply skeleton_size_allocate_folded, H3 | done].
  - eapply Inv_skeleton; [eapply skeleton_size_allocate_unfolded, H3 | done].
Qed.


(** *** The child lists *)

Lemma g_list_remove_filter l p :
  List.NoDup l -> g_list_remove l p = List.filter (fun x => negb (Nat.eqb x p)) l.
Proof.
  induction 1 as [|x l Hx Hnd IH]; simpl; [reflexivity|].
  destruct (Nat.eqb x p) eqn:E; simpl.
  - apply Nat.eqb_eq in E. subst x. symmetry. apply forallb_filter_id.
    apply forallb_forall. intros y Hy. apply negb_true_iff, Nat.eqb_neq.
    intros Heq. subst. contradiction.
  - by rewrite IH.
Qed.

Lemma lists_ok_remove p s :
  lists_ok s ->
  lists_ok (with_children_reversed (g_list_remove (children_reversed s) p)
              (with_children (g_list_remove (children s) p) s)).
Proof.
  intros (Hrev & Hnd & Hlt). unfold lists_ok. simpl.
  rewrite Hrev, !g_list_remove_filter by (try apply List.NoDup_rev; done).
  split_and!.
  - apply filter_rev.
  - by apply List.NoDup_filter.
  - apply List.Forall_forall. intros x Hx. apply filter_In in Hx as [Hx _].
    rewrite List.Forall_forall in Hlt. by apply Hlt.
Qed.

Lemma lists_ok_add p s :
  p = next_info s ->
  lists_ok s ->
  lists_ok (with_children_reversed (g_list_prepend (children_reversed s) p)
              (with_children (g_list_append (children s) p) (with_next_info (S p) s))).
Proof.
  intros -> (Hrev & Hnd & Hlt). unfold lists_ok, g_list_prepend, g_list_append. simpl.
  rewrite List.Forall_forall in Hlt. split_and!.
  - by rewrite rev_app_distr, Hrev.
  - apply List.NoDup_rev in Hnd. rewrite <- (rev_involutive (children s ++ _)).
    apply List.NoDup_rev. rewrite rev_app_distr. simpl. constructor; [| done].
    intros Hin%in_rev%Hlt. lia.
  - apply List.Forall_app. split; [| repeat constructor].
    apply List.Forall_forall. intros x Hx. apply Hlt in Hx. lia.
Qed.


(** *** Every operation preserves the invariants *)

Lemma Inv_set_visible_child_info new t d emit s s' :
  set_visible_child_info new t d emit s = Some s' -> Inv s -> Inv s'.
Proof. intros H. eapply Inv_keeps, keeps_set_visible_child_info, H. Qed.

Lemma Inv_add w s s' : hdy_leaflet_add w s = Some s' -> Inv s -> Inv s'.
Proof.
  unfold hdy_leaflet_add. destruct (w_has_parent _); [by intros [= <-]|].
  cbv zeta. intros H HI.
  match type of H with
  | context [ with_children_reversed ?r (with_children ?c ?x) ] =>
      assert (Inv (with_children_reversed r (with_children c x))) as H1;
      [| set (s1 := with_children_reversed r (with_children c x)) in *; clearbody s1 ]
  end.
  { destruct HI as (Hl & Ht & Hp). split_and!; [| exact Ht | exact Hp].
    apply (lists_ok_add (next_info s) s eq_refl) in Hl. exact Hl. }
  destruct (_ && _); [| by simplify_eq].
  eapply Inv_set_visible_child_info; [exact H | exact H1].
Qed.

Lemma Inv_remove w freed s s' :
  hdy_leaflet_remove w freed s = Some s' -> Inv s -> Inv s'.
Proof.
  unfold hdy_leaflet_remove. destruct (find_child_info_for_widget _ _) as [p|];
    [| by intros [= <-]].
  cbv zeta. intros H HI.
  apply bind_Some in H as (s2 & H2 & H). injection H as <-.
  eapply Inv_skeleton; [apply (skeleton_update_widget (Some w))|].
  match type of H2 with
  | context [ free_child_info p freed ?x ] =>
      assert (Inv (free_child_info p freed x)) as H1;
      [| set (s1 := free_child_info p freed x) in *; clearbody s1 ]
  end.
  { eapply Inv_skeleton; [apply skeleton_with_infos|].
    destruct HI as (Hl & Ht & Hp). split_and!; [| exact Ht | exact Hp].
    exact (lists_ok_remove p s Hl). }
  destruct (ptr_eqb _ _); [| by simplify_eq].
  eapply Inv_set_visible_child_info; [exact H2 | exact H1].
Qed.

Lemma Inv_callback_loop (callback : option widget_ptr -> Leaflet -> option Leaflet)
    (l : list info_ptr) acc s1 :
  (forall w s s', callback w s = Some s' -> Inv s -> Inv s') ->
  foldl (fun acc p => s ← acc; callback (ci_widget (deref s p)) s) acc l = Some s1 ->
  (forall s0, acc = Some s0 -> Inv s0) -> Inv s1.
Proof.
  intros Hcb. revert acc. induction l as [|p l IH]; intros acc; simpl.
  - intros -> Hacc. by apply Hacc.
  - intros H Hacc. eapply IH; [exact H|].
    intros s0 Hs0. apply bind_Some in Hs0 as (s2 & -> & Hs0).
    eapply Hcb; [exact Hs0 | by apply Hacc].
Qed.

Lemma Inv_forall callback s s' :
  (forall w s s', callback w s = Some s' -> Inv s -> Inv s') ->
  hdy_leaflet_forall callback s = Some s' -> Inv s -> Inv s'.
Proof.
  intros Hcb. unfold hdy_leaflet_forall. cbv zeta. intros H HI.
  apply bind_Some in H as (s1 & H1 & H). injection H as <-.
  assert (Inv s1) as (Hl & Ht & Hp).
  { eapply Inv_callback_loop; [exact Hcb | exact H1 |]. by intros ? [= <-]. }
  split_and!; [| exact Ht | exact Hp].
  destruct Hl as (_ & Hnd & Hlt). by split_and!.
Qed.

Lemma Inv_run_callback cb w s s' : run_callback cb w s = Some s' -> Inv s -> Inv s'.
Proof.
  destruct cb as [|freed], w as [a|]; simpl; try (by intros [= <-]). apply Inv_remove.
Qed.

Lemma Inv_child_progress_updated s s' :
  hdy_leaflet_child_progress_updated s = Some s' -> Inv s -> Inv s'.
Proof. intros H. eapply Inv_skeleton, skeleton_child_progress_updated, H. Qed.

(** The state once the tick callback of the child transition is gone: the
    skeleton is the one [hdy_leaflet_unschedule_child_ticks] leaves. *)
Lemma Inv_child_tick_removed id s s1 :
  Inv s -> ct_tick_id (child_transition s) = id -> id <> 0 ->
  skeleton s1 = skeleton s ->
  Inv (gtk_widget_remove_tick_callback id (upd_ct (set_ct_tick_id 0) s1)).
Proof.
  intros (Hl & Ht & Hp) Hid Hne Hs.
  unfold skeleton in Hs. injection Hs as H1 H2 H3 H4 H5 H6 H7 H8 H9.
  split_and!.
  - unfold lists_ok in *. simpl. by rewrite H1, H2, H3.
  - destruct Ht as (Hc1 & Hm1 & Hdiff & Hin). unfold ticks_ok. simpl.
    rewrite H4, H5, H7. split_and!; try lia.
    intros x cb. rewrite filter_tick_In, Hin, Hid. split.
    + intros [(Hx & [[-> ->] | [-> ->]]) Hxid]; [done | split; [done | by right]].
    + intros (Hx & [[-> ->] | [-> ->]]); [done |].
      split; [split; [done | by right] |]. intros E. apply Hdiff; congruence.
  - unfold target_ok in *. simpl. by rewrite H8, H9.
Qed.

Lemma Inv_mode_tick_removed id s s1 :
  Inv s -> mt_tick_id (mode_transition s) = id -> id <> 0 ->
  skeleton s1 = skeleton s ->
  Inv (gtk_widget_remove_tick_callback id (upd_mt (set_mt_tick_id 0) s1)).
Proof.
  intros (Hl & Ht & Hp) Hid Hne Hs.
  unfold skeleton in Hs. injection Hs as H1 H2 H3 H4 H5 H6 H7 H8 H9.
  split_and!.
  - unfold lists_ok in *. simpl. by rewrite H1, H2, H3.
  - destruct Ht as (Hc1 & Hm1 & Hdiff & Hin). unfold ticks_ok. simpl.
    rewrite H4, H5, H6. split_and!; try lia.
    intros x cb. rewrite filter_tick_In, Hin, Hid. split.
    + intros [(Hx & [[-> ->] | [-> ->]]) Hxid]; [split; [done | by left] | done].
    + intros (Hx & [[-> ->] | [-> ->]]); [| done].
      split; [split; [done | by left] |]. intros <-. by apply Hdiff.
  - unfold target_ok in *. simpl. by rewrite H8, H9.
Qed.

Lemma skeleton_child_transition_cb t s s1 again :
  hdy_leaflet_child_transition_cb t s = Some (s1, again) ->
  (again = true /\ skeleton s1 = skeleton s)
  \/ (again = false /\ exists s0, s1 = upd_ct (set_ct_tick_id 0) s0 /\ skeleton s0 = skeleton s).
Proof.
  unfold hdy_leaflet_child_transition_cb. cbv zeta. intros H.
  apply bind_Some in H as (s0 & H0 & H).
  apply skeleton_child_progress_updated in H0.
  assert (skeleton s0 = skeleton s) as Hs by (rewrite H0; skel).
  destruct (bool_decide _); injection H as <- <-; [right | left]; eauto.
Qed.

Lemma skeleton_mode_transition_cb t s :
  let r := hdy_leaflet_mode_transition_cb t s in
  (snd r = true /\ skeleton (fst r) = skeleton s)
  \/ (snd r = false /\ exists s0, fst r = upd_mt (set_mt_tick_id 0) s0 /\ skeleton s0 = skeleton s).
Proof.
  unfold hdy_leaflet_mode_transition_cb. cbv zeta.
  match goal with
  | |- context [ hdy_leaflet_set_position ?p ?x ] =>
      assert (skeleton (hdy_leaflet_set_position p x) = skeleton s) as Hs
        by (rewrite skeleton_set_position; skel);
      set (s0 := hdy_leaflet_set_position p x) in *; clearbody s0
  end.
  destruct (bool_decide _); simpl; [right | left]; eauto.
Qed.

Lemma Inv_frame_tick id t s s' : gtk_frame_tick id t s = Some s' -> Inv s -> Inv s'.
Proof.
  unfold gtk_frame_tick. intros H HI.
  destruct (List.find _ (ticks s)) as [[id' cb]|] eqn:Hfind; [| by simplify_eq].
  apply find_some in Hfind as [Hin Heq]. simpl in Heq. apply Z.eqb_eq in Heq. subst id'.
  pose proof HI as (_ & (_ & _ & _ & Hticks) & _).
  apply Hticks in Hin as (Hne & Hcb).
  destruct cb.
  - destruct Hcb as [[_ Hid] | [? _]]; [| done].
    apply bind_Some in H as ([s1 again] & Hcb & H). injection H as <-.
    apply skeleton_child_transition_cb in Hcb as [[-> Hs] | (-> & s0 & -> & Hs)].
    + by eapply Inv_skeleton.
    + by apply (Inv_child_tick_removed id s).
  - destruct Hcb as [[? _] | [_ Hid]]; [done |].
    injection H as <-.
    destruct (skeleton_mode_transition_cb t s) as [[-> Hs] | (-> & s0 & -> & Hs)].
    + by eapply Inv_skeleton.
    + by apply (Inv_mode_tick_removed id s).
Qed.


Lemma Inv_begin_swipe direction direct s s' :
  hdy_leaflet_begin_swipe direction direct s = Some s' -> Inv s -> Inv s'.
Proof.
  unfold hdy_leaflet_begin_swipe. intros H HI.
  destruct (ct_tick_id (child_transition s) >? 0) eqn:Hc.
  - injection H as <-. cbv zeta.
    eapply Inv_skeleton;
      [| apply (Inv_child_tick_removed (ct_tick_id (child_transition s)) s s HI eq_refl);
         [lia | reflexivity]].
    reflexivity.
  - apply bind_Some in H as (child & _ & H).
    destruct child as [c|]; [| by simplify_eq].
    eapply Inv_set_visible_child_info; [exact H|].
    eapply Inv_skeleton; [| exact HI]. skel.
Qed.

Lemma Inv_update_swipe value s s' :
  hdy_leaflet_update_swipe value s = Some s' -> Inv s -> Inv s'.
Proof.
  unfold hdy_leaflet_update_swipe. cbv zeta. intros H HI.
  eapply Inv_child_progress_updated; [exact H|].
  eapply Inv_skeleton; [| exact HI]. skel.
Qed.

Lemma Inv_end_swipe duration to s s' :
  hdy_leaflet_end_swipe duration to s = Some s' -> Inv s -> Inv s'.
Proof.
  unfold hdy_leaflet_end_swipe. intros H HI.
  destruct (negb _); [by simplify_eq|]. cbv zeta in H.
  eapply Inv_child_progress_updated; [exact H|].
  eapply Inv_keeps; [| exact HI]. keeps_layers.
Qed.

Lemma Inv_navigate direction s r :
  hdy_leaflet_navigate direction s = Some r -> Inv s -> Inv (fst r).
Proof.
  unfold hdy_leaflet_navigate. intros H HI.
  destruct (negb _); [by simplify_eq|].
  apply bind_Some in H as (child & _ & H).
  destruct child as [c|]; [| by simplify_eq].
  apply bind_Some in H as (s1 & H1 & H). injection H as <-.
  eapply Inv_set_visible_child_info; [exact H1 | exact HI].
Qed.

Lemma Inv_set_child_property w prop s s' :
  hdy_leaflet_set_child_property w prop s = Some s' -> Inv s -> Inv s'.
Proof.
  unfold hdy_leaflet_set_child_property. intros H HI.
  destruct (find_child_info_for_widget s (Some w)) as [p|]; [| by simplify_eq].
  destruct prop; [by simplify_eq|]. cbv zeta in H.
  destruct (_ && _); [| by simplify_eq].
  eapply Inv_set_visible_child_info; [exact H | exact HI].
Qed.

Lemma Inv_child_visibility_notify_cb w s s' :
  hdy_leaflet_child_visibility_notify_cb w s = Some s' -> Inv s -> Inv s'.
Proof.
  unfold hdy_leaflet_child_visibility_notify_cb. cbv zeta. intros H HI.
  repeat case_match; simplify_eq; try done;
    eapply Inv_set_visible_child_info; eauto.
Qed.

Lemma Inv_init world animations : Inv (hdy_leaflet_init world animations).
Proof.
  unfold Inv, lists_ok, ticks_ok, target_ok. simpl.
  split_and!; try done; try (by constructor).
  intros x cb. split; [intros [] | intros (Hx & [[_ ->] | [_ ->]]); done].
Qed.

Lemma Inv_run op s s' : run op s = Some s' -> Inv s -> Inv s'.
Proof.
  destruct op; simpl; intros H HI.
  - by eapply Inv_add.
  - by eapply Inv_remove.
  - eapply Inv_forall; [| exact H | exact HI]. intros ? ? ?. apply Inv_run_callback.
  - unfold hdy_leaflet_set_visible_child in H.
    destruct (find_child_info_for_widget _ _); [| by simplify_eq].
    by eapply Inv_set_visible_child_info.
  - unfold hdy_leaflet_set_visible_child_name in H.
    destruct (find_child_info_for_name _ _); [| by simplify_eq].
    by eapply Inv_set_visible_child_info.
  - apply fmap_Some in H as (r & Hr & ->). by eapply Inv_navigate.
  - injection H as <-. eapply Inv_skeleton; [| exact HI].
    unfold hdy_leaflet_set_homogeneous. by destruct (eqb _ _).
  - injection H as <-. eapply Inv_skeleton; [| exact HI].
    unfold hdy_leaflet_set_transition_type. by destruct (bool_decide _).
  - injection H as <-. eapply Inv_skeleton; [| exact HI].
    unfold hdy_leaflet_set_mode_transition_duration. by destruct (_ =? _).
  - injection H as <-. eapply Inv_skeleton; [| exact HI].
    unfold hdy_leaflet_set_child_transition_duration. by destruct (_ =? _).
  - injection H as <-. eapply Inv_skeleton; [| exact HI].
    unfold hdy_leaflet_set_interpolate_size. by destruct (eqb _ _).
  - injection H as <-. eapply Inv_skeleton; [| exact HI].
    unfold hdy_leaflet_set_can_swipe_back. by destruct (eqb _ _).
  - injection H as <-. eapply Inv_skeleton; [| exact HI].
    unfold hdy_leaflet_set_can_swipe_forward. by destruct (eqb _ _).
  - injection H as <-. eapply Inv_skeleton; [| exact HI].
    unfold hdy_leaflet_set_orientation. by destruct (bool_decide _).
  - by eapply Inv_set_child_property.
  - by eapply Inv_size_allocate.
  - injection H as <-. by eapply Inv_skeleton; [| exact HI].
  - injection H as <-. by eapply Inv_skeleton; [| exact HI].
  - injection H as <-. by eapply Inv_skeleton; [| exact HI].
  - injection H as <-. by eapply Inv_skeleton; [| exact HI].
  - eapply Inv_keeps; [eapply keeps_switch_child, H | exact HI].
  - by eapply Inv_begin_swipe.
  - by eapply Inv_update_swipe.
  - by eapply Inv_end_swipe.
  - by eapply Inv_frame_tick.
  - eapply Inv_child_visibility_notify_cb; [exact H|].
    by eapply Inv_skeleton; [| exact HI].
  - injection H as <-. by eapply Inv_skeleton; [| exact HI].
  - injection H as <-. by eapply Inv_skeleton; [| exact HI].
  - injection H as <-. by eapply Inv_skeleton; [| exact HI].
  - injection H as <-. by eapply Inv_skeleton; [| exact HI].
  - injection H as <-. by eapply Inv_skeleton; [| exact HI].
Qed.

Lemma reachable_Inv s : reachable s -> Inv s.
Proof.
  induction 1 as [world animations | op s s' _ IH Hrun]; [apply Inv_init|].
  by eapply Inv_run.
Qed.

(** ** Reachable states *)

Lemma run_all_snoc ops op s :
  run_all (ops ++ [op]) s = run_all ops s ≫= run op.
Proof. unfold run_all. by rewrite foldl_snoc. Qed.

Lemma run_all_app ops1 ops2 s :
  run_all (ops1 ++ ops2) s = run_all ops1 s ≫= run_all ops2.
Proof.
  induction ops2 as [|op ops2 IH] using rev_ind.
  - rewrite app_nil_r. destruct (run_all ops1 s); reflexivity.
  - rewrite app_assoc, !run_all_snoc, IH. destruct (run_all ops1 s); [| reflexivity].
    simpl. by rewrite run_all_snoc.
Qed.

Lemma run_all_cons op ops s :
  run_all (op :: ops) s = run op s ≫= run_all ops.
Proof. apply (run_all_app [op] ops s). Qed.

Lemma reachable_run_all ops s s' : reachable s -> run_all ops s = Some s' -> reachable s'.
Proof.
  revert s'. induction ops as [|op ops IH] using rev_ind; intros s' Hs.
  - by intros [= <-].
  - rewrite run_all_snoc. intros H. apply bind_Some in H as (s1 & H1 & H).
    eapply reachable_step; [by apply IH | exact H].
Qed.

(** Reading a value off the outcome of an evaluation. *)
Lemma fmap_eval {A B} (f : A -> B) (r : option A) (a : A) (b : B) :
  f <$> r = Some b -> r = Some a -> f a = b.
Proof. intros H ->. by injection H. Qed.

Lemma reachable_state_after world ops :
  is_Some (run_all ops (hdy_leaflet_init world true)) -> reachable (state_after world ops).
Proof.
  intros [s Hs]. unfold state_after. rewrite Hs. simpl.
  eapply reachable_run_all; [apply reachable_init | exact Hs].
Qed.

(** ** C10: the reversed list *)



(** ** C7: the running flag *)

(** C7.  In every reachable state [hdy_leaflet_get_child_transition_running]
    is TRUE exactly when GTK holds a tick callback of the child transition or
    a swipe gesture is active. *)
Theorem child_transition_running_iff s :
  reachable s ->
  hdy_leaflet_get_child_transition_running s = true
  <-> (exists id, In (id, CHILD_TRANSITION_CB) (ticks s))
      \/ ct_is_gesture_active (child_transition s) = true.
Proof.
  intros H. destruct (reachable_Inv s H) as (_ & (Hc & _ & _ & Hin) & _).
  unfold hdy_leaflet_get_child_transition_running.
  rewrite orb_true_iff, negb_true_iff, Z.eqb_neq.
  split; (intros [Ht | Hg]; [left | by right]).
  - exists (ct_tick_id (child_transition s)). apply Hin. split; [done | by left].
  - destruct Ht as [id Hid]. apply Hin in Hid as (Hne & [[_ <-] | [? _]]); done.
Qed.

Lemma child_transition_running_iff_witness :
  reachable example_switching
  /\ hdy_leaflet_get_child_transition_running example_switching = true
  /\ ((exists id, In (id, CHILD_TRANSITION_CB) (ticks example_switching))
      \/ ct_is_gesture_active (child_transition example_switching) = true).
Proof.
  assert (reachable example_switching) as H.
  { apply reachable_state_after. vm_compute. eauto. }
  assert (hdy_leaflet_get_child_transition_running example_switching = true) as Hrun
    by (vm_compute; reflexivity).
  split; [exact H | split; [exact Hrun |]].
  exact (proj1 (child_transition_running_iff example_switching H) Hrun).
Defined.

(** ** C6: folding starts the mode transition *)

Lemma mode_view_stop_child_transition s :
  mode_view (hdy_leaflet_stop_child_transition s) = mode_view s
  /\ mt_target_pos (mode_transition (hdy_leaflet_stop_child_transition s))
     = mt_target_pos (mode_transition s)
  /\ (forall e, In e (ticks (hdy_leaflet_stop_child_transition s)) -> In e (ticks s)).
Proof.
  unfold hdy_leaflet_stop_child_transition, hdy_leaflet_unschedule_child_ticks,
    gtk_widget_set_child_visible, update_widget.
  cbv zeta. destruct (negb _); simpl;
    (destruct (last_visible_child s) as [last|]; simpl; [destruct (ci_widget _); simpl|]);
    split_and!; try reflexivity; try done.
  all: intros e He; by apply filter_In in He as [He _].
Qed.

Lemma mode_view_set_position pos s :
  let s' := hdy_leaflet_set_position pos s in
  mt_current_pos (mode_transition s') = pos
  /\ mt_target_pos (mode_transition s') = mt_target_pos (mode_transition s)
  /\ mt_source_pos (mode_transition s') = mt_source_pos (mode_transition s)
  /\ mt_tick_id (mode_transition s') = mt_tick_id (mode_transition s)
  /\ mt_tracker (mode_transition s') = mt_tracker (mode_transition s)
  /\ folded s' = folded s /\ ticks s' = ticks s.
Proof.
  unfold hdy_leaflet_set_position, gtk_widget_set_child_visible, update_widget. cbv zeta.
  destruct (_ && _); [destruct (hdy_leaflet_get_visible_child _)|]; by split_and!.
Qed.

(** The branch of [hdy_leaflet_start_mode_transition] that animates. *)
Lemma mode_animation_started s :
  ticks_ok s ->
  let s1 := upd_mt (fun m => set_mt_source_pos (mt_current_pos m) m) s in
  let s2 := if mt_tick_id (mode_transition s1) =? 0 then
              let '(id, s) := gtk_widget_add_tick_callback MODE_TRANSITION_CB s1 in
              upd_mt (set_mt_tick_id id) s
            else s1 in
  let s' := upd_mt (fun m =>
              set_mt_tracker (gtk_progress_tracker_start ((mt_duration m * 1000) mod 2 ^ 32) 0 1%Q) m) s2 in
  let m := mode_transition s in
  let m' := mode_transition s' in
  folded s' = folded s /\ mt_target_pos m' = mt_target_pos m
  /\ mt_source_pos m' = mt_current_pos m /\ mt_current_pos m' = mt_current_pos m
  /\ mt_tracker m' = gtk_progress_tracker_start ((mt_duration m * 1000) mod 2 ^ 32) 0 1%Q
  /\ mt_tick_id m' <> 0 /\ In (mt_tick_id m', MODE_TRANSITION_CB) (ticks s').
Proof.
  intros (_ & Hm1 & _ & Hin). cbv zeta.
  change (mt_tick_id (mode_transition
            (upd_mt (fun m => set_mt_source_pos (mt_current_pos m) m) s)))
    with (mt_tick_id (mode_transition s)).
  destruct (mt_tick_id (mode_transition s) =? 0) eqn:Hz.
  - cbn. split_and!; try reflexivity; [lia|]. apply in_app_iff. right. by left.
  - apply Z.eqb_neq in Hz. cbn. split_and!; try reflexivity; [done|].
    apply Hin. split; [done | by right].
Qed.

(** [hdy_leaflet_start_mode_transition] with a target that is not the current
    one: the target is stored; where the transition can be animated the
    animation starts from the current position with a tick callback and a
    started tracker, and otherwise the position jumps to the target and
    nothing is scheduled or started. *)
Lemma start_mode_transition_spec target s :
  gdouble_eq (mt_target_pos (mode_transition s)) target = false ->
  ticks_ok s ->
  let s' := hdy_leaflet_start_mode_transition target s in
  let m := mode_transition s in
  let m' := mode_transition s' in
  folded s' = folded s /\ mt_target_pos m' = target
  /\ (can_animate_mode s = true ->
      mt_source_pos m' = mt_current_pos m /\ mt_current_pos m' = mt_current_pos m
      /\ mt_tracker m' = gtk_progress_tracker_start ((mt_duration m * 1000) mod 2 ^ 32) 0 1%Q
      /\ mt_tick_id m' <> 0 /\ In (mt_tick_id m', MODE_TRANSITION_CB) (ticks s'))
  /\ (can_animate_mode s = false ->
      mt_current_pos m' = target /\ mt_tick_id m' = mt_tick_id m
      /\ mt_tracker m' = mt_tracker m /\ forall e, In e (ticks s') -> In e (ticks s)).
Proof.
  intros Heq Hok s'.
  destruct (mode_view_stop_child_transition (upd_mt (set_mt_target_pos target) s))
    as (Hv & Ht & Hticks).
  destruct (keeps_stop_child_transition (upd_mt (set_mt_target_pos target) s))
    as (_ & Hok1 & _). specialize (Hok1 Hok).
  assert (s' = let s1 := hdy_leaflet_stop_child_transition
                           (upd_mt (set_mt_target_pos target) s) in
               if can_animate_mode s1
               then upd_mt (fun m =>
                      set_mt_tracker (gtk_progress_tracker_start ((mt_duration m * 1000) mod 2 ^ 32) 0 1%Q) m)
                      (if mt_tick_id (mode_transition
                            (upd_mt (fun m => set_mt_source_pos (mt_current_pos m) m) s1)) =? 0
                       then let '(id, s) := gtk_widget_add_tick_callback MODE_TRANSITION_CB
                              (upd_mt (fun m => set_mt_source_pos (mt_current_pos m) m) s1) in
                            upd_mt (set_mt_tick_id id) s
                       else upd_mt (fun m => set_mt_source_pos (mt_current_pos m) m) s1)
               else hdy_leaflet_set_position target s1) as Hs'.
  { subst s'. unfold hdy_leaflet_start_mode_transition. rewrite Heq. reflexivity. }
  clearbody s'. subst s'. cbv zeta.
  set (s1 := hdy_leaflet_stop_child_transition (upd_mt (set_mt_target_pos target) s)) in *.
  clearbody s1. unfold mode_view in Hv.
  injection Hv as Hmap Htype Hanim Hfold Hdur Hcur Hsrc Htick Htr Hnt.
  assert (can_animate_mode s1 = can_animate_mode s) as Hcan.
  { unfold can_animate_mode. by rewrite Hmap, Hdur, Htype, Hanim. }
  rewrite Hcan.
  change (folded (upd_mt (set_mt_target_pos target) s)) with (folded s) in Hfold.
  change (mt_target_pos (mode_transition (upd_mt (set_mt_target_pos target) s)))
    with target in Ht.
  change (mt_duration (mode_transition (upd_mt (set_mt_target_pos target) s)))
    with (mt_duration (mode_transition s)) in Hdur.
  change (mt_current_pos (mode_transition (upd_mt (set_mt_target_pos target) s)))
    with (mt_current_pos (mode_transition s)) in Hcur.
  change (mt_tick_id (mode_transition (upd_mt (set_mt_target_pos target) s)))
    with (mt_tick_id (mode_transition s)) in Htick.
  change (mt_tracker (mode_transition (upd_mt (set_mt_target_pos target) s)))
    with (mt_tracker (mode_transition s)) in Htr.
  destruct (can_animate_mode s).
  - destruct (mode_animation_started s1 Hok1) as (H1 & H2 & H3 & H4 & H5 & H6 & H7).
    cbv zeta in H1, H2, H3, H4, H5, H6, H7.
    split; [congruence | split; [congruence | split; [| done]]]. intros _.
    split; [congruence | split; [congruence | split; [congruence | split; [exact H6 | exact H7]]]].
  - destruct (mode_view_set_position target s1) as (H1 & H2 & H3 & H4 & H5 & H6 & H7).
    cbv zeta in H1, H2, H3, H4, H5, H6, H7.
    split; [congruence | split; [congruence | split; [done|]]]. intros _.
    split; [congruence | split; [congruence | split; [congruence |]]].
    rewrite H7. exact Hticks.
Qed.

(** C6.  In every reachable state, a change of the folded state stores the
    target position 0 when folding and 1 when unfolding.  Where the widget is
    mapped, the duration is not 0, the transition type is not NONE and
    animations are enabled, the transition is animated: it starts from the
    current position, its tracker is started for the duration in
    microseconds, a product taken in guint and so modulo 2^32, and its tick
    callback is registered.  Otherwise the current position is set to the
    target at once and nothing more is scheduled or started.  A request for
    the target the leaflet already has leaves the state as it is. *)
Theorem set_folded_starts_mode_transition s f :
  reachable s -> folded s <> f ->
  let s' := hdy_leaflet_set_folded f s in
  let target := if f then 0%Q else 1%Q in
  let m := mode_transition s in
  let m' := mode_transition s' in
  folded s' = f /\ mt_target_pos m' = target
  /\ (can_animate_mode s = true ->
      mt_source_pos m' = mt_current_pos m /\ mt_current_pos m' = mt_current_pos m
      /\ mt_tracker m' = gtk_progress_tracker_start ((mt_duration m * 1000) mod 2 ^ 32) 0 1%Q
      /\ mt_tick_id m' <> 0 /\ In (mt_tick_id m', MODE_TRANSITION_CB) (ticks s'))
  /\ (can_animate_mode s = false ->
      mt_current_pos m' = target /\ mt_tick_id m' = mt_tick_id m
      /\ mt_tracker m' = mt_tracker m /\ forall e, In e (ticks s') -> In e (ticks s))
  /\ hdy_leaflet_start_mode_transition target s' = s'
  /\ hdy_leaflet_set_folded f s' = s'.
Proof.
  intros Hreach Hf. destruct (reachable_Inv s Hreach) as (_ & Hok & Htarget).
  unfold target_ok in Htarget. cbv zeta.
  assert (hdy_leaflet_set_folded f s
          = hdy_leaflet_start_mode_transition (if f then 0%Q else 1%Q) (with_folded f s)) as ->.
  { unfold hdy_leaflet_set_folded. destruct (eqb (folded s) f) eqn:E.
    - apply eqb_prop in E. contradiction.
    - by destruct f. }
  destruct (start_mode_transition_spec (if f then 0%Q else 1%Q) (with_folded f s))
    as (H1 & H2 & H3 & H4).
  { simpl. rewrite Htarget. by destruct (folded s), f. }
  { exact Hok. }
  simpl in H1. split_and!; try done.
  - unfold hdy_leaflet_start_mode_transition at 1. rewrite H2.
    unfold gdouble_eq. by destruct f.
  - unfold hdy_leaflet_set_folded at 1. rewrite H1. by rewrite eqb_reflx.
Qed.

Lemma set_folded_starts_mode_transition_witness :
  let s := state_after example_world
             (example_setup ++ [OP_SET_MODE_TRANSITION_DURATION 4294968]) in
  reachable s /\ folded s <> true
  /\ folded (hdy_leaflet_set_folded true s) = true
  /\ mt_target_pos (mode_transition (hdy_leaflet_set_folded true s)) = 0%Q
  /\ mt_tracker (mode_transition (hdy_leaflet_set_folded true s))
     = gtk_progress_tracker_start 704 0 1%Q.
Proof.
  cbv zeta.
  set (s := state_after example_world
              (example_setup ++ [OP_SET_MODE_TRANSITION_DURATION 4294968])).
  assert (reachable s) as H.
  { apply reachable_state_after. vm_compute. eauto. }
  assert (folded s <> true) as Hf.
  { vm_compute. discriminate. }
  assert (can_animate_mode s = true) as Hcan by (vm_compute; reflexivity).
  assert (mt_duration (mode_transition s) = 4294968) as Hdur by (vm_compute; reflexivity).
  destruct (set_folded_starts_mode_transition s true H Hf) as (H1 & H2 & H3 & _).
  destruct (H3 Hcan) as (_ & _ & Htr & _).
  split_and!; [exact H | exact Hf | exact H1 | exact H2 |].
  rewrite Htr, Hdur. reflexivity.
Defined.

(** ** Arithmetic in binary64

    [gdouble_round] gives a multiple of the unit in the last place that is
    nearest to the exact number, and that unit is the one of binary64: the
    significand stays below 2^53 and the exponent above -1075. *)

Lemma round_half_even_near q :
  (Qabs (inject_Z (round_half_even q) - q) <= 1 # 2)%Q.
Proof.
  unfold round_half_even. cbv zeta.
  pose proof (Qfloor_le q) as Hlo. pose proof (Qlt_floor q) as Hhi.
  set (f := Qfloor q) in *. clearbody f.
  assert (inject_Z (f + 1) == inject_Z f + 1)%Q as Hf1 by (rewrite inject_Z_plus; reflexivity).
  rewrite Hf1 in Hhi.
  destruct (Qcompare_spec (q - inject_Z f) (1 # 2)) as [He | Hl | Hg].
  - destruct (Z.even f).
    + apply Qabs_case; intros _; lra.
    + rewrite Hf1. apply Qabs_case; intros _; lra.
  - apply Qabs_case; intros _; lra.
  - rewrite Hf1. apply Qabs_case; intros _; lra.
Qed.

Lemma Qpower_2_pos z : (0 < 2 ^ z)%Q.
Proof. apply Qpower_0_lt. reflexivity. Qed.

(** [gdouble_round q] is a multiple of the unit in the last place of [q]
    nearest to [q]. *)
Lemma gdouble_round_nearest q :
  let ulp := (2 ^ (binary64_exponent (Qabs q) - 52))%Q in
  (exists m, gdouble_round q == inject_Z m * ulp)%Q
  /\ (Qabs (gdouble_round q - q) <= ulp / 2)%Q.
Proof.
  cbv zeta. unfold gdouble_round.
  set (ulp := (2 ^ (binary64_exponent (Qabs q) - 52))%Q).
  assert (0 < ulp)%Q as Hulp by apply Qpower_2_pos.
  destruct (Qeq_bool q 0) eqn:E0.
  { apply Qeq_bool_iff in E0. split.
    - exists 0. ring.
    - rewrite E0. change (Qabs (0 - 0)) with 0%Q.
      apply Qle_shift_div_l; [reflexivity|]. rewrite Qmult_0_l. by apply Qlt_le_weak. }
  cbv zeta.
  pose proof (round_half_even_near (Qabs q / ulp)) as Hn.
  set (m := round_half_even (Qabs q / ulp)) in *. clearbody m.
  assert (Qabs (inject_Z m * ulp - Qabs q) <= ulp / 2)%Q as Hnear.
  { assert (inject_Z m * ulp - Qabs q == (inject_Z m - Qabs q / ulp) * ulp)%Q as ->
      by (field; lra).
    rewrite Qabs_Qmult, (Qabs_pos ulp) by lra.
    assert (ulp / 2 == (1 # 2) * ulp)%Q as -> by field.
    apply Qmult_le_compat_r; [exact Hn | lra]. }
  destruct (Qle_bool 0 q) eqn:Es.
  - apply Qle_bool_iff in Es. rewrite (Qabs_pos q Es) in Hnear. split.
    + exists m. apply Qred_correct.
    + rewrite Qred_correct. exact Hnear.
  - assert (q < 0)%Q as Hneg.
    { apply Qnot_le_lt. intros H. apply Qle_bool_iff in H. congruence. }
    rewrite (Qabs_neg q) in Hnear by lra. split.
    + exists (- m). rewrite Qred_correct, inject_Z_opp. ring.
    + rewrite Qred_correct.
      assert (- (inject_Z m * ulp) - q == - (inject_Z m * ulp - - q))%Q as -> by ring.
      rewrite Qabs_opp. exact Hnear.
Qed.

Lemma Qpower_2_Z k : 0 <= k -> (inject_Z (2 ^ k) == 2 ^ k)%Q.
Proof. intros Hk. by rewrite Zpower_Qpower. Qed.

Lemma Qpower_2_succ z : (2 ^ (z + 1) == 2 * 2 ^ z)%Q.
Proof. rewrite Qpower_plus by discriminate. change (2 ^ 1)%Q with 2%Q. ring. Qed.

Lemma Qpower_2_le z z' : z <= z' -> (2 ^ z <= 2 ^ z')%Q.
Proof. intros H. apply Qpower_le_compat_l; [exact H | discriminate]. Qed.

(** A positive rational lies within a factor 2 of the power of 2 that the
    bit lengths of its numerator and denominator give. *)
Lemma Qpower_2_log2_bounds (a : Q) :
  (0 < a)%Q ->
  let e := Z.log2 (Qnum a) - Z.log2 (Zpos (Qden a)) in
  (2 ^ (e - 1) < a)%Q /\ (a < 2 ^ (e + 1))%Q.
Proof.
  destruct a as [n d]. unfold Qlt at 1. simpl Qnum. simpl Qden. rewrite Z.mul_1_r.
  change (0 * Zpos d) with 0. intros Hn. cbv zeta.
  pose proof (Z.log2_spec n Hn) as [Hn1 Hn2].
  pose proof (Z.log2_spec (Zpos d) (Pos2Z.is_pos d)) as [Hd1 Hd2].
  pose proof (Z.log2_nonneg n) as Hi. pose proof (Z.log2_nonneg (Zpos d)) as Hj.
  set (i := Z.log2 n) in *. set (j := Z.log2 (Zpos d)) in *. clearbody i j.
  assert (n # d == inject_Z n / inject_Z (Zpos d))%Q as Ha by apply Qmake_Qdiv.
  assert (0 < inject_Z (Zpos d))%Q as Hdpos by reflexivity.
  assert (inject_Z (2 ^ i) <= inject_Z n)%Q as Q1 by (by rewrite <- Zle_Qle).
  assert (inject_Z n < inject_Z (2 ^ (i + 1)))%Q as Q2.
  { rewrite <- Zlt_Qlt. by rewrite <- Z.add_1_r in Hn2. }
  assert (inject_Z (2 ^ j) <= inject_Z (Zpos d))%Q as Q3 by (by rewrite <- Zle_Qle).
  assert (inject_Z (Zpos d) < inject_Z (2 ^ (j + 1)))%Q as Q4.
  { rewrite <- Zlt_Qlt. by rewrite <- Z.add_1_r in Hd2. }
  rewrite Qpower_2_Z in Q1, Q2, Q3, Q4 by lia.
  rewrite Qpower_2_succ in Q2, Q4.
  pose proof (Qpower_0_lt 2 i eq_refl) as Pi. pose proof (Qpower_0_lt 2 j eq_refl) as Pj.
  assert (2 ^ (i - j - 1) == 2 ^ i / (2 * 2 ^ j))%Q as E1.
  { replace (i - j - 1) with (i + - (j + 1)) by lia.
    rewrite Qpower_plus, Qpower_opp, Qpower_2_succ by discriminate. field. lra. }
  assert (2 ^ (i - j + 1) == 2 * 2 ^ i / 2 ^ j)%Q as E2.
  { replace (i - j + 1) with ((i + 1) + - j) by lia.
    rewrite Qpower_plus, Qpower_opp, Qpower_2_succ by discriminate. field. lra. }
  rewrite Ha, E1, E2. split.
  - apply Qlt_shift_div_l; [exact Hdpos|].
    assert (2 ^ i / (2 * 2 ^ j) * inject_Z (Zpos d) == 2 ^ i * (inject_Z (Zpos d) / (2 * 2 ^ j)))%Q
      as -> by (field; lra).
    assert (inject_Z (Zpos d) / (2 * 2 ^ j) < 1)%Q as H1.
    { apply Qlt_shift_div_r; lra. }
    nra.
  - apply Qlt_shift_div_r; [exact Hdpos|].
    assert (2 * 2 ^ i / 2 ^ j * inject_Z (Zpos d) == 2 * 2 ^ i * (inject_Z (Zpos d) / 2 ^ j))%Q
      as -> by (field; lra).
    assert (1 <= inject_Z (Zpos d) / 2 ^ j)%Q as H1.
    { apply Qle_shift_div_l; lra. }
    nra.
Qed.

(** [binary64_exponent] gives the binade of a positive number, and -1022
    below the normal range. *)
Lemma binary64_exponent_spec (a : Q) :
  (0 < a)%Q ->
  let e := binary64_exponent a in
  -1022 <= e /\ (a < 2 ^ (e + 1))%Q /\ ((2 ^ e <= a)%Q \/ e = -1022).
Proof.
  intros Ha. cbv zeta. unfold binary64_exponent.
  destruct (Qpower_2_log2_bounds a Ha) as [Hlo Hhi]. cbv zeta in Hlo, Hhi.
  set (e0 := Z.log2 (Qnum a) - Z.log2 (Zpos (Qden a))) in *. clearbody e0.
  destruct (Qle_bool (2 ^ e0) a) eqn:E.
  - apply Qle_bool_iff in E. destruct (Z.max_spec e0 (-1022)) as [[H ->] | [H ->]].
    + split; [lia|]. split; [| by right].
      apply (Qlt_le_trans _ _ _ Hhi). apply Qpower_2_le. lia.
    + split; [lia|]. split; [exact Hhi | by left].
  - assert (a < 2 ^ e0)%Q as Hlt.
    { apply Qnot_le_lt. intros H. apply Qle_bool_iff in H. congruence. }
    destruct (Z.max_spec (e0 - 1) (-1022)) as [[H ->] | [H ->]].
    + split; [lia|]. split; [| by right].
      apply (Qlt_le_trans _ _ _ Hlt). apply Qpower_2_le. lia.
    + split; [lia|]. split.
      * by replace (e0 - 1 + 1) with e0 by lia.
      * left. by apply Qlt_le_weak.
Qed.

(** The significand of the rounded number has at most 53 bits. *)
Lemma gdouble_round_significand q :
  ~ (q == 0)%Q ->
  (Qabs q / 2 ^ (binary64_exponent (Qabs q) - 52) < 2 ^ 53)%Q.
Proof.
  intros Hq.
  assert (0 < Qabs q)%Q as Ha.
  { destruct (Qlt_le_dec 0 (Qabs q)) as [H | H]; [exact H|]. exfalso. apply Hq.
    pose proof (Qle_Qabs q) as H1. pose proof (Qle_Qabs (- q)) as H2.
    rewrite Qabs_opp in H2. lra. }
  destruct (binary64_exponent_spec (Qabs q) Ha) as (_ & Hhi & _). cbv zeta in Hhi.
  set (e := binary64_exponent (Qabs q)) in *. clearbody e.
  pose proof (Qpower_0_lt 2 (e - 52) eq_refl) as Hu.
  apply Qlt_shift_div_r; [exact Hu|].
  assert (2 ^ 53 * 2 ^ (e - 52) == 2 ^ (e + 1))%Q as ->; [| exact Hhi].
  rewrite <- Qpower_plus by discriminate. by replace (53 + (e - 52)) with (e + 1) by lia.
Qed.

(** On examples: 0.1 is not a double; 300 times [1 - 0.1] is 270 in double,
    where the exact product of the two doubles truncates to 269; a tie goes
    to the even significand; a number below the smallest subnormal goes to
    the nearer of that and 0. *)
Lemma gdouble_round_examples :
  gdouble_round (1 # 10) = example_tenth
  /\ gint_of_gdouble (gdouble_mul 300 (gdouble_sub 1 example_tenth)) = 270
  /\ gint_of_gdouble (300 * (1 - example_tenth)) = 269
  /\ gdouble_round (2 ^ 53 + 1) = (2 ^ 53)%Q
  /\ gdouble_round (2 ^ 53 + 3) = (2 ^ 53 + 4)%Q
  /\ gdouble_round (- (1 # 3)) = (- 6004799503160661 # 18014398509481984)%Q
  /\ gdouble_round (2 ^ (-1075)) = 0%Q
  /\ gdouble_round (3 * 2 ^ (-1075)) = Qred (2 ^ (-1073)).
Proof. vm_compute. repeat split. Qed.

(** ** C8: a swipe drives the progress *)

Lemma ABS_Qabs a : ABS a = Qabs a.
Proof.
  unfold ABS. destruct a as [n d]. destruct (Qlt_le_dec (n # d) 0) as [Hlt | Hle].
  - unfold Qlt in Hlt. simpl in Hlt. unfold Qabs, Qopp. simpl. f_equal. lia.
  - unfold Qle in Hle. simpl in Hle. unfold Qabs. f_equal. lia.
Qed.

(** While a gesture is active [hdy_leaflet_child_progress_updated] only moves
    the bin window. *)
Lemma child_progress_updated_in_gesture s :
  ct_is_gesture_active (child_transition s) = true ->
  hdy_leaflet_child_progress_updated s = Some (move_resize_bin_window None false s).
Proof.
  intros Hg. unfold hdy_leaflet_child_progress_updated. cbv zeta.
  assert (ct_is_gesture_active (child_transition (move_resize_bin_window None false s)) = true)
    as ->; [| reflexivity].
  unfold move_resize_bin_window. by destruct (bin_window s).
Qed.

(** C8.  While a gesture is active, [hdy_leaflet_update_swipe] returns for
    every value, and stores the absolute value of it as the progress of the
    child transition, whatever the progress was.  It applies that progress at
    once: where the leaflet has a bin window and the transition moves it (or a
    move was requested), the window goes to the offset
    [extent * (1 - |value|)], computed in double and truncated, along the
    direction of the transition, with its size kept; otherwise the window
    stays.  The visible child and the last visible child are left as they
    are. *)
Theorem update_swipe_sets_progress s value :
  ct_is_gesture_active (child_transition s) = true ->
  exists s',
    hdy_leaflet_update_swipe value s = Some s'
    /\ ct_progress (child_transition s') = Qabs value
    /\ visible_child s' = visible_child s
    /\ last_visible_child s' = last_visible_child s
    /\ (bin_window s = None -> bin_window s' = None)
    /\ forall win,
         bin_window s = Some win ->
         let offset extent :=
           gint_of_gdouble (gdouble_mul (inject_Z extent) (gdouble_sub 1 (Qabs value))) in
         let x :=
           match ct_active_direction (child_transition s) with
           | GTK_PAN_DIRECTION_LEFT => offset (a_width (self_allocation s))
           | GTK_PAN_DIRECTION_RIGHT => offset (- a_width (self_allocation s))
           | _ => 0
           end in
         let y :=
           match ct_active_direction (child_transition s) with
           | GTK_PAN_DIRECTION_UP => offset (a_height (self_allocation s))
           | GTK_PAN_DIRECTION_DOWN => offset (- a_height (self_allocation s))
           | _ => 0
           end in
         bin_window s'
         = Some (if move_bin_window_request s || is_window_moving_child_transition s
                 then mkWindow (mkAlloc x y (a_width (gw_geom win)) (a_height (gw_geom win)))
                        (gw_shown win)
                 else win).
Proof.
  intros Hg. unfold hdy_leaflet_update_swipe. cbv zeta.
  rewrite child_progress_updated_in_gesture by exact Hg.
  eexists. split; [reflexivity|].
  set (s1 := upd_ct (set_ct_progress (ABS value)) s).
  assert (child_transition_live s1 = true) as Hlive.
  { unfold child_transition_live. subst s1. simpl. by rewrite Hg. }
  assert (ct_progress (child_transition s1) = Qabs value) as Hp by apply ABS_Qabs.
  unfold move_resize_bin_window.
  change (bin_window s1) with (bin_window s).
  change (move_bin_window_request s1) with (move_bin_window_request s).
  change (is_window_moving_child_transition s1) with (is_window_moving_child_transition s).
  change (self_allocation s1) with (self_allocation s).
  unfold get_bin_window_x, get_bin_window_y. cbv zeta. rewrite Hlive, Hp.
  change (ct_active_direction (child_transition s1))
    with (ct_active_direction (child_transition s)).
  destruct (bin_window s) as [win|] eqn:Hwin.
  - split_and!; try done. intros win0 [= <-].
    rewrite andb_false_r.
    destruct (move_bin_window_request s || is_window_moving_child_transition s);
      [done | by destruct win].
  - split_and!; done.
Qed.

Lemma update_swipe_sets_progress_witness :
  let s := state_after example_world example_swipe_begun in
  reachable s
  /\ ct_is_gesture_active (child_transition s) = true
  /\ bin_window s = Some (mkWindow (mkAlloc 150 0 150 50) true)
  /\ exists s',
       hdy_leaflet_update_swipe (- example_tenth)%Q s = Some s'
       /\ ct_progress (child_transition s') = example_tenth
       /\ bin_window s' = Some (mkWindow (mkAlloc 135 0 150 50) true).
Proof.
  cbv zeta.
  assert (reachable (state_after example_world example_swipe_begun)) as Hr.
  { apply reachable_state_after. vm_compute. eauto. }
  assert (ct_is_gesture_active
            (child_transition (state_after example_world example_swipe_begun)) = true) as Hg
    by (vm_compute; reflexivity).
  assert (bin_window (state_after example_world example_swipe_begun)
          = Some (mkWindow (mkAlloc 150 0 150 50) true)) as Hw
    by (vm_compute; reflexivity).
  assert (ct_active_direction (child_transition (state_after example_world example_swipe_begun))
          = GTK_PAN_DIRECTION_LEFT) as Hdir
    by (vm_compute; reflexivity).
  assert (self_allocation (state_after example_world example_swipe_begun)
          = mkAlloc 0 0 150 50) as Ha
    by (vm_compute; reflexivity).
  assert (move_bin_window_request (state_after example_world example_swipe_begun)
          || is_window_moving_child_transition
               (state_after example_world example_swipe_begun) = true) as Hm
    by (vm_compute; reflexivity).
  split; [exact Hr|]. split; [exact Hg|]. split; [exact Hw|].
  destruct (update_swipe_sets_progress
              (state_after example_world example_swipe_begun) (- example_tenth)%Q Hg)
    as (s' & Hs' & Hp & _ & _ & _ & Hwin).
  specialize (Hwin _ Hw). cbv zeta in Hwin. rewrite Hdir, Ha, Hm in Hwin.
  exists s'. split; [exact Hs'|]. split; [exact Hp|].
  rewrite Hwin. vm_compute. reflexivity.
Defined.

(** ** C1: the fold decision *)

Lemma MAX_max a b : MAX a b = Z.max a b.
Proof. unfold MAX. destruct (Z.gtb_spec a b); lia. Qed.

#[local] Arguments sum_list : simpl never.
#[local] Arguments max_list : simpl never.

Lemma sum_list_cons a l : sum_list (a :: l) = a + sum_list l.
Proof. reflexivity. Qed.

Lemma max_list_cons a l : max_list (a :: l) = Z.max a (max_list l).
Proof. reflexivity. Qed.

Lemma max_list_nonneg l : 0 <= max_list l.
Proof. induction l as [|a l IH]; [done|]. rewrite max_list_cons. lia. Qed.

Lemma sum_list_app l k : sum_list (l ++ k) = sum_list l + sum_list k.
Proof.
  induction l as [|a l IH]; [done|].
  rewrite <- app_comm_cons, !sum_list_cons, IH. lia.
Qed.

Lemma max_list_app l k : max_list (l ++ k) = Z.max (max_list l) (max_list k).
Proof.
  induction l as [|a l IH].
  - pose proof (max_list_nonneg k). change (max_list []) with 0. simpl app. lia.
  - rewrite <- app_comm_cons, !max_list_cons, IH. lia.
Qed.

Lemma sum_list_rev l : sum_list (rev l) = sum_list l.
Proof.
  induction l as [|a l IH]; [done|].
  simpl rev. rewrite sum_list_app, IH, !sum_list_cons. change (sum_list []) with 0. lia.
Qed.

Lemma max_list_rev l : max_list (rev l) = max_list l.
Proof.
  induction l as [|a l IH]; [done|].
  simpl rev. rewrite max_list_app, IH, !max_list_cons. change (max_list []) with 0.
  pose proof (max_list_nonneg l). lia.
Qed.

Lemma omap_rev {A B} (f : A -> option B) l : omap f (rev l) = rev (omap f l).
Proof.
  induction l as [|x l IH]; simpl; [done|].
  rewrite omap_app, IH. simpl. destruct (f x); simpl; by rewrite ?app_nil_r.
Qed.

Lemma accumulated_natural_size_rev h l :
  accumulated_natural_size h (rev l) = accumulated_natural_size h l.
Proof.
  unfold accumulated_natural_size.
  by rewrite max_list_rev, sum_list_rev, length_rev.
Qed.

Lemma deref_update_info p f s q :
  deref (update_info p f s) q = if decide (p = q) then f (deref s p) else deref s q.
Proof.
  unfold deref, update_info. simpl. destruct (decide (p = q)) as [->|Hne].
  - apply lookup_total_insert_eq.
  - by apply lookup_total_insert_ne.
Qed.

(** The first loop of the size allocation: every child it visits has the
    sizes of its widget, a zero allocation and the visible flag down; the
    widgets and everything else are as before. *)
Lemma prepare_child_spec p s :
  widgets (prepare_child p s) = widgets s
  /\ layout_config (prepare_child p s) = layout_config s
  /\ (forall q, ci_widget (deref (prepare_child p s) q) = ci_widget (deref s q))
  /\ ci_visible (deref (prepare_child p s) p) = false
  /\ ci_alloc (deref (prepare_child p s) p) = alloc0
  /\ (forall w, ci_widget (deref s p) = Some w ->
        ci_nat (deref (prepare_child p s) p) = w_nat (widgets s !!! w))
  /\ (forall q, q <> p -> deref (prepare_child p s) q = deref s q).
Proof.
  unfold prepare_child. cbv zeta.
  destruct (ci_widget (deref s p)) as [w|] eqn:Hw.
  - split_and!; try reflexivity.
    + intros q. rewrite !deref_update_info. repeat case_decide; subst; simpl; congruence.
    + rewrite !deref_update_info. by rewrite !decide_True.
    + rewrite !deref_update_info. by rewrite !decide_True.
    + intros w' [= <-]. rewrite !deref_update_info. by rewrite !decide_True.
    + intros q Hq. rewrite !deref_update_info. by rewrite !decide_False.
  - split_and!; try reflexivity.
    + intros q. rewrite !deref_update_info. repeat case_decide; subst; simpl; congruence.
    + rewrite !deref_update_info. by rewrite !decide_True.
    + rewrite !deref_update_info. by rewrite !decide_True.
    + intros w' [=].
    + intros q Hq. rewrite !deref_update_info. by rewrite !decide_False.
Qed.

Lemma prepare_loop_spec l s :
  let s1 := for_each l prepare_child s in
  widgets s1 = widgets s
  /\ layout_config s1 = layout_config s
  /\ (forall q, ci_widget (deref s1 q) = ci_widget (deref s q))
  /\ (forall p, In p l ->
        ci_visible (deref s1 p) = false /\ ci_alloc (deref s1 p) = alloc0
        /\ forall w, ci_widget (deref s p) = Some w -> ci_nat (deref s1 p) = w_nat (widgets s !!! w))
  /\ (forall q, ~ In q l -> deref s1 q = deref s q).
Proof.
  unfold for_each. revert s. induction l as [|p l IH]; intros s; simpl.
  { split_and!; try done. }
  destruct (prepare_child_spec p s) as (Hw & Hc & Hcw & Hv & Ha & Hn & Ho).
  destruct (IH (prepare_child p s)) as (Hw' & Hc' & Hcw' & Hin' & Ho').
  split_and!.
  - congruence.
  - congruence.
  - intros q. by rewrite Hcw', Hcw.
  - intros q [<- | Hq].
    + destruct (in_dec Nat.eq_dec p l) as [Hpl | Hpl].
      * destruct (Hin' p Hpl) as (H1 & H2 & H3). split_and!; [done | done |].
        intros w Hpw. rewrite (H3 w) by (by rewrite Hcw). by rewrite Hw.
      * rewrite (Ho' p Hpl). by split_and!.
    + destruct (Hin' q Hq) as (H1 & H2 & H3). split_and!; [done | done |].
      intros w Hqw. rewrite (H3 w) by (by rewrite Hcw). by rewrite Hw.
  - intros q [Hqp Hq]%not_in_cons. rewrite Ho' by done. by apply Ho.
Qed.

(** The accumulation loop on a state whose children carry the natural sizes
    of their widgets. *)
Lemma accumulate_nat_spec s0 s o l :
  (forall q, ci_widget (deref s q) = ci_widget (deref s0 q)) ->
  (forall p w, In p l -> ci_widget (deref s0 p) = Some w ->
     ci_nat (deref s p) = w_nat (widgets s0 !!! w)) ->
  accumulate_nat s o l
  = (sum_list (omap (natural_size s0 o) l), max_list (omap (natural_size s0 o) l),
     Z.of_nat (length (omap (natural_size s0 o) l))).
Proof.
  intros Hcw Hnat. unfold accumulate_nat.
  enough (forall b m n, 0 <= m ->
            foldl (fun '(nat_box_size, nat_max_size, visible_children) p =>
                     let ci := deref s p in
                     if negb (is_nonnull (ci_widget ci))
                     then (nat_box_size, nat_max_size, visible_children)
                     else (nat_box_size + req_size o (ci_nat ci),
                           MAX nat_max_size (req_size o (ci_nat ci)),
                           visible_children + 1)) (b, m, n) l
            = (b + sum_list (omap (natural_size s0 o) l),
               Z.max m (max_list (omap (natural_size s0 o) l)),
               n + Z.of_nat (length (omap (natural_size s0 o) l)))) as H.
  { rewrite H by lia. rewrite !Z.add_0_l, Z.max_r by apply max_list_nonneg. reflexivity. }
  induction l as [|p l IH]; intros b m n Hm.
  { simpl. change (max_list []) with 0. change (sum_list []) with 0.
    by rewrite !Z.add_0_r, Z.max_l. }
  cbn [foldl].
  assert (omap (natural_size s0 o) (p :: l)
          = match natural_size s0 o p with
            | Some y => y :: omap (natural_size s0 o) l
            | None => omap (natural_size s0 o) l
            end) as -> by reflexivity.
  rewrite Hcw.
  destruct (ci_widget (deref s0 p)) as [w|] eqn:Hw.
  - assert (natural_size s0 o p = Some (req_size o (w_nat (widgets s0 !!! w)))) as ->
      by (unfold natural_size; by rewrite Hw).
    cbn [is_nonnull negb].
    rewrite IH; [| intros q w' Hq Hqw; apply Hnat; [by right | done] | rewrite MAX_max; lia].
    rewrite (Hnat p w (or_introl eq_refl) Hw). rewrite MAX_max.
    rewrite sum_list_cons, max_list_cons, Z.add_assoc, Z.max_assoc.
    f_equal. cbn [length]. lia.
  - assert (natural_size s0 o p = None) as -> by (unfold natural_size; by rewrite Hw).
    cbn [is_nonnull negb].
    rewrite IH; [done | intros q w' Hq Hqw; apply Hnat; [by right | done] | done].
Qed.

Lemma folded_skeleton s s' : skeleton s' = skeleton s -> folded s' = folded s.
Proof. unfold skeleton. by intros [= _ _ _ _ _ _ _ -> _]. Qed.

Lemma folded_start_mode_transition target s :
  folded (hdy_leaflet_start_mode_transition target s) = folded s.
Proof. by destruct (start_mode_transition_inv target s) as (_ & _ & H & _). Qed.

Lemma folded_set_folded f s : folded (hdy_leaflet_set_folded f s) = f.
Proof.
  unfold hdy_leaflet_set_folded. destruct (eqb (folded s) f) eqn:E.
  - by apply eqb_prop in E.
  - destruct f; apply folded_start_mode_transition.
Qed.

Lemma size_allocate_entry_spec a s :
  infos (size_allocate_entry a s) = infos s
  /\ widgets (size_allocate_entry a s) = widgets s
  /\ layout_config (size_allocate_entry a s) = layout_config s.
Proof.
  unfold size_allocate_entry, move_resize_bin_window. cbv zeta.
  destruct (self_realized _); [| done].
  destruct (view_window _); simpl; destruct (bin_window s); done.
Qed.

Lemma get_directed_children_config s s' :
  layout_config s' = layout_config s -> get_directed_children s' = get_directed_children s.
Proof.
  unfold layout_config, get_directed_children. by intros [= -> -> -> -> _ _ _ _ _ _ _].
Qed.

Lemma natural_size_stores s s' o p :
  infos s' = infos s -> widgets s' = widgets s -> natural_size s' o p = natural_size s o p.
Proof. unfold natural_size, deref. by intros -> ->. Qed.

(** The decision taken on the prepared children is the decision of the
    specification. *)
Lemma fold_decision_spec a s :
  children_reversed s = rev (children s) ->
  fold_decision
    (for_each (get_directed_children s) prepare_child (size_allocate_entry a s)) a
  = should_fold s a.
Proof.
  intros Hrev.
  destruct (size_allocate_entry_spec a s) as (Hi & Hw & Hc).
  set (s0 := size_allocate_entry a s) in *. clearbody s0.
  destruct (prepare_loop_spec (get_directed_children s) s0) as (Hw1 & Hc1 & Hcw1 & Hin1 & _).
  cbv zeta in Hw1, Hc1, Hcw1, Hin1.
  set (s1 := for_each (get_directed_children s) prepare_child s0) in *. clearbody s1.
  unfold fold_decision. cbv zeta.
  assert (get_directed_children s1 = get_directed_children s) as ->
    by (apply get_directed_children_config; congruence).
  assert (orientation s1 = orientation s /\ homogeneous s1 = homogeneous s) as [-> ->].
  { rewrite Hc in Hc1. unfold layout_config in Hc1. by injection Hc1 as _ _ -> _ -> _ _ _ _ _ _. }
  rewrite (accumulate_nat_spec s0 s1 (orientation s) (get_directed_children s));
    [| exact Hcw1 | intros p w Hp Hpw; by apply (Hin1 p Hp)].
  unfold should_fold, natural_sizes.
  assert (omap (natural_size s0 (orientation s)) (get_directed_children s)
          = omap (natural_size s (orientation s)) (get_directed_children s)) as ->.
  { apply list_omap_ext, Forall2_same_length_lookup_2; [done|].
    intros i p q Hp Hq. simplify_eq. by apply natural_size_stores. }
  unfold get_directed_children.
  destruct (_ && _); [| by destruct (homogeneous s HDY_FOLD_UNFOLDED (orientation s))].
  rewrite Hrev, omap_rev.
  rewrite <- (accumulated_natural_size_rev _ (omap _ (children s))).
  unfold accumulated_natural_size.
  by destruct (homogeneous s HDY_FOLD_UNFOLDED (orientation s)).
Qed.

Lemma size_allocate_unfold a s :
  hdy_leaflet_size_allocate a s
  = let s1 := for_each (get_directed_children s) prepare_child (size_allocate_entry a s) in
    let f := fold_decision s1 a in
    let s2 := hdy_leaflet_set_folded f s1 in
    s3 ← (if f then hdy_leaflet_size_allocate_folded a s2
          else hdy_leaflet_size_allocate_unfolded a s2);
    Some (for_each (get_directed_children s) apply_child s3).
Proof. reflexivity. Qed.

(** ** C4: the folded leaflet shows one child *)

Lemma widgets_update_widget a f s b :
  widgets (update_widget (Some a) f s) !!! b
  = if decide (a = b) then f (widgets s !!! a) else widgets s !!! b.
Proof.
  unfold update_widget. simpl. destruct (decide (a = b)) as [->|Hne].
  - apply lookup_total_insert_eq.
  - by apply lookup_total_insert_ne.
Qed.

Lemma child_visible_set_child_visible w b s a :
  gtk_widget_get_child_visible (gtk_widget_set_child_visible w b s) (Some a)
  = if decide (w = Some a) then b else gtk_widget_get_child_visible s (Some a).
Proof.
  unfold gtk_widget_get_child_visible, gtk_widget_set_child_visible.
  destruct w as [a'|]; [| by rewrite decide_False].
  rewrite widgets_update_widget.
  destruct (decide (a' = a)) as [->|Hne]; [by rewrite decide_True|].
  rewrite decide_False; [done | congruence].
Qed.

Lemma visible_set_child_visible w b s a :
  gtk_widget_get_visible (gtk_widget_set_child_visible w b s) a = gtk_widget_get_visible s a.
Proof.
  unfold gtk_widget_get_visible, gtk_widget_set_child_visible.
  destruct a as [a|]; [| done]. destruct w as [a'|]; [| done].
  rewrite widgets_update_widget. by destruct (decide (a' = a)) as [->|].
Qed.

(** The effect of one turn of the last loop on the widget [a]. *)
Lemma apply_child_spec p s a :
  infos (apply_child p s) = infos s
  /\ (ci_widget (deref s p) <> Some a ->
      widgets (apply_child p s) !!! a = widgets s !!! a)
  /\ (ci_widget (deref s p) = Some a ->
      w_child_visible (widgets (apply_child p s) !!! a) = ci_visible (deref s p)
      /\ (ci_visible (deref s p) = true ->
          w_allocation (widgets (apply_child p s) !!! a) = ci_alloc (deref s p))).
Proof.
  unfold apply_child, gtk_widget_set_child_visible, gtk_widget_size_allocate, gtk_widget_show.
  cbv zeta.
  destruct (ci_widget (deref s p)) as [w|] eqn:Hw.
  - destruct (ci_visible (deref s p)) eqn:Hv; simpl;
      [destruct (self_realized s); simpl|]; (split; [reflexivity|]); split.
    all: try (intros Hne; rewrite ?lookup_total_insert_ne by congruence; reflexivity).
    all: intros [= ->]; rewrite ?lookup_total_insert_eq; simpl; split; try done.
  - destruct (ci_visible (deref s p)); simpl; [destruct (self_realized s)|];
      split_and!; try done.
Qed.

(** The last loop of the size allocation, seen from the widget [a]: where
    the children of the list that own [a] agree on their visible flag and
    allocation, the widget ends with them. *)
Lemma apply_loop_spec l s a b al :
  (exists p, In p l /\ ci_widget (deref s p) = Some a) ->
  (forall q, In q l -> ci_widget (deref s q) = Some a ->
     ci_visible (deref s q) = b /\ (b = true -> ci_alloc (deref s q) = al)) ->
  w_child_visible (widgets (for_each l apply_child s) !!! a) = b
  /\ (b = true -> w_allocation (widgets (for_each l apply_child s) !!! a) = al).
Proof.
  unfold for_each.
  assert (forall l, infos (foldl (fun s p => apply_child p s) s l) = infos s) as Hinfos.
  { intros k. induction k as [|q k IH] using rev_ind; [done|].
    rewrite foldl_snoc. destruct (apply_child_spec q (foldl (fun s p => apply_child p s) s k) a)
      as (-> & _). exact IH. }
  induction l as [|q l IH] using rev_ind; intros (p & Hp & Hpa) Hall.
  { destruct Hp. }
  rewrite foldl_snoc.
  set (s1 := foldl (fun s p => apply_child p s) s l) in *.
  assert (deref s1 q = deref s q) as Hq by (unfold deref; subst s1; by rewrite Hinfos).
  destruct (apply_child_spec q s1 a) as (_ & Hother & Hsame).
  rewrite Hq in Hother, Hsame.
  destruct (decide (ci_widget (deref s q) = Some a)) as [Hqa | Hqa].
  - destruct (Hall q) as [Hv Hal]; [apply in_app_iff; right; by left | done |].
    destruct (Hsame Hqa) as [H1 H2]. rewrite H1. split; [done|].
    intros Hb. rewrite H2 by congruence. by apply Hal.
  - rewrite (Hother Hqa). apply IH.
    + exists p. split; [| done]. apply in_app_iff in Hp as [Hp | [<- | []]]; [done | contradiction].
    + intros q' Hq'. apply Hall. apply in_app_iff. by left.
Qed.

Lemma but_widgets_set_child_visible w b s :
  but_widgets (gtk_widget_set_child_visible w b s) = but_widgets s.
Proof. by destruct w. Qed.

Lemma but_widgets_for_each l body s :
  (forall p s, but_widgets (body p s) = but_widgets s) ->
  but_widgets (for_each l body s) = but_widgets s.
Proof.
  intros Hbody. unfold for_each. revert s.
  induction l as [|p l IH]; intros s; simpl; [done|]. by rewrite IH.
Qed.

Lemma visible_for_each l body s a :
  (forall p s, gtk_widget_get_visible (body p s) a = gtk_widget_get_visible s a) ->
  gtk_widget_get_visible (for_each l body s) a = gtk_widget_get_visible s a.
Proof.
  intros Hbody. unfold for_each. revert s.
  induction l as [|p l IH]; intros s; simpl; [done|]. by rewrite IH.
Qed.

(** The loop of [hdy_leaflet_size_allocate_folded] in the branch without a
    mode transition, with no last visible child: the visible child gets the
    whole allocation and the visible flag, the others lose the flag. *)
Lemma folded_layout_spec l v a s :
  last_visible_child s = None ->
  let body := fun p s =>
    if negb (Nat.eqb p v) && negb (ptr_eqb (Some p) (last_visible_child s))
    then update_info p (set_ci_visible false) s
    else update_info p (fun ci =>
           set_ci_visible true
             (set_ci_alloc (mkAlloc 0 0 (a_width a) (a_height a)) ci)) s in
  let s' := for_each l body s in
  but_infos s' = but_infos s
  /\ (forall q, ci_widget (deref s' q) = ci_widget (deref s q))
  /\ (forall p, In p l ->
        ci_visible (deref s' p) = bool_decide (p = v)
        /\ (p = v -> ci_alloc (deref s' p) = mkAlloc 0 0 (a_width a) (a_height a))).
Proof.
  intros Hlast body. unfold for_each.
  assert (forall p s, but_infos (body p s) = but_infos s) as Hb.
  { intros p s0. unfold body. by destruct (_ && _). }
  induction l as [|q l IH] using rev_ind.
  { simpl. by split_and!. }
  cbv zeta. rewrite foldl_snoc.
  destruct IH as (Hbi & Hcw & Hin).
  set (s1 := foldl (fun s p => body p s) s l) in *.
  assert (last_visible_child s1 = None) as Hlast1.
  { apply (f_equal last_visible_child) in Hbi. simpl in Hbi. congruence. }
  split_and!.
  - by rewrite Hb.
  - intros p. rewrite <- Hcw. unfold body. rewrite Hlast1.
    destruct (_ && _); rewrite deref_update_info; by destruct (decide (q = p)) as [->|].
  - intros p Hp. unfold body. rewrite Hlast1.
    assert (ptr_eqb (Some q) None = false) as -> by done.
    rewrite andb_true_r.
    destruct (Nat.eqb_spec q v) as [-> | Hqv]; simpl; rewrite deref_update_info.
    + destruct (decide (v = p)) as [<- | Hvp]; simpl.
      * by rewrite bool_decide_eq_true_2.
      * apply in_app_iff in Hp as [Hp | [? | []]]; [by apply Hin | done].
    + destruct (decide (q = p)) as [<- | Hqp]; simpl.
      * by rewrite bool_decide_eq_false_2.
      * apply in_app_iff in Hp as [Hp | [? | []]]; [by apply Hin | done].
Qed.

(** [hdy_leaflet_size_allocate_folded] on a leaflet at rest: no last visible
    child, the mode transition at position 0, the widget of the visible child
    visible. *)
Lemma size_allocate_folded_at_rest a s v w :
  visible_child s = Some v ->
  ci_widget (deref s v) = Some w ->
  gtk_widget_get_visible s (Some w) = true ->
  last_visible_child s = None ->
  gdouble_le (mt_current_pos (mode_transition s)) 0 = true ->
  exists s',
    hdy_leaflet_size_allocate_folded a s = Some s'
    /\ visible_child s' = Some v
    /\ (forall q, ci_widget (deref s' q) = ci_widget (deref s q))
    /\ (forall p, In p (get_directed_children s) ->
          ci_visible (deref s' p) = bool_decide (p = v)
          /\ (p = v -> ci_alloc (deref s' p) = mkAlloc 0 0 (a_width a) (a_height a))).
Proof.
  intros Hv Hw Hvis Hlast Hpos. unfold hdy_leaflet_size_allocate_folded. cbv zeta.
  rewrite Hv. simpl. rewrite Hw.
  match goal with
  | |- context [ for_each ?l ?body s ] =>
      assert (but_widgets (for_each l body s) = but_widgets s) as Hbw;
      [| assert (gtk_widget_get_visible (for_each l body s) (Some w)
                 = gtk_widget_get_visible s (Some w)) as Hgv;
         [| set (sA := for_each l body s) in *; clearbody sA ] ]
  end.
  { apply but_widgets_for_each. intros p s0.
    repeat case_match; try done; apply but_widgets_set_child_visible. }
  { apply visible_for_each. intros p s0.
    repeat case_match; try done; apply visible_set_child_visible. }
  cbn [is_nonnull negb]. rewrite Hgv, Hvis. cbn [negb].
  set (sB := gtk_widget_set_child_visible (Some w) true sA).
  assert (but_widgets sB = but_widgets s) as HbwB
    by (subst sB; by rewrite but_widgets_set_child_visible).
  assert (mode_transition sB = mode_transition s) as ->
    by (apply (f_equal mode_transition) in HbwB; exact HbwB).
  rewrite Hpos.
  assert (last_visible_child sB = None) as HlastB.
  { apply (f_equal last_visible_child) in HbwB.
    change (last_visible_child sB = last_visible_child s) in HbwB. congruence. }
  destruct (folded_layout_spec (get_directed_children s) v a sB HlastB) as (Hbi & Hcw & Hin).
  cbv zeta in Hbi, Hcw, Hin.
  match type of Hbi with
  | but_infos ?x = _ => set (sC := x) in *
  end.
  exists sC. split; [reflexivity|]. split_and!.
  - apply (f_equal visible_child) in Hbi. apply (f_equal visible_child) in HbwB.
    change (visible_child sC = visible_child sB) in Hbi.
    change (visible_child sB = visible_child s) in HbwB. congruence.
  - intros q. rewrite Hcw. apply (f_equal infos) in HbwB.
    change (infos sB = infos s) in HbwB. unfold deref. by rewrite HbwB.
  - exact Hin.
Qed.

Lemma in_directed_children s p :
  children_reversed s = rev (children s) ->
  In p (get_directed_children s) <-> In p (children s).
Proof.
  intros Hrev. unfold get_directed_children. destruct (_ && _); [| done].
  rewrite Hrev. symmetry. apply in_rev.
Qed.

(** C4 (amended).  On a folded leaflet that the allocation keeps folded (the
    fold decision of [hdy_leaflet_size_allocate] holds for it), with no last
    visible child, the mode transition at position 0 and the widget of the
    visible child visible, [hdy_leaflet_size_allocate] returns with exactly
    one child child-visible: the widget of the visible child, which receives
    the rectangle of the whole allocation at (0,0); the widget of every other
    child is set not child-visible.  The children are distinct and no two of
    them share a widget. *)
Theorem folded_allocation_shows_visible_child a s v w :
  children_reversed s = rev (children s) ->
  widgets_distinct s ->
  folded s = true ->
  should_fold s a = true ->
  visible_child s = Some v ->
  In v (children s) ->
  ci_widget (deref s v) = Some w ->
  gtk_widget_get_visible s (Some w) = true ->
  last_visible_child s = None ->
  (mt_current_pos (mode_transition s) == 0)%Q ->
  exists s',
    hdy_leaflet_size_allocate a s = Some s'
    /\ folded s' = true
    /\ visible_child s' = Some v
    /\ (forall p c, In p (children s) -> ci_widget (deref s p) = Some c ->
          gtk_widget_get_child_visible s' (Some c) = bool_decide (p = v))
    /\ w_allocation (widgets s' !!! w) = mkAlloc 0 0 (a_width a) (a_height a).
Proof.
  intros Hrev Hdist Hfolded Hfold Hv Hvin Hw Hvis Hlast Hpos.
  rewrite size_allocate_unfold. cbv zeta.
  rewrite (fold_decision_spec a s Hrev), Hfold.
  destruct (size_allocate_entry_spec a s) as (Hi0 & Hw0 & Hc0).
  set (s0 := size_allocate_entry a s) in *. clearbody s0.
  destruct (prepare_loop_spec (get_directed_children s) s0) as (Hw1 & Hc1 & Hcw1 & _ & _).
  cbv zeta in Hw1, Hc1, Hcw1.
  set (s1 := for_each (get_directed_children s) prepare_child s0) in *. clearbody s1.
  assert (layout_config s1 = layout_config s) as Hc by congruence.
  unfold layout_config in Hc.
  injection Hc as Hch Hchr Hor Hdir Hhom Hvc Hlvc Hfo Htt Hre Hmt.
  assert (forall q, ci_widget (deref s1 q) = ci_widget (deref s q)) as Hcw.
  { intros q. rewrite Hcw1. unfold deref. by rewrite Hi0. }
  assert (hdy_leaflet_set_folded true s1 = s1) as ->.
  { unfold hdy_leaflet_set_folded. by rewrite Hfo, Hfolded. }
  assert (get_directed_children s1 = get_directed_children s) as Hdc.
  { unfold get_directed_children. by rewrite Hch, Hchr, Hor, Hdir. }
  destruct (size_allocate_folded_at_rest a s1 v w) as (s3 & Hs3 & Hv3 & Hcw3 & Hin3).
  { congruence. }
  { by rewrite Hcw. }
  { unfold gtk_widget_get_visible in *. by rewrite Hw1, Hw0. }
  { congruence. }
  { rewrite Hmt. unfold gdouble_le. apply Qle_bool_iff. rewrite Hpos. apply Qle_refl. }
  rewrite Hs3. simpl. eexists. split; [reflexivity|].
  set (s4 := for_each (get_directed_children s) apply_child s3).
  assert (but_widgets s4 = but_widgets s3) as Hbw4.
  { apply but_widgets_for_each. intros p s5. unfold apply_child. cbv zeta.
    unfold gtk_widget_size_allocate, gtk_widget_show, gtk_widget_set_child_visible.
    destruct (ci_widget (deref s5 p)); simpl; repeat case_match; done. }
  assert (forall p c, In p (children s) -> ci_widget (deref s p) = Some c ->
            w_child_visible (widgets s4 !!! c) = bool_decide (p = v)
            /\ (bool_decide (p = v) = true ->
                w_allocation (widgets s4 !!! c) = mkAlloc 0 0 (a_width a) (a_height a)))
    as Hfinal.
  { intros p c Hp Hpc. apply apply_loop_spec.
    - exists p. split; [by apply in_directed_children|]. by rewrite Hcw3, Hcw.
    - intros q Hq Hqc. rewrite Hdc in Hin3. destruct (Hin3 q Hq) as [Hqv Hqa].
      assert (q = p) as ->.
      { apply Hdist; [by apply (in_directed_children s q Hrev) | done |].
        rewrite <- Hcw, <- Hcw3, Hqc. by rewrite Hpc. }
      split; [done|]. intros Hb. apply Hqa. by apply bool_decide_eq_true_1 in Hb. }
  split_and!.
  - apply (f_equal folded) in Hbw4. change (folded s4 = folded s3) in Hbw4.
    rewrite Hbw4. rewrite (folded_skeleton s1 s3 (skeleton_size_allocate_folded a s1 s3 Hs3)).
    congruence.
  - apply (f_equal visible_child) in Hbw4. change (visible_child s4 = visible_child s3) in Hbw4.
    congruence.
  - intros p c Hp Hpc. unfold gtk_widget_get_child_visible. by apply Hfinal.
  - destruct (Hfinal v w Hvin Hw) as [_ Ha]. apply Ha. by apply bool_decide_eq_true_2.
Qed.

Lemma folded_allocation_shows_visible_child_witness :
  exists s',
    hdy_leaflet_size_allocate (mkAlloc 0 0 150 50) example_folded = Some s'
    /\ gtk_widget_get_child_visible s' (Some 1%nat) = true
    /\ gtk_widget_get_child_visible s' (Some 2%nat) = false
    /\ w_allocation (widgets s' !!! 1%nat) = mkAlloc 0 0 150 50.
Proof.
  assert (widgets_distinct example_folded) as Hdist.
  { intros p q Hp Hq. vm_compute in Hp, Hq.
    destruct Hp as [<- | [<- | []]], Hq as [<- | [<- | []]]; vm_compute; congruence. }
  assert (children_reversed example_folded = rev (children example_folded)) as Hrev
    by (vm_compute; reflexivity).
  assert (folded example_folded = true) as Hfolded by (vm_compute; reflexivity).
  assert (should_fold example_folded (mkAlloc 0 0 150 50) = true) as Hfold
    by (vm_compute; reflexivity).
  assert (visible_child example_folded = Some 1%nat) as Hv by (vm_compute; reflexivity).
  assert (In 1%nat (children example_folded)) as H1 by (vm_compute; by left).
  assert (In 2%nat (children example_folded)) as H2 by (vm_compute; right; by left).
  assert (ci_widget (deref example_folded 1%nat) = Some 1%nat) as Hw1
    by (vm_compute; reflexivity).
  assert (ci_widget (deref example_folded 2%nat) = Some 2%nat) as Hw2
    by (vm_compute; reflexivity).
  assert (gtk_widget_get_visible example_folded (Some 1%nat) = true) as Hvis
    by (vm_compute; reflexivity).
  assert (last_visible_child example_folded = None) as Hlast by (vm_compute; reflexivity).
  assert (mt_current_pos (mode_transition example_folded) == 0)%Q as Hpos
    by (vm_compute; reflexivity).
  destruct (folded_allocation_shows_visible_child (mkAlloc 0 0 150 50) example_folded
              1%nat 1%nat Hrev Hdist Hfolded Hfold Hv H1 Hw1 Hvis Hlast Hpos)
    as (s' & Hs' & _ & _ & Hcv & Hal).
  exists s'. split; [exact Hs'|]. split_and!.
  - exact (Hcv 1%nat 1%nat H1 Hw1).
  - exact (Hcv 2%nat 2%nat H2 Hw2).
  - exact Hal.
Defined.

(** C4 (as stated, refuted).  Not every allocation of a folded leaflet at
    rest leaves the visible child alone child-visible: the example leaflet,
    reachable, folded and settled with child 1 visible, is given a width of
    300, where both children fit at their natural width of 100 and the fold
    decision fails.  After that allocation the widget of child 2 is
    child-visible as well. *)
Lemma folded_leaflet_unfolds_when_wide :
  ~ (forall a s v w s',
       reachable s -> folded s = true ->
       visible_child s = Some v -> In v (children s) ->
       ci_widget (deref s v) = Some w -> gtk_widget_get_visible s (Some w) = true ->
       last_visible_child s = None -> (mt_current_pos (mode_transition s) == 0)%Q ->
       hdy_leaflet_size_allocate a s = Some s' ->
       (forall p c, In p (children s) -> ci_widget (deref s p) = Some c ->
          gtk_widget_get_child_visible s' (Some c) = bool_decide (p = v))
       /\ w_allocation (widgets s' !!! w) = mkAlloc 0 0 (a_width a) (a_height a)).
Proof.
  intros H.
  assert (reachable example_folded) as Hr.
  { apply reachable_state_after. vm_compute. eauto. }
  assert (folded example_folded = true) as Hfolded by (vm_compute; reflexivity).
  assert (visible_child example_folded = Some 1%nat) as Hv by (vm_compute; reflexivity).
  assert (In 1%nat (children example_folded)) as H1 by (vm_compute; by left).
  assert (In 2%nat (children example_folded)) as H2 by (vm_compute; right; by left).
  assert (ci_widget (deref example_folded 1%nat) = Some 1%nat) as Hw1
    by (vm_compute; reflexivity).
  assert (ci_widget (deref example_folded 2%nat) = Some 2%nat) as Hw2
    by (vm_compute; reflexivity).
  assert (gtk_widget_get_visible example_folded (Some 1%nat) = true) as Hvis
    by (vm_compute; reflexivity).
  assert (last_visible_child example_folded = None) as Hlast by (vm_compute; reflexivity).
  assert (mt_current_pos (mode_transition example_folded) == 0)%Q as Hpos
    by (vm_compute; reflexivity).
  destruct (hdy_leaflet_size_allocate (mkAlloc 0 0 300 50) example_folded) as [s'|] eqn:E;
    [| vm_compute in E; discriminate].
  assert (gtk_widget_get_child_visible s' (Some 2%nat) = true) as Hcv.
  { refine (fmap_eval (fun s => gtk_widget_get_child_visible s (Some 2%nat)) _ _ _ _ E).
    vm_compute. reflexivity. }
  destruct (H (mkAlloc 0 0 300 50) example_folded 1%nat 1%nat s'
              Hr Hfolded Hv H1 Hw1 Hvis Hlast Hpos E) as [Hall _].
  specialize (Hall 2%nat 2%nat H2 Hw2). rewrite Hcv in Hall.
  vm_compute in Hall. discriminate Hall.
Qed.

(** ** C1: size allocation returns, and its decision *)

Lemma same_layout_refl s : same_layout s s.
Proof. by split. Qed.

Lemma same_layout_trans s1 s2 s3 : same_layout s1 s2 -> same_layout s2 s3 -> same_layout s1 s3.
Proof. intros [H1 H1'] [H2 H2']. split; [congruence | intros a; by rewrite H2', H1']. Qed.

Lemma same_layout_widgets s s' :
  allocation_frame s' = allocation_frame s -> widgets s' = widgets s -> same_layout s s'.
Proof.
  intros Hf Hw. split; [done|]. intros a. unfold gtk_widget_get_visible. by rewrite Hw.
Qed.

Lemma same_layout_set_child_visible w b s : same_layout s (gtk_widget_set_child_visible w b s).
Proof.
  split; [by destruct w | intros a; apply visible_set_child_visible].
Qed.

Lemma same_layout_stop_child_transition s :
  same_layout s (hdy_leaflet_stop_child_transition s).
Proof.
  unfold hdy_leaflet_stop_child_transition. cbv zeta.
  set (s1 := upd_ct _ (upd_ct _ (hdy_leaflet_unschedule_child_ticks s))).
  assert (same_layout s s1) as H1.
  { subst s1. unfold hdy_leaflet_unschedule_child_ticks.
    destruct (negb _); by apply same_layout_widgets. }
  clearbody s1. apply (same_layout_trans s s1); [done|].
  destruct (last_visible_child s1) as [last|]; [| by apply same_layout_widgets].
  apply (same_layout_trans s1 (gtk_widget_set_child_visible (ci_widget (deref s1 last)) false s1));
    [apply same_layout_set_child_visible | by apply same_layout_widgets].
Qed.

Lemma same_layout_set_position pos s : same_layout s (hdy_leaflet_set_position pos s).
Proof.
  unfold hdy_leaflet_set_position. cbv zeta.
  set (s1 := upd_mt (set_mt_current_pos pos) s).
  assert (same_layout s s1) as H1 by (by apply same_layout_widgets).
  clearbody s1. apply (same_layout_trans s s1); [done|].
  destruct (_ && _); [apply same_layout_set_child_visible | apply same_layout_refl].
Qed.

(** The branch of [hdy_leaflet_start_mode_transition] that animates. *)
Lemma same_layout_mode_animation s :
  let s1 := upd_mt (fun m => set_mt_source_pos (mt_current_pos m) m) s in
  let s2 := if mt_tick_id (mode_transition s1) =? 0 then
              let '(id, s) := gtk_widget_add_tick_callback MODE_TRANSITION_CB s1 in
              upd_mt (set_mt_tick_id id) s
            else s1 in
  same_layout s
    (upd_mt (fun m =>
       set_mt_tracker (gtk_progress_tracker_start ((mt_duration m * 1000) mod 2 ^ 32) 0 1%Q) m) s2).
Proof.
  intros s1 s2.
  assert (same_layout s s1) as H1 by (by apply same_layout_widgets).
  assert (same_layout s1 s2) as H2.
  { subst s2. clearbody s1. destruct (mt_tick_id _ =? 0); [| apply same_layout_refl].
    unfold gtk_widget_add_tick_callback. by apply same_layout_widgets. }
  clearbody s2. clearbody s1.
  apply (same_layout_trans s s1); [done|].
  apply (same_layout_trans s1 s2); [done | by apply same_layout_widgets].
Qed.

Lemma same_layout_start_mode_transition target s :
  same_layout s (hdy_leaflet_start_mode_transition target s).
Proof.
  unfold hdy_leaflet_start_mode_transition.
  destruct (gdouble_eq _ _); [apply same_layout_refl|]. cbv zeta.
  set (s1 := hdy_leaflet_stop_child_transition (upd_mt (set_mt_target_pos target) s)).
  assert (same_layout s s1) as H1.
  { apply (same_layout_trans s (upd_mt (set_mt_target_pos target) s));
      [by apply same_layout_widgets | apply same_layout_stop_child_transition]. }
  clearbody s1. apply (same_layout_trans s s1); [done|].
  destruct (_ && _); [| apply same_layout_set_position].
  apply same_layout_mode_animation.
Qed.

Lemma same_layout_set_folded f s : same_layout s (hdy_leaflet_set_folded f s).
Proof.
  unfold hdy_leaflet_set_folded. destruct (eqb _ _); [apply same_layout_refl|]. cbv zeta.
  apply (same_layout_trans s (with_folded f s)); [by apply same_layout_widgets|].
  destruct f; apply same_layout_start_mode_transition.
Qed.

(** A loop that threads counters along with the state. *)
Lemma foldl_prefix_invariant {A} (P : list info_ptr -> A -> Leaflet -> Prop)
    (f : A * Leaflet -> info_ptr -> A * Leaflet) l a s :
  P [] a s ->
  (forall pre a s p, P pre a s -> P (pre ++ [p]) (fst (f (a, s) p)) (snd (f (a, s) p))) ->
  P l (fst (foldl f (a, s) l)) (snd (foldl f (a, s) l)).
Proof.
  intros H0 Hstep. induction l as [|p l IH] using rev_ind; [exact H0|].
  rewrite foldl_snoc.
  destruct (foldl f (a, s) l) as [a1 s1]. apply Hstep, IH.
Qed.

Lemma same_layout_update_info p f s :
  (forall ci, ci_widget (f ci) = ci_widget ci) ->
  children (update_info p f s) = children s
  /\ visible_child (update_info p f s) = visible_child s
  /\ widgets (update_info p f s) = widgets s
  /\ forall q, ci_widget (deref (update_info p f s) q) = ci_widget (deref s q).
Proof.
  intros Hf. split_and!; try reflexivity.
  intros q. unfold deref, update_info. simpl.
  destruct (decide (p = q)) as [->|Hne].
  - by rewrite lookup_total_insert_eq, Hf.
  - by rewrite lookup_total_insert_ne.
Qed.

Lemma size_allocate_unfolded_returns a s v w :
  visible_child s = Some v -> In v (get_directed_children s) ->
  ci_widget (deref s v) = Some w -> gtk_widget_get_visible s (Some w) = true ->
  is_Some (hdy_leaflet_size_allocate_unfolded a s).
Proof.
  intros Hv Hin Hw Hvis. unfold hdy_leaflet_size_allocate_unfolded. cbv zeta.
  match goal with |- context [foldl ?f (0, 0, s) ?l] =>
    pose proof (foldl_prefix_invariant
      (fun pre (c : Z * Z) s' =>
         visible_child s' = Some v /\ widgets s' = widgets s
         /\ (forall q, ci_widget (deref s' q) = ci_widget (deref s q))
         /\ 0 <= fst c /\ (In v pre -> fst c <> 0))
      f l (0, 0) s) as Hcount
  end.
  cbv beta in Hcount.
  lapply Hcount; [clear Hcount; intros Hcount | split_and!; try done; by intros []].
  lapply Hcount; [clear Hcount; intros Hcount |]; cycle 1.
  { intros pre [n1 e1] s1 p (H1 & H2 & H3 & H4 & H5). cbn [fst snd].
    set (vis := is_nonnull (ci_widget (deref s1 p))
                && gtk_widget_get_visible s1 (ci_widget (deref s1 p))).
    assert (vis = is_nonnull (ci_widget (deref s p))
                  && gtk_widget_get_visible s (ci_widget (deref s p))) as Ep.
    { subst vis. rewrite H3. unfold gtk_widget_get_visible. by rewrite H2. }
    clearbody vis. destruct vis.
    - cbn [fst snd].
      destruct (same_layout_update_info p (set_ci_visible true) s1) as (_ & -> & -> & Hq);
        [done|].
      cbn [fst] in H4. split_and!; [done | done | intros q; by rewrite Hq | lia | lia].
    - cbn [fst snd].
      set (s1' := update_info p (set_ci_visible false) s1).
      destruct (same_layout_update_info p (set_ci_visible false) s1) as (_ & Ha & Hb & Hq);
        [done|]. fold s1' in Ha, Hb, Hq.
      destruct (same_layout_update_info p (fun ci => set_ci_nat req0 (set_ci_min req0 ci)) s1')
        as (_ & -> & -> & Hq'); [done|].
      rewrite Ha, Hb. split_and!; try done; [intros q; by rewrite Hq', Hq |].
      intros Hpre. apply in_app_iff in Hpre as [Hpre | [<- | []]]; [by apply H5|].
      rewrite Hw, Hvis in Ep. done. }
  destruct (foldl _ (0, 0, s) (get_directed_children s)) as [[n e] s3].
  destruct Hcount as (Hv3 & _ & _ & _ & Hn). cbn [fst] in Hn.
  specialize (Hn Hin).
  assert (exists r, extra_space s3 (orientation s) (homogeneous s HDY_FOLD_UNFOLDED (orientation s))
                      (get_directed_children s) n e a = Some r) as [[[hs pce] nx] ->].
  { unfold extra_space. destruct (homogeneous s _ _).
    - apply Z.eqb_neq in Hn. rewrite Hn. simpl. destruct (_ >? 0); eauto.
    - simpl. destruct (_ >? 0); eauto. }
  simpl.
  match goal with |- context [foldl ?f (0, nx, s3) ?l] =>
    pose proof (foldl_prefix_invariant
      (fun pre (c : Z * Z) s' => visible_child s' = Some v) f l (0, nx) s3 Hv3) as Halloc
  end.
  cbv beta in Halloc.
  destruct (foldl _ (0, nx, s3) (get_directed_children s)) as [[pos nx'] s4].
  lapply Halloc; [clear Halloc; cbn [snd]; intros -> |]; [by eexists|].
  intros pre [pos1 nx1] s1 p H1. unfold allocate_child.
  destruct (negb _); [done|]. by destruct (if homogeneous s _ _ then _ else _).
Qed.

Lemma size_allocate_folded_returns a s v :
  visible_child s = Some v -> is_Some (hdy_leaflet_size_allocate_folded a s).
Proof.
  intros Hv. unfold hdy_leaflet_size_allocate_folded. rewrite Hv. simpl.
  destruct (negb (is_nonnull _)); [by eexists|].
  destruct (negb (gtk_widget_get_visible _ _)); [by eexists|].
  destruct (if gdouble_le _ _ then _ else _); by eexists.
Qed.

(** [hdy_leaflet_size_allocate] returns on a leaflet whose visible child is
    one of its children and has a visible widget. *)
Lemma size_allocate_returns a s v w :
  children_reversed s = rev (children s) ->
  visible_child s = Some v -> In v (children s) ->
  ci_widget (deref s v) = Some w -> gtk_widget_get_visible s (Some w) = true ->
  is_Some (hdy_leaflet_size_allocate a s).
Proof.
  intros Hrev Hv Hin Hw Hvis. rewrite size_allocate_unfold. cbv zeta.
  destruct (size_allocate_entry_spec a s) as (Hi0 & Hw0 & Hc0).
  set (s0 := size_allocate_entry a s) in *. clearbody s0.
  destruct (prepare_loop_spec (get_directed_children s) s0) as (Hw1 & Hc1 & Hcw1 & _ & _).
  cbv zeta in Hw1, Hc1, Hcw1.
  set (s1 := for_each (get_directed_children s) prepare_child s0) in *. clearbody s1.
  assert (layout_config s1 = layout_config s) as Hc by congruence.
  destruct (same_layout_set_folded (fold_decision s1 a) s1) as [Hf2 Hvis2].
  set (s2 := hdy_leaflet_set_folded (fold_decision s1 a) s1) in *. clearbody s2.
  assert (visible_child s2 = Some v) as Hv2.
  { rewrite <- Hv. transitivity (visible_child s1); [by injection Hf2 | by injection Hc]. }
  assert (get_directed_children s2 = get_directed_children s) as Hd2.
  { transitivity (get_directed_children s1); [| by apply get_directed_children_config].
    unfold get_directed_children. by injection Hf2 as -> -> -> -> _ _ _. }
  assert (ci_widget (deref s2 v) = Some w) as Hw2.
  { rewrite <- Hw. unfold deref at 1. replace (infos s2) with (infos s1) by (by injection Hf2).
    fold (deref s1 v). rewrite Hcw1. unfold deref. by rewrite Hi0. }
  assert (gtk_widget_get_visible s2 (Some w) = true) as Hvs2.
  { rewrite Hvis2, <- Hvis. unfold gtk_widget_get_visible. by rewrite Hw1, Hw0. }
  assert (is_Some (if fold_decision s1 a then hdy_leaflet_size_allocate_folded a s2
                   else hdy_leaflet_size_allocate_unfolded a s2)) as [s3 ->].
  { destruct (fold_decision s1 a).
    - by apply (size_allocate_folded_returns a s2 v).
    - apply (size_allocate_unfolded_returns a s2 v w); try done.
      rewrite Hd2. by apply in_directed_children. }
  by eexists.
Qed.

(** C1.  [hdy_leaflet_size_allocate] sets the leaflet folded exactly when the
    size allocated along the orientation, the width for a horizontal leaflet
    and the height for a vertical one, is strictly less than the accumulated
    natural sizes of the children: their sum, or the largest of them times
    their number when the unfolded leaflet is homogeneous along the
    orientation.  An allocation equal to the accumulated size leaves the
    leaflet unfolded.  This holds of every state the function returns, and it
    returns whenever the visible child is one of the children and has a
    visible widget. *)
Theorem size_allocate_fold_decision a s :
  children_reversed s = rev (children s) ->
  (forall s',
     hdy_leaflet_size_allocate a s = Some s' ->
     (folded s' = true
      <-> alloc_size (orientation s) a
          < accumulated_natural_size (homogeneous s HDY_FOLD_UNFOLDED (orientation s))
              (natural_sizes s (orientation s)))
     /\ (alloc_size (orientation s) a
         = accumulated_natural_size (homogeneous s HDY_FOLD_UNFOLDED (orientation s))
             (natural_sizes s (orientation s)) ->
         folded s' = false))
  /\ (forall v w,
        visible_child s = Some v -> In v (children s) ->
        ci_widget (deref s v) = Some w -> gtk_widget_get_visible s (Some w) = true ->
        is_Some (hdy_leaflet_size_allocate a s)).
Proof.
  intros Hrev. split; [| intros v w; by apply size_allocate_returns].
  intros s'. rewrite size_allocate_unfold. cbv zeta.
  rewrite (fold_decision_spec a s Hrev).
  set (s1 := for_each (get_directed_children s) prepare_child (size_allocate_entry a s)).
  clearbody s1. intros H.
  apply bind_Some in H as (s3 & H3 & H). injection H as <-.
  assert (folded (for_each (get_directed_children s) apply_child s3) = should_fold s a) as ->.
  { rewrite (folded_skeleton s3)
      by (apply skeleton_for_each; intros; apply skeleton_apply_child).
    rewrite <- (folded_set_folded (should_fold s a) s1).
    apply folded_skeleton.
    destruct (should_fold s a);
      [eapply skeleton_size_allocate_folded | eapply skeleton_size_allocate_unfolded]; exact H3. }
  unfold should_fold. split.
  - apply Z.ltb_lt.
  - intros ->. apply Z.ltb_irrefl.
Qed.

Lemma size_allocate_fold_decision_witness :
  let s := state_after example_world example_setup in
  let a := mkAlloc 0 0 150 50 in
  children_reversed s = rev (children s)
  /\ exists s', hdy_leaflet_size_allocate a s = Some s' /\ folded s' = true.
Proof.
  cbv zeta.
  assert (children_reversed (state_after example_world example_setup)
          = rev (children (state_after example_world example_setup))) as Hrev
    by (vm_compute; reflexivity).
  assert (visible_child (state_after example_world example_setup) = Some 1%nat) as Hv
    by (vm_compute; reflexivity).
  assert (In 1%nat (children (state_after example_world example_setup))) as Hin
    by (vm_compute; auto).
  assert (ci_widget (deref (state_after example_world example_setup) 1%nat) = Some 1%nat) as Hw
    by (vm_compute; reflexivity).
  assert (gtk_widget_get_visible (state_after example_world example_setup) (Some 1%nat) = true)
    as Hvis by (vm_compute; reflexivity).
  split; [exact Hrev|].
  destruct (size_allocate_fold_decision (mkAlloc 0 0 150 50)
              (state_after example_world example_setup) Hrev) as [Hdec Hret].
  destruct (Hret 1%nat 1%nat Hv Hin Hw Hvis) as [s' E].
  exists s'. split; [exact E|].
  apply (Hdec s' E). vm_compute. reflexivity.
Defined.

(** ** C2: cancelled swipes *)

Lemma transition_frame_move_resize_bin_window a r s :
  transition_frame (move_resize_bin_window a r s) = transition_frame s
  /\ selection (move_resize_bin_window a r s) = selection s.
Proof. unfold move_resize_bin_window. by destruct (bin_window s). Qed.

Lemma transition_frame_set_child_visible w b s :
  transition_frame (gtk_widget_set_child_visible w b s) = transition_frame s
  /\ selection (gtk_widget_set_child_visible w b s) = selection s.
Proof. by destruct w. Qed.

(** What [hdy_leaflet_child_progress_updated] does to the selection: when no
    gesture is active and the tracker is in its final state, a cancelled
    transition goes back to the last visible child and any other forgets it;
    otherwise nothing changes. *)
Lemma child_progress_updated_selection s s' :
  hdy_leaflet_child_progress_updated s = Some s' ->
  transition_frame s' = transition_frame s
  /\ (if negb (ct_is_gesture_active (child_transition s))
         && bool_decide (child_tracker_state s = GTK_PROGRESS_STATE_AFTER)
      then match last_visible_child s with
           | Some last =>
               selection s'
               = (if ct_is_cancelled (child_transition s) then Some last else visible_child s,
                  None)
           | None => selection s' = selection s
           end
      else selection s' = selection s).
Proof.
  unfold hdy_leaflet_child_progress_updated.
  destruct (transition_frame_move_resize_bin_window None false s) as [Hf Hs].
  set (s0 := move_resize_bin_window None false s) in *. cbv zeta.
  assert (child_transition s0 = child_transition s) as Hc by (by injection Hf).
  assert (last_visible_child s0 = last_visible_child s) as Hl by (by injection Hs).
  assert (visible_child s0 = visible_child s) as Hv by (by injection Hs).
  unfold child_tracker_state. rewrite Hc, Hl. clearbody s0.
  destruct (_ && _); [| by intros [= <-]].
  destruct (ct_is_cancelled _), (last_visible_child s) as [last|];
    try (by intros [= <-]).
  - destruct (folded s0).
    + set (v0 := visible_child (gtk_widget_set_child_visible _ true s0)).
      assert (v0 = visible_child s0) as ->.
      { destruct (transition_frame_set_child_visible (ci_widget (deref s0 last)) true s0)
          as [_ Hs']. by injection Hs'. }
      destruct (visible_child s0) as [c|]; simpl; [| done].
      intros [= <-]. rewrite <- Hf. split; [| reflexivity].
      destruct (ci_widget _), (ci_widget _); reflexivity.
    + simpl. intros [= <-]. by rewrite <- Hf.
  - intros [= <-]. rewrite <- Hf, <- Hv.
    destruct (folded s0); [destruct (ci_widget _)|]; by split.
Qed.

(** It fails only on the NULL visible child of a folded leaflet. *)
Lemma child_progress_updated_total s :
  visible_child s <> None \/ last_visible_child s = None ->
  is_Some (hdy_leaflet_child_progress_updated s).
Proof.
  unfold hdy_leaflet_child_progress_updated.
  destruct (transition_frame_move_resize_bin_window None false s) as [Hf Hs].
  set (s0 := move_resize_bin_window None false s) in *. cbv zeta.
  assert (last_visible_child s0 = last_visible_child s) as Hl by (by injection Hs).
  assert (visible_child s0 = visible_child s) as Hv by (by injection Hs).
  rewrite Hl. clearbody s0. intros H.
  destruct (_ && _); [| done].
  destruct (ct_is_cancelled _), (last_visible_child s) as [last|]; try done.
  destruct (folded s0); [| done].
  destruct (transition_frame_set_child_visible (ci_widget (deref s0 last)) true s0) as [_ Hs'].
  cbv zeta. assert (visible_child (gtk_widget_set_child_visible (ci_widget (deref s0 last)) true s0)
          = visible_child s) as -> by (rewrite <- Hv; by injection Hs').
  destruct H as [H | H]; [| done]. by destruct (visible_child s).
Qed.

(** In the final state of a cancelled transition of a folded leaflet the
    last visible child is shown again and the child that was to replace it is
    hidden. *)
Lemma child_progress_updated_restores s v c :
  ct_is_gesture_active (child_transition s) = false ->
  child_tracker_state s = GTK_PROGRESS_STATE_AFTER ->
  ct_is_cancelled (child_transition s) = true ->
  last_visible_child s = Some v -> visible_child s = Some c ->
  exists s',
    hdy_leaflet_child_progress_updated s = Some s'
    /\ visible_child s' = Some v /\ last_visible_child s' = None
    /\ (folded s = true ->
        forall wv wc, ci_widget (deref s v) = Some wv -> ci_widget (deref s c) = Some wc ->
          gtk_widget_get_child_visible s' (Some wc) = false
          /\ (wv <> wc -> gtk_widget_get_child_visible s' (Some wv) = true)).
Proof.
  intros Hg Ht Hc Hl Hv.
  destruct (child_progress_updated_total s) as [s' E]; [left; by rewrite Hv |].
  exists s'. split; [done|].
  destruct (child_progress_updated_selection s s' E) as [_ Hsel].
  rewrite Hg, Hl, Hc in Hsel. simpl in Hsel. rewrite bool_decide_eq_true_2 in Hsel by done.
  split; [by injection Hsel | split; [by injection Hsel |]].
  intros Hf wv wc Hwv Hwc. revert E.
  unfold hdy_leaflet_child_progress_updated.
  destruct (transition_frame_move_resize_bin_window None false s) as [Hfr Hs].
  set (s0 := move_resize_bin_window None false s) in *. cbv zeta.
  assert (child_transition s0 = child_transition s) as Hc0 by (by injection Hfr).
  assert (folded s0 = folded s) as Hf0 by (by injection Hfr).
  assert (infos s0 = infos s) as Hi0 by (by injection Hfr).
  assert (last_visible_child s0 = last_visible_child s) as Hl0 by (by injection Hs).
  assert (visible_child s0 = visible_child s) as Hv0 by (by injection Hs).
  unfold child_tracker_state in *. rewrite Hc0, Hl0, Hf0, Hg, Ht, Hc, Hl, Hf.
  rewrite bool_decide_eq_true_2 by done. simpl.
  assert (deref s0 v = deref s v) as -> by (unfold deref; by rewrite Hi0).
  rewrite Hwv. simpl. rewrite Hv0, Hv. simpl.
  assert (deref (with_widgets (<[wv:=set_w_child_visible true (widgets s0 !!! wv)]> (widgets s0)) s0) c
          = deref s c) as -> by (unfold deref; simpl; by rewrite Hi0).
  rewrite Hwc. simpl. intros [= <-]. simpl.
  split.
  - by rewrite lookup_total_insert_eq.
  - intros Hne. rewrite lookup_total_insert_ne by done. by rewrite lookup_total_insert_eq.
Qed.

(** ** C3: the two transitions *)

(** [hdy_leaflet_start_child_transition] refuses to animate while a tick
    callback of the mode transition is active: no tick callback of the child
    transition is left, the active type is NONE and the tracker is
    finished. *)
Lemma start_child_transition_refuses t d dir s s' :
  mt_tick_id (mode_transition s) <> 0 ->
  hdy_leaflet_start_child_transition t d dir s = Some s' ->
  ct_tick_id (child_transition s') = 0
  /\ ct_active_type (child_transition s') = HDY_LEAFLET_TRANSITION_TYPE_NONE
  /\ gtk_progress_tracker_get_state (ct_tracker (child_transition s')) = GTK_PROGRESS_STATE_AFTER.
Proof.
  intros Hm. unfold hdy_leaflet_start_child_transition. cbv zeta.
  apply Z.eqb_neq in Hm. rewrite Hm, andb_false_r.
  intros H. apply child_progress_updated_selection in H as [Hf _].
  replace (child_transition s') with
    (child_transition
       (upd_ct (fun c => set_ct_tracker (gtk_progress_tracker_finish (ct_tracker c)) c)
          (upd_ct (set_ct_active_type HDY_LEAFLET_TRANSITION_TYPE_NONE)
             (hdy_leaflet_unschedule_child_ticks s)))) by (by injection Hf).
  unfold hdy_leaflet_unschedule_child_ticks. destruct (negb _) eqn:E; [done|].
  apply negb_false_iff, Z.eqb_eq in E. by rewrite <- E.
Qed.

(** [hdy_leaflet_start_mode_transition] stops the child transition before it
    starts: unless the target is the current one, no tick callback of the
    child transition is left. *)
Lemma start_mode_transition_stops_child target s :
  gdouble_eq (mt_target_pos (mode_transition s)) target = false ->
  ct_tick_id (child_transition (hdy_leaflet_start_mode_transition target s)) = 0.
Proof.
  intros Heq. unfold hdy_leaflet_start_mode_transition. rewrite Heq. cbv zeta.
  set (s1 := hdy_leaflet_stop_child_transition (upd_mt (set_mt_target_pos target) s)).
  assert (ct_tick_id (child_transition s1) = 0) as H1.
  { subst s1. unfold hdy_leaflet_stop_child_transition, hdy_leaflet_unschedule_child_ticks,
      gtk_widget_set_child_visible, update_widget. cbv zeta.
    destruct (negb _) eqn:E.
    - destruct (last_visible_child _); [destruct (ci_widget _)|]; done.
    - apply negb_false_iff, Z.eqb_eq in E. simpl in E.
      destruct (last_visible_child _); [destruct (ci_widget _)|]; done. }
  clearbody s1. destruct (_ && _).
  - destruct (mt_tick_id _ =? 0); exact H1.
  - unfold hdy_leaflet_set_position, gtk_widget_set_child_visible, update_widget. cbv zeta.
    destruct (_ && _); [destruct (hdy_leaflet_get_visible_child _)|]; exact H1.
Qed.

(** C3.  Both tick callbacks are scheduled at once in a state the leaflet
    reaches: it is folded by an allocation, which starts the mode transition,
    and a swipe begun and released while that transition runs schedules the
    tick callback of the child transition through [hdy_leaflet_end_swipe],
    which does not look at the mode transition. *)
Theorem both_tick_callbacks_scheduled :
  let s := state_after example_world example_swipe_while_folding in
  reachable s
  /\ ct_tick_id (child_transition s) = 2 /\ mt_tick_id (mode_transition s) = 1
  /\ ticks s = [(1, MODE_TRANSITION_CB); (2, CHILD_TRANSITION_CB)]
  /\ gtk_progress_tracker_get_state (ct_tracker (child_transition s)) = GTK_PROGRESS_STATE_DURING
  /\ gtk_progress_tracker_get_state (mt_tracker (mode_transition s)) = GTK_PROGRESS_STATE_DURING.
Proof.
  cbv zeta. split.
  - apply reachable_state_after. vm_compute. eauto.
  - vm_compute. by split_and!.
Qed.

(** ** C9: navigation *)

(** C9.  With the visible child followed only by a child whose allow-visible
    property is FALSE, [hdy_leaflet_navigate] forward returns TRUE and makes
    that child the visible child: the loop of [find_swipeable_child] keeps
    the last child it looked at when it runs off the end of the list. *)
Theorem navigate_reaches_disallowed_child :
  let s := state_after example_world example_disallowed_last in
  reachable s
  /\ children s = [1%nat; 2%nat] /\ visible_child s = Some 1%nat
  /\ ci_allow_visible (deref s 2%nat) = false
  /\ can_swipe_in_direction s HDY_NAVIGATION_DIRECTION_FORWARD = true
  /\ find_swipeable_child s HDY_NAVIGATION_DIRECTION_FORWARD = Some (Some 2%nat)
  /\ exists s',
       hdy_leaflet_navigate HDY_NAVIGATION_DIRECTION_FORWARD s = Some (s', true)
       /\ visible_child s' = Some 2%nat
       /\ ci_allow_visible (deref s' 2%nat) = false.
Proof.
  cbv zeta. split.
  - apply reachable_state_after. vm_compute. eauto.
  - split_and!; try (vm_compute; reflexivity).
    destruct (hdy_leaflet_navigate HDY_NAVIGATION_DIRECTION_FORWARD
                (state_after example_world example_disallowed_last)) as [[s' b]|] eqn:E;
      [| vm_compute in E; discriminate].
    assert (b = true) as ->.
    { refine (fmap_eval snd _ _ _ _ E). vm_compute. reflexivity. }
    exists s'. split; [reflexivity|].
    split.
    + refine (fmap_eval (fun r => visible_child (fst r)) _ _ _ _ E). vm_compute. reflexivity.
    + refine (fmap_eval (fun r => ci_allow_visible (deref (fst r) 2%nat)) _ _ _ _ E). vm_compute. reflexivity.
Qed.

(** ** C5: the homogeneous box *)

(** In the homogeneous case the repartition never has a pixel to hand out:
    [n_extra_widgets] is the remainder of the division of the remainder by
    itself. *)
Lemma extra_space_homogeneous s o l n e a hs pce nx :
  extra_space s o true l n e a = Some (hs, pce, nx) ->
  hs = Z.quot (alloc_size o a) n /\ nx = 0.
Proof.
  unfold extra_space. destruct (n =? 0); [done|]. simpl.
  destruct (_ >? 0) eqn:E.
  - intros [= <- _ <-]. split; [done|].
    replace (alloc_size o a - (alloc_size o a - Z.rem (alloc_size o a) n))
      with (Z.rem (alloc_size o a) n) by lia.
    apply Z.rem_same. lia.
  - by intros [= <- _ <-].
Qed.

(** C5.  A horizontally homogeneous leaflet with two visible children of
    natural width 1, allocated a width of 5, stays unfolded at position 1 and
    lays the children out side by side, but each receives a width of 2: the
    widths sum to 4 and one pixel of the allocation is given to no child. *)
Theorem homogeneous_widths_lose_remainder :
  let s := state_after example_small_world example_homogeneous in
  reachable s
  /\ exists s',
       hdy_leaflet_size_allocate (mkAlloc 0 0 5 50) s = Some s'
       /\ folded s' = false
       /\ mt_current_pos (mode_transition s') = 1%Q
       /\ w_allocation (widgets s' !!! 1%nat) = mkAlloc 0 0 2 50
       /\ w_allocation (widgets s' !!! 2%nat) = mkAlloc 2 0 2 50
       /\ a_width (w_allocation (widgets s' !!! 1%nat))
          + a_width (w_allocation (widgets s' !!! 2%nat)) <> 5.
Proof.
  cbv zeta. split.
  - apply reachable_state_after. vm_compute. eauto.
  - destruct (hdy_leaflet_size_allocate (mkAlloc 0 0 5 50)
                (state_after example_small_world example_homogeneous)) as [s'|] eqn:E;
      [| vm_compute in E; discriminate].
    exists s'. split; [reflexivity|].
    assert (w_allocation (widgets s' !!! 1%nat) = mkAlloc 0 0 2 50) as H1.
    { refine (fmap_eval (fun s => w_allocation (widgets s !!! 1%nat)) _ _ _ _ E). vm_compute. reflexivity. }
    assert (w_allocation (widgets s' !!! 2%nat) = mkAlloc 2 0 2 50) as H2.
    { refine (fmap_eval (fun s => w_allocation (widgets s !!! 2%nat)) _ _ _ _ E). vm_compute. reflexivity. }
    split_and!; [| | exact H1 | exact H2 | rewrite H1, H2; simpl; lia].
    + refine (fmap_eval folded _ _ _ _ E). vm_compute. reflexivity.
    + refine (fmap_eval (fun s => mt_current_pos (mode_transition s)) _ _ _ _ E). vm_compute. reflexivity.
Qed.

Lemma g_list_find_In l p : In p l -> is_Some (g_list_find l p).
Proof.
  induction l as [|x l IH]; simpl; [done|].
  intros [-> | Hin].
  - by rewrite Nat.eqb_refl.
  - destruct (Nat.eqb x p); [done|]. by destruct (IH Hin) as [[b a] ->].
Qed.

(** A transition started during a gesture leaves the selection and the
    gesture as they are. *)
Lemma start_child_transition_in_gesture t d dir s :
  ct_is_gesture_active (child_transition s) = true ->
  visible_child s <> None ->
  exists s', hdy_leaflet_start_child_transition t d dir s = Some s'
    /\ selection s' = selection s
    /\ ct_is_gesture_active (child_transition s') = true.
Proof.
  intros Hg Hv. unfold hdy_leaflet_start_child_transition.
  match goal with |- context [hdy_leaflet_child_progress_updated ?x] => set (s0 := x) end.
  assert (selection s0 = selection s /\ ct_is_gesture_active (child_transition s0) = true)
    as [Hs0 Hg0].
  { subst s0. cbv zeta. destruct (_ && _).
    - simpl. rewrite Hg. by simpl.
    - unfold hdy_leaflet_unschedule_child_ticks. by destruct (negb _). }
  clearbody s0.
  destruct (child_progress_updated_total s0) as [s' E].
  { left. replace (visible_child s0) with (visible_child s) by (by injection Hs0). done. }
  exists s'. split; [done|].
  destruct (child_progress_updated_selection s0 s' E) as [Hf Hsel].
  rewrite Hg0 in Hsel. simpl in Hsel.
  split; [congruence|]. replace (child_transition s') with (child_transition s0) by (by injection Hf).
  done.
Qed.

(** The visible child is switched by a gesture: the leaflet is then either
    as it was or swiping away from the child that was visible. *)
Lemma set_visible_child_info_in_gesture c t d s v :
  ct_is_gesture_active (child_transition s) = true ->
  last_visible_child s = None -> visible_child s = Some v ->
  self_visible s = true -> ci_widget (deref s v) <> None ->
  exists s', set_visible_child_info (Some c) t d false s = Some s'
    /\ (settled v s' \/ swiping v s').
Proof.
  intros Hg Hl Hv Hvis Hw.
  unfold set_visible_child_info, set_visible_child_info_with.
  destruct (in_destruction s); [exists s; split; [done | by left]|].
  destruct (ptr_eqb _ _); [exists s; split; [done | by left]|].
  rewrite Hl. cbv zeta.
  change (visible_child (with_last_visible_child None s)) with (visible_child s).
  rewrite Hv.
  change (deref (with_last_visible_child None s) v) with (deref s v).
  destruct (ci_widget (deref s v)) as [w|] eqn:Ew; [| done].
  change (self_visible (with_last_visible_child None s)) with (self_visible s).
  rewrite Hvis. cbn [is_nonnull].
  match goal with
  | |- context [ gtk_widget_set_child_visible ?w true ?x ] =>
      set (s1 := gtk_widget_set_child_visible w true x)
  end.
  assert (selection s1 = (Some c, Some v)
          /\ ct_is_gesture_active (child_transition s1) = true) as [Hs1 Hg1].
  { split.
    - subst s1. match goal with |- selection (gtk_widget_set_child_visible ?w ?b ?x) = _ =>
        destruct (transition_frame_set_child_visible w b x) as [_ ->] end.
      reflexivity.
    - subst s1. match goal with |- context [gtk_widget_set_child_visible ?w ?b ?x] =>
        destruct (transition_frame_set_child_visible w b x) as [Hf _];
        assert (child_transition (gtk_widget_set_child_visible w b x) = child_transition x)
          as -> by (by injection Hf) end.
      exact Hg. }
  clearbody s1.
  match goal with
  | |- context [ let '(_, _) := ?X in _ ] => destruct X as [t' dir']
  end.
  assert (folded s1 = true \/ folded s1 = false) as [-> | ->] by (destruct (folded s1); auto).
  - destruct (start_child_transition_in_gesture t' d dir' s1 Hg1) as (s' & E & Hsel & Hg').
    { replace (visible_child s1) with (Some c) by (by injection Hs1). done. }
    exists s'. rewrite E. split; [done|]. right.
    rewrite Hs1 in Hsel. unfold swiping. split; [done|].
    split; [by injection Hsel |]. replace (visible_child s') with (Some c) by (by injection Hsel).
    done.
  - exists s1. split; [done|]. right. unfold swiping. split; [done|].
    split; [by injection Hs1 |]. replace (visible_child s1) with (Some c) by (by injection Hs1).
    done.
Qed.

(** A swipe begun while no child transition is animated. *)
Lemma begin_swipe_phase dir direct s v :
  ct_tick_id (child_transition s) = 0 ->
  last_visible_child s = None -> visible_child s = Some v -> In v (children s) ->
  self_visible s = true -> ci_widget (deref s v) <> None ->
  exists s', hdy_leaflet_begin_swipe dir direct s = Some s'
    /\ (settled v s' \/ swiping v s').
Proof.
  intros Ht Hl Hv Hin Hvis Hw. unfold hdy_leaflet_begin_swipe.
  rewrite Ht. simpl.
  assert (exists child, find_swipeable_child s dir = Some child) as [child Ec].
  { unfold find_swipeable_child. rewrite Hv. simpl.
    destruct (g_list_find_In _ _ Hin) as [[b a] ->]. simpl. eauto. }
  assert (exists child,
    (if (can_swipe_in_direction s dir || negb direct) && folded s
     then find_swipeable_child s dir else Some None) = Some child) as [child' ->].
  { destruct (_ && _); eauto. }
  simpl. destruct child' as [c|]; [| exists s; split; [done | by left]].
  by apply set_visible_child_info_in_gesture.
Qed.


Lemma update_swipe_phase value s v :
  in_swipe v s ->
  exists s', hdy_leaflet_update_swipe value s = Some s' /\ in_swipe v s'.
Proof.
  intros Hp. unfold hdy_leaflet_update_swipe.
  set (s0 := upd_ct (set_ct_progress (ABS value)) s).
  assert (in_swipe v s0) as Hp0 by exact Hp.
  clearbody s0. clear Hp s.
  destruct (child_progress_updated_total s0) as [s' E].
  { destruct Hp0 as [[_ Hl] | (_ & _ & Hv)]; auto. }
  exists s'. split; [done|].
  destruct (child_progress_updated_selection s0 s' E) as [Hf Hsel].
  assert (child_transition s' = child_transition s0) as Hc by (by injection Hf).
  destruct Hp0 as [[Hv Hl] | (Hg & Hl & Hv)].
  - left. rewrite Hl in Hsel.
    assert (selection s' = selection s0) as Hs by (by destruct (_ && _)).
    unfold settled. split; [rewrite <- Hv | rewrite <- Hl]; by injection Hs.
  - right. rewrite Hg in Hsel. simpl in Hsel.
    unfold swiping. rewrite Hc. split; [done|].
    split; [rewrite <- Hl | replace (visible_child s') with (visible_child s0)];
      first [by injection Hsel | done].
Qed.

(** Releasing the swipe with the target 0 marks the transition cancelled;
    the leaflet is back at [v] at once when the tracker is finished at
    once, and reverting otherwise. *)
Lemma end_swipe_phase duration to s v :
  gdouble_eq to 0 = true -> in_swipe v s ->
  exists s', hdy_leaflet_end_swipe duration to s = Some s'
    /\ after_swipe v s'
    /\ (ct_is_gesture_active (child_transition s) = true ->
        ct_is_cancelled (child_transition s') = true).
Proof.
  intros Hto Hp. unfold hdy_leaflet_end_swipe.
  destruct (ct_is_gesture_active (child_transition s)) eqn:Hg; simpl.
  2:{ exists s. split; [done|]. split; [| done]. split; [done|].
      destruct Hp as [Hp | (Hg' & _)]; [by left | congruence]. }
  match goal with |- context [hdy_leaflet_child_progress_updated ?x] => set (s0 := x) end.
  assert (selection s0 = selection s
          /\ ct_is_gesture_active (child_transition s0) = false
          /\ ct_is_cancelled (child_transition s0) = true) as (Hs0 & Hg0 & Hc0).
  { subst s0. cbv zeta. rewrite Hto.
    unfold hdy_leaflet_schedule_child_ticks. simpl.
    destruct (ct_tick_id (child_transition s) =? 0); simpl;
      by destruct (enable_animations s && _ && _). }
  clearbody s0.
  assert (visible_child s0 = visible_child s) as Hv0 by (by injection Hs0).
  assert (last_visible_child s0 = last_visible_child s) as Hl0 by (by injection Hs0).
  destruct (child_progress_updated_total s0) as [s' E].
  { rewrite Hv0, Hl0. destruct Hp as [[_ Hl] | (_ & _ & Hv)]; auto. }
  exists s'.
  destruct (child_progress_updated_selection s0 s' E) as [Hf Hsel].
  assert (child_transition s' = child_transition s0) as Hc by (by injection Hf).
  split; [done|]. split; [| intros _; by rewrite Hc].
  unfold after_swipe. rewrite Hc. split; [done|].
  rewrite Hg0, Hc0, Hl0 in Hsel. simpl in Hsel.
  destruct Hp as [[Hv Hl] | (_ & Hl & Hv)].
  - left. rewrite Hl in Hsel.
    assert (selection s' = selection s) as Hs by (rewrite <- Hs0; by destruct (bool_decide _)).
    unfold settled. split; [rewrite <- Hv | rewrite <- Hl]; by injection Hs.
  - rewrite Hl in Hsel. destruct (bool_decide _) eqn:Ed.
    + left. unfold settled. split; by injection Hsel.
    + right. apply bool_decide_eq_false in Ed.
      unfold reverting, child_tracker_state. rewrite Hc.
      split; [done|]. split; [done|]. split; [done|].
      split; [rewrite <- Hl, <- Hl0 | replace (visible_child s') with (visible_child s)];
        first [by injection Hsel | done | idtac].
      rewrite <- Hv0. by injection Hsel.
Qed.

Lemma after_swipe_ext v s s' :
  selection s' = selection s -> child_transition s' = child_transition s ->
  after_swipe v s -> after_swipe v s'.
Proof.
  intros Hs Hc. unfold after_swipe, settled, reverting, child_tracker_state.
  rewrite Hc.
  replace (visible_child s') with (visible_child s) by (by injection Hs).
  replace (last_visible_child s') with (last_visible_child s) by (by injection Hs).
  done.
Qed.

(** One frame of the child transition after the swipe is released. *)
Lemma child_transition_cb_phase frame_time s v :
  after_swipe v s ->
  exists s' again,
    hdy_leaflet_child_transition_cb frame_time s = Some (s', again) /\ after_swipe v s'.
Proof.
  intros (Hg & Hp). unfold hdy_leaflet_child_transition_cb.
  match goal with |- context [hdy_leaflet_child_progress_updated ?x] => set (s0 := x) end.
  assert (selection s0 = selection s
          /\ ct_is_gesture_active (child_transition s0)
             = ct_is_gesture_active (child_transition s)
          /\ ct_is_cancelled (child_transition s0) = ct_is_cancelled (child_transition s))
    as (Hs0 & Hg0 & Hc0).
  { subst s0. cbv zeta. destruct (ct_first_frame_skipped _); simpl.
    - by destruct (negb (self_mapped s)).
    - by destruct (negb (self_mapped s)). }
  clearbody s0. rewrite Hg in Hg0.
  assert (visible_child s0 = visible_child s) as Hv0 by (by injection Hs0).
  assert (last_visible_child s0 = last_visible_child s) as Hl0 by (by injection Hs0).
  destruct (child_progress_updated_total s0) as [s1 E].
  { rewrite Hv0, Hl0. destruct Hp as [[_ Hl] | (_ & _ & _ & _ & Hv)]; auto. }
  rewrite E. simpl.
  destruct (child_progress_updated_selection s0 s1 E) as [Hf Hsel].
  assert (child_transition s1 = child_transition s0) as Hc by (by injection Hf).
  assert (after_swipe v s1) as H1.
  { unfold after_swipe. rewrite Hc. split; [done|].
    rewrite Hg0, Hl0 in Hsel. simpl in Hsel.
    destruct Hp as [[Hv Hl] | (_ & Hcan & _ & Hl & Hv)].
    - left. rewrite Hl in Hsel.
      assert (selection s1 = selection s) as Hs by (rewrite <- Hs0; by destruct (bool_decide _)).
      unfold settled. split; [rewrite <- Hv | rewrite <- Hl]; by injection Hs.
    - rewrite Hl, Hc0, Hcan in Hsel. destruct (bool_decide _) eqn:Ed.
      + left. unfold settled. split; by injection Hsel.
      + right. apply bool_decide_eq_false in Ed.
        unfold reverting, child_tracker_state. rewrite Hc.
        split; [done|]. split; [congruence|]. split; [done|].
        split; [rewrite <- Hl, <- Hl0; by injection Hsel |].
        replace (visible_child s1) with (visible_child s); [done|].
        rewrite <- Hv0. by injection Hsel. }
  destruct (bool_decide (child_tracker_state s1 = _)) eqn:Ed.
  - eexists _, false. split; [reflexivity|].
    apply bool_decide_eq_true in Ed.
    destruct H1 as [Hg1 [Hset | (_ & _ & Hne & _)]]; [| done].
    split; [done | by left].
  - by eexists _, true.
Qed.

(** The tick callback of the mode transition touches neither the selection
    nor the child transition. *)
Lemma mode_transition_cb_selection frame_time s :
  selection (fst (hdy_leaflet_mode_transition_cb frame_time s)) = selection s
  /\ child_transition (fst (hdy_leaflet_mode_transition_cb frame_time s)) = child_transition s.
Proof.
  unfold hdy_leaflet_mode_transition_cb. cbv zeta.
  match goal with |- context [hdy_leaflet_set_position ?p ?x] =>
    set (s1 := hdy_leaflet_set_position p x) end.
  assert (selection s1 = selection s /\ child_transition s1 = child_transition s) as [H1 H2].
  { subst s1. unfold hdy_leaflet_set_position. cbv zeta.
    destruct (_ && _); [| done].
    match goal with |- context [gtk_widget_set_child_visible ?w ?b ?x] =>
      destruct (transition_frame_set_child_visible w b x) as [Hf ->];
      assert (child_transition (gtk_widget_set_child_visible w b x) = child_transition x)
        as -> by (by injection Hf) end.
    done. }
  clearbody s1. by destruct (bool_decide _).
Qed.

Lemma frame_tick_phase id frame_time s v :
  after_swipe v s ->
  exists s', gtk_frame_tick id frame_time s = Some s' /\ after_swipe v s'.
Proof.
  intros Hp. unfold gtk_frame_tick.
  destruct (List.find _ _) as [[i [|]]|]; [| | by exists s].
  - destruct (child_transition_cb_phase frame_time s v Hp) as (s' & again & -> & Hp').
    simpl. eexists. split; [reflexivity|]. by destruct again.
  - destruct (mode_transition_cb_selection frame_time s) as [Hs Hc].
    destruct (hdy_leaflet_mode_transition_cb frame_time s) as [s1 again].
    eexists. split; [reflexivity|]. simpl in *.
    destruct again; by apply (after_swipe_ext v s).
Qed.

Lemma update_swipes_phase values s v :
  in_swipe v s ->
  exists s', run_all (map OP_UPDATE_SWIPE values) s = Some s' /\ in_swipe v s'.
Proof.
  revert s. induction values as [|x values IH]; intros s Hp; [by exists s|].
  destruct (update_swipe_phase x s v Hp) as (s1 & E & Hp1).
  destruct (IH s1 Hp1) as (s' & E' & Hp').
  exists s'. split; [| done].
  change (run_all (?f (?a :: ?l)) s) with (run_all (f [a] ++ f l) s).
  cbn [map frame_ticks app]. rewrite run_all_cons. cbn [run fst snd]. rewrite E. exact E'.
Qed.

Lemma frame_ticks_phase frames s v :
  after_swipe v s ->
  exists s', run_all (frame_ticks frames) s = Some s' /\ after_swipe v s'.
Proof.
  revert s. induction frames as [|[id ft] frames IH]; intros s Hp; [by exists s|].
  destruct (frame_tick_phase id ft s v Hp) as (s1 & E & Hp1).
  destruct (IH s1 Hp1) as (s' & E' & Hp').
  exists s'. split; [| done].
  change (run_all (?f (?a :: ?l)) s) with (run_all (f [a] ++ f l) s).
  cbn [map frame_ticks app]. rewrite run_all_cons. cbn [run fst snd]. rewrite E. exact E'.
Qed.

Lemma end_swipe_marks_cancelled duration to s s' :
  ct_is_gesture_active (child_transition s) = true ->
  hdy_leaflet_end_swipe duration to s = Some s' ->
  ct_is_cancelled (child_transition s') = gdouble_eq to 0
  /\ ct_is_gesture_active (child_transition s') = false.
Proof.
  intros Hg. unfold hdy_leaflet_end_swipe. rewrite Hg. simpl.
  match goal with |- context [hdy_leaflet_child_progress_updated ?x] => set (s0 := x) end.
  assert (ct_is_cancelled (child_transition s0) = gdouble_eq to 0
          /\ ct_is_gesture_active (child_transition s0) = false) as H0.
  { subst s0. cbv zeta. unfold hdy_leaflet_schedule_child_ticks. simpl.
    destruct (ct_tick_id (child_transition s) =? 0); simpl;
      by destruct (enable_animations s && _ && _). }
  clearbody s0. intros E.
  destruct (child_progress_updated_selection s0 s' E) as [Hf _].
  by replace (child_transition s') with (child_transition s0) by (by injection Hf).
Qed.

(** A swipe begun while a child transition is animated takes it over: the
    selection stays and the gesture drives the transition from then on. *)
Lemma begin_swipe_takes_over dir direct s u :
  0 < ct_tick_id (child_transition s) ->
  last_visible_child s = Some u -> visible_child s <> None ->
  exists s', hdy_leaflet_begin_swipe dir direct s = Some s' /\ swiping u s'.
Proof.
  intros Ht Hl Hv. unfold hdy_leaflet_begin_swipe.
  apply Z.gtb_lt in Ht. rewrite Ht. cbv zeta.
  eexists. split; [reflexivity|]. by split.
Qed.

(** The rest of a swipe, once it has begun. *)
Lemma swipe_phase_from dir direct values duration to frames s s1 v :
  gdouble_eq to 0 = true ->
  hdy_leaflet_begin_swipe dir direct s = Some s1 -> in_swipe v s1 ->
  exists s', run_all (swipe dir direct values duration to frames) s = Some s'
    /\ after_swipe v s'.
Proof.
  intros Hto E1 H1.
  destruct (update_swipes_phase values s1 v H1) as (s2 & E2 & H2).
  destruct (end_swipe_phase duration to s2 v Hto H2) as (s3 & E3 & H3 & _).
  destruct (frame_ticks_phase frames s3 v H3) as (s4 & E4 & H4).
  exists s4. split; [| done].
  unfold swipe. rewrite run_all_cons. cbn [run]. rewrite E1. simpl.
  rewrite run_all_app, E2. simpl. rewrite run_all_cons. cbn [run]. rewrite E3. exact E4.
Qed.

(** A whole swipe, begun while no child transition is animated. *)
Lemma swipe_phase dir direct values duration to frames s v :
  gdouble_eq to 0 = true ->
  ct_tick_id (child_transition s) = 0 ->
  last_visible_child s = None -> visible_child s = Some v -> In v (children s) ->
  self_visible s = true -> ci_widget (deref s v) <> None ->
  exists s', run_all (swipe dir direct values duration to frames) s = Some s'
    /\ after_swipe v s'.
Proof.
  intros Hto Ht Hl Hv Hin Hvis Hw.
  destruct (begin_swipe_phase dir direct s v Ht Hl Hv Hin Hvis Hw) as (s1 & E1 & H1).
  by apply (swipe_phase_from dir direct values duration to frames s s1 v).
Qed.

(** A whole swipe that takes over a child transition started from [u]. *)
Lemma swipe_phase_taken_over dir direct values duration to frames s u :
  gdouble_eq to 0 = true ->
  0 < ct_tick_id (child_transition s) ->
  last_visible_child s = Some u -> visible_child s <> None ->
  exists s', run_all (swipe dir direct values duration to frames) s = Some s'
    /\ after_swipe u s'.
Proof.
  intros Hto Ht Hl Hv.
  destruct (begin_swipe_takes_over dir direct s u Ht Hl Hv) as (s1 & E1 & H1).
  apply (swipe_phase_from dir direct values duration to frames s s1 u); [done | done |].
  by right.
Qed.

(** C2 (as stated, refuted).  A swipe that takes over a running child
    transition and is then released with the target 0 does not leave the
    visible child as it was when the swipe began: the leaflet goes back to
    the child the transition started from. *)
Lemma cancelled_swipe_over_running_transition :
  ~ (forall s dir direct values duration frames s',
       reachable s ->
       run_all (swipe dir direct values duration 0%Q frames) s = Some s' ->
       child_tracker_state s' = GTK_PROGRESS_STATE_AFTER ->
       visible_child s' = visible_child s).
Proof.
  intros H.
  assert (reachable example_switching) as Hr.
  { apply reachable_state_after. vm_compute. eauto. }
  destruct (run_all example_swipe_back example_switching) as [s'|] eqn:E;
    [| vm_compute in E; discriminate].
  assert (child_tracker_state s' = GTK_PROGRESS_STATE_AFTER) as Ha.
  { refine (fmap_eval child_tracker_state _ _ _ _ E). vm_compute. reflexivity. }
  assert (visible_child s' = Some 1%nat) as Hv.
  { refine (fmap_eval visible_child _ _ _ _ E). vm_compute. reflexivity. }
  assert (visible_child example_switching = Some 2%nat) as Hv0 by (vm_compute; reflexivity).
  specialize (H example_switching _ _ _ _ _ s' Hr E Ha).
  rewrite Hv, Hv0 in H. discriminate H.
Qed.

(** C2 (amended).  Releasing a swipe with the target 0 marks the child
    transition cancelled and ends the gesture.  When a cancelled transition
    is in its final state and a last visible child is recorded, that child
    becomes the visible child again and the record is cleared; in a folded
    leaflet its widget is made child-visible and the widget of the child that
    was to replace it is hidden.  So a swipe begun while no tick callback of
    the child transition is scheduled and no last visible child is recorded,
    on a visible leaflet whose visible child [v] has a widget, then dragged,
    released with the target 0 and followed by any frames, has [v] as the
    visible child once its tracker is in the final state; and a swipe that
    takes over a running child transition, with the last visible child [u]
    recorded, has [u] as the visible child then. *)
Theorem cancelled_swipe_restores_visible_child :
  (forall s duration to s',
     ct_is_gesture_active (child_transition s) = true -> gdouble_eq to 0 = true ->
     hdy_leaflet_end_swipe duration to s = Some s' ->
     ct_is_cancelled (child_transition s') = true
     /\ ct_is_gesture_active (child_transition s') = false)
  /\ (forall s v c,
        ct_is_gesture_active (child_transition s) = false ->
        child_tracker_state s = GTK_PROGRESS_STATE_AFTER ->
        ct_is_cancelled (child_transition s) = true ->
        last_visible_child s = Some v -> visible_child s = Some c ->
        exists s',
          hdy_leaflet_child_progress_updated s = Some s'
          /\ visible_child s' = Some v /\ last_visible_child s' = None
          /\ (folded s = true ->
              forall wv wc,
                ci_widget (deref s v) = Some wv -> ci_widget (deref s c) = Some wc ->
                gtk_widget_get_child_visible s' (Some wc) = false
                /\ (wv <> wc -> gtk_widget_get_child_visible s' (Some wv) = true)))
  /\ (forall s v dir direct values duration to frames,
        gdouble_eq to 0 = true ->
        ct_tick_id (child_transition s) = 0 -> last_visible_child s = None ->
        visible_child s = Some v -> In v (children s) ->
        self_visible s = true -> ci_widget (deref s v) <> None ->
        exists s',
          run_all (swipe dir direct values duration to frames) s = Some s'
          /\ ct_is_gesture_active (child_transition s') = false
          /\ (child_tracker_state s' = GTK_PROGRESS_STATE_AFTER ->
              visible_child s' = Some v /\ last_visible_child s' = None))
  /\ (forall s u dir direct values duration to frames,
        gdouble_eq to 0 = true ->
        0 < ct_tick_id (child_transition s) ->
        last_visible_child s = Some u -> visible_child s <> None ->
        exists s',
          run_all (swipe dir direct values duration to frames) s = Some s'
          /\ ct_is_gesture_active (child_transition s') = false
          /\ (child_tracker_state s' = GTK_PROGRESS_STATE_AFTER ->
              visible_child s' = Some u /\ last_visible_child s' = None)).
Proof.
  split; [| split; [| split]].
  - intros s duration to s' Hg Hto E.
    destruct (end_swipe_marks_cancelled duration to s s' Hg E) as [Hc Hg'].
    by rewrite Hc, Hto.
  - apply child_progress_updated_restores.
  - intros s v dir direct values duration to frames Hto Ht Hl Hv Hin Hvis Hw.
    destruct (swipe_phase dir direct values duration to frames s v Hto Ht Hl Hv Hin Hvis Hw)
      as (s' & E & Hg & Hp).
    exists s'. split; [done|]. split; [done|].
    intros Ha. destruct Hp as [Hp | (_ & _ & Hne & _)]; [exact Hp | done].
  - intros s u dir direct values duration to frames Hto Ht Hl Hv.
    destruct (swipe_phase_taken_over dir direct values duration to frames s u Hto Ht Hl Hv)
      as (s' & E & Hg & Hp).
    exists s'. split; [done|]. split; [done|].
    intros Ha. destruct Hp as [Hp | (_ & _ & Hne & _)]; [exact Hp | done].
Qed.

Lemma cancelled_swipe_restores_visible_child_witness :
  exists s',
    run_all example_swipe_forward example_folded = Some s'
    /\ child_tracker_state s' = GTK_PROGRESS_STATE_AFTER
    /\ visible_child s' = visible_child example_folded.
Proof.
  assert (gdouble_eq 0 0 = true) as Hto by (vm_compute; reflexivity).
  assert (ct_tick_id (child_transition example_folded) = 0) as Ht by (vm_compute; reflexivity).
  assert (last_visible_child example_folded = None) as Hl by (vm_compute; reflexivity).
  assert (visible_child example_folded = Some 1%nat) as Hv by (vm_compute; reflexivity).
  assert (In 1%nat (children example_folded)) as Hin by (vm_compute; auto).
  assert (self_visible example_folded = true) as Hvis by (vm_compute; reflexivity).
  assert (ci_widget (deref example_folded 1%nat) <> None) as Hw by (vm_compute; discriminate).
  destruct cancelled_swipe_restores_visible_child as (_ & _ & H & _).
  destruct (H example_folded 1%nat HDY_NAVIGATION_DIRECTION_FORWARD true [(1 # 2)%Q] 200 0%Q
              [(2, 1000); (2, 1000000)] Hto Ht Hl Hv Hin Hvis Hw) as (s' & E & _ & Hfin).
  exists s'. split; [exact E|].
  assert (child_tracker_state s' = GTK_PROGRESS_STATE_AFTER) as Ha.
  { refine (fmap_eval child_tracker_state _ _ _ _ E). vm_compute. reflexivity. }
  split; [exact Ha|]. rewrite Hv. exact (proj1 (Hfin Ha)).
Defined.

(** * Further properties *)

(** ** Invariants of the two transitions *)

(** X1.  In every reachable state the target position of the mode
    transition is 0 when the leaflet is folded and 1 when it is not: every
    change of the folded flag goes through [hdy_leaflet_set_folded], which
    retargets the transition. *)
Theorem mode_target_follows_folded s :
  reachable s ->
  mt_target_pos (mode_transition s) = if folded s then 0%Q else 1%Q.
Proof. intros H. by destruct (reachable_Inv s H) as (_ & _ & Ht). Qed.

Lemma mode_target_follows_folded_witness :
  reachable example_folded
  /\ folded example_folded = true
  /\ mt_target_pos (mode_transition example_folded) = 0%Q.
Proof.
  assert (reachable example_folded) as H.
  { apply reachable_state_after. vm_compute. eauto. }
  assert (folded example_folded = true) as Hf by (vm_compute; reflexivity).
  split; [exact H | split; [exact Hf |]].
  pose proof (mode_target_follows_folded example_folded H) as Ht.
  rewrite Hf in Ht. exact Ht.
Defined.

(** X2.  In every reachable state the tick callbacks GTK holds for the
    leaflet are exactly the ones its two tick identifiers name: a callback of
    the child transition is registered under [child_transition.tick_id] and
    one of the mode transition under [mode_transition.tick_id], whenever that
    identifier is not 0, and nothing else is registered.  The two identifiers
    differ when they are set, so no callback is leaked and none is removed
    through the other's identifier. *)
Theorem tick_callbacks_match_identifiers s :
  reachable s ->
  (forall id cb,
     In (id, cb) (ticks s) <->
     id <> 0
     /\ ((cb = CHILD_TRANSITION_CB /\ id = ct_tick_id (child_transition s))
         \/ (cb = MODE_TRANSITION_CB /\ id = mt_tick_id (mode_transition s))))
  /\ (ct_tick_id (child_transition s) <> 0 ->
      ct_tick_id (child_transition s) <> mt_tick_id (mode_transition s))
  /\ 0 <= ct_tick_id (child_transition s) /\ 0 <= mt_tick_id (mode_transition s).
Proof.
  intros H. destruct (reachable_Inv s H) as (_ & (Hc & Hm & Hne & Hin) & _).
  split; [exact Hin|]. split; [exact Hne|]. lia.
Qed.

Lemma tick_callbacks_match_identifiers_witness :
  reachable example_switching
  /\ ct_tick_id (child_transition example_switching) = 2
  /\ In (2, CHILD_TRANSITION_CB) (ticks example_switching)
  /\ ~ In (1, MODE_TRANSITION_CB) (ticks example_switching).
Proof.
  assert (reachable example_switching) as H.
  { apply reachable_state_after. vm_compute. eauto. }
  assert (ct_tick_id (child_transition example_switching) = 2) as Hc
    by (vm_compute; reflexivity).
  assert (mt_tick_id (mode_transition example_switching) = 0) as Hm
    by (vm_compute; reflexivity).
  destruct (tick_callbacks_match_identifiers example_switching H) as (Hin & _).
  pose proof (Hin 2 CHILD_TRANSITION_CB) as H2. rewrite Hc, Hm in H2.
  pose proof (Hin 1 MODE_TRANSITION_CB) as H1. rewrite Hc, Hm in H1.
  clear Hin. split; [exact H | split; [exact Hc | split]].
  - apply (proj2 H2). split; [lia | left; by split].
  - intros Hi. apply (proj1 H1) in Hi as [_ [[Hcb _] | [_ Hid]]]; [discriminate Hcb | lia].
Defined.

(** ** Navigation *)

Lemma g_list_find_split l p before after :
  g_list_find l p = Some (before, after) ->
  l = before ++ p :: after /\ ~ In p before.
Proof.
  revert before after. induction l as [|x l IH]; intros before after; simpl; [done|].
  destruct (Nat.eqb_spec x p) as [->|Hne].
  - intros [= <- <-]. split; [done | by intros []].
  - destruct (g_list_find l p) as [[b a]|]; [| done].
    intros [= <- <-]. destruct (IH b a eq_refl) as [-> Hb].
    split; [done|]. intros [Hx | Hin]; [by apply Hne | by apply Hb].
Qed.

Lemma g_list_find_at before p after :
  ~ In p before -> g_list_find (before ++ p :: after) p = Some (before, after).
Proof.
  induction before as [|x before IH]; intros Hb; simpl.
  - by rewrite Nat.eqb_refl.
  - destruct (Nat.eqb_spec x p) as [->|Hne]; [by destruct Hb; left|].
    rewrite IH; [done|]. intros Hin. apply Hb. by right.
Qed.

(** The loop of [find_swipeable_child]: it stops at the first cell whose
    allow-visible is TRUE, and keeps the last cell it looked at when there is
    none. *)
Lemma swipeable_scan_spec s cells child :
  swipeable_scan s cells child
  = match nearest_allowed s cells with
    | Some c => Some c
    | None => match last cells with Some p => Some p | None => child end
    end.
Proof.
  unfold nearest_allowed. revert child.
  induction cells as [|p cells IH]; intros child; simpl; [done|].
  destruct (ci_allow_visible (deref s p)); simpl; [done|].
  rewrite IH. destruct (List.find _ cells); [done|].
  destruct cells as [|q cells]; [done|].
  change (last (p :: q :: cells)) with (last (q :: cells)).
  destruct (last (q :: cells)) eqn:E; [done|].
  by apply last_None in E.
Qed.

(** ** Switching the visible child *)

Lemma set_visible_child_info_with_unfold sc new t d emit s :
  set_visible_child_info_with sc new t d emit s
  = if in_destruction s then Some s else
    let new := match new with None => first_visible_child s | Some p => Some p end in
    if ptr_eqb new (visible_child s) then Some s else
    let s1 := switch_setup new s in
    s2 ← (if folded s1
          then hdy_leaflet_start_child_transition (fst (switch_transition new t s1)) d
                 (snd (switch_transition new t s1)) s1
          else Some s1);
    if emit then
      c ← new;
      sc (g_list_index (List.map (fun p => ci_widget (deref s2 p)) (children s2))
            (ci_widget (deref s2 c)) mod 2 ^ 32) d
         (with_children_reversed (g_list_reverse (g_list_copy (children s2))) s2)
    else Some s2.
Proof.
  unfold set_visible_child_info_with, switch_setup, switch_transition,
    gtk_container_get_children.
  destruct (in_destruction s); [reflexivity|]. cbv zeta.
  destruct (ptr_eqb _ _); [reflexivity|].
  destruct (_ && _); [reflexivity|].
  destruct (is_direction_dependent_child_transition t); reflexivity.
Qed.

Lemma switch_setup_spec new s :
  switch_frame (switch_setup new s) = switch_frame s
  /\ ct_is_cancelled (child_transition (switch_setup new s))
     = ct_is_cancelled (child_transition s)
  /\ visible_child (switch_setup new s) = new.
Proof.
  unfold switch_setup. cbv zeta.
  split_and!; [| | destruct new as [p|]; [| reflexivity];
                   match goal with |- context [gtk_widget_set_child_visible ?w true ?x] =>
                     by destruct w end].
  - destruct new as [p|];
      [match goal with |- context [gtk_widget_set_child_visible ?w true ?x] =>
         transitivity (switch_frame x); [by destruct w|] end |];
      (destruct (last_visible_child s) as [last|];
       [destruct (ci_widget (deref s last)) |]; simpl;
       (destruct (visible_child s) as [old|]; [| reflexivity]);
       (destruct (is_nonnull _); [| reflexivity]);
       (destruct (self_visible _); [reflexivity |]);
       match goal with |- context [gtk_widget_set_child_visible ?w false ?x] =>
         by destruct w end).
  - destruct new as [p|];
      [match goal with |- context [gtk_widget_set_child_visible ?w true ?x] =>
         transitivity (ct_is_cancelled (child_transition x)); [by destruct w|] end |];
      (destruct (last_visible_child s) as [last|];
       [destruct (ci_widget (deref s last)) |]; simpl;
       (destruct (visible_child s) as [old|]; [| reflexivity]);
       (destruct (is_nonnull _); [| reflexivity]);
       (destruct (self_visible _); [reflexivity |]);
       match goal with |- context [gtk_widget_set_child_visible ?w false ?x] =>
         by destruct w end).
Qed.

Lemma tracker_started_state duration count :
  (0 < count)%Q ->
  gtk_progress_tracker_get_state (gtk_progress_tracker_start duration 0 count)
  <> GTK_PROGRESS_STATE_AFTER.
Proof.
  intros Hc. unfold gtk_progress_tracker_get_state, gtk_progress_tracker_start. simpl.
  assert (Qle_bool (- (inject_Z 0 / inject_Z (MAX duration 1))) count = true) as ->.
  { apply Qle_bool_iff. unfold Qdiv. rewrite Qmult_0_l. by apply Qlt_le_weak. }
  simpl. first [ done | match goal with |- context [Qlt_le_dec ?a ?b] =>
                          by destruct (Qlt_le_dec a b) end ].
Qed.

Lemma start_child_transition_unfold t d dir s :
  hdy_leaflet_start_child_transition t d dir s
  = hdy_leaflet_child_progress_updated (child_transition_prepared t d dir s).
Proof. reflexivity. Qed.

Lemma child_transition_prepared_animated t d dir s :
  can_animate_child t d s = true ->
  let s0 := child_transition_prepared t d dir s in
  selection s0 = selection s /\ switch_frame s0 = switch_frame s
  /\ ct_is_cancelled (child_transition s0) = false
  /\ (ct_is_gesture_active (child_transition s) = false ->
      child_tracker_state s0 <> GTK_PROGRESS_STATE_AFTER).
Proof.
  intros Ean. unfold child_transition_prepared. rewrite Ean. cbv zeta.
  set (s1 := upd_ct _ s).
  assert (selection s1 = selection s /\ switch_frame s1 = switch_frame s
          /\ ct_is_cancelled (child_transition s1) = false
          /\ ct_is_gesture_active (child_transition s1)
             = ct_is_gesture_active (child_transition s)) as (H1 & H2 & H3 & H4)
    by (by split_and!).
  clearbody s1. rewrite H4.
  destruct (ct_is_gesture_active (child_transition s)); cbn [negb].
  - split_and!; [done | done | done | discriminate].
  - set (s2 := hdy_leaflet_schedule_child_ticks s1).
    assert (selection s2 = selection s1 /\ switch_frame s2 = switch_frame s1
            /\ ct_is_cancelled (child_transition s2) = ct_is_cancelled (child_transition s1))
      as (H5 & H6 & H7).
    { subst s2. unfold hdy_leaflet_schedule_child_ticks, gtk_widget_add_tick_callback.
      by destruct (ct_tick_id _ =? 0). }
    clearbody s2.
    split_and!; [by rewrite <- H1, <- H5 | by rewrite <- H2, <- H6 | by rewrite <- H3, <- H7 |].
    intros _. unfold child_tracker_state.
    change (ct_tracker (child_transition (upd_ct (set_ct_tracker ?x) s2))) with x.
    by apply tracker_started_state.
Qed.

Lemma child_transition_prepared_refused t d dir s :
  can_animate_child t d s = false ->
  let s0 := child_transition_prepared t d dir s in
  selection s0 = selection s /\ switch_frame s0 = switch_frame s
  /\ ct_is_cancelled (child_transition s0) = ct_is_cancelled (child_transition s)
  /\ child_tracker_state s0 = GTK_PROGRESS_STATE_AFTER.
Proof.
  intros Ean. unfold child_transition_prepared. rewrite Ean. cbv zeta.
  set (s1 := hdy_leaflet_unschedule_child_ticks s).
  assert (selection s1 = selection s /\ switch_frame s1 = switch_frame s
          /\ ct_is_cancelled (child_transition s1) = ct_is_cancelled (child_transition s))
    as (H1 & H2 & H3).
  { subst s1. unfold hdy_leaflet_unschedule_child_ticks. by destruct (negb _). }
  clearbody s1. rewrite <- H1, <- H2, <- H3. by split_and!.
Qed.

(** What [hdy_leaflet_start_child_transition] does to the selection and to
    the cancelled flag.  Where it animates, or a gesture is active, the
    selection stays; otherwise the transition is over at once and the last
    visible child is forgotten, or taken back where the cancelled flag is
    still set. *)
Lemma start_child_transition_spec t d dir s :
  visible_child s <> None \/ last_visible_child s = None ->
  exists s',
    hdy_leaflet_start_child_transition t d dir s = Some s'
    /\ switch_frame s' = switch_frame s
    /\ ct_is_cancelled (child_transition s')
       = (if can_animate_child t d s then false else ct_is_cancelled (child_transition s))
    /\ selection s'
       = if can_animate_child t d s || ct_is_gesture_active (child_transition s)
         then selection s
         else match last_visible_child s with
              | Some last =>
                  (if ct_is_cancelled (child_transition s) then Some last else visible_child s,
                   None)
              | None => selection s
              end.
Proof.
  intros Hv. rewrite start_child_transition_unfold.
  assert (exists s0, s0 = child_transition_prepared t d dir s
          /\ selection s0 = selection s /\ switch_frame s0 = switch_frame s
          /\ ct_is_cancelled (child_transition s0)
             = (if can_animate_child t d s then false else ct_is_cancelled (child_transition s))
          /\ (negb (ct_is_gesture_active (child_transition s))
              && bool_decide (child_tracker_state s0 = GTK_PROGRESS_STATE_AFTER)
              = negb (can_animate_child t d s || ct_is_gesture_active (child_transition s))))
    as (s0 & <- & Hs0 & Hf0 & Hc0 & Ha0).
  { eexists. split; [reflexivity|]. destruct (can_animate_child t d s) eqn:Ean.
    - destruct (child_transition_prepared_animated t d dir s Ean) as (H1 & H2 & H3 & H4).
      split_and!; [done | done | done |].
      destruct (ct_is_gesture_active (child_transition s)); [done|].
      cbn [negb andb orb]. apply bool_decide_eq_false. by apply H4.
    - destruct (child_transition_prepared_refused t d dir s Ean) as (H1 & H2 & H3 & H4).
      split_and!; [done | done | done |].
      rewrite bool_decide_eq_true_2 by done.
      by destruct (ct_is_gesture_active (child_transition s)). }
  assert (visible_child s0 = visible_child s) as Hv0 by (by injection Hs0).
  assert (last_visible_child s0 = last_visible_child s) as Hl0 by (by injection Hs0).
  destruct (child_progress_updated_total s0) as [s' E]; [by rewrite Hv0, Hl0|].
  exists s'. split; [done|].
  destruct (child_progress_updated_selection s0 s' E) as [Hf Hsel].
  assert (ct_is_gesture_active (child_transition s0) = ct_is_gesture_active (child_transition s))
    as Hg0 by (by injection Hf0).
  assert (child_transition s' = child_transition s0) as Hct by (by injection Hf).
  split_and!.
  - rewrite <- Hf0. unfold switch_frame. rewrite Hct.
    by injection Hf as _ -> _ _ -> -> -> -> _ -> -> ->.
  - by rewrite Hct.
  - rewrite Hg0, Ha0, Hl0, Hv0 in Hsel.
    destruct (can_animate_child t d s) eqn:Ean; simpl in *; [congruence|].
    destruct (ct_is_gesture_active (child_transition s)); simpl in Hsel; [congruence|].
    destruct (last_visible_child s); [| congruence].
    by rewrite Hc0 in Hsel.
Qed.

(** The index [gtk_container_get_children] gives the widget of the first
    child that holds it leads [g_list_nth_data] back to that child. *)
Lemma g_list_index_find (g : info_ptr -> option widget_ptr) l w c :
  List.find (fun p => ptr_eqb (g p) w) l = Some c ->
  0 <= g_list_index (List.map g l) w < Z.of_nat (length l)
  /\ g_list_nth_data l (g_list_index (List.map g l) w) = Some c.
Proof.
  unfold g_list_nth_data. induction l as [|x l IH]; [done|]. simpl List.find.
  cbn [List.map g_list_index length].
  destruct (ptr_eqb (g x) w).
  - intros [= ->]. split; [lia | done].
  - intros H. destruct (IH H) as [Hr Hn]. cbv zeta.
    destruct (Z.ltb_spec (g_list_index (List.map g l) w) 0) as [|_]; [lia|].
    split; [lia|].
    destruct (Z.ltb_spec (g_list_index (List.map g l) w + 1) 0) as [|_]; [lia|].
    destruct (Z.ltb_spec (g_list_index (List.map g l) w) 0) as [|_]; [lia|].
    replace (Z.to_nat (g_list_index (List.map g l) w + 1))
      with (S (Z.to_nat (g_list_index (List.map g l) w))) by lia.
    exact Hn.
Qed.

(** A switch without the signal: the new child is visible afterwards unless
    the transition is over at once with the cancelled flag still set. *)
Lemma set_visible_child_info_quiet sc c t d s :
  in_destruction s = false ->
  exists s',
    set_visible_child_info_with sc (Some c) t d false s = Some s'
    /\ switch_frame s' = switch_frame s
    /\ (ct_is_cancelled (child_transition s) = false
        \/ ct_is_gesture_active (child_transition s) = true ->
        visible_child s' = Some c)
    /\ (ct_is_cancelled (child_transition s) = false ->
        ct_is_cancelled (child_transition s') = false).
Proof.
  intros Hd. rewrite set_visible_child_info_with_unfold, Hd. cbv zeta.
  unfold ptr_eqb. destruct (bool_decide_reflect (Some c = visible_child s)) as [Heq|Hne].
  { exists s. by split_and!. }
  destruct (switch_setup_spec (Some c) s) as (Hf1 & Hc1 & Hv1).
  set (s1 := switch_setup (Some c) s) in *. clearbody s1.
  assert (ct_is_gesture_active (child_transition s1)
          = ct_is_gesture_active (child_transition s)) as Hg1 by (by injection Hf1).
  destruct (folded s1).
  - destruct (start_child_transition_spec (fst (switch_transition (Some c) t s1)) d
                (snd (switch_transition (Some c) t s1)) s1) as (s2 & -> & Hf2 & Hc2 & Hs2).
    { left. by rewrite Hv1. }
    exists s2. split; [done|]. split; [congruence|].
    rewrite Hc1 in Hc2. rewrite Hc1, Hg1 in Hs2. split.
    + intros Hor.
      assert (visible_child s2 = visible_child s1) as ->; [| done].
      destruct Hor as [Hc | Hg].
      * rewrite Hc in Hs2. destruct (_ || _); [by injection Hs2|].
        destruct (last_visible_child s1); by injection Hs2.
      * rewrite Hg, orb_true_r in Hs2. by injection Hs2.
    + intros Hc. rewrite Hc in Hc2. by destruct (can_animate_child _ _ _).
  - exists s1. split; [done|]. split; [done|]. split; [done | congruence].
Qed.

(** [set_visible_child_info] with the signal, on a child that is the first
    to hold its widget: the signal handler finds the child visible already
    and leaves the state as it is. *)
Lemma set_visible_child_info_shows c t d emit s :
  in_destruction s = false ->
  ct_is_cancelled (child_transition s) = false ->
  find_child_info_for_widget s (ci_widget (deref s c)) = Some c ->
  Z.of_nat (length (children s)) <= 2 ^ 32 ->
  exists s',
    set_visible_child_info (Some c) t d emit s = Some s'
    /\ visible_child s' = Some c
    /\ switch_frame s' = switch_frame s
    /\ ct_is_cancelled (child_transition s') = false.
Proof.
  intros Hd Hc Hfind Hlen.
  destruct (set_visible_child_info_quiet hdy_leaflet_switch_child c t d s Hd)
    as (s2 & E2 & Hf2 & Hv2 & Hc2).
  specialize (Hv2 (or_introl Hc)). specialize (Hc2 Hc).
  destruct emit; [| by exists s2].
  unfold set_visible_child_info. revert E2.
  rewrite !set_visible_child_info_with_unfold, Hd. cbv zeta.
  destruct (ptr_eqb (Some c) (visible_child s)); [intros [= <-]; by exists s|].
  intros E2. apply bind_Some in E2 as (x & -> & [= ->]). simpl.
  assert (children s2 = children s /\ infos s2 = infos s /\ in_destruction s2 = false)
    as (Hch & Hin & Hd2) by (rewrite <- Hd; by injection Hf2).
  assert (List.map (fun p => ci_widget (deref s2 p)) (children s2)
          = List.map (fun p => ci_widget (deref s p)) (children s)) as ->.
  { rewrite Hch. unfold deref. by rewrite Hin. }
  assert (deref s2 c = deref s c) as -> by (unfold deref; by rewrite Hin).
  destruct (g_list_index_find (fun p => ci_widget (deref s p)) (children s)
              (ci_widget (deref s c)) c Hfind) as [Hr Hn].
  rewrite Z.mod_small by lia.
  unfold hdy_leaflet_switch_child. rewrite set_visible_child_info_with_unfold.
  cbn [in_destruction with_children_reversed children]. rewrite Hd2, Hch, Hn. cbv zeta.
  change (visible_child (with_children_reversed ?l s2)) with (visible_child s2).
  rewrite Hv2. unfold ptr_eqb. rewrite bool_decide_eq_true_2 by done.
  eexists. split; [reflexivity|]. by split_and!.
Qed.

Lemma switch_setup_last new s v :
  visible_child s = Some v -> ci_widget (deref s v) <> None -> self_visible s = true ->
  last_visible_child (switch_setup new s) = Some v.
Proof.
  intros Hv Hw Hvis. unfold switch_setup. cbv zeta.
  set (s0 := match last_visible_child s with
             | Some last => gtk_widget_set_child_visible (ci_widget (deref s last)) false s
             | None => s
             end).
  assert (visible_child s0 = Some v /\ ci_widget (deref s0 v) = ci_widget (deref s v)
          /\ self_visible s0 = true) as (Hv0 & Hw0 & Hvis0).
  { subst s0. destruct (last_visible_child s) as [last|]; [| done].
    by destruct (ci_widget (deref s last)). }
  clearbody s0.
  change (visible_child (with_last_visible_child None s0)) with (visible_child s0).
  rewrite Hv0.
  change (deref (with_last_visible_child None s0) v) with (deref s0 v).
  rewrite Hw0. destruct (ci_widget (deref s v)) as [w|] eqn:Ew; [| done].
  change (self_visible (with_last_visible_child None s0)) with (self_visible s0).
  rewrite Hvis0. cbn [is_nonnull].
  destruct new as [p|]; [| reflexivity].
  match goal with |- context [gtk_widget_set_child_visible ?a true ?x] =>
    by destruct a end.
Qed.

Lemma child_animations_off_spec t d s :
  ct_is_gesture_active (child_transition s) = false ->
  child_animations_off s = true \/ d = 0 ->
  can_animate_child t d s = false.
Proof.
  unfold child_animations_off, can_animate_child. intros -> [H | ->].
  - apply negb_true_iff in H. rewrite orb_false_r.
    destruct (self_mapped s), (enable_animations s), (mt_tick_id _ =? 0);
      simpl in *; try done; by rewrite ?andb_false_r.
  - by rewrite !andb_false_r.
Qed.

(** A switch that cannot be animated, asked of a folded and visible leaflet
    whose cancelled flag is still set, is undone at once. *)
Lemma set_visible_child_info_undone sc c t d s v :
  in_destruction s = false ->
  ct_is_cancelled (child_transition s) = true ->
  ct_is_gesture_active (child_transition s) = false ->
  folded s = true -> self_visible s = true ->
  visible_child s = Some v -> ci_widget (deref s v) <> None -> c <> v ->
  child_animations_off s = true \/ d = 0 ->
  exists s',
    set_visible_child_info_with sc (Some c) t d false s = Some s'
    /\ switch_frame s' = switch_frame s
    /\ ct_is_cancelled (child_transition s') = true
    /\ mode_transition s' = mode_transition s
    /\ selection s' = (Some v, None).
Proof.
  intros Hd Hc Hg Hf Hvis Hv Hw Hne Hoff.
  rewrite set_visible_child_info_with_unfold, Hd. cbv zeta.
  unfold ptr_eqb. rewrite bool_decide_eq_false_2 by (rewrite Hv; congruence).
  destruct (switch_setup_spec (Some c) s) as (Hf1 & Hc1 & Hv1).
  pose proof (switch_setup_last (Some c) s v Hv Hw Hvis) as Hl1.
  assert (mode_transition (switch_setup (Some c) s) = mode_transition s) as Hm1.
  { unfold switch_setup. cbv zeta.
    match goal with |- context [gtk_widget_set_child_visible ?a true ?x] =>
      transitivity (mode_transition x); [by destruct a|] end.
    destruct (last_visible_child s) as [last|];
      [destruct (ci_widget (deref s last)) |]; simpl;
      rewrite Hv; (destruct (is_nonnull _); [| reflexivity]);
      rewrite Hvis; reflexivity. }
  set (s1 := switch_setup (Some c) s) in *. clearbody s1.
  assert (folded s1 = true) as -> by (rewrite <- Hf; by injection Hf1).
  assert (ct_is_gesture_active (child_transition s1) = false) as Hg1
    by (rewrite <- Hg; by injection Hf1).
  assert (child_animations_off s1 = child_animations_off s) as Hoff1.
  { unfold child_animations_off. by injection Hf1 as _ _ _ _ _ -> -> ->. }
  destruct (start_child_transition_spec (fst (switch_transition (Some c) t s1)) d
              (snd (switch_transition (Some c) t s1)) s1) as (s2 & E2 & Hf2 & Hc2 & Hs2).
  { left. by rewrite Hv1. }
  rewrite E2. exists s2. split; [done|].
  rewrite (child_animations_off_spec _ d s1 Hg1) in Hc2, Hs2 by (by rewrite Hoff1).
  rewrite Hg1, Hl1, Hc1, Hc in Hs2. simpl in Hs2.
  split_and!; [congruence | congruence | | done].
  revert E2. rewrite start_child_transition_unfold. intros E2.
  destruct (child_progress_updated_selection _ _ E2) as [Hfr _].
  transitivity (mode_transition (child_transition_prepared
                  (fst (switch_transition (Some c) t s1)) d
                  (snd (switch_transition (Some c) t s1)) s1)); [by injection Hfr|].
  rewrite <- Hm1. unfold child_transition_prepared.
  rewrite (child_animations_off_spec _ d s1 Hg1) by (by rewrite Hoff1).
  unfold hdy_leaflet_unschedule_child_ticks. by destruct (negb _).
Qed.

Lemma set_visible_child_info_with_emit sc c t d s :
  in_destruction s = false -> Some c <> visible_child s ->
  set_visible_child_info_with sc (Some c) t d true s
  = s2 ← set_visible_child_info_with sc (Some c) t d false s;
    sc (g_list_index (List.map (fun p => ci_widget (deref s2 p)) (children s2))
          (ci_widget (deref s2 c)) mod 2 ^ 32) d
       (with_children_reversed (g_list_reverse (g_list_copy (children s2))) s2).
Proof.
  intros Hd Hne. rewrite !set_visible_child_info_with_unfold, Hd. cbv zeta.
  unfold ptr_eqb. rewrite bool_decide_eq_false_2 by done.
  by destruct (if folded _ then _ else _).
Qed.

Lemma find_child_info_for_widget_Some s w c :
  find_child_info_for_widget s w = Some c -> In c (children s) /\ ci_widget (deref s c) = w.
Proof.
  unfold find_child_info_for_widget. intros H. apply find_some in H as [Hin Hw].
  split; [done|]. by apply bool_decide_eq_true in Hw.
Qed.

(** X3.  [hdy_leaflet_set_visible_child] on a widget the leaflet holds makes
    the child of that widget the visible child, provided the cancelled flag
    of the child transition is clear; on a widget it does not hold it does
    nothing.  The children and their records are left as they are. *)
Theorem set_visible_child_shows_child w s :
  (find_child_info_for_widget s (Some w) = None ->
   hdy_leaflet_set_visible_child w s = Some s)
  /\ (forall c,
        find_child_info_for_widget s (Some w) = Some c ->
        in_destruction s = false -> ct_is_cancelled (child_transition s) = false ->
        Z.of_nat (length (children s)) <= 2 ^ 32 ->
        exists s',
          hdy_leaflet_set_visible_child w s = Some s'
          /\ visible_child s' = Some c
          /\ hdy_leaflet_get_visible_child s' = Some w
          /\ children s' = children s /\ infos s' = infos s).
Proof.
  unfold hdy_leaflet_set_visible_child. split; [by intros ->|].
  intros c Hfind Hd Hc Hlen. rewrite Hfind.
  destruct (find_child_info_for_widget_Some s (Some w) c Hfind) as [Hin Hw].
  destruct (set_visible_child_info_shows c (transition_type s)
              (ct_duration (child_transition s)) true s Hd Hc) as (s' & E & Hv & Hf & _);
    [by rewrite Hw | done |].
  exists s'. split; [done|]. split; [done|].
  assert (children s' = children s /\ infos s' = infos s) as [Hch Hi] by (by injection Hf).
  split_and!; [| done | done].
  unfold hdy_leaflet_get_visible_child. rewrite Hv. unfold deref. rewrite Hi. exact Hw.
Qed.

Lemma set_visible_child_shows_child_witness :
  exists s',
    hdy_leaflet_set_visible_child 2%nat example_folded = Some s'
    /\ visible_child s' = Some 2%nat
    /\ hdy_leaflet_get_visible_child s' = Some 2%nat.
Proof.
  assert (find_child_info_for_widget example_folded (Some 2%nat) = Some 2%nat) as Hfind
    by (vm_compute; reflexivity).
  assert (in_destruction example_folded = false) as Hd by (vm_compute; reflexivity).
  assert (ct_is_cancelled (child_transition example_folded) = false) as Hc
    by (vm_compute; reflexivity).
  assert (Z.of_nat (length (children example_folded)) <= 2 ^ 32) as Hlen
    by (vm_compute; discriminate).
  destruct (proj2 (set_visible_child_shows_child 2%nat example_folded) 2%nat Hfind Hd Hc Hlen)
    as (s' & E & Hv & Hw & _).
  exists s'. by split_and!.
Defined.

(** X4.  [hdy_leaflet_set_visible_child_name] makes the first child that
    bears the name the visible child, provided that child is the first to
    hold its widget and the cancelled flag is clear; a name no child bears
    changes nothing. *)
Theorem set_visible_child_name_shows_child n s :
  (find_child_info_for_name s (Some n) = None ->
   hdy_leaflet_set_visible_child_name n s = Some s)
  /\ (forall c,
        find_child_info_for_name s (Some n) = Some c ->
        find_child_info_for_widget s (ci_widget (deref s c)) = Some c ->
        in_destruction s = false -> ct_is_cancelled (child_transition s) = false ->
        Z.of_nat (length (children s)) <= 2 ^ 32 ->
        exists s',
          hdy_leaflet_set_visible_child_name n s = Some s'
          /\ visible_child s' = Some c
          /\ hdy_leaflet_get_visible_child_name s' = Some n).
Proof.
  unfold hdy_leaflet_set_visible_child_name. split; [by intros ->|].
  intros c Hname Hfind Hd Hc Hlen. rewrite Hname.
  destruct (set_visible_child_info_shows c (transition_type s)
              (ct_duration (child_transition s)) true s Hd Hc Hfind Hlen)
    as (s' & E & Hv & Hf & _).
  exists s'. split; [done|]. split; [done|].
  assert (infos s' = infos s) as Hi by (by injection Hf).
  unfold hdy_leaflet_get_visible_child_name. rewrite Hv. unfold deref. rewrite Hi.
  unfold find_child_info_for_name in Hname. apply find_some in Hname as [_ Hn].
  by apply bool_decide_eq_true in Hn.
Qed.

Lemma set_visible_child_name_shows_child_witness :
  exists s',
    hdy_leaflet_set_visible_child_name "second" example_named = Some s'
    /\ visible_child s' = Some 2%nat
    /\ hdy_leaflet_get_visible_child_name s' = Some "second"%string.
Proof.
  assert (find_child_info_for_name example_named (Some "second"%string) = Some 2%nat)
    as Hname by (vm_compute; reflexivity).
  assert (find_child_info_for_widget example_named (ci_widget (deref example_named 2%nat))
          = Some 2%nat) as Hfind by (vm_compute; reflexivity).
  assert (in_destruction example_named = false) as Hd by (vm_compute; reflexivity).
  assert (ct_is_cancelled (child_transition example_named) = false) as Hc
    by (vm_compute; reflexivity).
  assert (Z.of_nat (length (children example_named)) <= 2 ^ 32) as Hlen
    by (vm_compute; discriminate).
  exact (proj2 (set_visible_child_name_shows_child "second" example_named) 2%nat
           Hname Hfind Hd Hc Hlen).
Defined.

(** X5.  The cancelled flag outlives the swipe that set it.  On a folded,
    visible leaflet whose cancelled flag is still set, a call of
    [hdy_leaflet_set_visible_child] that cannot be animated (the leaflet is
    not mapped, animations are disabled, the mode transition is running, or
    the duration of the child transition is 0) is undone at once: the visible
    child is the one it was, and no last visible child is recorded. *)
Theorem set_visible_child_undone_by_cancelled_flag w s c v :
  find_child_info_for_widget s (Some w) = Some c ->
  in_destruction s = false ->
  ct_is_cancelled (child_transition s) = true ->
  ct_is_gesture_active (child_transition s) = false ->
  folded s = true -> self_visible s = true ->
  visible_child s = Some v -> ci_widget (deref s v) <> None -> c <> v ->
  child_animations_off s = true \/ ct_duration (child_transition s) = 0 ->
  Z.of_nat (length (children s)) <= 2 ^ 32 ->
  exists s',
    hdy_leaflet_set_visible_child w s = Some s'
    /\ visible_child s' = Some v /\ last_visible_child s' = None.
Proof.
  intros Hfind Hd Hc Hg Hf Hvis Hv Hw Hne Hoff Hlen.
  unfold hdy_leaflet_set_visible_child, set_visible_child_info. rewrite Hfind.
  rewrite set_visible_child_info_with_emit by (rewrite ?Hv; congruence).
  destruct (set_visible_child_info_undone hdy_leaflet_switch_child c (transition_type s)
              (ct_duration (child_transition s)) s v Hd Hc Hg Hf Hvis Hv Hw Hne Hoff)
    as (s2 & -> & Hf2 & Hc2 & Hm2 & Hs2).
  simpl.
  assert (children s2 = children s /\ infos s2 = infos s) as [Hch Hi] by (by injection Hf2).
  assert (List.map (fun p => ci_widget (deref s2 p)) (children s2)
          = List.map (fun p => ci_widget (deref s p)) (children s)) as ->.
  { rewrite Hch. unfold deref. by rewrite Hi. }
  assert (deref s2 c = deref s c) as -> by (unfold deref; by rewrite Hi).
  destruct (find_child_info_for_widget_Some s (Some w) c Hfind) as [_ Hcw].
  rewrite Hcw.
  destruct (g_list_index_find (fun p => ci_widget (deref s p)) (children s) (Some w) c Hfind)
    as [Hr Hn].
  rewrite Z.mod_small by lia.
  set (sX := with_children_reversed (g_list_reverse (g_list_copy (children s2))) s2).
  assert (switch_frame sX = switch_frame s2 /\ selection sX = selection s2
          /\ ct_is_cancelled (child_transition sX) = ct_is_cancelled (child_transition s2)
          /\ ct_duration (child_transition sX) = ct_duration (child_transition s2)
          /\ transition_type sX = transition_type s2)
    as (HfX & HsX & HcX & HdX & HtX) by done.
  clearbody sX. unfold hdy_leaflet_switch_child.
  assert (children sX = children s) as -> by (rewrite <- Hch; by injection HfX).
  rewrite Hn.
  destruct (set_visible_child_info_undone (fun _ _ s => Some s) c (transition_type sX)
              (ct_duration (child_transition s) mod 2 ^ 32) sX v)
    as (s' & -> & _ & _ & _ & Hs').
  - rewrite <- Hd. transitivity (in_destruction s2); [by injection HfX | by injection Hf2].
  - congruence.
  - rewrite <- Hg. transitivity (ct_is_gesture_active (child_transition s2));
      [by injection HfX | by injection Hf2].
  - rewrite <- Hf. transitivity (folded s2); [by injection HfX | by injection Hf2].
  - rewrite <- Hvis. transitivity (self_visible s2); [by injection HfX | by injection Hf2].
  - transitivity (visible_child s2); [by injection HsX | by injection Hs2].
  - unfold deref. replace (infos sX) with (infos s); [exact Hw|].
    symmetry. transitivity (infos s2); [by injection HfX | by injection Hf2].
  - done.
  - destruct Hoff as [Hoff | ->]; [left | by right].
    rewrite <- Hoff. unfold child_animations_off.
    assert (switch_frame sX = switch_frame s) as HfXs by congruence.
    by injection HfXs as _ _ _ _ _ -> -> ->.
  - exists s'. split; [done|]. split; by injection Hs'.
Qed.

Lemma set_visible_child_undone_by_cancelled_flag_witness :
  reachable example_cancelled
  /\ exists s',
       hdy_leaflet_set_visible_child 2%nat example_cancelled = Some s'
       /\ visible_child s' = Some 1%nat /\ last_visible_child s' = None.
Proof.
  assert (reachable example_cancelled) as Hr.
  { apply reachable_state_after. vm_compute. eauto. }
  assert (find_child_info_for_widget example_cancelled (Some 2%nat) = Some 2%nat) as Hfind
    by (vm_compute; reflexivity).
  assert (in_destruction example_cancelled = false) as Hd by (vm_compute; reflexivity).
  assert (ct_is_cancelled (child_transition example_cancelled) = true) as Hc
    by (vm_compute; reflexivity).
  assert (ct_is_gesture_active (child_transition example_cancelled) = false) as Hg
    by (vm_compute; reflexivity).
  assert (folded example_cancelled = true) as Hf by (vm_compute; reflexivity).
  assert (self_visible example_cancelled = true) as Hvis by (vm_compute; reflexivity).
  assert (visible_child example_cancelled = Some 1%nat) as Hv by (vm_compute; reflexivity).
  assert (ci_widget (deref example_cancelled 1%nat) <> None) as Hw
    by (vm_compute; discriminate).
  assert (2%nat <> 1%nat) as Hne by lia.
  assert (child_animations_off example_cancelled = true
          \/ ct_duration (child_transition example_cancelled) = 0) as Hoff
    by (left; vm_compute; reflexivity).
  assert (Z.of_nat (length (children example_cancelled)) <= 2 ^ 32) as Hlen
    by (vm_compute; discriminate).
  split; [exact Hr|].
  exact (set_visible_child_undone_by_cancelled_flag 2%nat example_cancelled 2%nat 1%nat
           Hfind Hd Hc Hg Hf Hvis Hv Hw Hne Hoff Hlen).
Defined.



(** [find_swipeable_child] in terms of the list: the nearest child in the
    direction whose allow-visible is TRUE, and the farthest child in that
    direction when there is none. *)
Lemma find_swipeable_child_spec s direction v before after :
  visible_child s = Some v -> children s = before ++ v :: after -> ~ In v before ->
  find_swipeable_child s direction
  = Some (match nearest_allowed s (cells_towards direction before after) with
          | Some c => Some c
          | None => last (cells_towards direction before after)
          end).
Proof.
  intros Hv Hch Hb. unfold find_swipeable_child. rewrite Hv, Hch. simpl.
  rewrite (g_list_find_at before v after Hb). simpl.
  fold (cells_towards direction before after). rewrite swipeable_scan_spec.
  destruct (nearest_allowed _ _); [done|]. by destruct (last _).
Qed.

(** X6.  [hdy_leaflet_navigate] switches to the nearest child in the
    direction whose allow-visible child property is TRUE and returns TRUE,
    where swiping in that direction is allowed, the cancelled flag is clear
    and the child is the first to hold its widget. *)
Theorem navigate_shows_nearest_allowed s direction v before after c :
  visible_child s = Some v -> children s = before ++ v :: after -> ~ In v before ->
  can_swipe_in_direction s direction = true ->
  nearest_allowed s (cells_towards direction before after) = Some c ->
  find_child_info_for_widget s (ci_widget (deref s c)) = Some c ->
  in_destruction s = false -> ct_is_cancelled (child_transition s) = false ->
  Z.of_nat (length (children s)) <= 2 ^ 32 ->
  exists s',
    hdy_leaflet_navigate direction s = Some (s', true)
    /\ visible_child s' = Some c
    /\ ci_allow_visible (deref s' c) = true.
Proof.
  intros Hv Hch Hb Hcan Hnear Hfind Hd Hc Hlen. unfold hdy_leaflet_navigate.
  rewrite Hcan. simpl.
  rewrite (find_swipeable_child_spec s direction v before after Hv Hch Hb), Hnear. simpl.
  destruct (set_visible_child_info_shows c (transition_type s)
              (ct_duration (child_transition s)) true s Hd Hc Hfind Hlen)
    as (s' & -> & Hv' & Hf & _).
  exists s'. split; [done|]. split; [done|].
  unfold deref. replace (infos s') with (infos s) by (by injection Hf).
  unfold nearest_allowed in Hnear. by apply find_some in Hnear as [_ Ha].
Qed.

Lemma navigate_shows_nearest_allowed_witness :
  exists s',
    hdy_leaflet_navigate HDY_NAVIGATION_DIRECTION_FORWARD example_folded = Some (s', true)
    /\ visible_child s' = Some 2%nat
    /\ ci_allow_visible (deref s' 2%nat) = true.
Proof.
  assert (visible_child example_folded = Some 1%nat) as Hv by (vm_compute; reflexivity).
  assert (children example_folded = [] ++ 1%nat :: [2%nat]) as Hch
    by (vm_compute; reflexivity).
  assert (~ In 1%nat []) as Hb by (intros []).
  assert (can_swipe_in_direction example_folded HDY_NAVIGATION_DIRECTION_FORWARD = true)
    as Hcan by (vm_compute; reflexivity).
  assert (nearest_allowed example_folded
            (cells_towards HDY_NAVIGATION_DIRECTION_FORWARD [] [2%nat]) = Some 2%nat)
    as Hnear by (vm_compute; reflexivity).
  assert (find_child_info_for_widget example_folded (ci_widget (deref example_folded 2%nat))
          = Some 2%nat) as Hfind by (vm_compute; reflexivity).
  assert (in_destruction example_folded = false) as Hd by (vm_compute; reflexivity).
  assert (ct_is_cancelled (child_transition example_folded) = false) as Hc
    by (vm_compute; reflexivity).
  assert (Z.of_nat (length (children example_folded)) <= 2 ^ 32) as Hlen
    by (vm_compute; discriminate).
  exact (navigate_shows_nearest_allowed example_folded HDY_NAVIGATION_DIRECTION_FORWARD
           1%nat [] [2%nat] 2%nat Hv Hch Hb Hcan Hnear Hfind Hd Hc Hlen).
Defined.

(** X7.  [hdy_leaflet_navigate] returns FALSE and leaves the leaflet as it is
    when swiping in the direction is not allowed, and when the visible child
    is the last child in that direction. *)
Theorem navigate_refuses s direction :
  (can_swipe_in_direction s direction = false ->
   hdy_leaflet_navigate direction s = Some (s, false))
  /\ (forall v before after,
        visible_child s = Some v -> children s = before ++ v :: after -> ~ In v before ->
        cells_towards direction before after = [] ->
        hdy_leaflet_navigate direction s = Some (s, false)).
Proof.
  unfold hdy_leaflet_navigate. split; [by intros ->|].
  intros v before after Hv Hch Hb Hcells.
  destruct (can_swipe_in_direction s direction); [| done]. simpl.
  rewrite (find_swipeable_child_spec s direction v before after Hv Hch Hb), Hcells.
  reflexivity.
Qed.

Lemma navigate_refuses_witness :
  hdy_leaflet_navigate HDY_NAVIGATION_DIRECTION_BACK example_folded
  = Some (example_folded, false).
Proof.
  assert (visible_child example_folded = Some 1%nat) as Hv by (vm_compute; reflexivity).
  assert (children example_folded = [] ++ 1%nat :: [2%nat]) as Hch
    by (vm_compute; reflexivity).
  assert (~ In 1%nat []) as Hb by (intros []).
  exact (proj2 (navigate_refuses example_folded HDY_NAVIGATION_DIRECTION_BACK)
           1%nat [] [2%nat] Hv Hch Hb eq_refl).
Defined.

(** ** The container *)

Lemma child_transition_prepared_lists t d dir s :
  children (child_transition_prepared t d dir s) = children s
  /\ infos (child_transition_prepared t d dir s) = infos s
  /\ selection (child_transition_prepared t d dir s) = selection s.
Proof.
  destruct (can_animate_child t d s) eqn:E.
  - destruct (child_transition_prepared_animated t d dir s E) as (Hs & Hf & _).
    split_and!; [by injection Hf | by injection Hf | done].
  - destruct (child_transition_prepared_refused t d dir s E) as (Hs & Hf & _).
    split_and!; [by injection Hf | by injection Hf | done].
Qed.

(** A switch of the visible child leaves the list of children and their
    records alone. *)
Lemma set_visible_child_info_with_lists sc new t d emit s s' :
  (forall i d x x', sc i d x = Some x' -> children x' = children x /\ infos x' = infos x) ->
  set_visible_child_info_with sc new t d emit s = Some s' ->
  children s' = children s /\ infos s' = infos s.
Proof.
  intros Hsc. rewrite set_visible_child_info_with_unfold.
  destruct (in_destruction s); [by intros [= <-]|]. cbv zeta.
  destruct (ptr_eqb _ _); [by intros [= <-]|].
  set (new' := match new with None => first_visible_child s | Some p => Some p end).
  destruct (switch_setup_spec new' s) as (Hf1 & _ & _).
  assert (children (switch_setup new' s) = children s
          /\ infos (switch_setup new' s) = infos s) as [Hch1 Hi1] by (by injection Hf1).
  set (s1 := switch_setup new' s) in *. clearbody s1.
  intros H. apply bind_Some in H as (s2 & H2 & H).
  assert (children s2 = children s /\ infos s2 = infos s) as [Hch2 Hi2].
  { destruct (folded s1); [| injection H2 as <-; by split].
    rewrite start_child_transition_unfold in H2.
    destruct (child_progress_updated_selection _ _ H2) as [Hfr _].
    destruct (child_transition_prepared_lists
                (fst (switch_transition new' t s1)) d (snd (switch_transition new' t s1)) s1)
      as (Hch & Hi & _).
    split; [rewrite <- Hch1, <- Hch | rewrite <- Hi1, <- Hi]; by injection Hfr. }
  destruct emit; [| injection H as <-; by split].
  apply bind_Some in H as (c & _ & H). apply Hsc in H as [Hch Hi].
  split; [by rewrite Hch | by rewrite Hi].
Qed.

Lemma set_visible_child_info_lists new t d emit s s' :
  set_visible_child_info new t d emit s = Some s' ->
  children s' = children s /\ infos s' = infos s.
Proof.
  apply set_visible_child_info_with_lists. intros i d' x x'.
  apply set_visible_child_info_with_lists. by intros ? ? ? ? [= <-].
Qed.

Lemma find_app_None {A} (f : A -> bool) l1 l2 :
  List.find f l1 = None -> List.find f (l1 ++ l2) = List.find f l2.
Proof.
  induction l1 as [|x l1 IH]; simpl; [done|]. destruct (f x); [done | exact IH].
Qed.

Lemma find_none_all {A} (f : A -> bool) l :
  (forall x, In x l -> f x = false) -> List.find f l = None.
Proof.
  induction l as [|x l IH]; simpl; [done|]. intros H.
  rewrite (H x) by (by left). apply IH. intros y Hy. apply H. by right.
Qed.

Lemma add_unfold w s :
  hdy_leaflet_add w s
  = if w_has_parent (widgets s !!! w) then Some s else
    let s1 := added w s in
    if negb (is_nonnull (hdy_leaflet_get_visible_child s1))
       && gtk_widget_get_visible s1 (Some w)
    then set_visible_child_info (Some (next_info s)) (transition_type s1)
           (ct_duration (child_transition s1)) false s1
    else Some s1.
Proof. reflexivity. Qed.

Lemma added_spec w s :
  children (added w s) = children s ++ [next_info s]
  /\ infos (added w s) = <[next_info s := new_child_info w]> (infos s)
  /\ visible_child (added w s) = visible_child s
  /\ last_visible_child (added w s) = last_visible_child s
  /\ in_destruction (added w s) = in_destruction s
  /\ gtk_widget_get_visible (added w s) (Some w) = gtk_widget_get_visible s (Some w)
  /\ w_has_parent (widgets (added w s) !!! w) = true.
Proof.
  split_and!; try reflexivity.
  - unfold gtk_widget_get_visible, added. simpl. by rewrite !lookup_total_insert_eq.
  - unfold added. simpl. by rewrite !lookup_total_insert_eq.
Qed.

(** With no visible child and no last visible child, a switch leaves the
    asked child visible whatever the cancelled flag says. *)
Lemma set_visible_child_info_first sc c t d s :
  in_destruction s = false -> visible_child s = None ->
  exists s',
    set_visible_child_info_with sc (Some c) t d false s = Some s'
    /\ visible_child s' = Some c.
Proof.
  intros Hd Hnone. rewrite set_visible_child_info_with_unfold, Hd. cbv zeta.
  unfold ptr_eqb. rewrite Hnone, bool_decide_eq_false_2 by done.
  destruct (switch_setup_spec (Some c) s) as (_ & _ & Hv1).
  assert (last_visible_child (switch_setup (Some c) s) = None) as Hl1.
  { unfold switch_setup. cbv zeta.
    match goal with |- context [gtk_widget_set_child_visible ?a true ?x] =>
      transitivity (last_visible_child x); [by destruct a|] end.
    destruct (last_visible_child s) as [last|];
      [destruct (ci_widget (deref s last)) |]; simpl; by rewrite Hnone. }
  set (s1 := switch_setup (Some c) s) in *. clearbody s1.
  destruct (folded s1); [| by exists s1].
  destruct (start_child_transition_spec (fst (switch_transition (Some c) t s1)) d
              (snd (switch_transition (Some c) t s1)) s1) as (s2 & -> & _ & _ & Hs2);
    [by right|].
  exists s2. split; [done|]. rewrite Hl1 in Hs2.
  assert (selection s2 = selection s1) as Hs by (by destruct (_ || _)).
  rewrite <- Hv1. by injection Hs.
Qed.

(** X8.  [hdy_leaflet_add] refuses a widget that has a parent.  Otherwise it
    returns with a new child appended to the list, holding the widget with no
    name and allow-visible TRUE, and the widget has the leaflet as its
    parent; all other records are as they were.  When the leaflet shows no
    child, the widget is visible and the leaflet is not being destroyed, the
    new child becomes the visible child. *)
Theorem add_appends_child w s :
  (w_has_parent (widgets s !!! w) = true -> hdy_leaflet_add w s = Some s)
  /\ (w_has_parent (widgets s !!! w) = false ->
      exists s',
        hdy_leaflet_add w s = Some s'
        /\ children s' = children s ++ [next_info s]
        /\ deref s' (next_info s) = new_child_info w
        /\ (forall p, p <> next_info s -> deref s' p = deref s p)
        /\ (visible_child s = None -> gtk_widget_get_visible s (Some w) = true ->
            in_destruction s = false ->
            visible_child s' = Some (next_info s))
        /\ (~ In (next_info s) (children s) ->
            find_child_info_for_widget s (Some w) = None ->
            find_child_info_for_widget s' (Some w) = Some (next_info s))).
Proof.
  rewrite add_unfold. split; [by intros ->|]. intros ->. cbv zeta.
  destruct (added_spec w s) as (Hch & Hi & Hv & Hl & Hd & Hvis & Hpar).
  set (s1 := added w s) in *. clearbody s1.
  assert (forall s', children s' = children s1 -> infos s' = infos s1 ->
            children s' = children s ++ [next_info s]
            /\ deref s' (next_info s) = new_child_info w
            /\ (forall p, p <> next_info s -> deref s' p = deref s p)
            /\ (~ In (next_info s) (children s) ->
                find_child_info_for_widget s (Some w) = None ->
                find_child_info_for_widget s' (Some w) = Some (next_info s))) as Hrec.
  { intros s' Hch' Hi'.
    assert (deref s' (next_info s) = new_child_info w) as Hnew
      by (unfold deref; rewrite Hi', Hi; by rewrite lookup_total_insert_eq).
    assert (forall p, p <> next_info s -> deref s' p = deref s p) as Hold
      by (intros p Hp; unfold deref; rewrite Hi', Hi; by rewrite lookup_total_insert_ne).
    split_and!; [congruence | done | done |].
    intros Hfresh Hnone. unfold find_child_info_for_widget in *. rewrite Hch', Hch.
    rewrite find_app_None.
    2:{ apply find_none_all. intros p Hp.
        rewrite Hold by (intros ->; contradiction).
        by apply (find_none _ _ Hnone). }
    simpl. rewrite Hnew. unfold ptr_eqb. simpl. by rewrite bool_decide_eq_true_2. }
  destruct (negb (is_nonnull (hdy_leaflet_get_visible_child s1))
            && gtk_widget_get_visible s1 (Some w)) eqn:Econd.
  - destruct (in_destruction s1) eqn:Hd1.
    + exists s1. unfold set_visible_child_info.
      rewrite set_visible_child_info_with_unfold, Hd1.
      split; [done|]. destruct (Hrec s1 eq_refl eq_refl) as (? & ? & ? & ?).
      split_and!; try done. intros _ _ Hnd. congruence.
    + destruct (set_visible_child_info_quiet hdy_leaflet_switch_child (next_info s)
                  (transition_type s1) (ct_duration (child_transition s1)) s1 Hd1)
        as (s' & E & Hf & _ & _).
      exists s'. split; [exact E|].
      destruct (set_visible_child_info_lists _ _ _ _ _ _ E) as [Hch' Hi'].
      destruct (Hrec s' Hch' Hi') as (? & ? & ? & ?). split_and!; try done.
      intros Hnone _ _.
      destruct (set_visible_child_info_first hdy_leaflet_switch_child (next_info s)
                  (transition_type s1) (ct_duration (child_transition s1)) s1 Hd1)
        as (s'' & E' & Hv''); [congruence|].
      unfold set_visible_child_info in E. congruence.
  - exists s1. split; [done|]. destruct (Hrec s1 eq_refl eq_refl) as (? & ? & ? & ?).
    split_and!; try done. intros Hnone Hw _.
    unfold hdy_leaflet_get_visible_child in Econd. rewrite Hv, Hnone, Hvis, Hw in Econd.
    discriminate Econd.
Qed.

Lemma add_appends_child_witness :
  exists s',
    hdy_leaflet_add 1%nat (hdy_leaflet_init example_world true) = Some s'
    /\ children s' = [1%nat]
    /\ visible_child s' = Some 1%nat
    /\ find_child_info_for_widget s' (Some 1%nat) = Some 1%nat.
Proof.
  assert (w_has_parent (widgets (hdy_leaflet_init example_world true) !!! 1%nat) = false)
    as Hp by (vm_compute; reflexivity).
  destruct (proj2 (add_appends_child 1%nat (hdy_leaflet_init example_world true)) Hp)
    as (s' & E & Hch & _ & _ & Hv & Hfind).
  exists s'. split; [exact E|]. split; [exact Hch|]. split.
  - apply Hv; vm_compute; reflexivity.
  - apply Hfind; [vm_compute; tauto | vm_compute; reflexivity].
Defined.

Lemma remove_unfold w freed s :
  hdy_leaflet_remove w freed s
  = match find_child_info_for_widget s (Some w) with
    | None => Some s
    | Some c =>
        let s1 := removed c freed s in
        s2 ← (if ptr_eqb (hdy_leaflet_get_visible_child s1) (Some w)
              then set_visible_child_info None (transition_type s1)
                     (ct_duration (child_transition s1)) true s1
              else Some s1);
        Some (update_widget (Some w) (set_w_has_parent false) s2)
    end.
Proof. reflexivity. Qed.

Lemma g_list_remove_In l c p : In p (g_list_remove l c) -> In p l.
Proof.
  induction l as [|x l IH]; simpl; [done|].
  destruct (Nat.eqb x c); [by right|]. intros [-> | H]; [by left | right; by apply IH].
Qed.

Lemma g_list_remove_not_In l c : List.NoDup l -> ~ In c (g_list_remove l c).
Proof.
  intros Hnd. rewrite g_list_remove_filter by done. intros H.
  apply filter_In in H as [_ H]. by rewrite Nat.eqb_refl in H.
Qed.

(** X9.  [hdy_leaflet_remove] on a widget the leaflet does not hold changes
    nothing.  On a widget it holds, whenever it returns and whatever the
    freed record reads as afterwards, the first child holding the widget is
    gone from the list of children, which keeps its other cells in order, the
    records of the other children are as they were, and the widget has no
    parent. *)
Theorem remove_drops_child w freed s :
  (find_child_info_for_widget s (Some w) = None -> hdy_leaflet_remove w freed s = Some s)
  /\ (forall c s',
        find_child_info_for_widget s (Some w) = Some c ->
        hdy_leaflet_remove w freed s = Some s' ->
        children s' = g_list_remove (children s) c
        /\ (List.NoDup (children s) -> ~ In c (children s'))
        /\ (forall p, In p (children s') -> In p (children s))
        /\ infos s' = <[c := freed]> (infos s)
        /\ w_has_parent (widgets s' !!! w) = false).
Proof.
  rewrite remove_unfold. split; [by intros ->|].
  intros c s' -> H. cbv zeta in H.
  apply bind_Some in H as (s2 & H2 & [= <-]).
  assert (children s2 = g_list_remove (children s) c
          /\ infos s2 = <[c := freed]> (infos s)) as [Hch Hi].
  { destruct (ptr_eqb _ _); [| by injection H2 as <-].
    by apply set_visible_child_info_lists in H2 as [-> ->]. }
  change (children (with_widgets ?m s2)) with (children s2).
  change (infos (with_widgets ?m s2)) with (infos s2).
  change (widgets (with_widgets ?m s2)) with m.
  rewrite Hch. split_and!; [done | | | done |].
  - apply g_list_remove_not_In.
  - intros p. apply g_list_remove_In.
  - by rewrite lookup_total_insert_eq.
Qed.

Lemma remove_drops_child_witness :
  exists s',
    hdy_leaflet_remove 2%nat (new_child_info 2%nat) example_second_hidden = Some s'
    /\ children s' = [1%nat]
    /\ w_has_parent (widgets s' !!! 2%nat) = false.
Proof.
  assert (find_child_info_for_widget example_second_hidden (Some 2%nat) = Some 2%nat)
    as Hfind by (vm_compute; reflexivity).
  destruct (hdy_leaflet_remove 2%nat (new_child_info 2%nat) example_second_hidden)
    as [s'|] eqn:E; [| vm_compute in E; discriminate].
  destruct (proj2 (remove_drops_child 2%nat (new_child_info 2%nat) example_second_hidden)
              2%nat s' Hfind E)
    as (Hch & _ & _ & _ & Hp).
  exists s'. split; [reflexivity|]. split; [| exact Hp].
  rewrite Hch. vm_compute. reflexivity.
Defined.

(** X10.  [hdy_leaflet_remove] frees the record of the child before it
    compares the widget of the visible child with the widget it removes, so
    where the removed child is the visible child the comparison reads the
    freed record, and the outcome depends on what that memory reads as.
    Where it reads as anything but the removed widget, the call returns
    with [visible_child] still holding the address of the freed record, which
    is no longer among the children.  Where it still reads as the removed widget,
    outside destruction and with no other child holding a visible widget, the
    call does not return: [set_visible_child_info] finds no child to show and
    reads the widget of the NULL child for the switch-child signal. *)
Theorem remove_visible_child_reads_freed_record w freed s c :
  find_child_info_for_widget s (Some w) = Some c ->
  visible_child s = Some c ->
  List.NoDup (children s) ->
  (ci_widget freed <> Some w ->
   exists s',
     hdy_leaflet_remove w freed s = Some s'
     /\ visible_child s' = Some c
     /\ ~ In c (children s')
     /\ deref s' c = freed)
  /\ (ci_widget freed = Some w ->
      in_destruction s = false ->
      (forall p, In p (children s) -> p <> c ->
         gtk_widget_get_visible s (ci_widget (deref s p)) = false) ->
      hdy_leaflet_remove w freed s = None).
Proof.
  intros Hfind Hv Hnd. rewrite remove_unfold, Hfind. cbv zeta.
  assert (hdy_leaflet_get_visible_child (removed c freed s) = ci_widget freed) as ->.
  { unfold hdy_leaflet_get_visible_child.
    change (visible_child (removed c freed s)) with (visible_child s). rewrite Hv.
    unfold deref, removed, free_child_info. cbn [infos with_infos].
    by rewrite lookup_total_insert_eq. }
  split.
  - intros Hne. unfold ptr_eqb. rewrite bool_decide_eq_false_2 by done.
    cbn [mbind option_bind]. eexists. split; [reflexivity|].
    change (visible_child (update_widget (Some w) (set_w_has_parent false) (removed c freed s)))
      with (visible_child s).
    change (children (update_widget (Some w) (set_w_has_parent false) (removed c freed s)))
      with (g_list_remove (children s) c).
    split_and!; [done | by apply g_list_remove_not_In |].
    unfold deref, update_widget, removed, free_child_info. cbn [infos with_infos with_widgets].
    by rewrite lookup_total_insert_eq.
  - intros Hw Hd Hhidden. rewrite Hw.
    unfold ptr_eqb at 1. rewrite bool_decide_eq_true_2 by done.
    unfold set_visible_child_info. rewrite set_visible_child_info_with_unfold.
    change (in_destruction (removed c freed s)) with (in_destruction s). rewrite Hd. cbv zeta.
    assert (first_visible_child (removed c freed s) = None) as ->.
    { unfold first_visible_child. apply find_none_all. intros p Hp.
      change (children (removed c freed s)) with (g_list_remove (children s) c) in Hp.
      assert (p <> c) as Hpc.
      { intros ->. by apply (g_list_remove_not_In (children s) c). }
      assert (deref (removed c freed s) p = deref s p) as ->.
      { unfold deref, removed, free_child_info. cbn [infos with_infos].
        by rewrite lookup_total_insert_ne. }
      change (gtk_widget_get_visible (removed c freed s) (ci_widget (deref s p)))
        with (gtk_widget_get_visible s (ci_widget (deref s p))).
      apply Hhidden; [by apply (g_list_remove_In _ c) | done]. }
    change (visible_child (removed c freed s)) with (visible_child s). rewrite Hv.
    unfold ptr_eqb. rewrite bool_decide_eq_false_2 by done.
    by destruct (if folded _ then _ else _).
Qed.

Lemma remove_visible_child_reads_freed_record_witness :
  reachable example_single
  /\ children example_single = [1%nat]
  /\ (exists s',
        hdy_leaflet_remove 1%nat (mkInfo None None false alloc0 req0 req0 false) example_single
        = Some s'
        /\ visible_child s' = Some 1%nat /\ ~ In 1%nat (children s'))
  /\ hdy_leaflet_remove 1%nat (new_child_info 1%nat) example_single = None.
Proof.
  assert (reachable example_single) as Hr.
  { apply reachable_state_after. vm_compute. eauto. }
  assert (children example_single = [1%nat]) as Hch by (vm_compute; reflexivity).
  assert (find_child_info_for_widget example_single (Some 1%nat) = Some 1%nat) as Hfind
    by (vm_compute; reflexivity).
  assert (visible_child example_single = Some 1%nat) as Hv by (vm_compute; reflexivity).
  assert (in_destruction example_single = false) as Hd by (vm_compute; reflexivity).
  assert (List.NoDup (children example_single)) as Hnd.
  { rewrite Hch. constructor; [intros [] | constructor]. }
  split; [exact Hr | split; [exact Hch | split]].
  - destruct (proj1 (remove_visible_child_reads_freed_record 1%nat
                       (mkInfo None None false alloc0 req0 req0 false)
                       example_single 1%nat Hfind Hv Hnd))
      as (s' & E & Hv' & Hin & _); [discriminate|].
    exists s'. split; [exact E | split; [exact Hv' | exact Hin]].
  - apply (proj2 (remove_visible_child_reads_freed_record 1%nat (new_child_info 1%nat)
                    example_single 1%nat Hfind Hv Hnd)); [reflexivity | exact Hd |].
    intros p Hp Hne. rewrite Hch in Hp. destruct Hp as [<- | []]. by destruct Hne.
Defined.

(** ** Child properties *)

Lemma find_unique (f : info_ptr -> bool) l c :
  In c l -> f c = true -> (forall p, In p l -> p <> c -> f p = false) ->
  List.find f l = Some c.
Proof.
  induction l as [|x l IH]; simpl; [done|]. intros Hin Hc Hother.
  destruct (f x) eqn:Ex.
  - f_equal. destruct Hin as [-> | Hin]; [done|].
    destruct (decide (x = c)) as [-> | Hne]; [done|].
    rewrite Hother in Ex; [done | by left | done].
  - destruct Hin as [-> | Hin]; [congruence|].
    apply IH; [done | done |]. intros p Hp. apply Hother. by right.
Qed.

Lemma deref_update_info_eq p f s : deref (update_info p f s) p = f (deref s p).
Proof. unfold deref, update_info. simpl. by rewrite lookup_total_insert_eq. Qed.

Lemma deref_update_info_ne p q f s : q <> p -> deref (update_info p f s) q = deref s q.
Proof. intros H. unfold deref, update_info. simpl. by rewrite lookup_total_insert_ne. Qed.

(** X11.  Setting the name child property of a widget the leaflet holds
    stores the name in the record of its child and touches nothing else; a
    name another child bears is stored all the same.  When no other child
    bears the name, looking the name up gives the child back. *)
Theorem set_child_name_round_trip w n s c :
  find_child_info_for_widget s (Some w) = Some c ->
  exists s',
    hdy_leaflet_set_child_property w (CHILD_PROP_NAME n) s = Some s'
    /\ ci_name (deref s' c) = n
    /\ (forall p, p <> c -> deref s' p = deref s p)
    /\ children s' = children s /\ visible_child s' = visible_child s
    /\ widgets s' = widgets s
    /\ (forall name,
          n = Some name ->
          (forall p, In p (children s) -> p <> c -> ci_name (deref s p) <> Some name) ->
          find_child_info_for_name s' (Some name) = Some c).
Proof.
  intros Hfind. unfold hdy_leaflet_set_child_property. rewrite Hfind.
  eexists. split; [reflexivity|].
  destruct (find_child_info_for_widget_Some s (Some w) c Hfind) as [Hin _].
  split_and!; try reflexivity.
  - by rewrite deref_update_info_eq.
  - intros p Hp. by apply deref_update_info_ne.
  - intros name -> Hother. unfold find_child_info_for_name.
    change (children (update_info c (set_ci_name (Some name)) s)) with (children s).
    apply find_unique; [done | |].
    + rewrite deref_update_info_eq. by apply bool_decide_eq_true.
    + intros p Hp Hne. rewrite deref_update_info_ne by done.
      apply bool_decide_eq_false. by apply Hother.
Qed.

Lemma set_child_name_round_trip_witness :
  exists s',
    hdy_leaflet_set_child_property 2%nat (CHILD_PROP_NAME (Some "second"%string))
      example_folded = Some s'
    /\ find_child_info_for_name s' (Some "second"%string) = Some 2%nat.
Proof.
  assert (find_child_info_for_widget example_folded (Some 2%nat) = Some 2%nat) as Hfind
    by (vm_compute; reflexivity).
  assert (children example_folded = [1%nat; 2%nat]) as Hch by (vm_compute; reflexivity).
  assert (ci_name (deref example_folded 1%nat) = None) as Hn1 by (vm_compute; reflexivity).
  destruct (set_child_name_round_trip 2%nat (Some "second"%string) example_folded 2%nat Hfind)
    as (s' & E & _ & _ & _ & _ & _ & Hlook).
  exists s'. split; [exact E|]. apply Hlook; [reflexivity|].
  intros p Hp Hne. rewrite Hch in Hp. destruct Hp as [<- | [<- | []]].
  - rewrite Hn1. discriminate.
  - by destruct Hne.
Defined.

Lemma find_ext_in {A} (f g : A -> bool) l :
  (forall x, In x l -> f x = g x) -> List.find f l = List.find g l.
Proof.
  induction l as [|x l IH]; simpl; [done|]. intros H.
  rewrite (H x) by (by left). destruct (g x); [done|]. apply IH.
  intros y Hy. apply H. by right.
Qed.

(** X12.  Clearing allow-visible on the visible child does not consult
    allow-visible when it picks the child to show: the leaflet switches to
    the first child whose widget is visible, so when the visible child is
    that child it stays the visible child, with allow-visible FALSE. *)
Theorem disallowed_visible_child_stays w s c :
  find_child_info_for_widget s (Some w) = Some c ->
  visible_child s = Some c ->
  first_visible_child s = Some c ->
  exists s',
    hdy_leaflet_set_child_property w (CHILD_PROP_ALLOW_VISIBLE false) s = Some s'
    /\ visible_child s' = Some c
    /\ ci_allow_visible (deref s' c) = false.
Proof.
  intros Hfind Hv Hfirst. unfold hdy_leaflet_set_child_property. rewrite Hfind. cbv zeta.
  set (s1 := update_info c (set_ci_allow_visible false) s).
  assert (ci_allow_visible (deref s1 c) = false) as Ha
    by (subst s1; by rewrite deref_update_info_eq).
  assert (forall p, ci_widget (deref s1 p) = ci_widget (deref s p)) as Hw.
  { intros p. subst s1. destruct (decide (p = c)) as [-> | Hne].
    - by rewrite deref_update_info_eq.
    - by rewrite deref_update_info_ne. }
  assert (visible_child s1 = Some c /\ children s1 = children s /\ widgets s1 = widgets s)
    as (Hv1 & Hch1 & Hwi1) by done.
  clearbody s1. rewrite Ha. cbn [negb andb].
  destruct (ptr_eqb _ _); [| by exists s1].
  unfold set_visible_child_info. rewrite set_visible_child_info_with_unfold.
  destruct (in_destruction s1); [by exists s1|]. cbv zeta.
  assert (first_visible_child s1 = Some c) as ->.
  { rewrite <- Hfirst. unfold first_visible_child. rewrite Hch1.
    apply find_ext_in. intros p _. unfold gtk_widget_get_visible. by rewrite Hw, Hwi1. }
  rewrite Hv1. unfold ptr_eqb. rewrite bool_decide_eq_true_2 by done. by exists s1.
Qed.

Lemma disallowed_visible_child_stays_witness :
  exists s',
    hdy_leaflet_set_child_property 1%nat (CHILD_PROP_ALLOW_VISIBLE false) example_folded
    = Some s'
    /\ visible_child s' = Some 1%nat
    /\ ci_allow_visible (deref s' 1%nat) = false.
Proof.
  assert (find_child_info_for_widget example_folded (Some 1%nat) = Some 1%nat) as Hfind
    by (vm_compute; reflexivity).
  assert (visible_child example_folded = Some 1%nat) as Hv by (vm_compute; reflexivity).
  assert (first_visible_child example_folded = Some 1%nat) as Hfirst
    by (vm_compute; reflexivity).
  exact (disallowed_visible_child_stays 1%nat example_folded 1%nat Hfind Hv Hfirst).
Defined.

(** ** A swipe that completes *)

(** What [hdy_leaflet_child_progress_updated] does to a transition that is
    not cancelled: the visible child stays, and the last visible child is
    forgotten in the final state. *)
Lemma child_progress_updated_heading s c :
  heading_to c s ->
  exists s',
    hdy_leaflet_child_progress_updated s = Some s'
    /\ child_transition s' = child_transition s
    /\ visible_child s' = Some c
    /\ (ct_is_gesture_active (child_transition s) = false ->
        child_tracker_state s = GTK_PROGRESS_STATE_AFTER -> last_visible_child s' = None).
Proof.
  intros [Hv Hor].
  destruct (child_progress_updated_total s) as [s' E]; [left; by rewrite Hv|].
  exists s'. split; [done|].
  destruct (child_progress_updated_selection s s' E) as [Hf Hsel].
  split; [by injection Hf|].
  destruct (ct_is_gesture_active (child_transition s)) eqn:Hg; cbn [negb andb] in Hsel.
  - split; [| done]. rewrite <- Hv. by injection Hsel.
  - destruct Hor as [? | Hc]; [done|]. rewrite Hc in Hsel.
    destruct (decide (child_tracker_state s = GTK_PROGRESS_STATE_AFTER)) as [Ha | Hna].
    + rewrite (bool_decide_eq_true_2 _ Ha) in Hsel.
      destruct (last_visible_child s) as [last|] eqn:Hl.
      * split; [rewrite <- Hv | intros _ _]; by injection Hsel.
      * split; [rewrite <- Hv | intros _ _; rewrite <- Hl]; by injection Hsel.
    + rewrite (bool_decide_eq_false_2 _ Hna) in Hsel.
      split; [| done]. rewrite <- Hv. by injection Hsel.
Qed.

Lemma update_swipe_heading value s c :
  heading_to c s ->
  exists s', hdy_leaflet_update_swipe value s = Some s' /\ heading_to c s'
    /\ ct_is_gesture_active (child_transition s')
       = ct_is_gesture_active (child_transition s).
Proof.
  intros Hh. unfold hdy_leaflet_update_swipe.
  set (s0 := upd_ct (set_ct_progress (ABS value)) s).
  assert (heading_to c s0) as Hh0 by exact Hh.
  assert (ct_is_gesture_active (child_transition s0)
          = ct_is_gesture_active (child_transition s)) as Hg0 by reflexivity.
  clearbody s0.
  destruct (child_progress_updated_heading s0 c Hh0) as (s' & E & Hct & Hv & _).
  exists s'. split; [done|]. rewrite Hct. split; [| done]. split; [done|].
  rewrite Hct. apply Hh0.
Qed.

Lemma update_swipes_heading values s c :
  heading_to c s ->
  exists s', run_all (map OP_UPDATE_SWIPE values) s = Some s' /\ heading_to c s'
    /\ ct_is_gesture_active (child_transition s')
       = ct_is_gesture_active (child_transition s).
Proof.
  revert s. induction values as [|x values IH]; intros s Hp; [by exists s|].
  destruct (update_swipe_heading x s c Hp) as (s1 & E & Hp1 & Hg1).
  destruct (IH s1 Hp1) as (s' & E' & Hp' & Hg').
  exists s'. split; [| split; [done | congruence]].
  cbn [map]. rewrite run_all_cons. cbn [run]. rewrite E. exact E'.
Qed.

Lemma end_swipe_unfold duration to s :
  hdy_leaflet_end_swipe duration to s
  = if negb (ct_is_gesture_active (child_transition s)) then Some s
    else hdy_leaflet_child_progress_updated
           (upd_ct (set_ct_is_gesture_active false)
              (let s1 := hdy_leaflet_schedule_child_ticks
                           (upd_ct (fun c =>
                              set_ct_first_frame_skipped true
                                (set_ct_is_cancelled (gdouble_eq to 0)
                                   (set_ct_end_progress (ABS to)
                                      (set_ct_start_progress (ct_progress c) c)))) s) in
               if enable_animations s1 && negb (duration =? 0)
                  && negb (bool_decide (transition_type s1 = HDY_LEAFLET_TRANSITION_TYPE_NONE))
               then upd_ct (set_ct_tracker
                              (gtk_progress_tracker_start ((duration * 1000) mod 2 ^ 64) 0 1%Q))
                      s1
               else upd_ct (fun c =>
                      set_ct_tracker (gtk_progress_tracker_finish (ct_tracker c))
                        (set_ct_progress (ct_end_progress c) c)) s1)).
Proof. reflexivity. Qed.

(** Releasing the swipe away from 0 clears the cancelled flag and ends the
    gesture. *)
Lemma end_swipe_landing duration to s c :
  gdouble_eq to 0 = false -> heading_to c s ->
  exists s', hdy_leaflet_end_swipe duration to s = Some s'
    /\ visible_child s' = Some c
    /\ ct_is_gesture_active (child_transition s') = false
    /\ ct_is_cancelled (child_transition s') = false
    /\ (ct_is_gesture_active (child_transition s) = true -> landing_on c s').
Proof.
  intros Hto Hh. rewrite end_swipe_unfold.
  destruct (ct_is_gesture_active (child_transition s)) eqn:Hg; cbn [negb].
  2:{ destruct Hh as [Hv [? | Hc]]; [congruence|]. exists s. by split_and!. }
  match goal with |- context [hdy_leaflet_child_progress_updated ?x] => set (s0 := x) end.
  assert (visible_child s0 = visible_child s
          /\ ct_is_gesture_active (child_transition s0) = false
          /\ ct_is_cancelled (child_transition s0) = false) as (Hv0 & Hg0 & Hc0).
  { subst s0. cbv zeta. rewrite Hto.
    set (s1 := hdy_leaflet_schedule_child_ticks _).
    assert (visible_child s1 = visible_child s
            /\ ct_is_cancelled (child_transition s1) = false) as [H1 H2].
    { subst s1. unfold hdy_leaflet_schedule_child_ticks, gtk_widget_add_tick_callback.
      by destruct (ct_tick_id _ =? 0). }
    clearbody s1. by destruct (enable_animations s1 && _ && _). }
  clearbody s0.
  destruct (child_progress_updated_heading s0 c) as (s' & E & Hct & Hv & Hl).
  { split; [rewrite Hv0; apply Hh | by right]. }
  exists s'. rewrite Hct. split_and!; try done.
  intros _. unfold landing_on, child_tracker_state. rewrite Hct. split_and!; try done.
  by apply Hl.
Qed.

Lemma landing_on_ext c s s' :
  selection s' = selection s ->
  ct_is_gesture_active (child_transition s') = ct_is_gesture_active (child_transition s) ->
  ct_is_cancelled (child_transition s') = ct_is_cancelled (child_transition s) ->
  ct_tracker (child_transition s') = ct_tracker (child_transition s) ->
  landing_on c s -> landing_on c s'.
Proof.
  intros Hs Hg Hc Ht. unfold landing_on, child_tracker_state. rewrite Hg, Hc, Ht.
  replace (visible_child s') with (visible_child s) by (by injection Hs).
  replace (last_visible_child s') with (last_visible_child s) by (by injection Hs).
  done.
Qed.

Lemma child_transition_cb_unfold frame_time s :
  hdy_leaflet_child_transition_cb frame_time s
  = let s1 :=
      if ct_first_frame_skipped (child_transition s) then
        let s := upd_ct (fun c =>
                   set_ct_tracker
                     (gtk_progress_tracker_advance_frame (ct_tracker c) frame_time) c) s in
        upd_ct (fun c =>
          set_ct_progress
            (hdy_lerp (ct_end_progress c) (ct_start_progress c)
               (gtk_progress_tracker_get_ease_out_cubic (ct_tracker (child_transition s))
                  false)) c) s
      else upd_ct (set_ct_first_frame_skipped true) s in
    let s2 := if negb (self_mapped s1)
              then upd_ct (fun c =>
                     set_ct_tracker (gtk_progress_tracker_finish (ct_tracker c)) c) s1
              else s1 in
    s3 ← hdy_leaflet_child_progress_updated s2;
    if bool_decide (child_tracker_state s3 = GTK_PROGRESS_STATE_AFTER)
    then Some (upd_ct (set_ct_tick_id 0) s3, false)
    else Some (s3, true).
Proof. reflexivity. Qed.

Lemma child_transition_cb_landing frame_time s c :
  landing_on c s ->
  exists s' again,
    hdy_leaflet_child_transition_cb frame_time s = Some (s', again) /\ landing_on c s'.
Proof.
  intros (Hv & Hg & Hc & _). rewrite child_transition_cb_unfold. cbv zeta.
  match goal with |- context [hdy_leaflet_child_progress_updated ?x] => set (s0 := x) end.
  assert (visible_child s0 = visible_child s
          /\ ct_is_gesture_active (child_transition s0) = false
          /\ ct_is_cancelled (child_transition s0) = false) as (Hv0 & Hg0 & Hc0).
  { subst s0.
    destruct (ct_first_frame_skipped _);
      match goal with |- context [self_mapped ?x] => destruct (negb (self_mapped x)) end;
      by split_and!. }
  clearbody s0.
  destruct (child_progress_updated_heading s0 c) as (s1 & E & Hct & Hv1 & Hl).
  { split; [by rewrite Hv0 | by right]. }
  rewrite E. simpl.
  assert (landing_on c s1) as H1.
  { unfold landing_on, child_tracker_state. rewrite Hct. split_and!; try done. by apply Hl. }
  destruct (bool_decide _); [| by eexists _, _].
  eexists _, _. split; [reflexivity|]. by apply (landing_on_ext c s1).
Qed.

Lemma frame_tick_landing id frame_time s c :
  landing_on c s ->
  exists s', gtk_frame_tick id frame_time s = Some s' /\ landing_on c s'.
Proof.
  intros Hp. unfold gtk_frame_tick.
  destruct (List.find _ _) as [[i [|]]|]; [| | by exists s].
  - destruct (child_transition_cb_landing frame_time s c Hp) as (s' & again & -> & Hp').
    simpl. eexists. split; [reflexivity|]. destruct again; [done|].
    by apply (landing_on_ext c s').
  - destruct (mode_transition_cb_selection frame_time s) as [Hs Hc].
    destruct (hdy_leaflet_mode_transition_cb frame_time s) as [s1 again].
    eexists. split; [reflexivity|]. simpl in *.
    destruct again; apply (landing_on_ext c s); try done; simpl; congruence.
Qed.

Lemma frame_ticks_landing frames s c :
  landing_on c s ->
  exists s', run_all (frame_ticks frames) s = Some s' /\ landing_on c s'.
Proof.
  revert s. induction frames as [|[id ft] frames IH]; intros s Hp; [by exists s|].
  destruct (frame_tick_landing id ft s c Hp) as (s1 & E & Hp1).
  destruct (IH s1 Hp1) as (s' & E' & Hp').
  exists s'. split; [| done].
  change (frame_ticks ((id, ft) :: frames)) with (OP_FRAME_TICK id ft :: frame_ticks frames).
  rewrite run_all_cons. cbn [run]. rewrite E. exact E'.
Qed.

(** X13.  A swipe on a folded leaflet with no child transition running,
    released on a target other than 0, ends on the child the swipe was
    heading to, whatever the positions it was dragged through and the frames
    that follow; once the tracker is in its final state the last visible
    child is forgotten. *)
Theorem completed_swipe_shows_neighbour dir direct values duration to frames s c :
  in_destruction s = false ->
  ct_tick_id (child_transition s) = 0 ->
  folded s = true ->
  can_swipe_in_direction s dir || negb direct = true ->
  find_swipeable_child s dir = Some (Some c) ->
  gdouble_eq to 0 = false ->
  exists s',
    run_all (swipe dir direct values duration to frames) s = Some s'
    /\ visible_child s' = Some c
    /\ ct_is_gesture_active (child_transition s') = false
    /\ ct_is_cancelled (child_transition s') = false
    /\ (child_tracker_state s' = GTK_PROGRESS_STATE_AFTER -> last_visible_child s' = None).
Proof.
  intros Hd Ht Hf Hcan Hfind Hto.
  assert (exists s1, hdy_leaflet_begin_swipe dir direct s = Some s1
                     /\ heading_to c s1
                     /\ ct_is_gesture_active (child_transition s1) = true)
    as (s1 & E1 & H1 & Hg1).
  { unfold hdy_leaflet_begin_swipe. rewrite Ht, Hcan, Hf, Hfind. simpl.
    set (s0 := upd_ct (set_ct_is_gesture_active true) s).
    destruct (set_visible_child_info_quiet hdy_leaflet_switch_child c (transition_type s0)
                (ct_duration (child_transition s0)) s0 Hd) as (s1 & E & Hfr & Hv & _).
    exists s1. split; [exact E|].
    assert (ct_is_gesture_active (child_transition s1) = true) as Hg
      by (transitivity (ct_is_gesture_active (child_transition s0)); [by injection Hfr | done]).
    split; [| done]. split; [| by left]. apply Hv. by right. }
  destruct (update_swipes_heading values s1 c H1) as (s2 & E2 & H2 & Hg2).
  rewrite Hg1 in Hg2.
  destruct (end_swipe_landing duration to s2 c Hto H2) as (s3 & E3 & _ & _ & _ & H3).
  specialize (H3 Hg2).
  destruct (frame_ticks_landing frames s3 c H3) as (s' & E4 & Hv & Hg & Hc & Hl).
  exists s'. split; [| done].
  unfold swipe. rewrite run_all_cons. cbn [run]. rewrite E1. cbn [mbind option_bind].
  rewrite run_all_app, E2. cbn [mbind option_bind].
  rewrite run_all_cons. cbn [run]. rewrite E3. exact E4.
Qed.

Lemma completed_swipe_shows_neighbour_witness :
  exists s',
    run_all (swipe HDY_NAVIGATION_DIRECTION_FORWARD true [(1 # 2)%Q] 200 1%Q
               [(2, 1000); (2, 1000000)]) example_folded = Some s'
    /\ visible_child s' = Some 2%nat
    /\ ct_is_gesture_active (child_transition s') = false
    /\ ct_is_cancelled (child_transition s') = false
    /\ (child_tracker_state s' = GTK_PROGRESS_STATE_AFTER -> last_visible_child s' = None).
Proof.
  assert (in_destruction example_folded = false) as Hd by (vm_compute; reflexivity).
  assert (ct_tick_id (child_transition example_folded) = 0) as Ht by (vm_compute; reflexivity).
  assert (folded example_folded = true) as Hf by (vm_compute; reflexivity).
  assert (can_swipe_in_direction example_folded HDY_NAVIGATION_DIRECTION_FORWARD
          || negb true = true) as Hcan by (vm_compute; reflexivity).
  assert (find_swipeable_child example_folded HDY_NAVIGATION_DIRECTION_FORWARD
          = Some (Some 2%nat)) as Hfind by (vm_compute; reflexivity).
  assert (gdouble_eq 1 0 = false) as Hto by (vm_compute; reflexivity).
  exact (completed_swipe_shows_neighbour HDY_NAVIGATION_DIRECTION_FORWARD true [(1 # 2)%Q]
           200 1%Q [(2, 1000); (2, 1000000)] example_folded 2%nat Hd Ht Hf Hcan Hfind Hto).
Defined.

(** ** Measuring *)

(** The fold decision of [hdy_leaflet_size_allocate], for every state it
    returns. *)
Lemma size_allocate_folded a s s' :
  children_reversed s = rev (children s) ->
  hdy_leaflet_size_allocate a s = Some s' -> folded s' = should_fold s a.
Proof.
  intros Hrev. rewrite size_allocate_unfold. cbv zeta.
  rewrite (fold_decision_spec a s Hrev).
  set (s1 := for_each (get_directed_children s) prepare_child (size_allocate_entry a s)).
  clearbody s1. intros H.
  apply bind_Some in H as (s3 & H3 & H). injection H as <-.
  rewrite (folded_skeleton s3)
    by (apply skeleton_for_each; intros; apply skeleton_apply_child).
  rewrite <- (folded_set_folded (should_fold s a) s1).
  apply folded_skeleton.
  destruct (should_fold s a);
    [eapply skeleton_size_allocate_folded | eapply skeleton_size_allocate_unfolded]; exact H3.
Qed.

Lemma omap_cons_case {A B} (f : A -> option B) x l :
  omap f (x :: l) = match f x with Some y => y :: omap f l | None => omap f l end.
Proof. reflexivity. Qed.

(** The loop of [hdy_leaflet_measure] counts, and adds up the natural sizes
    of, the children whose widget is visible. *)
Lemma measure_children_spec static sized s o for_size l :
  (forall p w, In p l -> ci_widget (deref s p) = Some w ->
     gtk_widget_get_visible s (Some w) = true ->
     snd (child_preferred static sized s o for_size w)
     = req_size o (w_nat (widgets s !!! w))) ->
  exists max_min,
    measure_children static sized s o for_size l
    = (Z.of_nat (length (omap (visible_natural_size s o) l)), max_min,
       max_list (omap (visible_natural_size s o) l),
       sum_list (omap (visible_natural_size s o) l)).
Proof.
  intros Hnat. unfold measure_children.
  enough (forall n mm m b, 0 <= m ->
            exists max_min,
              foldl (fun '(visible_children, max_min, max_nat, sum_nat) p =>
                       match ci_widget (deref s p) with
                       | None => (visible_children, max_min, max_nat, sum_nat)
                       | Some w =>
                           if negb (gtk_widget_get_visible s (Some w))
                           then (visible_children, max_min, max_nat, sum_nat)
                           else
                             let '(child_min, child_nat) :=
                               child_preferred static sized s o for_size w in
                             (visible_children + 1, MAX max_min child_min,
                              MAX max_nat child_nat, sum_nat + child_nat)
                       end) (n, mm, m, b) l
              = (n + Z.of_nat (length (omap (visible_natural_size s o) l)), max_min,
                 Z.max m (max_list (omap (visible_natural_size s o) l)),
                 b + sum_list (omap (visible_natural_size s o) l))) as H.
  { destruct (H 0 0 0 0) as [mm E]; [lia|]. exists mm. rewrite E.
    by rewrite !Z.add_0_l, Z.max_r by apply max_list_nonneg. }
  induction l as [|p l IH]; intros n mm m b Hm.
  { exists mm. simpl. change (max_list []) with 0. change (sum_list []) with 0.
    by rewrite !Z.add_0_r, Z.max_l. }
  cbn [foldl]. rewrite omap_cons_case. unfold visible_natural_size at 1 4 7.
  destruct (ci_widget (deref s p)) as [w|] eqn:Hw; cbn [mbind option_bind];
    [| apply IH; [intros q w' Hq; apply Hnat; by right | done]].
  destruct (gtk_widget_get_visible s (Some w)) eqn:Hv; cbn [negb];
    [| apply IH; [intros q w' Hq; apply Hnat; by right | done]].
  pose proof (Hnat p w (or_introl eq_refl) Hw Hv) as Hp.
  destruct (child_preferred static sized s o for_size w) as [child_min child_nat].
  simpl in Hp. subst child_nat.
  destruct (IH (fun q w' Hq => Hnat q w' (or_intror Hq)) (n + 1) (MAX mm child_min)
              (MAX m (req_size o (w_nat (widgets s !!! w))))
              (b + req_size o (w_nat (widgets s !!! w)))) as [mm' E].
  { rewrite MAX_max. lia. }
  exists mm'. rewrite E, MAX_max, sum_list_cons, max_list_cons, Z.add_assoc, Z.max_assoc.
  cbn [length]. do 3 f_equal. lia.
Qed.

Lemma natural_size_of_measure static sized s for_size :
  (forall p w, In p (children s) -> ci_widget (deref s p) = Some w ->
     gtk_widget_get_visible s (Some w) = true ->
     snd (child_preferred static sized s (orientation s) for_size w)
     = req_size (orientation s) (w_nat (widgets s !!! w))) ->
  snd (hdy_leaflet_measure static sized s (orientation s) for_size)
  = accumulated_natural_size (homogeneous s HDY_FOLD_UNFOLDED (orientation s))
      (visible_natural_sizes s (orientation s)).
Proof.
  intros Hnat. unfold hdy_leaflet_measure.
  destruct (measure_children_spec static sized s (orientation s) for_size (children s) Hnat)
    as [mm ->].
  cbv zeta. unfold get_preferred_size. rewrite bool_decide_eq_true_2 by done.
  unfold accumulated_natural_size, visible_natural_sizes.
  by destruct (homogeneous s HDY_FOLD_UNFOLDED (orientation s)).
Qed.

Lemma visible_natural_sizes_all s o :
  (forall p w, In p (children s) -> ci_widget (deref s p) = Some w ->
     gtk_widget_get_visible s (Some w) = true) ->
  visible_natural_sizes s o = natural_sizes s o.
Proof.
  unfold visible_natural_sizes, natural_sizes.
  induction (children s) as [|p l IH]; intros Hvis; [done|].
  rewrite !omap_cons_case, IH by (intros q w Hq; apply Hvis; by right).
  unfold visible_natural_size, natural_size.
  destruct (ci_widget (deref s p)) as [w|] eqn:Hw; [| done].
  cbn [mbind option_bind]. by rewrite (Hvis p w (or_introl eq_refl) Hw).
Qed.

Lemma constant_size_natural s o for_size w :
  snd (child_preferred constant_size (fun o w _ => constant_size o w) s o for_size w)
  = req_size o (w_nat (widgets s !!! w)).
Proof. unfold child_preferred. by destruct (_ <? _). Qed.

Lemma constant_size_minimum s o for_size w :
  fst (child_preferred constant_size (fun o w _ => constant_size o w) s o for_size w)
  = req_size o (w_min (widgets s !!! w)).
Proof. unfold child_preferred. by destruct (_ <? _). Qed.

(** X14.  Along its orientation the natural size [hdy_leaflet_measure]
    reports is the size at which [hdy_leaflet_size_allocate] folds: where
    the widget of every child is visible and reports the natural size it
    gives to gtk_widget_get_preferred_size, the measured natural size is the
    accumulated natural size of the children, and an allocation of at least
    that size leaves the leaflet unfolded. *)
Theorem measured_natural_size_unfolds static sized s for_size :
  children_reversed s = rev (children s) ->
  (forall p w, In p (children s) -> ci_widget (deref s p) = Some w ->
     gtk_widget_get_visible s (Some w) = true
     /\ snd (child_preferred static sized s (orientation s) for_size w)
        = req_size (orientation s) (w_nat (widgets s !!! w))) ->
  snd (hdy_leaflet_measure static sized s (orientation s) for_size)
  = accumulated_natural_size (homogeneous s HDY_FOLD_UNFOLDED (orientation s))
      (natural_sizes s (orientation s))
  /\ forall a s',
       snd (hdy_leaflet_measure static sized s (orientation s) for_size)
       <= alloc_size (orientation s) a ->
       hdy_leaflet_size_allocate a s = Some s' -> folded s' = false.
Proof.
  intros Hrev Hall.
  assert (snd (hdy_leaflet_measure static sized s (orientation s) for_size)
          = accumulated_natural_size (homogeneous s HDY_FOLD_UNFOLDED (orientation s))
              (natural_sizes s (orientation s))) as E.
  { rewrite natural_size_of_measure by (intros p w Hp Hw _; by apply (Hall p w)).
    f_equal. apply visible_natural_sizes_all. intros p w Hp Hw. by apply (Hall p w). }
  split; [exact E|]. intros a s' Hle Hs'.
  rewrite (size_allocate_folded a s s' Hrev Hs'). unfold should_fold.
  apply Z.ltb_ge. by rewrite <- E.
Qed.

Lemma measured_natural_size_unfolds_witness :
  snd (hdy_leaflet_get_preferred_width constant_size (fun o w _ => constant_size o w)
         (state_after example_world example_setup)) = 200
  /\ exists s',
       hdy_leaflet_size_allocate (mkAlloc 0 0 200 50) (state_after example_world example_setup)
       = Some s'
       /\ folded s' = false.
Proof.
  assert (children_reversed (state_after example_world example_setup)
          = rev (children (state_after example_world example_setup))) as Hrev
    by (vm_compute; reflexivity).
  assert (children (state_after example_world example_setup) = [1; 2]%nat) as Hch
    by (vm_compute; reflexivity).
  assert (ci_widget (deref (state_after example_world example_setup) 1%nat) = Some 1%nat)
    as Hw1 by (vm_compute; reflexivity).
  assert (ci_widget (deref (state_after example_world example_setup) 2%nat) = Some 2%nat)
    as Hw2 by (vm_compute; reflexivity).
  assert (gtk_widget_get_visible (state_after example_world example_setup) (Some 1%nat) = true)
    as Hv1 by (vm_compute; reflexivity).
  assert (gtk_widget_get_visible (state_after example_world example_setup) (Some 2%nat) = true)
    as Hv2 by (vm_compute; reflexivity).
  assert (visible_child (state_after example_world example_setup) = Some 1%nat) as Hv
    by (vm_compute; reflexivity).
  assert (orientation (state_after example_world example_setup) = GTK_ORIENTATION_HORIZONTAL)
    as Ho by (vm_compute; reflexivity).
  assert (snd (hdy_leaflet_measure constant_size (fun o w _ => constant_size o w)
                 (state_after example_world example_setup)
                 (orientation (state_after example_world example_setup)) (-1)) = 200) as Hm
    by (vm_compute; reflexivity).
  assert (200 <= alloc_size (orientation (state_after example_world example_setup))
                   (mkAlloc 0 0 200 50)) as Hle by (vm_compute; discriminate).
  assert (In 1%nat (children (state_after example_world example_setup))) as Hin
    by (rewrite Hch; by left).
  split; [vm_compute; reflexivity|].
  destruct (size_allocate_returns (mkAlloc 0 0 200 50) (state_after example_world example_setup)
              1%nat 1%nat Hrev Hv Hin Hw1 Hv1) as [s' E].
  exists s'. split; [exact E|].
  refine (proj2 (measured_natural_size_unfolds constant_size (fun o w _ => constant_size o w)
                   (state_after example_world example_setup) (-1) Hrev _)
            (mkAlloc 0 0 200 50) s' _ E).
  - intros p w Hp Hw. split; [| apply constant_size_natural].
    rewrite Hch in Hp. destruct Hp as [<- | [<- | []]].
    + rewrite Hw1 in Hw. injection Hw as <-. exact Hv1.
    + rewrite Hw2 in Hw. injection Hw as <-. exact Hv2.
  - rewrite Hm. exact Hle.
Defined.

Lemma max_list_ge x l : In x l -> x <= max_list l.
Proof.
  induction l as [|y l IH]; [done|]. rewrite max_list_cons. intros [-> | H]; [lia|].
  specialize (IH H). lia.
Qed.

(** The visible children are among the children with a widget. *)
Lemma visible_natural_sizes_fewer s o l :
  max_list (omap (visible_natural_size s o) l) <= max_list (omap (natural_size s o) l)
  /\ (length (omap (visible_natural_size s o) l) <= length (omap (natural_size s o) l))%nat
  /\ forall h w, In h l -> ci_widget (deref s h) = Some w ->
       gtk_widget_get_visible s (Some w) = false ->
       (length (omap (visible_natural_size s o) l) < length (omap (natural_size s o) l))%nat.
Proof.
  induction l as [|p l (IHm & IHl & IHh)]; [by split_and!; [..| intros ? ? []]|].
  rewrite !omap_cons_case.
  destruct (ci_widget (deref s p)) as [w|] eqn:Hw.
  - assert (natural_size s o p = Some (req_size o (w_nat (widgets s !!! w)))) as ->
      by (unfold natural_size; by rewrite Hw).
    destruct (gtk_widget_get_visible s (Some w)) eqn:Hv.
    + assert (visible_natural_size s o p = Some (req_size o (w_nat (widgets s !!! w))))
        as -> by (unfold visible_natural_size; rewrite Hw; cbn [mbind option_bind];
                  by rewrite Hv).
      rewrite !max_list_cons. cbn [length]. split_and!; [lia | lia |].
      intros h w' [-> | Hh] Hw' Hv'; [congruence|].
      specialize (IHh h w' Hh Hw' Hv'). lia.
    + assert (visible_natural_size s o p = None)
        as -> by (unfold visible_natural_size; rewrite Hw; cbn [mbind option_bind];
                  by rewrite Hv).
      rewrite max_list_cons. cbn [length]. split_and!; [lia | lia |]. intros; lia.
  - assert (natural_size s o p = None) as -> by (unfold natural_size; by rewrite Hw).
    assert (visible_natural_size s o p = None) as ->
      by (unfold visible_natural_size; by rewrite Hw).
    split_and!; [done | done |]. intros h w' [-> | Hh] Hw' Hv'; [congruence|].
    by apply (IHh h w').
Qed.

(** X15.  The fold decision counts the children whose widget is hidden, the
    measure does not: a leaflet that is homogeneous along its orientation
    when unfolded, and holds a hidden widget beside a visible one of
    positive natural size, is folded by an allocation of exactly the natural
    size it reports. *)
Theorem hidden_child_folds_at_natural_size static sized s for_size a s' h wh v wv :
  children_reversed s = rev (children s) ->
  homogeneous s HDY_FOLD_UNFOLDED (orientation s) = true ->
  (forall p w, In p (children s) -> ci_widget (deref s p) = Some w ->
     gtk_widget_get_visible s (Some w) = true ->
     snd (child_preferred static sized s (orientation s) for_size w)
     = req_size (orientation s) (w_nat (widgets s !!! w))) ->
  In h (children s) -> ci_widget (deref s h) = Some wh ->
  gtk_widget_get_visible s (Some wh) = false ->
  In v (children s) -> ci_widget (deref s v) = Some wv ->
  gtk_widget_get_visible s (Some wv) = true ->
  0 < req_size (orientation s) (w_nat (widgets s !!! wv)) ->
  alloc_size (orientation s) a
  = snd (hdy_leaflet_measure static sized s (orientation s) for_size) ->
  hdy_leaflet_size_allocate a s = Some s' ->
  folded s' = true.
Proof.
  intros Hrev Hh Hnat Hin Hw Hhid Hvin Hvw Hvis Hpos Ha Hs'.
  rewrite (size_allocate_folded a s s' Hrev Hs'). unfold should_fold.
  rewrite Ha, (natural_size_of_measure static sized s for_size Hnat), Hh.
  unfold accumulated_natural_size, visible_natural_sizes, natural_sizes.
  destruct (visible_natural_sizes_fewer s (orientation s) (children s)) as (Hm & _ & Hl).
  specialize (Hl h wh Hin Hw Hhid).
  assert (0 < max_list (omap (visible_natural_size s (orientation s)) (children s))) as H0.
  { eapply Z.lt_le_trans; [exact Hpos|]. apply max_list_ge.
    apply list_elem_of_In, list_elem_of_omap. exists v.
    split; [by apply list_elem_of_In|]. unfold visible_natural_size.
    rewrite Hvw. cbn [mbind option_bind]. by rewrite Hvis. }
  apply Z.ltb_lt. nia.
Qed.

Lemma hidden_child_folds_at_natural_size_witness :
  snd (hdy_leaflet_get_preferred_width constant_size (fun o w _ => constant_size o w)
         example_hidden_homogeneous) = 100
  /\ exists s',
       hdy_leaflet_size_allocate (mkAlloc 0 0 100 50) example_hidden_homogeneous = Some s'
       /\ folded s' = true.
Proof.
  assert (children_reversed example_hidden_homogeneous
          = rev (children example_hidden_homogeneous)) as Hrev by (vm_compute; reflexivity).
  assert (homogeneous example_hidden_homogeneous HDY_FOLD_UNFOLDED
            (orientation example_hidden_homogeneous) = true) as Hh
    by (vm_compute; reflexivity).
  assert (In 2%nat (children example_hidden_homogeneous)) as Hin2 by (vm_compute; auto).
  assert (In 1%nat (children example_hidden_homogeneous)) as Hin1 by (vm_compute; auto).
  assert (ci_widget (deref example_hidden_homogeneous 1%nat) = Some 1%nat) as Hw1
    by (vm_compute; reflexivity).
  assert (ci_widget (deref example_hidden_homogeneous 2%nat) = Some 2%nat) as Hw2
    by (vm_compute; reflexivity).
  assert (gtk_widget_get_visible example_hidden_homogeneous (Some 1%nat) = true) as Hv1
    by (vm_compute; reflexivity).
  assert (gtk_widget_get_visible example_hidden_homogeneous (Some 2%nat) = false) as Hv2
    by (vm_compute; reflexivity).
  assert (visible_child example_hidden_homogeneous = Some 1%nat) as Hv
    by (vm_compute; reflexivity).
  assert (0 < req_size (orientation example_hidden_homogeneous)
                (w_nat (widgets example_hidden_homogeneous !!! 1%nat))) as Hpos
    by (vm_compute; reflexivity).
  assert (alloc_size (orientation example_hidden_homogeneous) (mkAlloc 0 0 100 50)
          = snd (hdy_leaflet_measure constant_size (fun o w _ => constant_size o w)
                   example_hidden_homogeneous (orientation example_hidden_homogeneous) (-1)))
    as Ha by (vm_compute; reflexivity).
  split; [vm_compute; reflexivity|].
  destruct (size_allocate_returns (mkAlloc 0 0 100 50) example_hidden_homogeneous
              1%nat 1%nat Hrev Hv Hin1 Hw1 Hv1) as [s' E].
  exists s'. split; [exact E|].
  exact (hidden_child_folds_at_natural_size constant_size (fun o w _ => constant_size o w)
           example_hidden_homogeneous (-1) (mkAlloc 0 0 100 50) s' 2%nat 2%nat 1%nat 1%nat
           Hrev Hh (fun p w _ _ _ => constant_size_natural _ _ _ w)
           Hin2 Hw2 Hv2 Hin1 Hw1 Hv1 Hpos Ha E).
Defined.

Lemma hdy_lerp_at_end a b : gint_of_gdouble (hdy_lerp (inject_Z a) (inject_Z b) 1) = a.
Proof.
  unfold gint_of_gdouble, hdy_lerp. simpl. rewrite Z.quot_1_r. lia.
Qed.

(** What the loop of [hdy_leaflet_measure] holds at its end, where every
    visible widget reports a minimum between 0 and its natural size. *)
Lemma measure_children_bounds static sized s o for_size l :
  (forall p w, In p l -> ci_widget (deref s p) = Some w ->
     gtk_widget_get_visible s (Some w) = true ->
     0 <= fst (child_preferred static sized s o for_size w)
       <= snd (child_preferred static sized s o for_size w)) ->
  let '(visible_children, max_min, max_nat, sum_nat) :=
    measure_children static sized s o for_size l in
  0 <= max_min <= max_nat /\ max_nat <= sum_nat /\ max_nat <= max_nat * visible_children
  /\ 0 <= visible_children /\ (visible_children = 0 -> max_nat = 0)
  /\ forall v w, In v l -> ci_widget (deref s v) = Some w ->
       gtk_widget_get_visible s (Some w) = true ->
       fst (child_preferred static sized s o for_size w) <= max_min.
Proof.
  unfold measure_children. induction l as [|p l IH] using rev_ind; intros Hb.
  { simpl. split_and!; lia. }
  rewrite foldl_snoc.
  lapply IH; [clear IH; intros IH | intros q w Hq; apply Hb, in_app_iff; by left].
  destruct (foldl _ (0, 0, 0, 0) l) as [[[n mm] mx] sm].
  destruct IH as (H1 & H2 & H3 & H4 & H5 & H6).
  assert (forall v w, In v (l ++ [p]) -> ci_widget (deref s v) = Some w ->
            gtk_widget_get_visible s (Some w) = true ->
            In v l \/ v = p) as Hsplit.
  { intros v w Hv _ _. apply in_app_iff in Hv as [Hv | [<- | []]]; auto. }
  destruct (ci_widget (deref s p)) as [w|] eqn:Hw.
  - destruct (gtk_widget_get_visible s (Some w)) eqn:Hv; cbn [negb]; cbv iota.
    + assert (In p (l ++ [p])) as Hpin by (apply in_app_iff; right; by left).
      pose proof (Hb p w Hpin Hw Hv) as Hp.
      destruct (child_preferred static sized s o for_size w) as [child_min child_nat] eqn:Ec.
      cbn [fst snd] in Hp. rewrite !MAX_max. split_and!; try lia; [nia|].
      intros v w' Hin Hw' Hv'. destruct (Hsplit v w' Hin Hw' Hv') as [Hl | ->].
      * specialize (H6 v w' Hl Hw' Hv'). lia.
      * rewrite Hw in Hw'. injection Hw' as <-. rewrite Ec. cbn [fst]. lia.
    + split_and!; try lia. intros v w' Hin Hw' Hv'.
      destruct (Hsplit v w' Hin Hw' Hv') as [Hl | ->]; [by apply (H6 v w')|]. congruence.
  - split_and!; try lia. intros v w' Hin Hw' Hv'.
    destruct (Hsplit v w' Hin Hw' Hv') as [Hl | ->]; [by apply (H6 v w')|]. congruence.
Qed.

(** X16.  The minimum [hdy_leaflet_measure] reports, where every visible
    widget reports a minimum between 0 and its natural size and the visible
    child, if any, is a child with a visible widget.  A leaflet that is not
    homogeneous along the orientation when folded, and does not interpolate
    its size, reports the minimum of the widget of its visible child (0
    without one).  The minimum of a leaflet that is homogeneous when folded
    or does not interpolate its size lies between 0 and its natural size. *)
Theorem measure_minimum_le_natural static sized s o for_size :
  (forall p w, In p (children s) -> ci_widget (deref s p) = Some w ->
     gtk_widget_get_visible s (Some w) = true ->
     0 <= fst (child_preferred static sized s o for_size w)
       <= snd (child_preferred static sized s o for_size w)) ->
  (forall v, visible_child s = Some v ->
     In v (children s) /\ gtk_widget_get_visible s (ci_widget (deref s v)) = true) ->
  homogeneous s HDY_FOLD_FOLDED o = true \/ ct_interpolate_size (child_transition s) = false ->
  (homogeneous s HDY_FOLD_FOLDED o = false ->
   fst (hdy_leaflet_measure static sized s o for_size)
   = child_minimum static sized s o for_size (visible_child s))
  /\ 0 <= fst (hdy_leaflet_measure static sized s o for_size)
       <= snd (hdy_leaflet_measure static sized s o for_size).
Proof.
  intros Hb Hvis Hor. unfold hdy_leaflet_measure.
  pose proof (measure_children_bounds static sized s o for_size (children s) Hb) as HB.
  destruct (measure_children static sized s o for_size (children s)) as [[[n mm] mx] sm].
  destruct HB as (H1 & H2 & H3 & H4 & H5 & H6). cbv zeta.
  assert (0 <= child_minimum static sized s o for_size (visible_child s) <= mm) as Hvm.
  { unfold child_minimum. destruct (visible_child s) as [v|]; [| lia].
    destruct (Hvis v eq_refl) as [Hin Hv].
    destruct (ci_widget (deref s v)) as [w|] eqn:Hw; [| lia].
    specialize (H6 v w Hin Hw Hv). specialize (Hb v w Hin Hw Hv). lia. }
  set (vm := child_minimum static sized s o for_size (visible_child s)) in *. clearbody vm.
  set (lm := child_minimum static sized s o for_size (last_visible_child s)). clearbody lm.
  unfold get_preferred_size.
  destruct (homogeneous s HDY_FOLD_FOLDED o) eqn:Hf.
  - split; [done|].
    destruct (bool_decide (orientation s = o)), (homogeneous s HDY_FOLD_UNFOLDED o);
      cbn [fst snd]; lia.
  - destruct Hor as [? | Hi]; [done|]. rewrite Hi, hdy_lerp_at_end.
    split; [by destruct (bool_decide (orientation s = o))|].
    destruct (bool_decide (orientation s = o)), (homogeneous s HDY_FOLD_UNFOLDED o);
      cbn [fst snd]; lia.
Qed.

Lemma measure_minimum_le_natural_witness :
  let m := hdy_leaflet_get_preferred_width constant_size (fun o w _ => constant_size o w)
             (hdy_leaflet_set_homogeneous HDY_FOLD_FOLDED GTK_ORIENTATION_HORIZONTAL false
                example_folded) in
  fst m = 10 /\ 0 <= fst m <= snd m.
Proof.
  cbv zeta.
  set (s := hdy_leaflet_set_homogeneous HDY_FOLD_FOLDED GTK_ORIENTATION_HORIZONTAL false
              example_folded).
  assert (children s = [1; 2]%nat) as Hch by (vm_compute; reflexivity).
  assert (ci_widget (deref s 1%nat) = Some 1%nat) as Hw1 by (vm_compute; reflexivity).
  assert (ci_widget (deref s 2%nat) = Some 2%nat) as Hw2 by (vm_compute; reflexivity).
  assert (gtk_widget_get_visible s (ci_widget (deref s 1%nat)) = true) as Hv1
    by (vm_compute; reflexivity).
  assert (visible_child s = Some 1%nat) as Hv by (vm_compute; reflexivity).
  assert (ct_interpolate_size (child_transition s) = false) as Hi by (vm_compute; reflexivity).
  assert (homogeneous s HDY_FOLD_FOLDED GTK_ORIENTATION_HORIZONTAL = false) as Hh
    by (vm_compute; reflexivity).
  assert (child_minimum constant_size (fun o w _ => constant_size o w) s
            GTK_ORIENTATION_HORIZONTAL (-1) (visible_child s) = 10) as Hm
    by (vm_compute; reflexivity).
  assert (forall w : nat, w = 1%nat \/ w = 2%nat ->
            0 <= req_size GTK_ORIENTATION_HORIZONTAL (w_min (widgets s !!! w))
              <= req_size GTK_ORIENTATION_HORIZONTAL (w_nat (widgets s !!! w))) as Hsz.
  { intros w [-> | ->]; vm_compute; split; discriminate. }
  destruct (measure_minimum_le_natural constant_size (fun o w _ => constant_size o w) s
              GTK_ORIENTATION_HORIZONTAL (-1)) as [Hmin Hle].
  - intros p w Hp Hw _. rewrite constant_size_minimum, constant_size_natural.
    apply Hsz. rewrite Hch in Hp. destruct Hp as [<- | [<- | []]].
    + rewrite Hw1 in Hw. injection Hw as <-. by left.
    + rewrite Hw2 in Hw. injection Hw as <-. by right.
  - intros v Hv'. rewrite Hv in Hv'. injection Hv' as <-.
    split; [rewrite Hch; by left | exact Hv1].
  - right. exact Hi.
  - split; [| exact Hle]. unfold hdy_leaflet_get_preferred_width.
    rewrite (Hmin Hh). exact Hm.
Defined.

(** ** The unfolded layout *)

Lemma size_allocate_unfolded_unfold allocation s :
  hdy_leaflet_size_allocate_unfolded allocation s
  = let o := orientation s in
    let directed_children := get_directed_children s in
    let box_homogeneous := homogeneous s HDY_FOLD_UNFOLDED o in
    let '(n_visible_children, n_expand_children, s) :=
      count_visible_children o directed_children s in
    '(homogeneous_size, per_child_extra, n_extra_widgets) ←
      extra_space s o box_homogeneous directed_children n_visible_children n_expand_children
        allocation;
    let '(_, _, s) :=
      foldl (allocate_child o box_homogeneous homogeneous_size per_child_extra allocation)
            (0, n_extra_widgets, s) directed_children in
    visible_child ← visible_child s;
    Some (apply_animations allocation o directed_children visible_child s).
Proof. reflexivity. Qed.

Lemma foldl_split_invariant {A} (P : list info_ptr -> A -> Leaflet -> Prop)
    (f : A * Leaflet -> info_ptr -> A * Leaflet) l a s :
  P [] a s ->
  (forall pre p post a s, l = pre ++ p :: post ->
     P pre a s -> P (pre ++ [p]) (fst (f (a, s) p)) (snd (f (a, s) p))) ->
  P l (fst (foldl f (a, s) l)) (snd (foldl f (a, s) l)).
Proof.
  intros H0 Hstep.
  enough (forall rest pre acc, l = pre ++ rest -> P pre (fst acc) (snd acc) ->
            P l (fst (foldl f acc rest)) (snd (foldl f acc rest))) as H
    by (by apply (H l [] (a, s))).
  induction rest as [|p rest IH]; intros pre acc El HP.
  - rewrite app_nil_r in El. by subst.
  - cbn [foldl]. apply (IH (pre ++ [p])); [by rewrite <- app_assoc|].
    destruct acc as [a1 s1]. by apply (Hstep pre p rest).
Qed.

Lemma not_in_snoc (q : info_ptr) l p : ~ In q (l ++ [p]) -> ~ In q l /\ p <> q.
Proof.
  intros H. split.
  - intros Hq. apply H, in_app_iff. by left.
  - intros ->. apply H, in_app_iff. right. by left.
Qed.

Lemma child_shown_stores s s' p :
  widgets s' = widgets s -> ci_widget (deref s' p) = ci_widget (deref s p) ->
  child_shown s' p = child_shown s p.
Proof. unfold child_shown, gtk_widget_get_visible. by intros -> ->. Qed.

(** The first loop of the unfolded allocation: the visible flag of every
    child it visits says whether the child is shown, the natural size of
    the others is zeroed, and the count is that of the shown children. *)
Lemma count_visible_children_spec o l s :
  let r := count_visible_children o l s in
  but_infos (snd r) = but_infos s
  /\ fst (fst r) = Z.of_nat (length (List.filter (child_shown s) l))
  /\ (forall q, ci_widget (deref (snd r) q) = ci_widget (deref s q)
                /\ ci_alloc (deref (snd r) q) = ci_alloc (deref s q))
  /\ (forall q, In q l ->
        ci_visible (deref (snd r) q) = child_shown s q
        /\ (child_shown s q = true -> ci_nat (deref (snd r) q) = ci_nat (deref s q)))
  /\ (forall q, ~ In q l -> deref (snd r) q = deref s q).
Proof.
  unfold count_visible_children. induction l as [|p l IH] using rev_ind.
  { simpl. by split_and!. }
  cbv zeta in *. rewrite foldl_snoc.
  destruct (foldl _ (0, 0, s) l) as [[n e] s1]. cbn [fst snd] in IH.
  destruct IH as (Hbi & Hn & Hf & Hin & Hout).
  assert (widgets s1 = widgets s) as Hw
    by (apply (f_equal widgets) in Hbi; exact Hbi).
  assert (is_nonnull (ci_widget (deref s1 p))
          && gtk_widget_get_visible s1 (ci_widget (deref s1 p)) = child_shown s p) as ->.
  { apply (child_shown_stores s s1 p Hw). apply Hf. }
  rewrite List.filter_app, length_app, Nat2Z.inj_add. cbn [List.filter].
  assert (forall q, In q (l ++ [p]) -> q <> p -> In q l) as Hsplit.
  { intros q Hq Hne. apply in_app_iff in Hq as [Hq | [<- | []]]; done. }
  destruct (child_shown s p) eqn:Hp; cbn [fst snd length].
  - split_and!.
    + done.
    + lia.
    + intros q. rewrite deref_update_info. destruct (decide (p = q)) as [<-|]; by apply Hf.
    + intros q Hq. rewrite deref_update_info. destruct (decide (p = q)) as [<- | Hne].
      * split; [done|]. intros _. cbn [ci_nat set_ci_visible].
        destruct (in_dec Nat.eq_dec p l) as [Hpl | Hpl].
        -- by apply (Hin p Hpl).
        -- by rewrite (Hout p Hpl).
      * apply Hin, Hsplit; done.
    + intros q [Hq Hne]%not_in_snoc. rewrite deref_update_info, decide_False by done.
      by apply Hout.
  - split_and!.
    + done.
    + lia.
    + intros q. rewrite !deref_update_info.
      destruct (decide (p = q)) as [<-|]; [| by apply Hf].
      rewrite decide_True by done. by apply Hf.
    + intros q Hq. rewrite !deref_update_info. destruct (decide (p = q)) as [<- | Hne].
      * rewrite decide_True by done. split; [done|]. rewrite Hp. done.
      * apply Hin, Hsplit; done.
    + intros q [Hq Hne]%not_in_snoc. rewrite !deref_update_info, !decide_False by done.
      by apply Hout.
Qed.

Lemma alloc_size_along o pos size a : alloc_size o (along o pos size a) = size.
Proof. by destruct o. Qed.

Lemma records_extent_snoc s o l p :
  records_extent s o (l ++ [p])
  = records_extent s o l
    + (if ci_visible (deref s p) then alloc_size o (ci_alloc (deref s p)) else 0).
Proof.
  unfold records_extent. rewrite omap_app, sum_list_app. f_equal.
  rewrite omap_cons_case. destruct (ci_visible (deref s p)); unfold sum_list; simpl; lia.
Qed.

Lemma records_extent_ext s s' o l :
  (forall q, In q l -> deref s' q = deref s q) ->
  records_extent s' o l = records_extent s o l.
Proof.
  intros H. unfold records_extent. f_equal.
  induction l as [|p l IH]; [done|]. rewrite !omap_cons_case.
  rewrite (H p) by (by left). rewrite IH by (intros q Hq; apply H; by right). done.
Qed.

(** The loop "Compute children allocation": every child flagged visible is
    placed where the visible children before it end, across the whole
    allocation; in a homogeneous box it gets the homogeneous size, in
    another box its natural size unless it expands. *)
Lemma allocate_children_spec o bh hs per a l nx s :
  List.NoDup l -> (bh = true -> nx = 0) ->
  let r := foldl (allocate_child o bh hs per a) (0, nx, s) l in
  but_infos (snd r) = but_infos s
  /\ (forall q, ci_widget (deref (snd r) q) = ci_widget (deref s q)
                /\ ci_visible (deref (snd r) q) = ci_visible (deref s q))
  /\ (forall q, ~ In q l -> deref (snd r) q = deref s q)
  /\ forall pre p post, l = pre ++ p :: post -> ci_visible (deref s p) = true ->
       ci_alloc (deref (snd r) p)
       = along o (records_extent (snd r) o pre) (alloc_size o (ci_alloc (deref (snd r) p))) a
       /\ (bh = true -> alloc_size o (ci_alloc (deref (snd r) p)) = hs)
       /\ (bh = false -> gtk_widget_compute_expand s (ci_widget (deref s p)) o = false ->
           alloc_size o (ci_alloc (deref (snd r) p)) = req_size o (ci_nat (deref s p))).
Proof.
  intros Hnd Hnx. cbv zeta.
  pose proof (foldl_split_invariant
    (fun done (c : Z * Z) s' =>
       but_infos s' = but_infos s
       /\ (forall q, ci_widget (deref s' q) = ci_widget (deref s q)
                     /\ ci_visible (deref s' q) = ci_visible (deref s q))
       /\ (forall q, ~ In q done -> deref s' q = deref s q)
       /\ fst c = records_extent s' o done
       /\ (bh = true -> snd c = 0)
       /\ forall pre p post, done = pre ++ p :: post -> ci_visible (deref s p) = true ->
            ci_alloc (deref s' p)
            = along o (records_extent s' o pre) (alloc_size o (ci_alloc (deref s' p))) a
            /\ (bh = true -> alloc_size o (ci_alloc (deref s' p)) = hs)
            /\ (bh = false -> gtk_widget_compute_expand s (ci_widget (deref s p)) o = false ->
                alloc_size o (ci_alloc (deref s' p)) = req_size o (ci_nat (deref s p))))
    (allocate_child o bh hs per a) l (0, nx) s) as H.
  cbv beta in H.
  lapply H; [clear H; intros H | split_and!; try done; intros [|] ? ? ?; done].
  lapply H; [clear H; intros H |]; cycle 1.
  { clear H. intros done p rest [pos n1] s1 El (Hbi & Hf & Hout & Hpos & Hn1 & Hall).
    cbn [fst snd] in Hpos, Hn1.
    assert (~ In p done) as Hp.
    { rewrite El in Hnd. apply NoDup_remove_2 in Hnd. intros Hp. apply Hnd, in_app_iff.
      by left. }
    assert (widgets s1 = widgets s) as Hw by (apply (f_equal widgets) in Hbi; exact Hbi).
    unfold allocate_child.
    destruct (Hf p) as [Hfw Hfv]. rewrite Hfv.
    destruct (ci_visible (deref s p)) eqn:Hv; cbn [negb fst snd].
    2:{ split_and!; [done | done | | | done |].
        - intros q [Hq _]%not_in_snoc. by apply Hout.
        - rewrite records_extent_snoc, Hfv. lia.
        - intros pre p0 post E Hv0.
          destruct post as [|x post _] using rev_ind.
          + apply app_inj_tail in E as [_ ->]. congruence.
          + rewrite app_comm_cons, app_assoc in E. apply app_inj_tail in E as [-> _].
            by apply (Hall pre p0 post). }
    set (sz := if bh then
                 if n1 >? 0 then (hs + 1, n1 - 1) else (hs, n1)
               else if gtk_widget_compute_expand s1 (ci_widget (deref s1 p)) o then
                 if n1 >? 0
                 then (req_size o (ci_nat (deref s1 p)) + per + 1, n1 - 1)
                 else (req_size o (ci_nat (deref s1 p)) + per, n1)
               else (req_size o (ci_nat (deref s1 p)), n1)).
    assert ((bh = true -> sz = (hs, 0))
            /\ (bh = false -> gtk_widget_compute_expand s (ci_widget (deref s p)) o = false ->
                fst sz = req_size o (ci_nat (deref s p)))) as [Hsz1 Hsz2].
    { subst sz. split.
      - intros ->. rewrite (Hn1 eq_refl). done.
      - intros -> He. rewrite Hfw. unfold gtk_widget_compute_expand in *.
        rewrite Hw, He. cbn [fst]. by rewrite (Hout p Hp). }
    clearbody sz. destruct sz as [size n2]. cbn [fst snd] in *.
    set (s2 := update_info p (set_ci_alloc (along o pos size a)) s1).
    assert (forall q, q <> p -> deref s2 q = deref s1 q) as Hother.
    { intros q Hq. subst s2. rewrite deref_update_info, decide_False; done. }
    assert (ci_alloc (deref s2 p) = along o pos size a) as Hpa.
    { subst s2. rewrite deref_update_info, decide_True; done. }
    assert (forall k, ~ In p k -> records_extent s2 o k = records_extent s1 o k) as Hext.
    { intros k Hk. apply records_extent_ext. intros q Hq. apply Hother. by intros ->. }
    split_and!.
    - done.
    - intros q. subst s2. rewrite deref_update_info.
      destruct (decide (p = q)) as [<-|]; [| by apply Hf]. split; [apply Hf | simpl; congruence].
    - intros q [Hq Hne]%not_in_snoc. rewrite Hother by done. by apply Hout.
    - rewrite records_extent_snoc, (Hext done Hp), <- Hpos, Hpa, alloc_size_along.
      subst s2. rewrite deref_update_info, decide_True by done.
      cbn [ci_visible set_ci_alloc]. by rewrite Hfv.
    - intros Hb. specialize (Hsz1 Hb). by injection Hsz1.
    - intros pre p0 post E Hv0.
      destruct post as [|x post _] using rev_ind.
      + apply app_inj_tail in E as [<- <-].
        rewrite Hpa, alloc_size_along, (Hext done Hp), <- Hpos. split_and!; [done | |].
        * intros Hb. specialize (Hsz1 Hb). by injection Hsz1.
        * done.
      + rewrite app_comm_cons, app_assoc in E. apply app_inj_tail in E as [-> <-].
        assert (p0 <> p) as Hne.
        { intros ->. apply Hp, in_app_iff. right. by left. }
        rewrite (Hother p0 Hne).
        rewrite Hext by (intros Hx; apply Hp, in_app_iff; by left).
        by apply (Hall pre p0 post). }
  destruct (foldl _ (0, nx, s) l) as [[pos n1] sB]. cbn [fst snd] in *.
  destruct H as (Hbi & Hf & Hout & _ & _ & Hall). by split_and!.
Qed.

Lemma gdouble_round_zero q : (q == 0)%Q -> gdouble_round q = 0%Q.
Proof.
  intros H. unfold gdouble_round.
  by rewrite (proj2 (Qeq_bool_iff q 0) H).
Qed.

Lemma gdouble_sub_same a b : (a == b)%Q -> gdouble_sub a b = 0%Q.
Proof. intros H. apply gdouble_round_zero. rewrite H. ring. Qed.

Lemma gdouble_mul_zero_r a : gdouble_mul a 0 = 0%Q.
Proof. apply gdouble_round_zero. ring. Qed.

Lemma Qeq_refl_0 q : q = 0%Q -> (q == 0)%Q.
Proof. by intros ->. Qed.

Lemma gint_of_gdouble_zero q : (q == 0)%Q -> gint_of_gdouble q = 0.
Proof.
  unfold Qeq, gint_of_gdouble. simpl. intros H.
  replace (Qnum q) with 0 by lia. apply Z.quot_0_l. done.
Qed.

Lemma deref_for_each l body s :
  (forall p s q, deref (body p s) q = deref s q) ->
  forall q, deref (for_each l body s) q = deref s q.
Proof.
  intros Hbody q. unfold for_each. revert s.
  induction l as [|p l IH]; intros s; simpl; [done|]. by rewrite IH.
Qed.

Lemma set_alloc_pos_same o a : set_alloc_pos o (alloc_pos o a) a = a.
Proof. by destruct o, a. Qed.

Lemma set_alloc_size_same o a : set_alloc_size o (alloc_size o a) a = a.
Proof. by destruct o, a. Qed.

Lemma deref_update_info_id p f s q :
  f (deref s p) = deref s p -> deref (update_info p f s) q = deref s q.
Proof.
  intros Hf. rewrite deref_update_info. destruct (decide (p = q)) as [<-|]; done.
Qed.

(** With the mode transition at position 1 the pads are 0, and "Apply
    animations" leaves every child record as it is. *)
Lemma apply_animations_at_rest a o l v s :
  (mt_current_pos (mode_transition s) == 1)%Q ->
  forall q, deref (apply_animations a o l v s) q = deref s q.
Proof.
  intros Hpos q. unfold apply_animations. cbv zeta.
  assert (forall d, gint_of_gdouble
                      (gdouble_mul (inject_Z d) (gdouble_sub 1 (mt_current_pos (mode_transition s))))
                    = 0) as Hpad.
  { intros d. apply gint_of_gdouble_zero.
    rewrite gdouble_sub_same by (by symmetry). apply Qeq_refl_0, gdouble_mul_zero_r. }
  rewrite !Hpad.
  assert (forall ci : HdyLeafletChildInfo, set_ci_alloc (ci_alloc ci) ci = ci) as Hci
    by (by intros []).
  rewrite deref_update_info_id.
  2:{ simpl. rewrite Z.sub_0_r, Z.add_0_r, set_alloc_pos_same, set_alloc_size_same.
      apply Hci. }
  change (deref (upd_mt ?f ?x) q) with (deref x q).
  rewrite deref_for_each.
  2:{ intros p s0 q0. destruct (negb _); [done|]. destruct (is_under_end _ _); [done|].
      apply deref_update_info_id.
      rewrite Z.add_0_r, set_alloc_pos_same. apply Hci. }
  change (deref (upd_mt ?f ?x) q) with (deref x q).
  rewrite deref_for_each.
  2:{ intros p s0 q0. destruct (negb _); [done|]. destruct (is_under_start _ _); [done|].
      apply deref_update_info_id.
      rewrite Z.sub_0_r, set_alloc_pos_same. apply Hci. }
  reflexivity.
Qed.

Lemma filter_length_In {A} (f : A -> bool) l x :
  In x l -> f x = true -> (0 < length (List.filter f l))%nat.
Proof.
  intros Hx Hf. assert (In x (List.filter f l)) as H by (by apply filter_In).
  destruct (List.filter f l); [destruct H | simpl; lia].
Qed.

(** [hdy_leaflet_size_allocate_unfolded] with the mode transition at
    position 1: the shown children are placed side by side in the directed
    order. *)
Lemma size_allocate_unfolded_at_rest a s v w :
  List.NoDup (get_directed_children s) ->
  visible_child s = Some v -> In v (get_directed_children s) ->
  ci_widget (deref s v) = Some w -> gtk_widget_get_visible s (Some w) = true ->
  (mt_current_pos (mode_transition s) == 1)%Q ->
  exists s',
    hdy_leaflet_size_allocate_unfolded a s = Some s'
    /\ (forall q, ci_widget (deref s' q) = ci_widget (deref s q))
    /\ (forall p, In p (get_directed_children s) -> ci_visible (deref s' p) = child_shown s p)
    /\ forall pre p post,
         get_directed_children s = pre ++ p :: post -> child_shown s p = true ->
         ci_alloc (deref s' p)
         = along (orientation s) (records_extent s' (orientation s) pre)
             (alloc_size (orientation s) (ci_alloc (deref s' p))) a
         /\ (homogeneous s HDY_FOLD_UNFOLDED (orientation s) = true ->
             alloc_size (orientation s) (ci_alloc (deref s' p))
             = Z.quot (alloc_size (orientation s) a)
                 (Z.of_nat (length (List.filter (child_shown s) (get_directed_children s)))))
         /\ (homogeneous s HDY_FOLD_UNFOLDED (orientation s) = false ->
             gtk_widget_compute_expand s (ci_widget (deref s p)) (orientation s) = false ->
             alloc_size (orientation s) (ci_alloc (deref s' p))
             = req_size (orientation s) (ci_nat (deref s p))).
Proof.
  intros Hnd Hv Hvin Hw Hvis Hpos. rewrite size_allocate_unfolded_unfold. cbv zeta.
  set (o := orientation s). set (d := get_directed_children s) in *.
  set (bh := homogeneous s HDY_FOLD_UNFOLDED o).
  pose proof (count_visible_children_spec o d s) as HA. cbv zeta in HA.
  destruct (count_visible_children o d s) as [[n e] sA]. cbn [fst snd] in HA.
  destruct HA as (HbiA & Hn & HfA & HinA & _).
  assert (child_shown s v = true) as Hshown.
  { unfold child_shown. by rewrite Hw, Hvis. }
  assert (0 < n) as Hn0.
  { rewrite Hn. pose proof (filter_length_In (child_shown s) d v Hvin Hshown). lia. }
  assert (exists hs per nx,
            extra_space sA o bh d n e a = Some (hs, per, nx)
            /\ (bh = true -> hs = Z.quot (alloc_size o a) n /\ nx = 0)) as Hex.
  { destruct (extra_space sA o bh d n e a) as [[[hs per] nx]|] eqn:E.
    - exists hs, per, nx. split; [done|]. intros Hb. rewrite Hb in E.
      by apply (extra_space_homogeneous sA o d n e a hs per nx).
    - exfalso. revert E. unfold extra_space. destruct bh.
      + assert ((n =? 0) = false) as -> by (apply Z.eqb_neq; lia).
        simpl. by destruct (_ >? 0).
      + simpl. by destruct (_ >? 0). }
  destruct Hex as (hs & per & nx & -> & Hhom). cbn [mbind option_bind].
  pose proof (allocate_children_spec o bh hs per a d nx sA Hnd
                (fun Hb => proj2 (Hhom Hb))) as HB. cbv zeta in HB.
  destruct (foldl _ (0, nx, sA) d) as [[pos n'] sB]. cbn [fst snd] in HB.
  destruct HB as (HbiB & HfB & _ & HallB).
  assert (but_infos sB = but_infos s) as Hbi by congruence.
  assert (visible_child sB = Some v) as ->.
  { rewrite <- Hv. apply (f_equal visible_child) in Hbi. exact Hbi. }
  cbn [mbind option_bind]. eexists. split; [reflexivity|].
  assert ((mt_current_pos (mode_transition sB) == 1)%Q) as HposB.
  { apply (f_equal mode_transition) in Hbi. simpl in Hbi. by rewrite Hbi. }
  pose proof (apply_animations_at_rest a o d v sB HposB) as Hfin.
  set (s' := apply_animations a o d v sB) in *. clearbody s'.
  assert (widgets sA = widgets s) as HwA
    by (apply (f_equal widgets) in HbiA; exact HbiA).
  split_and!.
  - intros q. rewrite Hfin. destruct (HfB q) as [-> _]. apply HfA.
  - intros p Hp. rewrite Hfin. destruct (HfB p) as [_ ->]. by apply HinA.
  - intros pre p post E Hp.
    assert (In p d) as Hpd by (rewrite E; apply in_app_iff; right; by left).
    destruct (HinA p Hpd) as [HvA HnA]. rewrite Hp in HvA. specialize (HnA Hp).
    destruct (HallB pre p post E HvA) as (H1 & H2 & H3).
    rewrite Hfin, (records_extent_ext sB s' o pre) by (intros; apply Hfin).
    split_and!.
    + exact H1.
    + intros Hb. rewrite (H2 Hb). destruct (Hhom Hb) as [-> _]. by rewrite Hn.
    + intros Hb He. rewrite <- HnA. apply (H3 Hb).
      destruct (HfA p) as [-> _]. unfold gtk_widget_compute_expand in *. by rewrite HwA.
Qed.

Lemma filter_length_rev {A} (f : A -> bool) l :
  length (List.filter f (rev l)) = length (List.filter f l).
Proof.
  induction l as [|x l IH]; [done|]. cbn [rev]. rewrite List.filter_app, length_app, IH.
  simpl. destruct (f x); simpl; lia.
Qed.

Lemma NoDup_directed_children s :
  children_reversed s = rev (children s) -> List.NoDup (children s) ->
  List.NoDup (get_directed_children s).
Proof.
  intros Hrev Hnd. unfold get_directed_children. destruct (_ && _); [| done].
  rewrite Hrev. by apply List.NoDup_rev.
Qed.

Lemma shown_directed_children s :
  children_reversed s = rev (children s) ->
  length (List.filter (child_shown s) (get_directed_children s))
  = length (List.filter (child_shown s) (children s)).
Proof.
  intros Hrev. unfold get_directed_children. destruct (_ && _); [| done].
  rewrite Hrev. apply filter_length_rev.
Qed.

(** X17.  An unfolded leaflet that the allocation keeps unfolded, with the
    mode transition at position 1 and a visible child that is one of its
    children and holds a visible widget, lays its children out side by side:
    [hdy_leaflet_size_allocate] returns, the widget of a child is
    child-visible exactly when it is visible, and the widget of every shown
    child starts where the shown children before it in the directed order
    end and spans the whole allocation across.  In a homogeneous box every
    shown child gets the quotient of the allocated size by their number; in
    another box a child that does not expand gets its natural size.  The
    children are distinct and no two of them share a widget. *)
Theorem unfolded_allocation_side_by_side a s v w :
  children_reversed s = rev (children s) ->
  List.NoDup (children s) ->
  widgets_distinct s ->
  folded s = false ->
  should_fold s a = false ->
  visible_child s = Some v ->
  In v (children s) ->
  ci_widget (deref s v) = Some w ->
  gtk_widget_get_visible s (Some w) = true ->
  (mt_current_pos (mode_transition s) == 1)%Q ->
  exists s',
    hdy_leaflet_size_allocate a s = Some s'
    /\ folded s' = false
    /\ (forall p c, In p (children s) -> ci_widget (deref s p) = Some c ->
          gtk_widget_get_child_visible s' (Some c) = gtk_widget_get_visible s (Some c))
    /\ forall pre p post c,
         get_directed_children s = pre ++ p :: post ->
         ci_widget (deref s p) = Some c -> gtk_widget_get_visible s (Some c) = true ->
         w_allocation (widgets s' !!! c)
         = along (orientation s) (widgets_extent s s' (orientation s) pre)
             (alloc_size (orientation s) (w_allocation (widgets s' !!! c))) a
         /\ (homogeneous s HDY_FOLD_UNFOLDED (orientation s) = true ->
             alloc_size (orientation s) (w_allocation (widgets s' !!! c))
             = Z.quot (alloc_size (orientation s) a)
                 (Z.of_nat (length (List.filter (child_shown s) (children s)))))
         /\ (homogeneous s HDY_FOLD_UNFOLDED (orientation s) = false ->
             gtk_widget_compute_expand s (Some c) (orientation s) = false ->
             alloc_size (orientation s) (w_allocation (widgets s' !!! c))
             = req_size (orientation s) (w_nat (widgets s !!! c))).
Proof.
  intros Hrev Hnd Hdist Hfolded Hfold Hv Hvin Hw Hvis Hpos.
  rewrite size_allocate_unfold. cbv zeta.
  rewrite (fold_decision_spec a s Hrev), Hfold.
  destruct (size_allocate_entry_spec a s) as (Hi0 & Hw0 & Hc0).
  set (s0 := size_allocate_entry a s) in *. clearbody s0.
  destruct (prepare_loop_spec (get_directed_children s) s0) as (Hw1 & Hc1 & Hcw1 & Hin1 & _).
  cbv zeta in Hw1, Hc1, Hcw1, Hin1.
  set (s1 := for_each (get_directed_children s) prepare_child s0) in *. clearbody s1.
  assert (layout_config s1 = layout_config s) as Hc by congruence.
  unfold layout_config in Hc.
  injection Hc as Hch Hchr Hor Hdir Hhom Hvc Hlvc Hfo Htt Hre Hmt.
  assert (forall q, ci_widget (deref s1 q) = ci_widget (deref s q)) as Hcw.
  { intros q. rewrite Hcw1. unfold deref. by rewrite Hi0. }
  assert (widgets s1 = widgets s) as Hws by congruence.
  assert (hdy_leaflet_set_folded false s1 = s1) as ->.
  { unfold hdy_leaflet_set_folded. by rewrite Hfo, Hfolded. }
  assert (get_directed_children s1 = get_directed_children s) as Hdc.
  { unfold get_directed_children. by rewrite Hch, Hchr, Hor, Hdir. }
  assert (forall q, child_shown s1 q = child_shown s q) as Hsh.
  { intros q. by apply child_shown_stores. }
  destruct (size_allocate_unfolded_at_rest a s1 v w) as (s3 & Hs3 & Hcw3 & Hvis3 & Hall3).
  { rewrite Hdc. by apply NoDup_directed_children. }
  { congruence. }
  { rewrite Hdc. by apply in_directed_children. }
  { by rewrite Hcw. }
  { unfold gtk_widget_get_visible in *. by rewrite Hws. }
  { by rewrite Hmt. }
  rewrite Hdc, Hor, Hhom in Hall3. rewrite Hdc in Hvis3.
  rewrite Hs3. cbn [mbind option_bind]. eexists. split; [reflexivity|].
  set (s4 := for_each (get_directed_children s) apply_child s3).
  assert (but_widgets s4 = but_widgets s3) as Hbw4.
  { apply but_widgets_for_each. intros p s5. unfold apply_child. cbv zeta.
    unfold gtk_widget_size_allocate, gtk_widget_show, gtk_widget_set_child_visible.
    destruct (ci_widget (deref s5 p)); simpl; repeat case_match; done. }
  assert (forall p c, In p (children s) -> ci_widget (deref s p) = Some c ->
            w_child_visible (widgets s4 !!! c) = gtk_widget_get_visible s (Some c)
            /\ (gtk_widget_get_visible s (Some c) = true ->
                w_allocation (widgets s4 !!! c) = ci_alloc (deref s3 p))) as Hfinal.
  { intros p c Hp Hpc. apply apply_loop_spec.
    - exists p. split; [by apply in_directed_children|]. by rewrite Hcw3, Hcw.
    - intros q Hq Hqc.
      assert (q = p) as ->.
      { apply Hdist; [by apply (in_directed_children s q Hrev) | done |].
        rewrite <- Hcw, <- Hcw3, Hqc. by rewrite Hpc. }
      split; [| done]. rewrite (Hvis3 p Hq), Hsh. unfold child_shown. by rewrite Hpc. }
  assert (forall k, (forall q, In q k -> In q (children s)) ->
            records_extent s3 (orientation s) k = widgets_extent s s4 (orientation s) k)
    as Hext.
  { intros k Hk. unfold records_extent, widgets_extent. f_equal.
    induction k as [|q k IH]; [done|]. rewrite !omap_cons_case.
    rewrite IH by (intros q' Hq'; apply Hk; by right).
    assert (In q (children s)) as Hq by (apply Hk; by left).
    rewrite (Hvis3 q) by (by apply in_directed_children). rewrite Hsh. unfold child_shown.
    destruct (ci_widget (deref s q)) as [c|] eqn:Hqc; [| done].
    cbn [is_nonnull andb mbind option_bind].
    destruct (gtk_widget_get_visible s (Some c)) eqn:Hqv; [| done].
    destruct (Hfinal q c Hq Hqc) as [_ Ha]. by rewrite (Ha Hqv). }
  split_and!.
  - apply (f_equal folded) in Hbw4. change (folded s4 = folded s3) in Hbw4.
    rewrite Hbw4. rewrite (folded_skeleton s1 s3 (skeleton_size_allocate_unfolded a s1 s3 Hs3)).
    congruence.
  - intros p c Hp Hpc. unfold gtk_widget_get_child_visible. by apply (Hfinal p c).
  - intros pre p post c E Hpc Hpv.
    assert (In p (get_directed_children s)) as Hpd
      by (rewrite E; apply in_app_iff; right; by left).
    assert (In p (children s)) as Hp by (by apply (in_directed_children s p Hrev)).
    destruct (Hfinal p c Hp Hpc) as [_ Ha]. rewrite (Ha Hpv).
    assert (child_shown s1 p = true) as Hps.
    { rewrite Hsh. unfold child_shown. by rewrite Hpc. }
    destruct (Hall3 pre p post E Hps) as (H1 & H2 & H3).
    rewrite Hext in H1.
    2:{ intros q Hq. apply (in_directed_children s q Hrev). rewrite E. apply in_app_iff.
        by left. }
    split_and!.
    + exact H1.
    + intros Hb. rewrite (H2 Hb). do 2 f_equal.
      assert (List.filter (child_shown s1) (get_directed_children s)
              = List.filter (child_shown s) (get_directed_children s)) as ->
        by (apply List.filter_ext; exact Hsh).
      by apply shown_directed_children.
    + intros Hb He. rewrite H3; [| done |].
      * destruct (Hin1 p Hpd) as (_ & _ & Hn). rewrite (Hn c).
        -- by rewrite Hw0.
        -- rewrite <- Hpc. unfold deref. by rewrite Hi0.
      * rewrite Hcw, Hpc. unfold gtk_widget_compute_expand in *. by rewrite Hws.
Qed.

Lemma widgets_extent_one s s' o p c :
  ci_widget (deref s p) = Some c -> gtk_widget_get_visible s (Some c) = true ->
  widgets_extent s s' o [p] = alloc_size o (w_allocation (widgets s' !!! c)).
Proof.
  intros Hw Hv. unfold widgets_extent. rewrite omap_cons_case, Hw.
  cbn [mbind option_bind]. rewrite Hv. unfold sum_list. simpl. lia.
Qed.

Lemma unfolded_allocation_side_by_side_witness :
  exists s',
    hdy_leaflet_size_allocate (mkAlloc 0 0 300 50) (state_after example_world example_setup)
    = Some s'
    /\ folded s' = false
    /\ w_allocation (widgets s' !!! 1%nat) = mkAlloc 0 0 100 50
    /\ w_allocation (widgets s' !!! 2%nat) = mkAlloc 100 0 100 50.
Proof.
  assert (children_reversed (state_after example_world example_setup)
          = rev (children (state_after example_world example_setup))) as Hrev
    by (vm_compute; reflexivity).
  assert (List.NoDup (children (state_after example_world example_setup))) as Hnd.
  { assert (children (state_after example_world example_setup) = [1; 2]%nat) as ->
      by (vm_compute; reflexivity).
    repeat constructor; simpl; intuition lia. }
  assert (widgets_distinct (state_after example_world example_setup)) as Hdist.
  { intros p q Hp Hq. vm_compute in Hp, Hq.
    destruct Hp as [<- | [<- | []]], Hq as [<- | [<- | []]]; vm_compute; congruence. }
  assert (folded (state_after example_world example_setup) = false) as Hfolded
    by (vm_compute; reflexivity).
  assert (should_fold (state_after example_world example_setup) (mkAlloc 0 0 300 50) = false)
    as Hfold by (vm_compute; reflexivity).
  assert (visible_child (state_after example_world example_setup) = Some 1%nat) as Hv
    by (vm_compute; reflexivity).
  assert (In 1%nat (children (state_after example_world example_setup))) as H1
    by (vm_compute; by left).
  assert (ci_widget (deref (state_after example_world example_setup) 1%nat) = Some 1%nat)
    as Hw1 by (vm_compute; reflexivity).
  assert (ci_widget (deref (state_after example_world example_setup) 2%nat) = Some 2%nat)
    as Hw2 by (vm_compute; reflexivity).
  assert (gtk_widget_get_visible (state_after example_world example_setup) (Some 1%nat) = true)
    as Hv1 by (vm_compute; reflexivity).
  assert (gtk_widget_get_visible (state_after example_world example_setup) (Some 2%nat) = true)
    as Hv2 by (vm_compute; reflexivity).
  assert ((mt_current_pos (mode_transition (state_after example_world example_setup)) == 1)%Q)
    as Hpos by (vm_compute; reflexivity).
  assert (get_directed_children (state_after example_world example_setup)
          = [] ++ 1%nat :: [2%nat]) as Hd1 by (vm_compute; reflexivity).
  assert (get_directed_children (state_after example_world example_setup)
          = [1%nat] ++ 2%nat :: []) as Hd2 by (vm_compute; reflexivity).
  assert (orientation (state_after example_world example_setup) = GTK_ORIENTATION_HORIZONTAL)
    as Ho by (vm_compute; reflexivity).
  assert (homogeneous (state_after example_world example_setup) HDY_FOLD_UNFOLDED
            GTK_ORIENTATION_HORIZONTAL = false) as Hh by (vm_compute; reflexivity).
  assert (gtk_widget_compute_expand (state_after example_world example_setup) (Some 1%nat)
            GTK_ORIENTATION_HORIZONTAL = false) as He1 by (vm_compute; reflexivity).
  assert (gtk_widget_compute_expand (state_after example_world example_setup) (Some 2%nat)
            GTK_ORIENTATION_HORIZONTAL = false) as He2 by (vm_compute; reflexivity).
  assert (req_size GTK_ORIENTATION_HORIZONTAL
            (w_nat (widgets (state_after example_world example_setup) !!! 1%nat)) = 100)
    as Hn1 by (vm_compute; reflexivity).
  assert (req_size GTK_ORIENTATION_HORIZONTAL
            (w_nat (widgets (state_after example_world example_setup) !!! 2%nat)) = 100)
    as Hn2 by (vm_compute; reflexivity).
  destruct (unfolded_allocation_side_by_side (mkAlloc 0 0 300 50)
              (state_after example_world example_setup) 1%nat 1%nat
              Hrev Hnd Hdist Hfolded Hfold Hv H1 Hw1 Hv1 Hpos) as (s' & E & Hf & _ & Hall).
  destruct (Hall [] 1%nat [2%nat] 1%nat Hd1 Hw1 Hv1) as (Ha1 & _ & Hs1).
  destruct (Hall [1%nat] 2%nat [] 2%nat Hd2 Hw2 Hv2) as (Ha2 & _ & Hs2).
  rewrite Ho in Ha1, Hs1, Ha2, Hs2.
  specialize (Hs1 Hh He1). specialize (Hs2 Hh He2).
  rewrite Hn1 in Hs1. rewrite Hn2 in Hs2. rewrite Hs1 in Ha1. rewrite Hs2 in Ha2.
  rewrite (widgets_extent_one (state_after example_world example_setup) s'
             GTK_ORIENTATION_HORIZONTAL 1%nat 1%nat Hw1 Hv1), Hs1 in Ha2.
  exists s'. split; [exact E|]. split; [exact Hf|]. split; [exact Ha1 | exact Ha2].
Defined.

(** ** Destruction *)

(** [hdy_leaflet_remove] in destruction, on the widget of the first child:
    the child leaves the list, its record is freed and the widget loses its
    parent, whichever way the comparison with the visible child goes. *)
Lemma remove_first_in_destruction w freed p rest s :
  in_destruction s = true -> children s = p :: rest -> ci_widget (deref s p) = Some w ->
  exists s',
    hdy_leaflet_remove w freed s = Some s'
    /\ children s' = rest /\ infos s' = <[p := freed]> (infos s) /\ in_destruction s' = true
    /\ widgets s' = <[w := set_w_has_parent false (widgets s !!! w)]> (widgets s).
Proof.
  intros Hd Hch Hw. rewrite remove_unfold.
  assert (find_child_info_for_widget s (Some w) = Some p) as ->.
  { unfold find_child_info_for_widget. rewrite Hch. simpl. rewrite Hw.
    unfold ptr_eqb. by rewrite bool_decide_eq_true_2. }
  cbv zeta.
  assert (children (removed p freed s) = rest) as Hch1.
  { change (children (removed p freed s)) with (g_list_remove (children s) p).
    rewrite Hch. cbn [g_list_remove]. by rewrite Nat.eqb_refl. }
  assert (in_destruction (removed p freed s) = true) as Hd1 by exact Hd.
  assert (infos (removed p freed s) = <[p := freed]> (infos s)) as Hi1 by reflexivity.
  assert (widgets (removed p freed s) = widgets s) as Hw1 by reflexivity.
  set (s1 := removed p freed s) in *. clearbody s1.
  assert (set_visible_child_info None (transition_type s1) (ct_duration (child_transition s1))
            true s1 = Some s1) as ->.
  { unfold set_visible_child_info. by rewrite set_visible_child_info_with_unfold, Hd1. }
  assert ((if ptr_eqb (hdy_leaflet_get_visible_child s1) (Some w) then Some s1 else Some s1)
          = Some s1) as -> by (by destruct (ptr_eqb _ _)).
  cbn [mbind option_bind]. eexists. split; [reflexivity|].
  unfold update_widget. cbn [children infos in_destruction widgets with_widgets].
  by rewrite Hw1.
Qed.

Lemma forall_remove_loop freed l s :
  in_destruction s = true -> children s = l -> List.NoDup l ->
  (forall p, In p l -> ci_widget (deref s p) <> None) ->
  exists s',
    foldl (fun acc p => s ← acc;
                        run_callback (CALLBACK_REMOVE freed) (ci_widget (deref s p)) s)
      (Some s) l = Some s'
    /\ children s' = []
    /\ (forall a, w_has_parent (widgets s !!! a) = false ->
                  w_has_parent (widgets s' !!! a) = false)
    /\ (forall p w, In p l -> ci_widget (deref s p) = Some w ->
          w_has_parent (widgets s' !!! w) = false).
Proof.
  revert s. induction l as [|p l IH]; intros s Hd Hch Hnd Hw.
  { exists s. split_and!; try done. }
  apply List.NoDup_cons_iff in Hnd as [Hpl Hnd].
  destruct (ci_widget (deref s p)) as [w|] eqn:Hpw; [| by destruct (Hw p (or_introl eq_refl))].
  destruct (remove_first_in_destruction w (freed w) p l s Hd Hch Hpw)
    as (s1 & E1 & Hch1 & Hi1 & Hd1 & Hw1).
  assert (forall q, In q l -> deref s1 q = deref s q) as Hderef.
  { intros q Hq. unfold deref. rewrite Hi1, lookup_total_insert_ne; [done|].
    intros ->. by apply Hpl. }
  destruct (IH s1 Hd1 Hch1 Hnd) as (s' & E & Hch' & Hmono & Hall).
  { intros q Hq. rewrite Hderef by done. apply Hw. by right. }
  assert (w_has_parent (widgets s1 !!! w) = false) as Hw1p
    by (by rewrite Hw1, lookup_total_insert_eq).
  exists s'. split_and!.
  - cbn [foldl mbind option_bind]. rewrite Hpw. cbn [run_callback]. rewrite E1. exact E.
  - done.
  - intros a Ha. apply Hmono. rewrite Hw1.
    destruct (decide (w = a)) as [<- | Hne].
    + by rewrite lookup_total_insert_eq.
    + by rewrite lookup_total_insert_ne.
  - intros q c [<- | Hq] Hqc.
    + rewrite Hpw in Hqc. injection Hqc as <-. by apply Hmono.
    + apply (Hall q c Hq). by rewrite Hderef.
Qed.

(** X18.  Destroying the leaflet empties it: once GTK has marked the leaflet
    as being destroyed, a traversal with [hdy_leaflet_forall] whose callback
    removes every widget it is handed returns with both lists of children
    empty and with every widget the children held without a parent, where
    every child holds a widget and is listed once, and whatever the freed
    records read as.  The traversal runs over a copy of the list while
    [hdy_leaflet_remove] shortens the list itself. *)
Theorem forall_remove_empties_leaflet freed s :
  in_destruction s = true ->
  List.NoDup (children s) ->
  (forall p, In p (children s) -> ci_widget (deref s p) <> None) ->
  exists s',
    hdy_leaflet_forall (run_callback (CALLBACK_REMOVE freed)) s = Some s'
    /\ children s' = [] /\ children_reversed s' = []
    /\ forall p w, In p (children s) -> ci_widget (deref s p) = Some w ->
         w_has_parent (widgets s' !!! w) = false.
Proof.
  intros Hd Hnd Hw. unfold hdy_leaflet_forall, g_list_copy, g_list_reverse. cbv zeta.
  destruct (forall_remove_loop freed (children s) s Hd eq_refl Hnd Hw)
    as (s' & -> & Hch & _ & Hall).
  cbn [mbind option_bind]. eexists. split; [reflexivity|].
  cbn [children children_reversed with_children_reversed widgets]. rewrite Hch.
  by split_and!.
Qed.

Lemma forall_remove_empties_leaflet_witness :
  exists s',
    hdy_leaflet_forall
      (run_callback (CALLBACK_REMOVE (fun _ => mkInfo None None false alloc0 req0 req0 false)))
      example_in_destruction = Some s'
    /\ children s' = [] /\ children_reversed s' = []
    /\ w_has_parent (widgets s' !!! 1%nat) = false
    /\ w_has_parent (widgets s' !!! 2%nat) = false.
Proof.
  assert (in_destruction example_in_destruction = true) as Hd by (vm_compute; reflexivity).
  assert (children example_in_destruction = [1; 2]%nat) as Hch by (vm_compute; reflexivity).
  assert (List.NoDup (children example_in_destruction)) as Hnd.
  { rewrite Hch. constructor; [intros [E | []]; discriminate E|].
    constructor; [intros [] | constructor]. }
  assert (ci_widget (deref example_in_destruction 1%nat) = Some 1%nat) as Hw1
    by (vm_compute; reflexivity).
  assert (ci_widget (deref example_in_destruction 2%nat) = Some 2%nat) as Hw2
    by (vm_compute; reflexivity).
  assert (forall p, In p (children example_in_destruction) ->
            ci_widget (deref example_in_destruction p) <> None) as Hw.
  { intros p Hp. rewrite Hch in Hp. destruct Hp as [<- | [<- | []]].
    - rewrite Hw1. discriminate.
    - rewrite Hw2. discriminate. }
  destruct (forall_remove_empties_leaflet
              (fun _ => mkInfo None None false alloc0 req0 req0 false)
              example_in_destruction Hd Hnd Hw)
    as (s' & E & Hc & Hr & Hall).
  exists s'. split; [exact E|]. split; [exact Hc|]. split; [exact Hr|]. split.
  - apply (Hall 1%nat 1%nat); [rewrite Hch; by left | exact Hw1].
  - apply (Hall 2%nat 2%nat); [rewrite Hch; right; by left | exact Hw2].
Defined.

(** ** Choosing the visible child *)

(** Asked for no child in particular, [set_visible_child_info] takes the
    first child whose widget is visible. *)
Lemma set_visible_child_info_with_first sc c t d emit s :
  first_visible_child s = Some c ->
  set_visible_child_info_with sc None t d emit s
  = set_visible_child_info_with sc (Some c) t d emit s.
Proof.
  intros H. rewrite !set_visible_child_info_with_unfold. cbv beta iota zeta. by rewrite H.
Qed.

(** With no child to take and the signal to emit, it does not return. *)
Lemma set_visible_child_info_none t d s :
  in_destruction s = false -> first_visible_child s = None -> visible_child s <> None ->
  set_visible_child_info None t d true s = None.
Proof.
  intros Hd Hf Hv. unfold set_visible_child_info.
  rewrite set_visible_child_info_with_unfold, Hd. cbv beta iota zeta. rewrite Hf.
  unfold ptr_eqb. rewrite bool_decide_eq_false_2 by (by intros E; apply Hv).
  by destruct (if folded _ then _ else _).
Qed.

(** X19.  What the leaflet does when a child widget changes its visibility,
    outside destruction and with the cancelled flag clear.  When the widget
    of the visible child is hidden, the first child whose widget is visible
    becomes the visible child (it is the first to hold its widget); when no
    child has a visible widget the handler does not return: it reads the
    widget of the NULL new visible child.  When a widget is shown and there
    was no visible child, its child becomes the visible child. *)
Theorem visibility_notify_repicks_visible_child w s :
  in_destruction s = false ->
  ct_is_cancelled (child_transition s) = false ->
  Z.of_nat (length (children s)) <= 2 ^ 32 ->
  (forall v, visible_child s = Some v -> find_child_info_for_widget s (Some w) = Some v ->
     gtk_widget_get_visible s (Some w) = false ->
     (first_visible_child s = None -> hdy_leaflet_child_visibility_notify_cb w s = None)
     /\ forall c, first_visible_child s = Some c ->
          find_child_info_for_widget s (ci_widget (deref s c)) = Some c ->
          exists s', hdy_leaflet_child_visibility_notify_cb w s = Some s'
                     /\ visible_child s' = Some c)
  /\ (forall c, visible_child s = None -> find_child_info_for_widget s (Some w) = Some c ->
        gtk_widget_get_visible s (Some w) = true ->
        exists s', hdy_leaflet_child_visibility_notify_cb w s = Some s'
                   /\ visible_child s' = Some c).
Proof.
  intros Hd Hc Hlen. split.
  - intros v Hv Hfind Hvis. unfold hdy_leaflet_child_visibility_notify_cb.
    rewrite Hv, Hfind, Hvis.
    assert (ptr_eqb (Some v) (Some v) = true) as ->
      by (unfold ptr_eqb; by rewrite bool_decide_eq_true_2).
    cbn [is_nonnull negb andb]. split.
    + intros Hf. apply set_visible_child_info_none; [done | done | by rewrite Hv].
    + intros c Hf Hfc. unfold set_visible_child_info.
      rewrite (set_visible_child_info_with_first _ c) by done.
      destruct (set_visible_child_info_shows c (transition_type s)
                  (ct_duration (child_transition s)) true s Hd Hc Hfc Hlen)
        as (s' & E & Hv' & _).
      by exists s'.
  - intros c Hv Hfind Hvis. unfold hdy_leaflet_child_visibility_notify_cb.
    rewrite Hv, Hfind, Hvis. cbn [is_nonnull negb andb].
    destruct (find_child_info_for_widget_Some s (Some w) c Hfind) as [_ Hcw].
    destruct (set_visible_child_info_shows c (transition_type s)
                (ct_duration (child_transition s)) true s Hd Hc) as (s' & E & Hv' & _);
      [by rewrite Hcw | done |].
    by exists s'.
Qed.

Lemma visibility_notify_repicks_visible_child_witness :
  visible_child example_first_hidden = Some 1%nat
  /\ exists s', hdy_leaflet_child_visibility_notify_cb 1%nat example_first_hidden = Some s'
                /\ visible_child s' = Some 2%nat.
Proof.
  assert (in_destruction example_first_hidden = false) as Hd by (vm_compute; reflexivity).
  assert (ct_is_cancelled (child_transition example_first_hidden) = false) as Hc
    by (vm_compute; reflexivity).
  assert (Z.of_nat (length (children example_first_hidden)) <= 2 ^ 32) as Hlen
    by (vm_compute; discriminate).
  assert (visible_child example_first_hidden = Some 1%nat) as Hv by (vm_compute; reflexivity).
  assert (find_child_info_for_widget example_first_hidden (Some 1%nat) = Some 1%nat) as Hfind
    by (vm_compute; reflexivity).
  assert (gtk_widget_get_visible example_first_hidden (Some 1%nat) = false) as Hvis
    by (vm_compute; reflexivity).
  assert (first_visible_child example_first_hidden = Some 2%nat) as Hf
    by (vm_compute; reflexivity).
  assert (find_child_info_for_widget example_first_hidden
            (ci_widget (deref example_first_hidden 2%nat)) = Some 2%nat) as Hfc
    by (vm_compute; reflexivity).
  split; [exact Hv|].
  exact (proj2 (proj1 (visibility_notify_repicks_visible_child 1%nat example_first_hidden
                         Hd Hc Hlen) 1%nat Hv Hfind Hvis) 2%nat Hf Hfc).
Defined.

(** X20.  [hdy_leaflet_switch_child], outside destruction and with the
    cancelled flag clear: an index within the list makes the child at that
    index the visible child; an index past the end is not refused but makes
    the first child whose widget is visible the visible child. *)
Theorem switch_child_shows_indexed_child index duration s :
  in_destruction s = false ->
  ct_is_cancelled (child_transition s) = false ->
  (forall c, g_list_nth_data (children s) index = Some c ->
     exists s', hdy_leaflet_switch_child index duration s = Some s'
                /\ visible_child s' = Some c)
  /\ (forall c, g_list_nth_data (children s) index = None -> first_visible_child s = Some c ->
        exists s', hdy_leaflet_switch_child index duration s = Some s'
                   /\ visible_child s' = Some c).
Proof.
  intros Hd Hc. unfold hdy_leaflet_switch_child. split.
  - intros c ->.
    destruct (set_visible_child_info_quiet (fun _ _ s => Some s) c (transition_type s)
                (duration mod 2 ^ 32) s Hd) as (s' & E & _ & Hv & _).
    exists s'. split; [exact E|]. apply Hv. by left.
  - intros c -> Hf. rewrite (set_visible_child_info_with_first _ c) by done.
    destruct (set_visible_child_info_quiet (fun _ _ s => Some s) c (transition_type s)
                (duration mod 2 ^ 32) s Hd) as (s' & E & _ & Hv & _).
    exists s'. split; [exact E|]. apply Hv. by left.
Qed.

Lemma switch_child_shows_indexed_child_witness :
  (exists s', hdy_leaflet_switch_child 1 200 example_folded = Some s'
              /\ visible_child s' = Some 2%nat)
  /\ exists s', hdy_leaflet_switch_child 7 200 example_first_hidden = Some s'
                /\ visible_child s' = Some 2%nat.
Proof.
  assert (in_destruction example_folded = false) as Hd by (vm_compute; reflexivity).
  assert (ct_is_cancelled (child_transition example_folded) = false) as Hc
    by (vm_compute; reflexivity).
  assert (g_list_nth_data (children example_folded) 1 = Some 2%nat) as Hn
    by (vm_compute; reflexivity).
  assert (in_destruction example_first_hidden = false) as Hd' by (vm_compute; reflexivity).
  assert (ct_is_cancelled (child_transition example_first_hidden) = false) as Hc'
    by (vm_compute; reflexivity).
  assert (g_list_nth_data (children example_first_hidden) 7 = None) as Hn'
    by (vm_compute; reflexivity).
  assert (first_visible_child example_first_hidden = Some 2%nat) as Hf
    by (vm_compute; reflexivity).
  split.
  - exact (proj1 (switch_child_shows_indexed_child 1 200 example_folded Hd Hc) 2%nat Hn).
  - exact (proj2 (switch_child_shows_indexed_child 7 200 example_first_hidden Hd' Hc')
             2%nat Hn' Hf).
Defined.

(** ** The children and their widgets *)

Lemma family_widget s s' p :
  family s' = family s -> ci_widget (deref s' p) = ci_widget (deref s p).
Proof.
  unfold family, deref. intros [= _ H _].
  apply (f_equal (fun m => m !! p)) in H. rewrite !lookup_omap in H.
  rewrite !lookup_total_alt.
  by destruct (infos s' !! p), (infos s !! p).
Qed.

Lemma family_parent s s' w :
  family s' = family s -> w_has_parent (widgets s' !!! w) = w_has_parent (widgets s !!! w).
Proof.
  unfold family. intros [= _ _ H].
  apply (f_equal (fun m => m !! w)) in H. rewrite !lookup_omap in H.
  rewrite !lookup_total_alt. unfold parented in H.
  destruct (widgets s' !! w) as [g'|], (widgets s !! w) as [g|]; simpl in *;
    repeat case_match; simplify_eq; done.
Qed.

Lemma family_ok_family s s' : family s' = family s -> family_ok s -> family_ok s'.
Proof.
  intros Hf [Hw Hd].
  assert (children s' = children s) as Hch by (by injection Hf).
  split.
  - intros p Hp. rewrite Hch in Hp. destruct (Hw p Hp) as (w & H1 & H2).
    exists w. by rewrite (family_widget s s' p Hf), (family_parent s s' w Hf).
  - intros p q Hp Hq. rewrite Hch in Hp, Hq.
    rewrite !(family_widget s s' _ Hf). by apply Hd.
Qed.

Lemma family_update_info p f s :
  (forall ci, ci_widget (f ci) = ci_widget ci) -> family (update_info p f s) = family s.
Proof.
  intros Hf. unfold family, update_info. simpl. f_equal. f_equal.
  apply map_eq. intros q. rewrite !lookup_omap.
  destruct (decide (p = q)) as [<- | Hne].
  - rewrite lookup_insert_eq. simpl. rewrite Hf, lookup_total_alt.
    by destruct (infos s !! p).
  - by rewrite lookup_insert_ne.
Qed.

Lemma family_update_widget w f s :
  (forall g, w_has_parent (f g) = w_has_parent g) -> family (update_widget w f s) = family s.
Proof.
  intros Hf. destruct w as [a|]; [| done]. unfold family, update_widget. simpl. f_equal.
  apply map_eq. intros b. rewrite !lookup_omap.
  destruct (decide (a = b)) as [<- | Hne].
  - rewrite lookup_insert_eq. simpl. unfold parented. rewrite Hf, lookup_total_alt.
    by destruct (widgets s !! a).
  - by rewrite lookup_insert_ne.
Qed.

Lemma family_for_each l body s :
  (forall p s, family (body p s) = family s) -> family (for_each l body s) = family s.
Proof.
  intros Hbody. unfold for_each. revert s.
  induction l as [|p l IH]; intros s; simpl; [reflexivity|].
  rewrite IH. apply Hbody.
Qed.

Lemma family_foldl_snd {A} (f : A * Leaflet -> info_ptr -> A * Leaflet) l a s :
  (forall a s p, family (snd (f (a, s) p)) = family s) ->
  family (snd (foldl f (a, s) l)) = family s.
Proof.
  intros Hf. revert a s. induction l as [|p l IH]; intros a s; simpl; [reflexivity|].
  destruct (f (a, s) p) as [a' s1] eqn:E. rewrite IH.
  specialize (Hf a s p). by rewrite E in Hf.
Qed.

Lemma family_move_resize_bin_window a r s :
  family (move_resize_bin_window a r s) = family s.
Proof. unfold move_resize_bin_window. by destruct (bin_window s). Qed.

Lemma family_gtk_widget_set_child_visible w b s :
  family (gtk_widget_set_child_visible w b s) = family s.
Proof. by apply family_update_widget. Qed.

Lemma family_gtk_widget_size_allocate w a s :
  family (gtk_widget_size_allocate w a s) = family s.
Proof. by apply family_update_widget. Qed.

Lemma family_gtk_widget_show w s : family (gtk_widget_show w s) = family s.
Proof. by apply family_update_widget. Qed.

Lemma family_with_children_reversed v s : family (with_children_reversed v s) = family s.
Proof. reflexivity. Qed.

Lemma family_with_visible_child v s : family (with_visible_child v s) = family s.
Proof. reflexivity. Qed.

Lemma family_with_last_visible_child v s : family (with_last_visible_child v s) = family s.
Proof. reflexivity. Qed.

Lemma family_with_bin_window v s : family (with_bin_window v s) = family s.
Proof. reflexivity. Qed.

Lemma family_with_view_window v s : family (with_view_window v s) = family s.
Proof. reflexivity. Qed.

Lemma family_with_folded v s : family (with_folded v s) = family s.
Proof. reflexivity. Qed.

Lemma family_with_homogeneous v s : family (with_homogeneous v s) = family s.
Proof. reflexivity. Qed.

Lemma family_with_orientation v s : family (with_orientation v s) = family s.
Proof. reflexivity. Qed.

Lemma family_with_move_bin_window_request v s : family (with_move_bin_window_request v s) = family s.
Proof. reflexivity. Qed.

Lemma family_with_transition_type v s : family (with_transition_type v s) = family s.
Proof. reflexivity. Qed.

Lemma family_with_tracker_enabled v s : family (with_tracker_enabled v s) = family s.
Proof. reflexivity. Qed.

Lemma family_with_mode_transition v s : family (with_mode_transition v s) = family s.
Proof. reflexivity. Qed.

Lemma family_with_child_transition v s : family (with_child_transition v s) = family s.
Proof. reflexivity. Qed.

Lemma family_with_next_info v s : family (with_next_info v s) = family s.
Proof. reflexivity. Qed.

Lemma family_with_ticks v s : family (with_ticks v s) = family s.
Proof. reflexivity. Qed.

Lemma family_with_next_tick v s : family (with_next_tick v s) = family s.
Proof. reflexivity. Qed.

Lemma family_with_self_mapped v s : family (with_self_mapped v s) = family s.
Proof. reflexivity. Qed.

Lemma family_with_self_visible v s : family (with_self_visible v s) = family s.
Proof. reflexivity. Qed.

Lemma family_with_self_realized v s : family (with_self_realized v s) = family s.
Proof. reflexivity. Qed.

Lemma family_with_self_direction v s : family (with_self_direction v s) = family s.
Proof. reflexivity. Qed.

Lemma family_with_enable_animations v s : family (with_enable_animations v s) = family s.
Proof. reflexivity. Qed.

Lemma family_with_in_destruction v s : family (with_in_destruction v s) = family s.
Proof. reflexivity. Qed.

Lemma family_with_self_allocation v s : family (with_self_allocation v s) = family s.
Proof. reflexivity. Qed.

Lemma family_upd_ct f s : family (upd_ct f s) = family s.
Proof. reflexivity. Qed.

Lemma family_upd_mt f s : family (upd_mt f s) = family s.
Proof. reflexivity. Qed.

Lemma family_gtk_widget_remove_tick_callback id s :
  family (gtk_widget_remove_tick_callback id s) = family s.
Proof. reflexivity. Qed.

Create Rewrite HintDb fam.
#[global] Hint Rewrite family_move_resize_bin_window family_gtk_widget_set_child_visible
  family_gtk_widget_size_allocate family_gtk_widget_show : fam.
#[global] Hint Rewrite family_with_children_reversed family_with_visible_child family_with_last_visible_child
  family_with_bin_window family_with_view_window family_with_folded
  family_with_homogeneous family_with_orientation family_with_move_bin_window_request
  family_with_transition_type family_with_tracker_enabled family_with_mode_transition
  family_with_child_transition family_with_next_info family_with_ticks
  family_with_next_tick family_with_self_mapped family_with_self_visible
  family_with_self_realized family_with_self_direction family_with_enable_animations
  family_with_in_destruction family_with_self_allocation family_upd_ct
  family_upd_mt family_gtk_widget_remove_tick_callback : fam.

Ltac fam_layer :=
  first
    [ apply family_update_info; intros; reflexivity
    | apply family_update_widget; intros; reflexivity
    | solve [autorewrite with fam;
             match goal with |- ?a = ?a => reflexivity end] ].

(** A composition of layers, bindings, conditionals and loops, peeled from
    the outside. *)
Ltac fam :=
  repeat first
    [ match goal with |- ?a = ?a => reflexivity end
    | match goal with
      | |- family (let x := ?v in @?b x) = ?r =>
          change (let x := v in family (b x) = r); intros ?
      | x := _ |- family ?x = _ => subst x
      | E : foldl ?f (?a0, ?s0) ?l = (_, ?x) |- family ?x = _ =>
          transitivity (family s0);
          [ let H := fresh in
            pose proof (family_foldl_snd f l a0 s0) as H; rewrite E in H; apply H;
            intros ? ? ?; cbn [snd]
          | clear E ]
      | |- family (snd (_, _)) = _ => cbn [snd]
      | |- family (snd (match ?c with _ => _ end)) = _ => destruct c eqn:?
      | |- family (snd (let x := ?v in @?b x)) = ?r =>
          change (let x := v in family (snd (b x)) = r); intros ?
      | |- family (snd ?x) = _ => destruct x eqn:?; cbn [snd]
      | |- family (for_each ?l ?body ?x) = _ =>
          transitivity (family x); [apply family_for_each; intros ? ? |]
      | |- family (match ?c with _ => _ end) = _ => destruct c eqn:?
      | |- family (?F ?x) = family ?y =>
          transitivity (family x); [fam_layer |]
      end ].

Lemma family_child_progress_updated s s' :
  hdy_leaflet_child_progress_updated s = Some s' -> family s' = family s.
Proof.
  unfold hdy_leaflet_child_progress_updated. intros H.
  repeat case_match; simplify_option_eq; fam.
Qed.

Lemma family_schedule_child_ticks s :
  family (hdy_leaflet_schedule_child_ticks s) = family s.
Proof. unfold hdy_leaflet_schedule_child_ticks. by destruct (_ =? 0). Qed.

Lemma family_unschedule_child_ticks s :
  family (hdy_leaflet_unschedule_child_ticks s) = family s.
Proof. unfold hdy_leaflet_unschedule_child_ticks. by destruct (negb _). Qed.

#[global] Hint Rewrite family_schedule_child_ticks family_unschedule_child_ticks : fam.

Lemma family_stop_child_transition s :
  family (hdy_leaflet_stop_child_transition s) = family s.
Proof. unfold hdy_leaflet_stop_child_transition. fam. Qed.

#[global] Hint Rewrite family_stop_child_transition : fam.

Lemma family_start_child_transition t d dir s s' :
  hdy_leaflet_start_child_transition t d dir s = Some s' -> family s' = family s.
Proof.
  unfold hdy_leaflet_start_child_transition. intros H.
  rewrite (family_child_progress_updated _ _ H). fam.
Qed.

Lemma family_set_visible_child_info_with sc new t d emit s s' :
  (forall i d s s', sc i d s = Some s' -> family s' = family s) ->
  set_visible_child_info_with sc new t d emit s = Some s' -> family s' = family s.
Proof.
  intros Hsc. rewrite set_visible_child_info_with_unfold.
  destruct (in_destruction s); [by intros [= <-]|]. cbv zeta.
  destruct (ptr_eqb _ _); [by intros [= <-]|].
  set (new' := match new with None => first_visible_child s | Some p => Some p end).
  clearbody new'.
  assert (family (switch_setup new' s) = family s) as H1 by (unfold switch_setup; fam).
  set (s1 := switch_setup new' s) in *. clearbody s1.
  intros Hrun. apply bind_Some in Hrun as (s2 & Hs2 & Hrun).
  assert (family s2 = family s) as H2.
  { rewrite <- H1. destruct (folded s1); [| by injection Hs2 as <-].
    by eapply family_start_child_transition. }
  destruct emit; [| injection Hrun as <-; exact H2].
  apply bind_Some in Hrun as (c & _ & Hrun).
  rewrite (Hsc _ _ _ _ Hrun). by rewrite <- H2.
Qed.

Lemma family_switch_child i d s s' :
  hdy_leaflet_switch_child i d s = Some s' -> family s' = family s.
Proof.
  apply family_set_visible_child_info_with. by intros ? ? ? ? [= <-].
Qed.

Lemma family_set_visible_child_info new t d emit s s' :
  set_visible_child_info new t d emit s = Some s' -> family s' = family s.
Proof. apply family_set_visible_child_info_with. apply family_switch_child. Qed.

Lemma family_set_position pos s : family (hdy_leaflet_set_position pos s) = family s.
Proof. unfold hdy_leaflet_set_position. fam. Qed.

#[global] Hint Rewrite family_set_position : fam.

Lemma family_start_mode_transition target s :
  family (hdy_leaflet_start_mode_transition target s) = family s.
Proof.
  unfold hdy_leaflet_start_mode_transition. unfold gtk_widget_add_tick_callback. fam.
Qed.

Lemma family_set_folded f s : family (hdy_leaflet_set_folded f s) = family s.
Proof.
  unfold hdy_leaflet_set_folded. destruct (eqb _ _); [done|]. cbv zeta.
  destruct f; by rewrite family_start_mode_transition.
Qed.

Lemma family_prepare_child p s : family (prepare_child p s) = family s.
Proof. unfold prepare_child. fam. Qed.

Lemma family_apply_child p s : family (apply_child p s) = family s.
Proof.
  unfold apply_child, gtk_widget_size_allocate, gtk_widget_show. fam.
Qed.

Lemma family_size_allocate_folded_animated t v a s :
  family (size_allocate_folded_animated t v a s) = family s.
Proof. unfold size_allocate_folded_animated. fam. Qed.

Lemma family_size_allocate_folded a s s' :
  hdy_leaflet_size_allocate_folded a s = Some s' -> family s' = family s.
Proof.
  unfold hdy_leaflet_size_allocate_folded. intros H.
  apply bind_Some in H as (v & Hv & H).
  repeat case_match; simplify_eq; fam.
  all: try (rewrite family_size_allocate_folded_animated; fam).
Qed.

Lemma family_allocate_child o bh hs pce a acc p :
  family (snd (allocate_child o bh hs pce a acc p)) = family (snd acc).
Proof.
  unfold allocate_child. destruct acc as [[pos n] s]. cbn [snd].
  repeat case_match; simplify_eq; cbn [snd]; fam.
Qed.

Lemma family_size_allocate_unfolded a s s' :
  hdy_leaflet_size_allocate_unfolded a s = Some s' -> family s' = family s.
Proof.
  unfold hdy_leaflet_size_allocate_unfolded. cbv zeta.
  match goal with
  | |- context [ foldl ?f (?a0, s) ?l ] =>
      pose proof (family_foldl_snd f l a0 s) as H1;
      destruct (foldl f (a0, s) l) as [[nv ne] s1]
  end.
  cbn [snd] in H1. rewrite <- H1 by (intros [? ?] ? ?; fam). clear H1.
  intros H. apply bind_Some in H as ([[hs pce] nx] & _ & H).
  match type of H with
  | context [ foldl ?f (?a0, s1) ?l ] =>
      pose proof (family_foldl_snd f l a0 s1) as H2;
      destruct (foldl f (a0, s1) l) as [[pos nx'] s2]
  end.
  cbn [snd] in H2. rewrite <- H2 by (intros [? ?] ? ?; apply family_allocate_child).
  clear H2.
  apply bind_Some in H as (v & _ & H). simplify_eq. fam.
Qed.

Lemma family_size_allocate a s s' :
  hdy_leaflet_size_allocate a s = Some s' -> family s' = family s.
Proof.
  rewrite size_allocate_unfold. cbv zeta. intros H.
  apply bind_Some in H as (s3 & H3 & H). injection H as <-.
  rewrite family_for_each by (intros; apply family_apply_child).
  transitivity (family (hdy_leaflet_set_folded
                          (fold_decision (for_each (get_directed_children s) prepare_child
                                            (size_allocate_entry a s)) a)
                          (for_each (get_directed_children s) prepare_child
                             (size_allocate_entry a s)))).
  - destruct (fold_decision _ _);
      [eapply family_size_allocate_folded | eapply family_size_allocate_unfolded]; exact H3.
  - rewrite family_set_folded, family_for_each by (intros; apply family_prepare_child).
    unfold size_allocate_entry. fam.
Qed.

Lemma family_child_transition_cb t s s1 again :
  hdy_leaflet_child_transition_cb t s = Some (s1, again) -> family s1 = family s.
Proof.
  unfold hdy_leaflet_child_transition_cb. cbv zeta. intros H.
  apply bind_Some in H as (s0 & H0 & H).
  apply family_child_progress_updated in H0.
  assert (family s0 = family s) as Hs by (rewrite H0; fam).
  destruct (bool_decide _); by injection H as <- <-.
Qed.

Lemma family_mode_transition_cb t s :
  family (fst (hdy_leaflet_mode_transition_cb t s)) = family s.
Proof.
  unfold hdy_leaflet_mode_transition_cb. cbv zeta.
  match goal with
  | |- context [ hdy_leaflet_set_position ?p ?x ] =>
      assert (family (hdy_leaflet_set_position p x) = family s) as Hs
        by (by rewrite family_set_position);
      set (s0 := hdy_leaflet_set_position p x) in *; clearbody s0
  end.
  by destruct (bool_decide _).
Qed.

Lemma family_frame_tick id t s s' : gtk_frame_tick id t s = Some s' -> family s' = family s.
Proof.
  unfold gtk_frame_tick. intros H.
  destruct (List.find _ (ticks s)) as [[id' [|]]|]; [| | by injection H as <-].
  - apply bind_Some in H as ([s1 again] & Hcb & H). injection H as <-.
    apply family_child_transition_cb in Hcb. by destruct again.
  - injection H as <-. rewrite <- (family_mode_transition_cb t s).
    by destruct (snd _).
Qed.

Lemma family_begin_swipe direction direct s s' :
  hdy_leaflet_begin_swipe direction direct s = Some s' -> family s' = family s.
Proof.
  unfold hdy_leaflet_begin_swipe. intros H.
  destruct (ct_tick_id (child_transition s) >? 0); [by injection H as <-|].
  apply bind_Some in H as (child & _ & H).
  destruct child as [c|]; [| by injection H as <-].
  by apply family_set_visible_child_info in H.
Qed.

Lemma family_update_swipe value s s' :
  hdy_leaflet_update_swipe value s = Some s' -> family s' = family s.
Proof.
  unfold hdy_leaflet_update_swipe. cbv zeta. intros H.
  by apply family_child_progress_updated in H.
Qed.

Lemma family_end_swipe duration to s s' :
  hdy_leaflet_end_swipe duration to s = Some s' -> family s' = family s.
Proof.
  unfold hdy_leaflet_end_swipe. intros H.
  destruct (negb _); [by injection H as <-|]. cbv zeta in H.
  apply family_child_progress_updated in H. rewrite H. fam.
Qed.

Lemma family_navigate direction s r :
  hdy_leaflet_navigate direction s = Some r -> family (fst r) = family s.
Proof.
  unfold hdy_leaflet_navigate. intros H.
  destruct (negb _); [by injection H as <-|].
  apply bind_Some in H as (child & _ & H).
  destruct child as [c|]; [| by injection H as <-].
  apply bind_Some in H as (s1 & H1 & H). injection H as <-.
  by apply family_set_visible_child_info in H1.
Qed.

Lemma family_set_child_property w prop s s' :
  hdy_leaflet_set_child_property w prop s = Some s' -> family s' = family s.
Proof.
  unfold hdy_leaflet_set_child_property. intros H.
  destruct (find_child_info_for_widget s (Some w)) as [p|]; [| by injection H as <-].
  destruct prop.
  - injection H as <-. by apply family_update_info.
  - cbv zeta in H.
    assert (family (update_info p (set_ci_allow_visible allow) s) = family s) as H1
      by (by apply family_update_info).
    set (s1 := update_info p (set_ci_allow_visible allow) s) in *. clearbody s1.
    destruct (_ && _); [| by injection H as <-].
    apply family_set_visible_child_info in H. congruence.
Qed.

Lemma family_child_visibility_notify_cb w s s' :
  hdy_leaflet_child_visibility_notify_cb w s = Some s' -> family s' = family s.
Proof.
  unfold hdy_leaflet_child_visibility_notify_cb. cbv zeta. intros H.
  destruct (_ && _); [by apply family_set_visible_child_info in H|].
  destruct (_ && _); [by apply family_set_visible_child_info in H|].
  by injection H as <-.
Qed.

Lemma family_realize l t s : family (hdy_leaflet_realize l t s) = family s.
Proof. unfold hdy_leaflet_realize. fam. Qed.

Lemma family_ok_added w s :
  lists_ok s -> w_has_parent (widgets s !!! w) = false ->
  family_ok s -> family_ok (added w s).
Proof.
  intros (_ & _ & Hlt) Hnp [Hw Hd].
  rewrite List.Forall_forall in Hlt.
  destruct (added_spec w s) as (Hch & Hin & _ & _ & _ & _ & Hpar).
  assert (forall p, In p (children s) -> deref (added w s) p = deref s p) as Hold.
  { intros p Hp. unfold deref. rewrite Hin, lookup_total_insert_ne; [done|].
    specialize (Hlt p Hp). lia. }
  assert (deref (added w s) (next_info s) = new_child_info w) as Hnew.
  { unfold deref. by rewrite Hin, lookup_total_insert_eq. }
  assert (forall a, a <> w -> widgets (added w s) !!! a = widgets s !!! a) as Hother.
  { intros a Ha. unfold added, update_widget, gtk_widget_set_child_visible. simpl.
    by rewrite !lookup_total_insert_ne. }
  assert (forall p c, In p (children s) -> ci_widget (deref s p) = Some c -> c <> w) as Hne.
  { intros p c Hp Hc ->. destruct (Hw p Hp) as (c' & Hc' & Hpc). congruence. }
  assert (forall p, In p (children (added w s)) -> In p (children s) \/ p = next_info s)
    as Hsplit.
  { intros p Hp. rewrite Hch in Hp. apply in_app_iff in Hp as [Hp | [<- | []]]; auto. }
  split.
  - intros p Hp. destruct (Hsplit p Hp) as [Hp' | ->].
    + destruct (Hw p Hp') as (c & Hc & Hpc). exists c. rewrite (Hold p Hp'). split; [done|].
      rewrite Hother; [done|]. by apply (Hne p).
    + exists w. by rewrite Hnew.
  - intros p q Hp Hq.
    destruct (Hsplit p Hp) as [Hp' | ->], (Hsplit q Hq) as [Hq' | ->].
    + rewrite (Hold p Hp'), (Hold q Hq'). by apply Hd.
    + rewrite (Hold p Hp'), Hnew. intros E. exfalso. by apply (Hne p w Hp' E).
    + rewrite (Hold q Hq'), Hnew. intros E. exfalso. by apply (Hne q w Hq').
    + done.
Qed.

Lemma family_ok_add w s s' :
  hdy_leaflet_add w s = Some s' -> Inv s -> family_ok s -> family_ok s'.
Proof.
  rewrite add_unfold. intros H (Hl & _ & _) Hf.
  destruct (w_has_parent (widgets s !!! w)) eqn:Hp; [by injection H as <-|].
  cbv zeta in H. pose proof (family_ok_added w s Hl Hp Hf) as H1.
  set (s1 := added w s) in *. clearbody s1.
  destruct (_ && _); [| by injection H as <-].
  apply family_set_visible_child_info in H. by apply (family_ok_family s1).
Qed.

Lemma family_ok_remove w freed s s' :
  hdy_leaflet_remove w freed s = Some s' -> Inv s -> family_ok s -> family_ok s'.
Proof.
  rewrite remove_unfold. intros H ((_ & Hnd & _) & _ & _) [Hw Hd].
  destruct (find_child_info_for_widget s (Some w)) as [c|] eqn:Hfind;
    [| by injection H as <-].
  destruct (find_child_info_for_widget_Some s (Some w) c Hfind) as [Hc Hcw].
  cbv zeta in H. apply bind_Some in H as (s2 & H2 & H).
  assert (s' = update_widget (Some w) (set_w_has_parent false) s2) as ->
    by (by injection H).
  clear H.
  assert (family s2 = family (removed c freed s)) as Hf2.
  { destruct (ptr_eqb _ _); [| by injection H2 as <-].
    by apply family_set_visible_child_info in H2. }
  assert (children s2 = g_list_remove (children s) c) as Hch by (by injection Hf2).
  assert (forall p, p <> c -> ci_widget (deref s2 p) = ci_widget (deref s p)) as Hwid.
  { intros p Hp. rewrite (family_widget (removed c freed s) s2 p Hf2).
    unfold deref, removed, free_child_info. cbn [infos with_infos].
    by rewrite lookup_total_insert_ne. }
  assert (forall a, w_has_parent (widgets s2 !!! a) = w_has_parent (widgets s !!! a)) as Hpar
    by (intros a; apply (family_parent (removed c freed s) s2 a Hf2)).
  clear H2 Hf2.
  assert (forall p, In p (g_list_remove (children s) c) -> In p (children s) /\ p <> c)
    as Hrest.
  { intros p Hp. split; [by apply (g_list_remove_In _ c)|].
    intros ->. by apply (g_list_remove_not_In (children s) c Hnd). }
  set (s3 := update_widget (Some w) (set_w_has_parent false) s2).
  assert (children s3 = g_list_remove (children s) c) as Hch3 by exact Hch.
  assert (forall p, p <> c -> ci_widget (deref s3 p) = ci_widget (deref s p)) as Hwid3
    by exact Hwid.
  assert (forall a, a <> w ->
            w_has_parent (widgets s3 !!! a) = w_has_parent (widgets s !!! a)) as Hpar3.
  { intros a Ha. subst s3. unfold update_widget. cbn [widgets with_widgets].
    rewrite lookup_total_insert_ne by done. apply Hpar. }
  clearbody s3. split.
  - intros p Hp. rewrite Hch3 in Hp. destruct (Hrest p Hp) as [Hp' Hne].
    destruct (Hw p Hp') as (a & Ha & Hpa). exists a. rewrite Hwid3 by done. split; [done|].
    rewrite Hpar3; [done|]. intros ->. apply Hne, Hd; [done | done | congruence].
  - intros p q Hp Hq. rewrite Hch3 in Hp, Hq.
    destruct (Hrest p Hp) as [Hp' Hpc], (Hrest q Hq) as [Hq' Hqc].
    rewrite !Hwid3 by done. by apply Hd.
Qed.

Lemma family_ok_callback_loop (callback : option widget_ptr -> Leaflet -> option Leaflet)
    (l : list info_ptr) acc s1 :
  (forall w s s', callback w s = Some s' -> Inv s /\ family_ok s -> Inv s' /\ family_ok s') ->
  foldl (fun acc p => s ← acc; callback (ci_widget (deref s p)) s) acc l = Some s1 ->
  (forall s0, acc = Some s0 -> Inv s0 /\ family_ok s0) -> Inv s1 /\ family_ok s1.
Proof.
  intros Hcb. revert acc. induction l as [|p l IH]; intros acc; simpl.
  - intros -> Hacc. by apply Hacc.
  - intros H Hacc. eapply IH; [exact H|].
    intros s0 Hs0. apply bind_Some in Hs0 as (s2 & -> & Hs0).
    eapply Hcb; [exact Hs0 | by apply Hacc].
Qed.

Lemma family_ok_forall cb s s' :
  hdy_leaflet_forall (run_callback cb) s = Some s' -> Inv s -> family_ok s -> family_ok s'.
Proof.
  unfold hdy_leaflet_forall. cbv zeta. intros H HI Hf.
  apply bind_Some in H as (s1 & H1 & H). injection H as <-.
  apply (family_ok_family s1); [reflexivity|].
  eapply (family_ok_callback_loop (run_callback cb)); [| exact H1 | by intros ? [= <-]].
  intros w s0 s0' Hrun [HI0 Hf0]. split; [by apply (Inv_run_callback cb w s0)|].
  destruct cb as [|freed], w as [a|]; simpl in Hrun; try (by injection Hrun as <-).
  by apply (family_ok_remove a (freed a) s0).
Qed.

Lemma family_ok_init world animations : family_ok (hdy_leaflet_init world animations).
Proof. split; [intros p [] | intros p q []]. Qed.

Lemma family_ok_run op s s' : run op s = Some s' -> Inv s -> family_ok s -> family_ok s'.
Proof.
  intros H HI Hf.
  assert (forall f : Leaflet -> Leaflet, family (f s) = family s -> Some (f s) = Some s' ->
            family_ok s') as Hpure.
  { intros f Hff [= <-]. by apply (family_ok_family s). }
  destruct op; cbn [run] in H.
  - by apply (family_ok_add w s).
  - by apply (family_ok_remove w freed s).
  - by apply (family_ok_forall cb s).
  - unfold hdy_leaflet_set_visible_child in H.
    destruct (find_child_info_for_widget _ _); [| by injection H as <-].
    apply family_set_visible_child_info in H. by apply (family_ok_family s).
  - unfold hdy_leaflet_set_visible_child_name in H.
    destruct (find_child_info_for_name _ _); [| by injection H as <-].
    apply family_set_visible_child_info in H. by apply (family_ok_family s).
  - apply fmap_Some in H as (r & Hr & ->). apply family_navigate in Hr.
    by apply (family_ok_family s).
  - apply (Hpure _) in H; [done|]. unfold hdy_leaflet_set_homogeneous. by destruct (eqb _ _).
  - apply (Hpure _) in H; [done|]. unfold hdy_leaflet_set_transition_type.
    by destruct (bool_decide _).
  - apply (Hpure _) in H; [done|]. unfold hdy_leaflet_set_mode_transition_duration.
    by destruct (_ =? _).
  - apply (Hpure _) in H; [done|]. unfold hdy_leaflet_set_child_transition_duration.
    by destruct (_ =? _).
  - apply (Hpure _) in H; [done|]. unfold hdy_leaflet_set_interpolate_size.
    by destruct (eqb _ _).
  - apply (Hpure _) in H; [done|]. unfold hdy_leaflet_set_can_swipe_back.
    by destruct (eqb _ _).
  - apply (Hpure _) in H; [done|]. unfold hdy_leaflet_set_can_swipe_forward.
    by destruct (eqb _ _).
  - apply (Hpure _) in H; [done|]. unfold hdy_leaflet_set_orientation.
    by destruct (bool_decide _).
  - apply family_set_child_property in H. by apply (family_ok_family s).
  - apply family_size_allocate in H. by apply (family_ok_family s).
  - by apply (Hpure _) in H.
  - by apply (Hpure _) in H.
  - by apply (Hpure _) in H.
  - by apply (Hpure _) in H.
  - apply family_switch_child in H. by apply (family_ok_family s).
  - apply family_begin_swipe in H. by apply (family_ok_family s).
  - apply family_update_swipe in H. by apply (family_ok_family s).
  - apply family_end_swipe in H. by apply (family_ok_family s).
  - apply family_frame_tick in H. by apply (family_ok_family s).
  - apply family_child_visibility_notify_cb in H.
    apply (family_ok_family (update_widget (Some w) (set_w_visible b) s)); [done|].
    apply (family_ok_family s); [| done]. by apply family_update_widget.
  - apply (Hpure _) in H; [done|]. by apply family_update_widget.
  - apply (Hpure _) in H; [done|]. by apply family_update_widget.
  - by apply (Hpure _) in H.
  - by apply (Hpure _) in H.
  - by apply (Hpure _) in H.
Qed.

(** X21.  In every state the leaflet can reach, every child holds a widget,
    that widget has a parent, and no two children hold the same widget: the
    widgets of the children are exactly what [hdy_leaflet_add] has taken in
    and [hdy_leaflet_remove] has not yet given back. *)
Theorem reachable_children_hold_distinct_widgets s :
  reachable s ->
  (forall p, In p (children s) ->
     exists w, ci_widget (deref s p) = Some w /\ w_has_parent (widgets s !!! w) = true)
  /\ widgets_distinct s.
Proof.
  induction 1 as [world animations | op s s' Hs IH Hrun]; [apply family_ok_init|].
  apply (family_ok_run op s s' Hrun); [by apply reachable_Inv | exact IH].
Qed.

Lemma reachable_children_hold_distinct_widgets_witness :
  reachable example_folded
  /\ (forall p, In p (children example_folded) ->
        exists w, ci_widget (deref example_folded p) = Some w
                  /\ w_has_parent (widgets example_folded !!! w) = true)
  /\ widgets_distinct example_folded.
Proof.
  assert (reachable example_folded) as H.
  { apply reachable_state_after. vm_compute. eauto. }
  split; [exact H | exact (reachable_children_hold_distinct_widgets _ H)].
Defined.

(** ** The folded layout during a child transition *)

(** The loop of [hdy_leaflet_size_allocate_folded] in the branch without a
    mode transition: the visible child and the last visible child get the
    whole allocation and the visible flag, the others lose the flag. *)
Lemma folded_layout_spec_last l v a s :
  let body := fun p s =>
    if negb (Nat.eqb p v) && negb (ptr_eqb (Some p) (last_visible_child s))
    then update_info p (set_ci_visible false) s
    else update_info p (fun ci =>
           set_ci_visible true
             (set_ci_alloc (mkAlloc 0 0 (a_width a) (a_height a)) ci)) s in
  let s' := for_each l body s in
  but_infos s' = but_infos s
  /\ (forall q, ci_widget (deref s' q) = ci_widget (deref s q))
  /\ (forall p, In p l ->
        ci_visible (deref s' p) = bool_decide (p = v \/ last_visible_child s = Some p)
        /\ (p = v \/ last_visible_child s = Some p ->
            ci_alloc (deref s' p) = mkAlloc 0 0 (a_width a) (a_height a))).
Proof.
  intros body. unfold for_each.
  assert (forall p s, but_infos (body p s) = but_infos s) as Hb.
  { intros p s0. unfold body. by destruct (_ && _). }
  induction l as [|q l IH] using rev_ind.
  { simpl. by split_and!. }
  cbv zeta. rewrite foldl_snoc.
  destruct IH as (Hbi & Hcw & Hin).
  set (s1 := foldl (fun s p => body p s) s l) in *.
  assert (last_visible_child s1 = last_visible_child s) as Hlast1.
  { apply (f_equal last_visible_child) in Hbi. exact Hbi. }
  assert (forall p, negb (Nat.eqb p v) && negb (ptr_eqb (Some p) (last_visible_child s))
                    = negb (bool_decide (p = v \/ last_visible_child s = Some p))) as Hcond.
  { intros p. unfold ptr_eqb.
    destruct (Nat.eqb_spec p v) as [-> | Hpv]; simpl.
    - by rewrite bool_decide_eq_true_2 by (by left).
    - destruct (decide (Some p = last_visible_child s)) as [E | E].
      + rewrite (bool_decide_eq_true_2 _ E), bool_decide_eq_true_2 by (by right). done.
      + rewrite (bool_decide_eq_false_2 _ E), bool_decide_eq_false_2; [done|].
        intros [? | ?]; congruence. }
  split_and!.
  - by rewrite Hb.
  - intros p. rewrite <- Hcw. unfold body.
    destruct (_ && _); rewrite deref_update_info; by destruct (decide (q = p)) as [->|].
  - intros p Hp. unfold body. rewrite Hlast1, Hcond.
    destruct (bool_decide_reflect (q = v \/ last_visible_child s = Some q)) as [Hq | Hq];
      cbn [negb]; rewrite deref_update_info.
    + destruct (decide (q = p)) as [<- | Hqp]; simpl.
      * by rewrite bool_decide_eq_true_2.
      * apply in_app_iff in Hp as [Hp | [? | []]]; [by apply Hin | done].
    + destruct (decide (q = p)) as [<- | Hqp]; simpl.
      * by rewrite bool_decide_eq_false_2.
      * apply in_app_iff in Hp as [Hp | [? | []]]; [by apply Hin | done].
Qed.

(** [hdy_leaflet_size_allocate_folded] with the mode transition at position
    0 and the widget of the visible child visible. *)
Lemma size_allocate_folded_switching a s v w :
  visible_child s = Some v ->
  ci_widget (deref s v) = Some w ->
  gtk_widget_get_visible s (Some w) = true ->
  gdouble_le (mt_current_pos (mode_transition s)) 0 = true ->
  exists s',
    hdy_leaflet_size_allocate_folded a s = Some s'
    /\ visible_child s' = Some v
    /\ (forall q, ci_widget (deref s' q) = ci_widget (deref s q))
    /\ (forall p, In p (get_directed_children s) ->
          ci_visible (deref s' p) = bool_decide (p = v \/ last_visible_child s = Some p)
          /\ (p = v \/ last_visible_child s = Some p ->
              ci_alloc (deref s' p) = mkAlloc 0 0 (a_width a) (a_height a))).
Proof.
  intros Hv Hw Hvis Hpos. unfold hdy_leaflet_size_allocate_folded. cbv zeta.
  rewrite Hv. simpl. rewrite Hw.
  match goal with
  | |- context [ for_each ?l ?body s ] =>
      assert (but_widgets (for_each l body s) = but_widgets s) as Hbw;
      [| assert (gtk_widget_get_visible (for_each l body s) (Some w)
                 = gtk_widget_get_visible s (Some w)) as Hgv;
         [| set (sA := for_each l body s) in *; clearbody sA ] ]
  end.
  { apply but_widgets_for_each. intros p s0.
    repeat case_match; try done; apply but_widgets_set_child_visible. }
  { apply visible_for_each. intros p s0.
    repeat case_match; try done; apply visible_set_child_visible. }
  cbn [is_nonnull negb]. rewrite Hgv, Hvis. cbn [negb].
  set (sB := gtk_widget_set_child_visible (Some w) true sA).
  assert (but_widgets sB = but_widgets s) as HbwB
    by (subst sB; by rewrite but_widgets_set_child_visible).
  assert (mode_transition sB = mode_transition s) as ->
    by (apply (f_equal mode_transition) in HbwB; exact HbwB).
  rewrite Hpos.
  assert (last_visible_child sB = last_visible_child s) as HlastB.
  { apply (f_equal last_visible_child) in HbwB. exact HbwB. }
  destruct (folded_layout_spec_last (get_directed_children s) v a sB) as (Hbi & Hcw & Hin).
  cbv zeta in Hbi, Hcw, Hin. rewrite HlastB in Hin.
  match type of Hbi with
  | but_infos ?x = _ => set (sC := x) in *
  end.
  exists sC. split; [reflexivity|]. split_and!.
  - apply (f_equal visible_child) in Hbi. apply (f_equal visible_child) in HbwB.
    change (visible_child sC = visible_child sB) in Hbi.
    change (visible_child sB = visible_child s) in HbwB. congruence.
  - intros q. rewrite Hcw. apply (f_equal infos) in HbwB.
    change (infos sB = infos s) in HbwB. unfold deref. by rewrite HbwB.
  - exact Hin.
Qed.

(** X22.  On a folded leaflet that the allocation keeps folded, with the
    mode transition at position 0 and the widget of the visible child
    visible, [hdy_leaflet_size_allocate] returns with the widgets of the
    visible child and of the last visible child child-visible, each with the
    rectangle of the whole allocation at (0,0), and with the widget of every
    other child not child-visible: during a child transition the two
    children are stacked.  The children share no widget. *)
Theorem folded_allocation_stacks_both_children a s v w :
  children_reversed s = rev (children s) ->
  widgets_distinct s ->
  folded s = true ->
  should_fold s a = true ->
  visible_child s = Some v ->
  In v (children s) ->
  ci_widget (deref s v) = Some w ->
  gtk_widget_get_visible s (Some w) = true ->
  (mt_current_pos (mode_transition s) == 0)%Q ->
  exists s',
    hdy_leaflet_size_allocate a s = Some s'
    /\ folded s' = true
    /\ forall p c, In p (children s) -> ci_widget (deref s p) = Some c ->
         gtk_widget_get_child_visible s' (Some c)
         = bool_decide (p = v \/ last_visible_child s = Some p)
         /\ (p = v \/ last_visible_child s = Some p ->
             w_allocation (widgets s' !!! c) = mkAlloc 0 0 (a_width a) (a_height a)).
Proof.
  intros Hrev Hdist Hfolded Hfold Hv Hvin Hw Hvis Hpos.
  rewrite size_allocate_unfold. cbv zeta.
  rewrite (fold_decision_spec a s Hrev), Hfold.
  destruct (size_allocate_entry_spec a s) as (Hi0 & Hw0 & Hc0).
  set (s0 := size_allocate_entry a s) in *. clearbody s0.
  destruct (prepare_loop_spec (get_directed_children s) s0) as (Hw1 & Hc1 & Hcw1 & _ & _).
  cbv zeta in Hw1, Hc1, Hcw1.
  set (s1 := for_each (get_directed_children s) prepare_child s0) in *. clearbody s1.
  assert (layout_config s1 = layout_config s) as Hc by congruence.
  unfold layout_config in Hc.
  injection Hc as Hch Hchr Hor Hdir Hhom Hvc Hlvc Hfo Htt Hre Hmt.
  assert (forall q, ci_widget (deref s1 q) = ci_widget (deref s q)) as Hcw.
  { intros q. rewrite Hcw1. unfold deref. by rewrite Hi0. }
  assert (hdy_leaflet_set_folded true s1 = s1) as ->.
  { unfold hdy_leaflet_set_folded. by rewrite Hfo, Hfolded. }
  assert (get_directed_children s1 = get_directed_children s) as Hdc.
  { unfold get_directed_children. by rewrite Hch, Hchr, Hor, Hdir. }
  destruct (size_allocate_folded_switching a s1 v w) as (s3 & Hs3 & Hv3 & Hcw3 & Hin3).
  { congruence. }
  { by rewrite Hcw. }
  { unfold gtk_widget_get_visible in *. by rewrite Hw1, Hw0. }
  { rewrite Hmt. unfold gdouble_le. apply Qle_bool_iff. rewrite Hpos. apply Qle_refl. }
  rewrite Hdc, Hlvc in Hin3.
  rewrite Hs3. simpl. eexists. split; [reflexivity|].
  set (s4 := for_each (get_directed_children s) apply_child s3).
  assert (but_widgets s4 = but_widgets s3) as Hbw4.
  { apply but_widgets_for_each. intros p s5. unfold apply_child. cbv zeta.
    unfold gtk_widget_size_allocate, gtk_widget_show, gtk_widget_set_child_visible.
    destruct (ci_widget (deref s5 p)); simpl; repeat case_match; done. }
  split.
  - apply (f_equal folded) in Hbw4. change (folded s4 = folded s3) in Hbw4.
    rewrite Hbw4. rewrite (folded_skeleton s1 s3 (skeleton_size_allocate_folded a s1 s3 Hs3)).
    congruence.
  - intros p c Hp Hpc.
    destruct (apply_loop_spec (get_directed_children s) s3 c
                (bool_decide (p = v \/ last_visible_child s = Some p))
                (mkAlloc 0 0 (a_width a) (a_height a))) as [H1 H2].
    + exists p. split; [by apply in_directed_children|]. by rewrite Hcw3, Hcw.
    + intros q Hq Hqc. destruct (Hin3 q Hq) as [Hqv Hqa].
      assert (q = p) as ->.
      { apply Hdist; [by apply (in_directed_children s q Hrev) | done |].
        rewrite <- Hcw, <- Hcw3, Hqc. by rewrite Hpc. }
      split; [done|]. intros Hb. apply Hqa. by apply bool_decide_eq_true_1 in Hb.
    + split; [exact H1|]. intros Hpv. apply H2. by apply bool_decide_eq_true_2.
Qed.

Lemma folded_allocation_stacks_both_children_witness :
  last_visible_child example_swiped = Some 1%nat
  /\ exists s',
       hdy_leaflet_size_allocate (mkAlloc 0 0 150 50) example_swiped = Some s'
       /\ gtk_widget_get_child_visible s' (Some 1%nat) = true
       /\ gtk_widget_get_child_visible s' (Some 2%nat) = true
       /\ w_allocation (widgets s' !!! 1%nat) = mkAlloc 0 0 150 50
       /\ w_allocation (widgets s' !!! 2%nat) = mkAlloc 0 0 150 50.
Proof.
  assert (widgets_distinct example_swiped) as Hdist.
  { intros p q Hp Hq. vm_compute in Hp, Hq.
    destruct Hp as [<- | [<- | []]], Hq as [<- | [<- | []]]; vm_compute; congruence. }
  assert (children_reversed example_swiped = rev (children example_swiped)) as Hrev
    by (vm_compute; reflexivity).
  assert (folded example_swiped = true) as Hfolded by (vm_compute; reflexivity).
  assert (should_fold example_swiped (mkAlloc 0 0 150 50) = true) as Hfold
    by (vm_compute; reflexivity).
  assert (visible_child example_swiped = Some 2%nat) as Hv by (vm_compute; reflexivity).
  assert (last_visible_child example_swiped = Some 1%nat) as Hl by (vm_compute; reflexivity).
  assert (In 1%nat (children example_swiped)) as H1 by (vm_compute; by left).
  assert (In 2%nat (children example_swiped)) as H2 by (vm_compute; right; by left).
  assert (ci_widget (deref example_swiped 1%nat) = Some 1%nat) as Hw1
    by (vm_compute; reflexivity).
  assert (ci_widget (deref example_swiped 2%nat) = Some 2%nat) as Hw2
    by (vm_compute; reflexivity).
  assert (gtk_widget_get_visible example_swiped (Some 2%nat) = true) as Hvis
    by (vm_compute; reflexivity).
  assert ((mt_current_pos (mode_transition example_swiped) == 0)%Q) as Hpos
    by (vm_compute; reflexivity).
  split; [exact Hl|].
  destruct (folded_allocation_stacks_both_children (mkAlloc 0 0 150 50) example_swiped
              2%nat 2%nat Hrev Hdist Hfolded Hfold Hv H2 Hw2 Hvis Hpos)
    as (s' & Hs' & _ & Hall).
  destruct (Hall 1%nat 1%nat H1 Hw1) as [Hc1 Ha1].
  destruct (Hall 2%nat 2%nat H2 Hw2) as [Hc2 Ha2].
  exists s'. split; [exact Hs'|]. split_and!.
  - rewrite Hc1. apply bool_decide_eq_true_2. right. exact Hl.
  - rewrite Hc2. apply bool_decide_eq_true_2. by left.
  - apply Ha1. right. exact Hl.
  - apply Ha2. by left.
Defined.

(** ** Gestures and the frame clock *)

Lemma gesture_view_with_children v s : gesture_view (with_children v s) = gesture_view s.
Proof. reflexivity. Qed.

Lemma gesture_view_with_children_reversed v s : gesture_view (with_children_reversed v s) = gesture_view s.
Proof. reflexivity. Qed.

Lemma gesture_view_with_visible_child v s : gesture_view (with_visible_child v s) = gesture_view s.
Proof. reflexivity. Qed.

Lemma gesture_view_with_last_visible_child v s : gesture_view (with_last_visible_child v s) = gesture_view s.
Proof. reflexivity. Qed.

Lemma gesture_view_with_bin_window v s : gesture_view (with_bin_window v s) = gesture_view s.
Proof. reflexivity. Qed.

Lemma gesture_view_with_view_window v s : gesture_view (with_view_window v s) = gesture_view s.
Proof. reflexivity. Qed.

Lemma gesture_view_with_folded v s : gesture_view (with_folded v s) = gesture_view s.
Proof. reflexivity. Qed.

Lemma gesture_view_with_homogeneous v s : gesture_view (with_homogeneous v s) = gesture_view s.
Proof. reflexivity. Qed.

Lemma gesture_view_with_orientation v s : gesture_view (with_orientation v s) = gesture_view s.
Proof. reflexivity. Qed.

Lemma gesture_view_with_move_bin_window_request v s : gesture_view (with_move_bin_window_request v s) = gesture_view s.
Proof. reflexivity. Qed.

Lemma gesture_view_with_transition_type v s : gesture_view (with_transition_type v s) = gesture_view s.
Proof. reflexivity. Qed.

Lemma gesture_view_with_tracker_enabled v s : gesture_view (with_tracker_enabled v s) = gesture_view s.
Proof. reflexivity. Qed.

Lemma gesture_view_with_mode_transition v s : gesture_view (with_mode_transition v s) = gesture_view s.
Proof. reflexivity. Qed.

Lemma gesture_view_with_infos v s : gesture_view (with_infos v s) = gesture_view s.
Proof. reflexivity. Qed.

Lemma gesture_view_with_next_info v s : gesture_view (with_next_info v s) = gesture_view s.
Proof. reflexivity. Qed.

Lemma gesture_view_with_widgets v s : gesture_view (with_widgets v s) = gesture_view s.
Proof. reflexivity. Qed.

Lemma gesture_view_with_ticks v s : gesture_view (with_ticks v s) = gesture_view s.
Proof. reflexivity. Qed.

Lemma gesture_view_with_next_tick v s : gesture_view (with_next_tick v s) = gesture_view s.
Proof. reflexivity. Qed.

Lemma gesture_view_with_self_mapped v s : gesture_view (with_self_mapped v s) = gesture_view s.
Proof. reflexivity. Qed.

Lemma gesture_view_with_self_visible v s : gesture_view (with_self_visible v s) = gesture_view s.
Proof. reflexivity. Qed.

Lemma gesture_view_with_self_realized v s : gesture_view (with_self_realized v s) = gesture_view s.
Proof. reflexivity. Qed.

Lemma gesture_view_with_self_direction v s : gesture_view (with_self_direction v s) = gesture_view s.
Proof. reflexivity. Qed.

Lemma gesture_view_with_enable_animations v s : gesture_view (with_enable_animations v s) = gesture_view s.
Proof. reflexivity. Qed.

Lemma gesture_view_with_in_destruction v s : gesture_view (with_in_destruction v s) = gesture_view s.
Proof. reflexivity. Qed.

Lemma gesture_view_with_self_allocation v s : gesture_view (with_self_allocation v s) = gesture_view s.
Proof. reflexivity. Qed.

Lemma gesture_view_upd_mt f s :
  gesture_view (upd_mt f s) = gesture_view s.
Proof. reflexivity. Qed.

Lemma gesture_view_update_info p f s :
  gesture_view (update_info p f s) = gesture_view s.
Proof. reflexivity. Qed.

Lemma gesture_view_update_widget w f s :
  gesture_view (update_widget w f s) = gesture_view s.
Proof. by destruct w. Qed.

Lemma gesture_view_gtk_widget_set_child_visible w b s :
  gesture_view (gtk_widget_set_child_visible w b s) = gesture_view s.
Proof. by destruct w. Qed.

Lemma gesture_view_gtk_widget_size_allocate w a s :
  gesture_view (gtk_widget_size_allocate w a s) = gesture_view s.
Proof. by destruct w. Qed.

Lemma gesture_view_gtk_widget_show w s :
  gesture_view (gtk_widget_show w s) = gesture_view s.
Proof. by destruct w. Qed.

Lemma gesture_view_gtk_widget_remove_tick_callback id s :
  gesture_view (gtk_widget_remove_tick_callback id s) = gesture_view s.
Proof. reflexivity. Qed.

Lemma gesture_view_move_resize_bin_window a r s :
  gesture_view (move_resize_bin_window a r s) = gesture_view s.
Proof. unfold move_resize_bin_window. by destruct (bin_window s). Qed.

Create Rewrite HintDb gest.
#[global] Hint Rewrite gesture_view_with_children gesture_view_with_children_reversed
  gesture_view_with_visible_child gesture_view_with_last_visible_child
  gesture_view_with_bin_window gesture_view_with_view_window
  gesture_view_with_folded gesture_view_with_homogeneous
  gesture_view_with_orientation gesture_view_with_move_bin_window_request
  gesture_view_with_transition_type gesture_view_with_tracker_enabled
  gesture_view_with_mode_transition gesture_view_with_infos
  gesture_view_with_next_info gesture_view_with_widgets
  gesture_view_with_ticks gesture_view_with_next_tick
  gesture_view_with_self_mapped gesture_view_with_self_visible
  gesture_view_with_self_realized gesture_view_with_self_direction
  gesture_view_with_enable_animations gesture_view_with_in_destruction
  gesture_view_with_self_allocation gesture_view_upd_mt
  gesture_view_update_info gesture_view_update_widget
  gesture_view_gtk_widget_set_child_visible gesture_view_gtk_widget_size_allocate
  gesture_view_gtk_widget_show gesture_view_gtk_widget_remove_tick_callback
  gesture_view_move_resize_bin_window : gest.

Lemma gesture_view_upd_ct f s :
  (forall c, ct_is_gesture_active (f c) = ct_is_gesture_active c
             /\ ct_tick_id (f c) = ct_tick_id c) ->
  gesture_view (upd_ct f s) = gesture_view s.
Proof.
  intros H. unfold gesture_view, upd_ct. simpl.
  destruct (H (child_transition s)) as [-> ->]. reflexivity.
Qed.

Lemma gesture_view_for_each l body s :
  (forall p s, gesture_view (body p s) = gesture_view s) ->
  gesture_view (for_each l body s) = gesture_view s.
Proof.
  intros Hbody. unfold for_each. revert s.
  induction l as [|p l IH]; intros s; simpl; [reflexivity|].
  rewrite IH. apply Hbody.
Qed.

Lemma gesture_view_foldl_snd {A} (f : A * Leaflet -> info_ptr -> A * Leaflet) l a s :
  (forall a s p, gesture_view (snd (f (a, s) p)) = gesture_view s) ->
  gesture_view (snd (foldl f (a, s) l)) = gesture_view s.
Proof.
  intros Hf. revert a s. induction l as [|p l IH]; intros a s; simpl; [reflexivity|].
  destruct (f (a, s) p) as [a' s1] eqn:E. rewrite IH.
  specialize (Hf a s p). by rewrite E in Hf.
Qed.

Ltac gest_layer :=
  first
    [ apply gesture_view_upd_ct; intros; split; reflexivity
    | solve [autorewrite with gest;
             match goal with |- ?a = ?a => reflexivity end] ].

Ltac gest :=
  repeat first
    [ match goal with |- ?a = ?a => reflexivity end
    | match goal with
      | |- gesture_view (let x := ?v in @?b x) = ?r =>
          change (let x := v in gesture_view (b x) = r); intros ?
      | x := _ |- gesture_view ?x = _ => subst x
      | E : foldl ?f (?a0, ?s0) ?l = (_, ?x) |- gesture_view ?x = _ =>
          transitivity (gesture_view s0);
          [ let H := fresh in
            pose proof (gesture_view_foldl_snd f l a0 s0) as H; rewrite E in H; apply H;
            intros ? ? ?; cbn [snd]
          | clear E ]
      | |- gesture_view (snd (_, _)) = _ => cbn [snd]
      | |- gesture_view (snd (match ?c with _ => _ end)) = _ => destruct c eqn:?
      | |- gesture_view (snd (let x := ?v in @?b x)) = ?r =>
          change (let x := v in gesture_view (snd (b x)) = r); intros ?
      | |- gesture_view (snd ?x) = _ => destruct x eqn:?; cbn [snd]
      | |- gesture_view (for_each ?l ?body ?x) = _ =>
          transitivity (gesture_view x); [apply gesture_view_for_each; intros ? ? |]
      | |- gesture_view (match ?c with _ => _ end) = _ => destruct c eqn:?
      | |- gesture_view (?F ?x) = gesture_view ?y =>
          transitivity (gesture_view x); [gest_layer |]
      end ].

Lemma settles_refl s : settles s s.
Proof. by split. Qed.

Lemma settles_trans s1 s2 s3 : settles s1 s2 -> settles s2 s3 -> settles s1 s3.
Proof. intros [H1 H1'] [H2 H2']. split; [congruence | auto]. Qed.

Lemma settles_view s s' : gesture_view s' = gesture_view s -> settles s s'.
Proof. unfold gesture_view, settles, gesture_ok. intros [= -> ->]. by split. Qed.

Lemma settles_ok s s' : settles s s' -> gesture_ok s -> gesture_ok s'.
Proof. intros [_ H]. exact H. Qed.

Lemma gesture_view_child_progress_updated s s' :
  hdy_leaflet_child_progress_updated s = Some s' -> gesture_view s' = gesture_view s.
Proof.
  intros H. apply child_progress_updated_selection in H as [Hf _].
  unfold gesture_view. replace (child_transition s') with (child_transition s); [done|].
  by injection Hf.
Qed.

Lemma settles_unschedule_child_ticks s : settles s (hdy_leaflet_unschedule_child_ticks s).
Proof.
  unfold hdy_leaflet_unschedule_child_ticks. destruct (negb _); [| apply settles_refl].
  split; [reflexivity|]. by intros _ _.
Qed.

Lemma settles_stop_child_transition s : settles s (hdy_leaflet_stop_child_transition s).
Proof.
  unfold hdy_leaflet_stop_child_transition. cbv zeta.
  apply (settles_trans s (hdy_leaflet_unschedule_child_ticks s));
    [apply settles_unschedule_child_ticks|].
  set (s1 := hdy_leaflet_unschedule_child_ticks s). clearbody s1.
  apply settles_view. gest.
Qed.

Lemma settles_start_child_transition t d dir s s' :
  hdy_leaflet_start_child_transition t d dir s = Some s' -> settles s s'.
Proof.
  unfold hdy_leaflet_start_child_transition. intros H.
  apply gesture_view_child_progress_updated in H.
  eapply settles_trans; [| apply settles_view, H]. clear H.
  destruct (_ && _).
  - cbv zeta.
    match goal with |- context [negb (ct_is_gesture_active (child_transition ?x))] =>
      assert (gesture_view x = gesture_view s) as H1
        by (apply gesture_view_upd_ct; intros; split; reflexivity);
      set (s1 := x) in *; clearbody s1 end.
    destruct (ct_is_gesture_active (child_transition s1)) eqn:Hg; cbn [negb].
    + by apply settles_view.
    + assert (ct_is_gesture_active (child_transition s) = false) as Hg0
        by (unfold gesture_view in H1; injection H1 as <- _; exact Hg).
      split.
      * rewrite Hg0. unfold hdy_leaflet_schedule_child_ticks, gtk_widget_add_tick_callback.
        by destruct (_ =? 0).
      * intros _ Hg'. exfalso. revert Hg'.
        unfold hdy_leaflet_schedule_child_ticks, gtk_widget_add_tick_callback.
        destruct (_ =? 0); simpl; congruence.
  - cbv zeta.
    apply (settles_trans s (hdy_leaflet_unschedule_child_ticks s));
      [apply settles_unschedule_child_ticks|].
    set (s1 := hdy_leaflet_unschedule_child_ticks s). clearbody s1.
    apply settles_view. gest.
Qed.

Lemma settles_set_visible_child_info_with sc new t d emit s s' :
  (forall i d s s', sc i d s = Some s' -> settles s s') ->
  set_visible_child_info_with sc new t d emit s = Some s' -> settles s s'.
Proof.
  intros Hsc. rewrite set_visible_child_info_with_unfold.
  destruct (in_destruction s); [intros [= <-]; apply settles_refl|]. cbv zeta.
  destruct (ptr_eqb _ _); [intros [= <-]; apply settles_refl|].
  set (new' := match new with None => first_visible_child s | Some p => Some p end).
  clearbody new'.
  assert (settles s (switch_setup new' s)) as H1
    by (apply settles_view; unfold switch_setup; gest).
  set (s1 := switch_setup new' s) in *. clearbody s1.
  intros Hrun. apply bind_Some in Hrun as (s2 & Hs2 & Hrun).
  assert (settles s s2) as H2.
  { apply (settles_trans s s1); [done|].
    destruct (folded s1); [| injection Hs2 as <-; apply settles_refl].
    by eapply settles_start_child_transition. }
  destruct emit; [| injection Hrun as <-; exact H2].
  apply bind_Some in Hrun as (c & _ & Hrun).
  apply (settles_trans s s2); [done|].
  eapply settles_trans; [| eapply Hsc, Hrun]. by apply settles_view.
Qed.

Lemma settles_switch_child i d s s' :
  hdy_leaflet_switch_child i d s = Some s' -> settles s s'.
Proof.
  apply settles_set_visible_child_info_with. intros ? ? ? ? [= <-]. apply settles_refl.
Qed.

Lemma settles_set_visible_child_info new t d emit s s' :
  set_visible_child_info new t d emit s = Some s' -> settles s s'.
Proof. apply settles_set_visible_child_info_with. apply settles_switch_child. Qed.

Lemma gesture_view_set_position pos s :
  gesture_view (hdy_leaflet_set_position pos s) = gesture_view s.
Proof. unfold hdy_leaflet_set_position. gest. Qed.

#[global] Hint Rewrite gesture_view_set_position : gest.

Lemma settles_start_mode_transition target s :
  settles s (hdy_leaflet_start_mode_transition target s).
Proof.
  unfold hdy_leaflet_start_mode_transition.
  destruct (gdouble_eq _ _); [apply settles_refl|]. cbv zeta.
  set (s1 := hdy_leaflet_stop_child_transition (upd_mt (set_mt_target_pos target) s)).
  assert (settles s s1) as H1.
  { apply (settles_trans s (upd_mt (set_mt_target_pos target) s));
      [by apply settles_view | apply settles_stop_child_transition]. }
  clearbody s1. apply (settles_trans s s1); [done|]. apply settles_view.
  unfold gtk_widget_add_tick_callback. gest.
Qed.

Lemma settles_set_folded f s : settles s (hdy_leaflet_set_folded f s).
Proof.
  unfold hdy_leaflet_set_folded. destruct (eqb _ _); [apply settles_refl|]. cbv zeta.
  apply (settles_trans s (with_folded f s)); [by apply settles_view|].
  destruct f; apply settles_start_mode_transition.
Qed.

Lemma gesture_view_prepare_child p s : gesture_view (prepare_child p s) = gesture_view s.
Proof. unfold prepare_child. gest. Qed.

Lemma gesture_view_apply_child p s : gesture_view (apply_child p s) = gesture_view s.
Proof. unfold apply_child. gest. Qed.

Lemma gesture_view_size_allocate_folded_animated t v a s :
  gesture_view (size_allocate_folded_animated t v a s) = gesture_view s.
Proof. unfold size_allocate_folded_animated. gest. Qed.

Lemma gesture_view_size_allocate_folded a s s' :
  hdy_leaflet_size_allocate_folded a s = Some s' -> gesture_view s' = gesture_view s.
Proof.
  unfold hdy_leaflet_size_allocate_folded. intros H.
  apply bind_Some in H as (v & Hv & H).
  repeat case_match; simplify_eq; gest.
  all: try (rewrite gesture_view_size_allocate_folded_animated; gest).
Qed.

Lemma gesture_view_allocate_child o bh hs pce a acc p :
  gesture_view (snd (allocate_child o bh hs pce a acc p)) = gesture_view (snd acc).
Proof.
  unfold allocate_child. destruct acc as [[pos n] s]. cbn [snd].
  repeat case_match; simplify_eq; cbn [snd]; gest.
Qed.

Lemma gesture_view_size_allocate_unfolded a s s' :
  hdy_leaflet_size_allocate_unfolded a s = Some s' -> gesture_view s' = gesture_view s.
Proof.
  unfold hdy_leaflet_size_allocate_unfolded. cbv zeta.
  match goal with
  | |- context [ foldl ?f (?a0, s) ?l ] =>
      pose proof (gesture_view_foldl_snd f l a0 s) as H1;
      destruct (foldl f (a0, s) l) as [[nv ne] s1]
  end.
  cbn [snd] in H1. rewrite <- H1 by (intros [? ?] ? ?; gest). clear H1.
  intros H. apply bind_Some in H as ([[hs pce] nx] & _ & H).
  match type of H with
  | context [ foldl ?f (?a0, s1) ?l ] =>
      pose proof (gesture_view_foldl_snd f l a0 s1) as H2;
      destruct (foldl f (a0, s1) l) as [[pos nx'] s2]
  end.
  cbn [snd] in H2. rewrite <- H2 by (intros [? ?] ? ?; apply gesture_view_allocate_child).
  clear H2.
  apply bind_Some in H as (v & _ & H). simplify_eq. gest.
Qed.

Lemma settles_size_allocate a s s' : hdy_leaflet_size_allocate a s = Some s' -> settles s s'.
Proof.
  rewrite size_allocate_unfold. cbv zeta. intros H.
  apply bind_Some in H as (s3 & H3 & H). injection H as <-.
  set (s1 := for_each (get_directed_children s) prepare_child (size_allocate_entry a s)) in *.
  assert (settles s s1) as H1.
  { apply settles_view. subst s1.
    rewrite gesture_view_for_each by (intros; apply gesture_view_prepare_child).
    unfold size_allocate_entry. gest. }
  clearbody s1.
  apply (settles_trans s s1); [done|].
  apply (settles_trans s1 (hdy_leaflet_set_folded (fold_decision s1 a) s1));
    [apply settles_set_folded|].
  apply settles_view.
  rewrite gesture_view_for_each by (intros; apply gesture_view_apply_child).
  destruct (fold_decision _ _);
    [eapply gesture_view_size_allocate_folded | eapply gesture_view_size_allocate_unfolded];
    exact H3.
Qed.

Lemma settles_child_transition_cb t s s1 again :
  hdy_leaflet_child_transition_cb t s = Some (s1, again) -> settles s s1.
Proof.
  rewrite child_transition_cb_unfold. cbv zeta. intros H.
  apply bind_Some in H as (s0 & H0 & H).
  apply gesture_view_child_progress_updated in H0.
  assert (settles s s0) as Hs.
  { apply settles_view. rewrite H0. gest. }
  destruct (bool_decide _); injection H as <- <-; [| exact Hs].
  apply (settles_trans s s0); [done|]. split; [reflexivity|]. by intros _ _.
Qed.

Lemma settles_frame_tick id t s s' : gtk_frame_tick id t s = Some s' -> settles s s'.
Proof.
  unfold gtk_frame_tick. intros H.
  destruct (List.find _ (ticks s)) as [[id' [|]]|];
    [| | injection H as <-; apply settles_refl].
  - apply bind_Some in H as ([s1 again] & Hcb & H). injection H as <-.
    apply settles_child_transition_cb in Hcb.
    destruct again; [done|]. eapply settles_trans; [exact Hcb | by apply settles_view].
  - injection H as <-. destruct (mode_transition_cb_selection t s) as [_ Hc].
    apply settles_view. unfold gesture_view.
    destruct (snd _);
      [| change (child_transition (gtk_widget_remove_tick_callback id ?x))
           with (child_transition x)];
      by rewrite Hc.
Qed.

Lemma gesture_ok_begin_swipe direction direct s s' :
  hdy_leaflet_begin_swipe direction direct s = Some s' ->
  0 <= ct_tick_id (child_transition s) -> gesture_ok s -> gesture_ok s'.
Proof.
  unfold hdy_leaflet_begin_swipe. intros H H0 Hok.
  destruct (ct_tick_id (child_transition s) >? 0) eqn:Hc.
  - injection H as <-. by intros _.
  - apply bind_Some in H as (child & _ & H).
    destruct child as [c|]; [| by injection H as <-].
    apply settles_set_visible_child_info in H. apply (settles_ok _ _ H).
    intros _. simpl. lia.
Qed.

Lemma settles_update_swipe value s s' :
  hdy_leaflet_update_swipe value s = Some s' -> settles s s'.
Proof.
  unfold hdy_leaflet_update_swipe. cbv zeta. intros H.
  apply gesture_view_child_progress_updated in H. apply settles_view. by rewrite H.
Qed.

Lemma gesture_ok_end_swipe duration to s s' :
  hdy_leaflet_end_swipe duration to s = Some s' -> gesture_ok s -> gesture_ok s'.
Proof.
  rewrite end_swipe_unfold. intros H Hok.
  destruct (negb _); [by injection H as <-|].
  apply gesture_view_child_progress_updated in H.
  unfold gesture_ok. replace (ct_is_gesture_active (child_transition s')) with false; [done|].
  unfold gesture_view in H. by injection H as -> _.
Qed.

Lemma settles_navigate direction s r :
  hdy_leaflet_navigate direction s = Some r -> settles s (fst r).
Proof.
  unfold hdy_leaflet_navigate. intros H.
  destruct (negb _); [injection H as <-; apply settles_refl|].
  apply bind_Some in H as (child & _ & H).
  destruct child as [c|]; [| injection H as <-; apply settles_refl].
  apply bind_Some in H as (s1 & H1 & H). injection H as <-.
  by apply settles_set_visible_child_info in H1.
Qed.

Lemma settles_set_child_property w prop s s' :
  hdy_leaflet_set_child_property w prop s = Some s' -> settles s s'.
Proof.
  unfold hdy_leaflet_set_child_property. intros H.
  destruct (find_child_info_for_widget s (Some w)) as [p|];
    [| injection H as <-; apply settles_refl].
  destruct prop; [injection H as <-; by apply settles_view|].
  cbv zeta in H. destruct (_ && _); [| injection H as <-; by apply settles_view].
  apply settles_set_visible_child_info in H.
  eapply settles_trans; [| exact H]. by apply settles_view.
Qed.

Lemma settles_child_visibility_notify_cb w s s' :
  hdy_leaflet_child_visibility_notify_cb w s = Some s' -> settles s s'.
Proof.
  unfold hdy_leaflet_child_visibility_notify_cb. cbv zeta. intros H.
  destruct (_ && _); [by apply settles_set_visible_child_info in H|].
  destruct (_ && _); [by apply settles_set_visible_child_info in H|].
  injection H as <-. apply settles_refl.
Qed.

Lemma settles_add w s s' : hdy_leaflet_add w s = Some s' -> settles s s'.
Proof.
  rewrite add_unfold. intros H.
  destruct (w_has_parent _); [injection H as <-; apply settles_refl|]. cbv zeta in H.
  assert (settles s (added w s)) as H1 by (by apply settles_view).
  set (s1 := added w s) in *. clearbody s1.
  destruct (_ && _); [| by injection H as <-].
  apply settles_set_visible_child_info in H. by apply (settles_trans s s1).
Qed.

Lemma settles_remove w freed s s' :
  hdy_leaflet_remove w freed s = Some s' -> settles s s'.
Proof.
  rewrite remove_unfold. intros H.
  destruct (find_child_info_for_widget s (Some w)) as [c|];
    [| injection H as <-; apply settles_refl].
  cbv zeta in H. apply bind_Some in H as (s2 & H2 & H).
  assert (s' = update_widget (Some w) (set_w_has_parent false) s2) as ->
    by (by injection H).
  assert (settles s s2) as Hs.
  { apply (settles_trans s (removed c freed s)); [by apply settles_view|].
    destruct (ptr_eqb _ _); [| injection H2 as <-; apply settles_refl].
    by apply settles_set_visible_child_info in H2. }
  apply (settles_trans s s2); [done | by apply settles_view].
Qed.

Lemma settles_forall cb s s' :
  hdy_leaflet_forall (run_callback cb) s = Some s' -> settles s s'.
Proof.
  unfold hdy_leaflet_forall, g_list_copy. cbv zeta. intros H.
  apply bind_Some in H as (s1 & H1 & H). injection H as <-.
  apply (settles_trans s s1); [| by apply settles_view].
  revert H1. generalize (children s) at 1. intros l. revert s.
  induction l as [|p l IH]; intros s0 H1.
  - injection H1 as <-. apply settles_refl.
  - cbn [foldl mbind option_bind] in H1.
    destruct (run_callback cb (ci_widget (deref s0 p)) s0) as [s2|] eqn:E.
    + apply (settles_trans s0 s2); [| by apply IH].
      destruct cb as [|freed], (ci_widget (deref s0 p)) as [a|]; simpl in E;
        try (injection E as <-; apply settles_refl).
      by apply settles_remove in E.
    + exfalso. clear -H1. induction l as [|q l IH]; [done|]. by apply IH.
Qed.

Lemma gesture_ok_run op s s' : run op s = Some s' -> Inv s -> gesture_ok s -> gesture_ok s'.
Proof.
  intros H HI Hok.
  assert (forall f : Leaflet -> Leaflet, gesture_view (f s) = gesture_view s ->
            Some (f s) = Some s' -> gesture_ok s') as Hpure.
  { intros f Hff [= <-]. apply (settles_ok s (f s)); [by apply settles_view | done]. }
  destruct op; cbn [run] in H.
  - apply (settles_ok s s'); [by apply (settles_add w) | done].
  - apply (settles_ok s s'); [by apply (settles_remove w freed) | done].
  - apply (settles_ok s s'); [by apply (settles_forall cb) | done].
  - unfold hdy_leaflet_set_visible_child in H.
    destruct (find_child_info_for_widget _ _); [| by injection H as <-].
    apply settles_set_visible_child_info in H. by apply (settles_ok s).
  - unfold hdy_leaflet_set_visible_child_name in H.
    destruct (find_child_info_for_name _ _); [| by injection H as <-].
    apply settles_set_visible_child_info in H. by apply (settles_ok s).
  - apply fmap_Some in H as (r & Hr & ->). apply settles_navigate in Hr.
    by apply (settles_ok s).
  - apply (Hpure _) in H; [done|]. unfold hdy_leaflet_set_homogeneous. by destruct (eqb _ _).
  - apply (Hpure _) in H; [done|]. unfold hdy_leaflet_set_transition_type.
    by destruct (bool_decide _).
  - apply (Hpure _) in H; [done|]. unfold hdy_leaflet_set_mode_transition_duration.
    by destruct (_ =? _).
  - apply (Hpure _) in H; [done|]. unfold hdy_leaflet_set_child_transition_duration.
    by destruct (_ =? _).
  - apply (Hpure _) in H; [done|]. unfold hdy_leaflet_set_interpolate_size.
    by destruct (eqb _ _).
  - apply (Hpure _) in H; [done|]. unfold hdy_leaflet_set_can_swipe_back.
    by destruct (eqb _ _).
  - apply (Hpure _) in H; [done|]. unfold hdy_leaflet_set_can_swipe_forward.
    by destruct (eqb _ _).
  - apply (Hpure _) in H; [done|]. unfold hdy_leaflet_set_orientation.
    by destruct (bool_decide _).
  - apply settles_set_child_property in H. by apply (settles_ok s).
  - apply settles_size_allocate in H. by apply (settles_ok s).
  - by apply (Hpure _) in H.
  - by apply (Hpure _) in H.
  - by apply (Hpure _) in H.
  - by apply (Hpure _) in H.
  - apply settles_switch_child in H. by apply (settles_ok s).
  - apply (gesture_ok_begin_swipe _ _ _ _ H); [| done].
    by destruct HI as (_ & ((? & _) & _) & _).
  - apply settles_update_swipe in H. by apply (settles_ok s).
  - by apply (gesture_ok_end_swipe _ _ _ _ H).
  - apply settles_frame_tick in H. by apply (settles_ok s).
  - apply settles_child_visibility_notify_cb in H.
    apply (settles_ok _ _ H).
    apply (settles_ok s); [by apply settles_view | done].
  - apply (Hpure _) in H; [done|]. reflexivity.
  - apply (Hpure _) in H; [done|]. reflexivity.
  - by apply (Hpure _) in H.
  - by apply (Hpure _) in H.
  - by apply (Hpure _) in H.
Qed.

(** X23.  In every state the leaflet can reach, a gesture and the frame
    clock never drive the child transition together: while a swipe gesture is
    active no tick callback of the child transition is registered, so the
    progress comes from [hdy_leaflet_update_swipe] alone. *)
Theorem gesture_excludes_child_ticks s :
  reachable s ->
  ct_is_gesture_active (child_transition s) = true ->
  ct_tick_id (child_transition s) = 0
  /\ forall id, ~ In (id, CHILD_TRANSITION_CB) (ticks s).
Proof.
  intros Hr Hg.
  assert (gesture_ok s) as Hok.
  { clear Hg. induction Hr as [world animations | op s s' Hs IH Hrun]; [by intros ?|].
    apply (gesture_ok_run op s s' Hrun); [by apply reachable_Inv | exact IH]. }
  specialize (Hok Hg). split; [exact Hok|].
  intros id Hin. destruct (reachable_Inv s Hr) as (_ & (_ & _ & _ & Hticks) & _).
  apply Hticks in Hin as (Hne & [[_ Hid] | [? _]]); [| done]. congruence.
Qed.

Lemma gesture_excludes_child_ticks_witness :
  reachable example_swiped
  /\ ct_is_gesture_active (child_transition example_swiped) = true
  /\ ct_tick_id (child_transition example_swiped) = 0
  /\ forall id, ~ In (id, CHILD_TRANSITION_CB) (ticks example_swiped).
Proof.
  assert (reachable example_swiped) as H.
  { apply reachable_state_after. vm_compute. eauto. }
  assert (ct_is_gesture_active (child_transition example_swiped) = true) as Hg
    by (vm_compute; reflexivity).
  split; [exact H|]. split; [exact Hg|].
  exact (gesture_excludes_child_ticks example_swiped H Hg).
Defined.
